(* ===== verification/_CoqProject ===== *)
-Q . S2P
Prelude.v
GoStd.v
GoHttp.v
Base64.v
Backend.v
Transport.v
Parser.v
Selector.v
CasCounter.v
Routing.v
RateLimiter.v
Middleware.v
Auth.v
Socks5.v
ForwardProxy.v
Config.v
Validate.v
Builder.v
Assembly.v
Lifecycle.v
Writers.v
Listeners.v
Tcp.v
Aws.v
Multi.v
Tls.v
ClientCert.v
Oidc.v
Admin.v
Echo.v
Entry.v
Sockets.v
Dynamic.v
Compose.v
Tunnel.v
Metrics.v
Drain.v
MultiRun.v
OpenId.v
Standalone.v
