(* ===== verification/Prelude.v ===== *)
(** * gorp: a verification of the reverse proxy (root file)

    gorp is a reverse proxy written in Go.  A configuration (YAML or JSON, a file
    or a directory) is loaded, validated and built into a server; the server
    starts listeners (HTTP, HTTPS, HTTP/3, multi-protocol, Unix, TCP, SOCKS5,
    forward proxy) and an administration API; an HTTP listener passes a request
    through its limits and middleware to the router, which picks a route; the
    route's selector picks one of its backends, and the backend proxies the request
    (possibly signed) or opens a CONNECT tunnel, keeping a connection count, a
    circuit breaker and a health flag.  The main loop watches the configuration and
    replaces the server when it changes.

    ** Files and what they model (under src/)

    - [Prelude]: results, automation, shared lemmas on lists and strings.
    - [GoStd], [GoHttp], [Base64]: the parts of the Go standard library the code
      uses: machine integers with their wrap-around, byte strings, decimal
      conversion, FNV-1a, [filepath.Match], header maps with canonical keys,
      response writers where the first status wins, handlers as state
      transformers, base64.
    - [Backend]: pkg/backend/backend.go.  The record [Backend] holds the fields
      the methods use; [Available], [TryAcquire], [Release], [recordFailure],
      [recordSuccess], [checkHealth], [Proxy], [Connect] are its operations, and
      [bstep] is any call on a backend.  [CasCounter]: the lock-free counter of
      backends and listeners, one step per atomic operation.
    - [Transport]: pkg/backend/transport.go, retries and upstream authentication.
      [Aws]: pkg/backend/auth_aws.go, the signer the transport calls.
    - [Parser]: pkg/helper/parser.go, accessors of configuration values.
    - [Selector]: pkg/selector, all selectors behind the interface
      [LawfulSelector], which the route's theorems use.
    - [Routing]: pkg/routing/{wildcard,route,router,middleware,openapi}.go.  The
      [world] holds the state shared between requests; [SafeMiddleware] is what
      a route asks of its middleware, and each builtin is an instance.
    - [RateLimiter], [Middleware], [Auth]: the builtin_*.go files of pkg/routing.
      [Writers]: the response writers of the logging middleware, of the metrics
      and of the backend, as what they make of the calls of a handler.
      [Dynamic]: pkg/dynamic/middleware.go.
    - [Socks5], [ForwardProxy], [Tcp]: pkg/listener/{socks5,proxy,tcp}.go.
      [Tunnel]: the relays of these and of pkg/backend/backend.go, as runs of
      events of the peers and the goroutines, and the accept loops.
    - [Multi]: pkg/httpmulti (the peeking connection, the accept loop, the CIDR
      filter, the settings) and pkg/listener/httpmulti.go.
    - [Tls]: pkg/helper/{tls,readfile}.go, with the cache of dynamic certificates
      as a step relation over handshakes.  [ClientCert]:
      pkg/listener/client_cert.go.  [Oidc]: pkg/helper/oidc.go.
    - [Admin], [Echo]: pkg/listener/{admin,admin_echo}.go, the handler of
      pkg/helper/ready.go and the start of the administration server.
    - [Sockets]: pkg/listener/{http,https,http3,unix,tcp_clienthello}.go.
    - [Config], [Validate]: pkg/config/{config,loader,validate}.go.
    - [Builder], [Assembly]: pkg/server/builder.go and the theorems that connect
      validation, loading, building and serving.  [Compose]: the TLS helper and
      the OpenID provider put in the place of the parameters of the builder and of
      the listeners.
    - [Lifecycle]: the concurrent life of pkg/server/server.go and the reload loop
      of pkg/gorp/main.go, as a step relation over processes.  [Entry]: the command
      line of pkg/gorp/main.go, pkg/config/watch.go and the reload channel.
    - [Listeners]: the limiters and start functions of pkg/server/server.go and the
      instrumented handler of pkg/metrics/metrics.go.  [Standalone]: the listeners
      of TCP connections with their TLS configuration and limit, the Start functions
      of pkg/listener and pkg/runtime/runtime.go.  [Drain]: Shutdown of
      pkg/server/server.go with its deadline and the work under way.
    - [Metrics]: pkg/metrics/metrics.go over the interface [Prometheus], which
      states the contract of the client library.
    - [MultiRun]: the rest of pkg/httpmulti/main.go, with Run as a state machine of
      two goroutines.  [OpenId]: the audience claim, and the token check together
      with the keys of a provider.

    ** What the theorems show

    - Backends: under any sequence of calls the counters stay within bounds and the
      health flag agrees with the breaker ([reachable_wf]); an open breaker admits
      one probe ([open_breaker_single_probe]); proxying gives back what it took
      ([Proxy_balanced]); no interleaving exceeds the limit ([concurrent_limit]).
    - Selection and routing: every selector returns an available backend or the
      right error and never indexes out of range ([selectors_sound]); round robin
      is fair, affinity sticks; the router's choice is characterised
      ([routeFor_spec]); serving keeps the whole state sound
      ([serving_keeps_state]).
    - Middleware: the rate limiter agrees with a limiter that never forgets
      ([cleanup_unobservable]) and respects its quota; the authentication
      middleware accept exactly what they should; the logging writer is
      transparent unless an answer starts with an empty copy
      ([logging_writer_transparent]).  A listener's limits and instrumentation let
      through, answer and count what they should ([listener_gate]).
    - Configuration: a validated configuration has no dangling reference or
      conflicting address, builds exactly when the resources it names load, and
      then loses no backend or middleware
      ([validated_config_builds], [validated_middleware_installed]); the longest
      prefix wins ([longest_prefix_wins]); a built server stays sound
      ([built_server_stays_sound]); a validated TLS listener starts exactly when
      its certificate loads ([validated_tls_listener_starts]).
    - Signing and keys: canonical queries stand for their parameters
      ([canonical_query]) and signatures are stable within a second
      ([signature_stable]); provider keys, with RSA exponents below 2^63, are
      converted exactly when well formed ([jwk_accepted]) and are the keys the
      middleware gets ([openid_keys_are_the_issuers]).
    - Protocols: SOCKS5 sessions, proxy authentication, SNI isolation and the
      initial-byte gate of TCP listeners, on arbitrary client bytes; protocol
      detection hands over the first acceptable connection with all its bytes
      ([accept_first_acceptable], [peeked_stream_complete]).
    - Tunnels: nothing is invented, reordered or dropped ([relay_faithful]) and
      tunnels end with everything delivered ([tunnel_completes]), except for what a
      client sends right behind a CONNECT request that a backend serves, which is
      lost ([connect_early_bytes]).
    - TLS: dynamic certificates under every interleaving of handshakes
      ([dynamic_certificates]); the effect of client authorities and revocation
      lists; the forwarded certificate can be read back when no name contains a
      quote ([xfcc_fields_recovered]) and not forged ([xfcc_not_forgeable]).
    - Lifecycle: shutdown is final under every interleaving
      ([shutdown_is_final]); a reload closes the old server
      ([reload_closes_old_servers]); every change of a watched configuration
      whose fragments have lower-case extensions is noticed as long as the watch
      lasts ([changes_are_noticed]); shutdown returns
      within its deadline, and what becomes of the work under way is said
      ([shutdown_fates]); Run of pkg/httpmulti reports why it cannot serve
      ([Run_reports_failure]).
    - Metrics: the registry exposes exactly what was reported ([metrics_exposed]),
      and a backend reports under its own name ([backend_reports_its_own]).
    - Administration: the endpoints on every branch; only /stop stops
      ([stop_is_the_only_stop]); redirections end ([redirects_end]).
    - Behaviour that contradicts the documentation or the intent is proved as it
      is: [failed_reload_stops_server], [unselected_probe_is_lost],
      [backend_limits_ignored], [informational_status_swallows_final],
      [listener_settings_dropped], [socks5_denied_replies_twice],
      [request_header_removal_is_case_sensitive], [plain_routes_unreachable],
      [close_race_panics], [multi_refuses_ipv6], [revocation_list_effect],
      [subject_double_escaped], [rsa_exponent_truncated],
      [key_set_all_or_nothing], [admin_tls_needs_plain_files],
      [bearer_token_parts], [startup_change_missed], [watched_fragments],
      [uppercase_fragment_missed], [empty_copy_swallows_status],
      [flags_and_environment], [second_close_removes_successor],
      [metrics_misreport_after_flush], [tcp_half_close], [connect_early_bytes],
      [accept_error_ends_socks5], [cascade_half_close],
      [replaced_file_forgotten], [unwatched_configuration],
      [symmetric_algorithm_forgeable], [non_rsa_keys_verify_nothing],
      [methods_make_series], [backend_gauge_stale], [tunnels_not_awaited],
      [Run_graceful_result].

    ** Bounds and fuel

    Loops over data are structural.  The pattern parser, the digest parser, decimal
    printing, the quoting of strings, the padding of tokens and the search for an
    issuer take fuel: the length of the input (nineteen digits for a 64-bit
    integer, three rounds of padding), and [parse_chunks_fuel],
    [digest_loop_fuel], [Atoi_Itoa], [pad_loop_length] and
    [issuer_search_complete] show that it is enough.  Retry and selector loops run
    over the counts the code computes.  Sequences of requests, calls and steps are
    unbounded.  Integers keep their width where the code relies on it ([int32],
    [int64]).

    ** Parameters

    What is not this repository's code or a pure part of the Go library is an
    argument: YAML and JSON coding, [sort.Slice], [url.Parse],
    [time.ParseDuration], [net.ParseIP], hash functions and signatures, PEM, X.509
    and OCSP, TLS handshakes and files, dialling and the upstream's answers, the
    OpenAPI library, the Prometheus client, the closing of the HTTP/3 library, the
    interpreter of dynamic middleware, file system events, random draws, the order in which Go visits a map, and the clock.  Hypotheses on
    them state their documented contract (a sort permutes and orders, a decoder
    inverts an encoder, decoding a PEM block consumes input), and the witnesses
    instantiate them.

    ** Atomicity

    Calls on a backend, a selector and a rate limiter are single steps: the theorems
    on them speak of sequences of calls.  Interleavings of atomic operations are in
    [CasCounter] (the counters), [Metrics] (the gauges), [Tls] (the certificate
    cache), [Lifecycle], [Entry], [Tunnel] and [MultiRun]; those between the two
    atomic operations with which [Available] lets a probe through are not
    represented.

    ** Not modelled

    Deadlines of single connections; loggers and the text of log lines; the
    accessors that pass a call on to the embedded http.Server (This, Close,
    RegisterOnShutdown, SetKeepAlivesEnabled, Unwrap); percent-encoded paths in the
    router of the administration API; the buckets of the histograms. *)

From stdpp Require Export base list gmap strings pretty.
From Stdlib Require Export ZArith Lia.
From Stdlib Require Export Ascii.

#[global] Arguments String.append : simpl nomatch.

(** ** Results: Go's [(value, error)] pairs

    A Go function that returns [(T, error)] is modelled by [result E T]. *)
Inductive result (E A : Type) : Type :=
  | Ok (a : A)
  | Err (e : E).
Arguments Ok {E A} a.
Arguments Err {E A} e.

Declare Scope gorp_scope.
Delimit Scope gorp_scope with gorp.

Definition result_bind {E A B : Type} (m : result E A) (k : A → result E B) : result E B :=
  match m with Ok a => k a | Err e => Err e end.

Notation "'let?' x ':=' m 'in' k" := (result_bind m (λ x, k))
  (at level 10, x pattern, m at level 100, k at level 200,
   format "'let?'  x  ':='  m  'in' '//' k") : gorp_scope.

Definition is_ok {E A : Type} (m : result E A) : bool :=
  match m with Ok _ => true | Err _ => false end.

#[global] Instance result_eq_dec {E A} `{EqDecision E, EqDecision A} : EqDecision (result E A).
Proof. solve_decision. Defined.

(** ** Automation

    [gorp] is the hint database of the development.  [bdestruct] splits on the
    boolean tests of the code and puts the arithmetic fact in the context. *)
Create HintDb gorp.
Create Rewrite HintDb gorp.

Ltac bsplit1 :=
  match goal with
  | |- context [Z.ltb ?a ?b] => destruct (Z.ltb_spec a b)
  | |- context [Z.leb ?a ?b] => destruct (Z.leb_spec a b)
  | |- context [Z.eqb ?a ?b] => destruct (Z.eqb_spec a b)
  | |- context [Nat.ltb ?a ?b] => destruct (Nat.ltb_spec a b)
  | |- context [Nat.leb ?a ?b] => destruct (Nat.leb_spec a b)
  | |- context [Nat.eqb ?a ?b] => destruct (Nat.eqb_spec a b)
  | |- context [String.eqb ?a ?b] => destruct (String.eqb_spec a b)
  | |- context [Ascii.eqb ?a ?b] => destruct (Ascii.eqb_spec a b)
  end.

Ltac bsplit := repeat (bsplit1; simplify_eq/=; try lia).

(** ** Lists and strings *)

Definition lenZ (s : string) : Z := Z.of_nat (String.length s).

(** The first index whose element satisfies [f]. *)
Fixpoint find_index {A} (f : A → bool) (l : list A) : option nat :=
  match l with
  | [] => None
  | x :: l' => if f x then Some 0%nat else S <$> find_index f l'
  end.

Lemma find_index_Some {A} (f : A → bool) l i :
  find_index f l = Some i ↔
  (∃ x, l !! i = Some x ∧ f x = true) ∧
  (∀ j y, (j < i)%nat → l !! j = Some y → f y = false).
Proof.
  revert i; induction l as [|x l IH]; intros i; simpl.
  - split; [done|]. intros [[y [Hy _]] _]. done.
  - destruct (f x) eqn:Hf.
    + split.
      * intros [= <-]. split; [eauto|]. intros; lia.
      * intros [_ Hlt]. destruct i as [|i]; [done|].
        specialize (Hlt 0%nat x ltac:(lia) eq_refl). congruence.
    + rewrite fmap_Some. split.
      * intros (k & Hk & ->). apply IH in Hk as [Hex Hlt]. split; [done|].
        intros [|j] y Hj Hy; simplify_eq/=; [done|]. eapply Hlt; [|done]. lia.
      * intros [(y & Hy & Hfy) Hlt]. destruct i as [|i]; simplify_eq/=; [congruence|].
        exists i. split; [|done]. apply IH. split; [eauto|].
        intros j z Hj Hz. apply (Hlt (S j) z); [lia|done].
Qed.

Lemma find_index_None {A} (f : A → bool) l :
  find_index f l = None ↔ ∀ i x, l !! i = Some x → f x = false.
Proof.
  induction l as [|x l IH]; simpl.
  - split; [|done]. intros _ i y Hi. done.
  - destruct (f x) eqn:Hf.
    + split; [done|]. intros H. specialize (H 0%nat x eq_refl). congruence.
    + rewrite fmap_None, IH. split; intros H.
      * intros [|i] y Hy; simplify_eq/=; eauto.
      * intros i y Hy. apply (H (S i)). done.
Qed.

Fixpoint prefixb (p s : string) : bool :=
  match p, s with
  | EmptyString, _ => true
  | String c p', String d s' => Ascii.eqb c d && prefixb p' s'
  | String _ _, EmptyString => false
  end.

Lemma prefix_app (p s : string) : prefixb p (p +:+ s) = true.
Proof. induction p as [|c p IH]; simpl; [done|]. by rewrite Ascii.eqb_refl. Qed.

Lemma prefix_spec (p s : string) : prefixb p s = true ↔ ∃ t, s = p +:+ t.
Proof.
  split; [|intros [t ->]; apply prefix_app].
  revert s; induction p as [|c p IH]; intros s; simpl; [eauto|].
  destruct s as [|d s]; [done|]. destruct (Ascii.eqb_spec c d) as [->|]; [|done].
  intros [t ->]%IH. by exists t.
Qed.

Lemma string_app_nil_r (s : string) : s +:+ "" = s.
Proof. induction s; simpl; congruence. Qed.

Lemma string_app_assoc (a b c : string) : (a +:+ b) +:+ c = a +:+ (b +:+ c).
Proof. induction a; simpl; congruence. Qed.

Lemma string_app_inj (p a b : string) : p +:+ a = p +:+ b → a = b.
Proof. induction p; simpl; [done|]. intros [= ?]. auto. Qed.

Lemma string_length_app (a b : string) :
  String.length (a +:+ b) = (String.length a + String.length b)%nat.
Proof. induction a; simpl; congruence. Qed.
#[export] Hint Rewrite string_app_nil_r string_app_assoc string_length_app : gorp.
#[export] Hint Resolve prefix_app : gorp.
