(* ===== verification/GoStd.v ===== *)
(** * The Go standard library, as far as gorp uses it

    Machine integers, byte strings, decimal conversion, FNV-1a, UTF-8 decoding,
    [path/filepath.Match], [path.Base], [net.SplitHostPort], [net.JoinHostPort]
    and [net/http.Header].  Go strings are byte strings: a [string] here is a
    list of 8-bit [ascii] values.  Case conversion acts on the ASCII letters and
    keeps every other byte, which is Go's behaviour on ASCII text. *)

From S2P Require Import Prelude.
Open Scope Z_scope.

(** ** Machine integers *)
Definition wrap (w z : Z) : Z := (z + 2 ^ (w - 1)) mod 2 ^ w - 2 ^ (w - 1).
Definition int32 (z : Z) : Z := wrap 32 z.
Definition int64 (z : Z) : Z := wrap 64 z.
Definition MaxInt64 : Z := 2 ^ 63 - 1.

Lemma wrap_id w z : 0 < w → - 2 ^ (w - 1) ≤ z < 2 ^ (w - 1) → wrap w z = z.
Proof.
  intros Hw Hz. unfold wrap.
  assert (2 ^ w = 2 * 2 ^ (w - 1)) as Hp.
  { rewrite <- Z.pow_succ_r by lia. f_equal. lia. }
  rewrite Z.mod_small; lia.
Qed.

(** ** Bytes and byte strings *)
Definition ord (c : Ascii.ascii) : Z := Z.of_N (Ascii.N_of_ascii c).
Definition chr (z : Z) : Ascii.ascii := Ascii.ascii_of_N (Z.to_N z).

Lemma ord_range c : 0 ≤ ord c < 256.
Proof. unfold ord. pose proof (Ascii.N_ascii_bounded c). lia. Qed.

Lemma chr_ord c : chr (ord c) = c.
Proof. unfold chr, ord. rewrite N2Z.id. apply Ascii.ascii_N_embedding. Qed.

Lemma ord_chr z : 0 ≤ z < 256 → ord (chr z) = z.
Proof. intros. unfold chr, ord. rewrite Ascii.N_ascii_embedding; lia. Qed.

Lemma ord_inj c d : ord c = ord d → c = d.
Proof. intros H. rewrite <- (chr_ord c), <- (chr_ord d). by rewrite H. Qed.

Definition slash : Ascii.ascii := "/"%char.
Definition colon : Ascii.ascii := ":"%char.

Fixpoint drop (n : nat) (s : string) : string :=
  match n, s with
  | O, _ => s
  | S n', String _ s' => drop n' s'
  | S _, EmptyString => ""
  end.

Fixpoint take (n : nat) (s : string) : string :=
  match n, s with
  | S n', String c s' => String c (take n' s')
  | _, _ => ""
  end.

Fixpoint contains_byte (b : Ascii.ascii) (s : string) : bool :=
  match s with
  | EmptyString => false
  | String c s' => Ascii.eqb c b || contains_byte b s'
  end.

Fixpoint index_byte (b : Ascii.ascii) (s : string) : option nat :=
  match s with
  | EmptyString => None
  | String c s' => if Ascii.eqb c b then Some 0%nat else S <$> index_byte b s'
  end.

Fixpoint last_index_byte (b : Ascii.ascii) (s : string) : option nat :=
  match s with
  | EmptyString => None
  | String c s' =>
      match last_index_byte b s' with
      | Some i => Some (S i)
      | None => if Ascii.eqb c b then Some 0%nat else None
      end
  end.

Definition HasPrefix (s p : string) : bool := prefixb p s.

(** [strings.Contains] *)
Fixpoint Contains (s sub : string) : bool :=
  prefixb sub s || match s with EmptyString => false | String _ s' => Contains s' sub end.

Definition TrimPrefix (s p : string) : string :=
  if HasPrefix s p then drop (String.length p) s else s.

Definition HasSuffix (s p : string) : bool :=
  Nat.leb (String.length p) (String.length s) &&
  String.eqb (drop (String.length s - String.length p) s) p.

Definition TrimSuffix (s p : string) : string :=
  if HasSuffix s p then take (String.length s - String.length p) s else s.

(** [strings.TrimLeft] and [strings.TrimRight] with a one-byte cutset. *)
Fixpoint TrimLeft (b : Ascii.ascii) (s : string) : string :=
  match s with
  | String c s' => if Ascii.eqb c b then TrimLeft b s' else s
  | EmptyString => ""
  end.

Fixpoint TrimRight (b : Ascii.ascii) (s : string) : string :=
  match s with
  | EmptyString => ""
  | String c s' =>
      match TrimRight b s' with
      | EmptyString => if Ascii.eqb c b then "" else String c ""
      | t => String c t
      end
  end.

Definition is_space (c : Ascii.ascii) : bool :=
  let z := ord c in (z =? 32) || ((9 <=? z) && (z <=? 13)).

Fixpoint trim_left_space (s : string) : string :=
  match s with
  | String c s' => if is_space c then trim_left_space s' else s
  | EmptyString => ""
  end.

Fixpoint trim_right_space (s : string) : string :=
  match s with
  | EmptyString => ""
  | String c s' =>
      match trim_right_space s' with
      | EmptyString => if is_space c then "" else String c ""
      | t => String c t
      end
  end.

(** [strings.TrimSpace] on text whose white space is ASCII. *)
Definition TrimSpace (s : string) : string := trim_right_space (trim_left_space s).

Definition lower_byte (c : Ascii.ascii) : Ascii.ascii :=
  let z := ord c in if (65 <=? z) && (z <=? 90) then chr (z + 32) else c.
Definition upper_byte (c : Ascii.ascii) : Ascii.ascii :=
  let z := ord c in if (97 <=? z) && (z <=? 122) then chr (z - 32) else c.

Fixpoint smap (f : Ascii.ascii → Ascii.ascii) (s : string) : string :=
  match s with
  | EmptyString => ""
  | String c s' => String (f c) (smap f s')
  end.

Definition ToLower : string → string := smap lower_byte.
Definition ToUpper : string → string := smap upper_byte.
Definition EqualFold (a b : string) : bool := String.eqb (ToLower a) (ToLower b).

(** [strings.Split s sep] for a one-byte separator: always at least one part. *)
Fixpoint Split (sep : Ascii.ascii) (s : string) : list string :=
  match s with
  | EmptyString => [""]
  | String c s' =>
      if Ascii.eqb c sep then "" :: Split sep s'
      else match Split sep s' with
           | p :: ps => String c p :: ps
           | [] => [String c ""]
           end
  end.

(** [strings.Cut s sep] for a one-byte separator. *)
Definition Cut (sep : Ascii.ascii) (s : string) : string * string * bool :=
  match index_byte sep s with
  | Some i => (take i s, drop (S i) s, true)
  | None => (s, "", false)
  end.

(** [strings.SplitN s sep n] for a one-byte separator and [n = 2], [n = 3]. *)
Definition SplitN2 (sep : Ascii.ascii) (s : string) : list string :=
  match Cut sep s with
  | (a, b, true) => [a; b]
  | (_, _, false) => [s]
  end.

Definition SplitN3 (sep : Ascii.ascii) (s : string) : list string :=
  match Cut sep s with
  | (a, b, true) => a :: SplitN2 sep b
  | (_, _, false) => [s]
  end.

Fixpoint Join (sep : string) (l : list string) : string :=
  match l with
  | [] => ""
  | [s] => s
  | s :: l' => s +:+ sep +:+ Join sep l'
  end.

Definition is_digit (c : Ascii.ascii) : bool := let z := ord c in (48 <=? z) && (z <=? 57).

(** ** Decimal conversion ([strconv]) *)

Definition digit (n : Z) : Ascii.ascii := chr (48 + n).

(** Digits of [n], most significant first; [fuel] bounds their number. *)
Fixpoint digits (fuel : nat) (n : Z) (acc : string) : string :=
  match fuel with
  | O => acc
  | S f =>
      let acc' := String (digit (n mod 10)) acc in
      if n <? 10 then acc' else digits f (n / 10) acc'
  end.

(** [strconv.Itoa]: 20 digits are enough for every 64-bit integer. *)
Definition Itoa (n : Z) : string :=
  if n <? 0 then String "-" (digits 20 (- n) "") else digits 20 n "".

Fixpoint parse_digits (s : string) (acc : Z) : option Z :=
  match s with
  | EmptyString => Some acc
  | String c s' => if is_digit c then parse_digits s' (acc * 10 + (ord c - 48)) else None
  end.

Definition parse_unsigned (s : string) : option Z :=
  match s with EmptyString => None | _ => parse_digits s 0 end.

(** [strconv.Atoi] on a 64-bit platform: a sign, at least one digit, no
    overflow. *)
Definition Atoi (s : string) : option Z :=
  let signed :=
    match s with
    | String "-" s' => Z.opp <$> parse_unsigned s'
    | String "+" s' => parse_unsigned s'
    | _ => parse_unsigned s
    end in
  match signed with
  | Some z => if (- 2 ^ 63 <=? z) && (z <=? MaxInt64) then Some z else None
  | None => None
  end.

Lemma is_digit_digit n : 0 ≤ n < 10 → is_digit (digit n) = true ∧ ord (digit n) = 48 + n.
Proof.
  intros Hn. unfold is_digit, digit. rewrite ord_chr by lia.
  split; [|done]. bsplit; done.
Qed.

Lemma parse_digits_digits f n s acc :
  0 ≤ n < 10 ^ Z.of_nat f →
  ∃ k, 0 ≤ k ∧ parse_digits (digits f n s) acc = parse_digits s (acc * k + n) ∧
       (f ≠ 0%nat → digits f n s ≠ "").
Proof.
  revert n s acc; induction f as [|f IH]; intros n s acc Hn.
  { exists 1. simpl in *. replace (acc * 1 + n) with acc by lia. done. }
  simpl. assert (0 ≤ n mod 10 < 10) as Hm by (apply Z.mod_pos_bound; lia).
  destruct (is_digit_digit _ Hm) as [Hd Ho].
  destruct (Z.ltb_spec n 10).
  - exists 10. split; [lia|]. split; [|done]. simpl. rewrite Hd, Ho.
    f_equal. rewrite Z.mod_small by lia. lia.
  - assert (0 ≤ n / 10 < 10 ^ Z.of_nat f) as Hq.
    { split; [apply Z.div_pos; lia|]. apply Z.div_lt_upper_bound; [lia|].
      rewrite Nat2Z.inj_succ, Z.pow_succ_r in Hn; lia. }
    destruct (IH (n / 10) (String (digit (n mod 10)) s) acc Hq) as (k & Hk & Heq & Hne).
    exists (k * 10). split; [lia|]. split.
    + rewrite Heq. simpl. rewrite Hd, Ho. f_equal.
      pose proof (Z.div_mod n 10 ltac:(lia)). lia.
    + intros _. apply Hne. destruct f; [|done]. simpl in Hq. lia.
Qed.

Lemma digits_head f n s : 0 ≤ n < 10 ^ Z.of_nat (S f) →
  ∃ c t, digits (S f) n s = String c t ∧ is_digit c = true.
Proof.
  revert n s; induction f as [|f IH]; intros n s Hn; simpl;
    assert (0 ≤ n mod 10 < 10) as Hm by (apply Z.mod_pos_bound; lia);
    destruct (is_digit_digit _ Hm) as [Hd _]; destruct (Z.ltb_spec n 10); eauto.
  apply IH. split; [apply Z.div_pos; lia|]. apply Z.div_lt_upper_bound; [lia|].
  rewrite Nat2Z.inj_succ, Z.pow_succ_r in Hn; lia.
Qed.

(** Printing then parsing a non-negative 64-bit integer gives it back. *)
Lemma Atoi_Itoa n : 0 ≤ n ≤ MaxInt64 → Atoi (Itoa n) = Some n.
Proof.
  intros Hn. unfold Itoa. destruct (Z.ltb_spec n 0); [lia|].
  assert (0 ≤ n < 10 ^ Z.of_nat 20) as Hr by (unfold MaxInt64 in Hn; simpl; lia).
  destruct (digits_head 19 n "" Hr) as (c & t & Hct & Hc).
  destruct (parse_digits_digits 20 n "" 0 Hr) as (k & _ & Hp & _).
  unfold Atoi. rewrite Hct in *. simpl in Hp. rewrite Z.mul_0_l, Z.add_0_l in Hp.
  assert (parse_unsigned (String c t) = Some n) as Hu by (simpl; done).
  assert (c ≠ "-"%char ∧ c ≠ "+"%char) as [H1 H2] by (split; intros ->; done).
  replace (match c with
           | "-"%char => Z.opp <$> parse_unsigned t
           | "+"%char => parse_unsigned t
           | _ => parse_unsigned (String c t) end) with (Some n).
  2: { clear -H1 H2 Hu. destruct c as [[] [] [] [] [] [] [] []]; done. }
  unfold MaxInt64 in *.
  by rewrite (proj2 (Z.leb_le (- 2 ^ 63) n)), (proj2 (Z.leb_le n (2 ^ 63 - 1))) by lia.
Qed.

(** ** FNV-1a, 32 bits ([hash/fnv]) *)
Fixpoint fnv32a_from (h : Z) (s : string) : Z :=
  match s with
  | EmptyString => h
  | String c s' => fnv32a_from ((Z.lxor h (ord c) * 16777619) mod 2 ^ 32) s'
  end.
Definition fnv32a (s : string) : Z := fnv32a_from 2166136261 s.

Lemma fnv32a_range s : 0 ≤ fnv32a s < 2 ^ 32.
Proof.
  unfold fnv32a. assert (0 ≤ 2166136261 < 2 ^ 32) as H by lia. revert H.
  generalize 2166136261. induction s as [|c s IH]; intros h Hh; simpl; [done|].
  apply IH. apply Z.mod_pos_bound. lia.
Qed.

(** ** UTF-8 decoding ([unicode/utf8.DecodeRuneInString]): rune and width *)
Definition RuneError : Z := 65533.

Definition cont (lo hi : Z) (b : Z) : bool := (lo <=? b) && (b <=? hi).

Definition byte_at (s : string) (i : nat) : Z :=
  match String.get i s with Some c => ord c | None => -1 end.

Definition DecodeRune (s : string) : Z * nat :=
  match s with
  | EmptyString => (RuneError, 0%nat)
  | String c _ =>
      let b0 := ord c in
      let b1 := byte_at s 1 in let b2 := byte_at s 2 in let b3 := byte_at s 3 in
      let two := (b0 - 192) * 64 + (b1 - 128) in
      let three := (b0 - 224) * 4096 + (b1 - 128) * 64 + (b2 - 128) in
      let four := (b0 - 240) * 262144 + (b1 - 128) * 4096 + (b2 - 128) * 64 + (b3 - 128) in
      if b0 <? 128 then (b0, 1%nat)
      else if (194 <=? b0) && (b0 <=? 223) && cont 128 191 b1 then (two, 2%nat)
      else if (b0 =? 224) && cont 160 191 b1 && cont 128 191 b2 then (three, 3%nat)
      else if (225 <=? b0) && (b0 <=? 236) && cont 128 191 b1 && cont 128 191 b2 then (three, 3%nat)
      else if (b0 =? 237) && cont 128 159 b1 && cont 128 191 b2 then (three, 3%nat)
      else if (238 <=? b0) && (b0 <=? 239) && cont 128 191 b1 && cont 128 191 b2 then (three, 3%nat)
      else if (b0 =? 240) && cont 144 191 b1 && cont 128 191 b2 && cont 128 191 b3 then (four, 4%nat)
      else if (241 <=? b0) && (b0 <=? 243) && cont 128 191 b1 && cont 128 191 b2 && cont 128 191 b3
        then (four, 4%nat)
      else if (b0 =? 244) && cont 128 143 b1 && cont 128 191 b2 && cont 128 191 b3 then (four, 4%nat)
      else (RuneError, 1%nat)
  end.

(** ** [path/filepath.Match]

    A pattern is a list of chunks, each a run of terms preceded or not by
    stars.  [parse_pattern] fails exactly on a malformed pattern
    ([filepath.ErrBadPattern]).  Matching is the library's: every chunk is
    placed at the leftmost position the star before it allows, with no
    backtracking to an earlier star; a star does not cross a slash; [?] matches
    one rune that is not a slash; the last chunk must reach the end. *)
Inductive term : Type :=
  | TLit (b : Ascii.ascii)
  | TAny
  | TClass (negated : bool) (ranges : list (Z * Z)).

Definition chunk : Type := bool * list term.

Definition getEsc (s : string) : option (Z * string) :=
  match s with
  | EmptyString => None
  | String c s' =>
      if Ascii.eqb c "-" || Ascii.eqb c "]" then None
      else
        let s1 := if Ascii.eqb c "\" then s' else s in
        match s1 with
        | EmptyString => None
        | _ =>
            let '(r, n) := DecodeRune s1 in
            if (r =? RuneError) && Nat.eqb n 1 then None
            else match drop n s1 with
                 | EmptyString => None
                 | rest => Some (r, rest)
                 end
        end
  end.

(** The ranges of a class up to its closing bracket; every round reads at least
    one byte, so the length of the input is enough fuel. *)
Fixpoint class_ranges (fuel : nat) (s : string) (acc : list (Z * Z)) : option (list (Z * Z) * string) :=
  match fuel with
  | O => None
  | S f =>
      match s, acc with
      | String "]" s', _ :: _ => Some (rev acc, s')
      | _, _ =>
          match getEsc s with
          | None => None
          | Some (lo, String "-" s1) =>
              match getEsc s1 with
              | None => None
              | Some (hi, s2) => class_ranges f s2 ((lo, hi) :: acc)
              end
          | Some (lo, s1) => class_ranges f s1 ((lo, lo) :: acc)
          end
      end
  end.

(** Put a term, or a star, in front of the chunks of the rest of a pattern. *)
Definition push_term (t : term) (cs : list chunk) : list chunk :=
  match cs with
  | (false, ts) :: cs' => (false, t :: ts) :: cs'
  | _ => (false, [t]) :: cs
  end.

Definition push_star (cs : list chunk) : list chunk :=
  match cs with
  | (false, ts) :: cs' => (true, ts) :: cs'
  | (true, _) :: _ => cs
  | [] => [(true, [])]
  end.

Fixpoint parse_chunks (fuel : nat) (s : string) : option (list chunk) :=
  match fuel with
  | O => None
  | S f =>
      match s with
      | EmptyString => Some []
      | String c s' =>
          if Ascii.eqb c "*" then push_star <$> parse_chunks f s'
          else if Ascii.eqb c "?" then push_term TAny <$> parse_chunks f s'
          else if Ascii.eqb c "\" then
            match s' with
            | EmptyString => None
            | String d s'' => push_term (TLit d) <$> parse_chunks f s''
            end
          else if Ascii.eqb c "[" then
            let '(neg, s1) := match s' with
                              | String "^" s1 => (true, s1)
                              | _ => (false, s') end in
            match class_ranges (S (String.length s1)) s1 [] with
            | None => None
            | Some (rs, s2) => push_term (TClass neg rs) <$> parse_chunks f s2
            end
          else push_term (TLit c) <$> parse_chunks f s'
      end
  end.

Definition parse_pattern (p : string) : option (list chunk) := parse_chunks (S (String.length p)) p.

Definition in_ranges (r : Z) (rs : list (Z * Z)) : bool :=
  existsb (λ '(lo, hi), (lo <=? r) && (r <=? hi)) rs.

Fixpoint matchChunk (ts : list term) (s : string) : option string :=
  match ts with
  | [] => Some s
  | t :: ts' =>
      match t, s with
      | _, EmptyString => None
      | TLit b, String c s' => if Ascii.eqb b c then matchChunk ts' s' else None
      | TAny, String c s' =>
          if Ascii.eqb c slash then None else matchChunk ts' (drop (snd (DecodeRune s)) s)
      | TClass neg rs, _ =>
          let '(r, n) := DecodeRune s in
          if Bool.eqb (in_ranges r rs) neg then None else matchChunk ts' (drop n s)
      end
  end.

(** The leftmost placement of a chunk after skipping at least one byte that is
    not a slash; the [last] chunk must reach the end of the name. *)
Fixpoint skip_match (ts : list term) (last : bool) (name : string) : option string :=
  match name with
  | EmptyString => None
  | String c name' =>
      if Ascii.eqb c slash then None
      else match matchChunk ts name' with
           | Some EmptyString => Some ""
           | Some t => if last then skip_match ts last name' else Some t
           | None => skip_match ts last name'
           end
  end.

Definition is_nil {A} (l : list A) : bool := match l with [] => true | _ => false end.

Fixpoint match_chunks (cs : list chunk) (name : string) : bool :=
  match cs with
  | [] => String.eqb name ""
  | (star, ts) :: cs' =>
      if star && is_nil ts then negb (contains_byte slash name)
      else
        let skip := if star then skip_match ts (is_nil cs') name else None in
        let placed :=
          match matchChunk ts name with
          | Some t => if String.eqb t "" || negb (is_nil cs') then Some t else skip
          | None => skip
          end in
        match placed with
        | Some t => match_chunks cs' t
        | None => false
        end
  end.

Definition Match (pattern name : string) : result string bool :=
  match parse_pattern pattern with
  | None => Err "syntax error in pattern"
  | Some cs => Ok (match_chunks cs name)
  end.

(** The fuel of the pattern parser is enough: more of it changes nothing. *)
Lemma length_drop n s : String.length (drop n s) = (String.length s - n)%nat.
Proof. revert s; induction n as [|n IH]; intros [|c s]; simpl; auto with lia. Qed.

Lemma take_drop_app n s : take n s +:+ drop n s = s.
Proof. revert s; induction n as [|n IH]; intros [|c s]; simpl; try done. by rewrite IH. Qed.

Lemma length_take n s : (n <= String.length s)%nat → String.length (take n s) = n.
Proof. revert s; induction n as [|n IH]; intros [|c s] H; simpl in *; try lia. rewrite IH; lia. Qed.

Lemma getEsc_shorter s r s' : getEsc s = Some (r, s') → (String.length s' < String.length s)%nat.
Proof.
  destruct s as [|c s]; [done|]. unfold getEsc.
  destruct (_ || _); [done|].
  set (s1 := if Ascii.eqb c "\" then s else String c s).
  assert (String.length s1 <= S (String.length s))%nat as Hle by (unfold s1; case_match; simpl; lia).
  clearbody s1. destruct s1 as [|d s2]; [done|].
  destruct (DecodeRune (String d s2)) as [r0 n] eqn:Hd.
  destruct (_ && _); [done|].
  assert (n ≠ 0%nat) as Hn.
  { unfold DecodeRune in Hd. repeat case_match; by simplify_eq. }
  pose proof (length_drop n (String d s2)) as Hl.
  destruct (drop n (String d s2)); [done|]. intros [= <- <-]. simpl in *. lia.
Qed.

Lemma class_ranges_shorter f s acc rs s' :
  class_ranges f s acc = Some (rs, s') → (String.length s' < String.length s)%nat.
Proof.
  revert s acc; induction f as [|f IH]; intros s acc; simpl; [done|].
  assert (∀ o, o = getEsc s →
    match o with
    | None => None
    | Some (lo, String "-" s1) =>
        match getEsc s1 with None => None | Some (hi, s2) => class_ranges f s2 ((lo, hi) :: acc) end
    | Some (lo, s1) => class_ranges f s1 ((lo, lo) :: acc)
    end = Some (rs, s') → (String.length s' < String.length s)%nat) as Hgo.
  { intros [[lo s1]|] Ho; [|done]. symmetry in Ho. apply getEsc_shorter in Ho.
    assert (class_ranges f s1 ((lo, lo) :: acc) = Some (rs, s') →
            (String.length s' < String.length s)%nat) as Hone.
    { intros H. apply IH in H. lia. }
    destruct s1 as [|c s1]; [done|].
    destruct (decide (c = "-"%char)) as [->|Hc].
    - destruct (getEsc s1) as [[hi s2]|] eqn:Hg; [|done].
      apply getEsc_shorter in Hg. intros H. apply IH in H. simpl in Ho. lia.
    - destruct c as [[] [] [] [] [] [] [] []]; done. }
  destruct s as [|c s]; [apply (Hgo _ eq_refl)|]. destruct acc as [|a acc].
  { specialize (Hgo _ eq_refl). destruct c as [[] [] [] [] [] [] [] []]; exact Hgo. }
  destruct (decide (c = "]"%char)) as [->|Hc].
  { intros [= _ <-]. simpl. lia. }
  specialize (Hgo _ eq_refl). destruct c as [[] [] [] [] [] [] [] []]; done.
Qed.

Lemma parse_chunks_fuel f1 f2 s :
  (String.length s < f1)%nat → (String.length s < f2)%nat → parse_chunks f1 s = parse_chunks f2 s.
Proof.
  revert f2 s; induction f1 as [|f1 IH]; intros f2 s H1 H2; [lia|].
  destruct f2 as [|f2]; [lia|]. destruct s as [|c s]; [done|].
  cbn [parse_chunks String.length] in *.
  destruct (Ascii.eqb c "*"); [f_equal; apply IH; lia|].
  destruct (Ascii.eqb c "?"); [f_equal; apply IH; lia|].
  destruct (Ascii.eqb c "\"); [destruct s; simpl in *; [done|f_equal; apply IH; lia]|].
  destruct (Ascii.eqb c "["); [|f_equal; apply IH; lia].
  assert (∃ neg s1, match s with String "^" s1 => (true, s1) | _ => (false, s) end = (neg, s1) ∧
           (String.length s1 <= String.length s)%nat) as (neg & s1 & -> & Hl).
  { destruct s as [|d s]; [eauto|]. destruct (decide (d = "^"%char)) as [->|].
    - exists true, s. split; [done|simpl; lia].
    - exists false, (String d s). split; [|lia]. destruct d as [[] [] [] [] [] [] [] []]; done. }
  destruct (class_ranges (S (String.length s1)) s1 []) as [[rs s2]|] eqn:Hc; [|done].
  apply class_ranges_shorter in Hc. f_equal. apply IH; lia.
Qed.

(** *** Literal patterns *)
Definition is_meta (c : Ascii.ascii) : bool :=
  Ascii.eqb c "*" || Ascii.eqb c "?" || Ascii.eqb c "\" || Ascii.eqb c "[".

Fixpoint literal (s : string) : bool :=
  match s with
  | EmptyString => true
  | String c s' => negb (is_meta c) && literal s'
  end.

Fixpoint lits (s : string) : list term :=
  match s with
  | EmptyString => []
  | String c s' => TLit c :: lits s'
  end.

Definition lit_chunks (s : string) : list chunk :=
  match s with EmptyString => [] | _ => [(false, lits s)] end.

Lemma parse_chunks_literal f s :
  literal s = true → (String.length s < f)%nat → parse_chunks f s = Some (lit_chunks s).
Proof.
  revert f; induction s as [|c s IH]; intros [|f] Hl Hf; simpl in *; try lia; [done|].
  apply andb_true_iff in Hl as [Hc Hl]. apply negb_true_iff in Hc. unfold is_meta in Hc.
  destruct (Ascii.eqb c "*"), (Ascii.eqb c "?"), (Ascii.eqb c "\"), (Ascii.eqb c "["); try done.
  rewrite (IH f Hl) by lia. by destruct s.
Qed.

Lemma parse_pattern_literal s : literal s = true → parse_pattern s = Some (lit_chunks s).
Proof. intros. apply parse_chunks_literal; [done|lia]. Qed.

Lemma parse_pattern_star_literal s :
  literal s = true → parse_pattern (String "*" s) = Some [(true, lits s)].
Proof.
  intros Hl.
  change (push_star <$> parse_chunks (S (String.length s)) s = Some [(true, lits s)]).
  rewrite parse_chunks_literal by (done || lia). by destruct s.
Qed.

Lemma matchChunk_lits p s t : matchChunk (lits p) s = Some t ↔ s = p +:+ t.
Proof.
  revert s; induction p as [|c p IH]; intros s; simpl.
  - split; [by intros [= ->]|by intros ->].
  - destruct s as [|d s]; [split; done|]. destruct (Ascii.eqb_spec c d) as [->|Hne].
    + rewrite IH. split; [by intros ->|by intros [= ->]].
    + split; [done|]. intros [= -> _]. done.
Qed.

Lemma no_slash_app x y :
  contains_byte slash (x +:+ y) = contains_byte slash x || contains_byte slash y.
Proof. induction x as [|c x IH]; simpl; [done|]. by rewrite IH, orb_assoc. Qed.

Lemma skip_match_lits p name t :
  skip_match (lits p) true name = Some t ↔
  t = "" ∧ ∃ x, x ≠ "" ∧ name = x +:+ p ∧ contains_byte slash x = false.
Proof.
  revert t; induction name as [|c name IH]; intros t; simpl.
  - split; [done|]. intros (_ & x & Hx & Hn & _). by destruct x.
  - assert (∀ x, x ≠ "" → String c name = x +:+ p → ∃ y, x = String c y ∧ name = y +:+ p) as Hcons.
    { intros [|d y] Hx; [done|]. intros [= -> ->]. eauto. }
    destruct (Ascii.eqb_spec c slash) as [->|Hc].
    + split; [done|]. intros (_ & x & Hx & Hn & Hs).
      destruct (Hcons x Hx Hn) as (y & -> & _). done.
    + assert (contains_byte slash (String c "") = false) as Hcs.
      { simpl. destruct (Ascii.eqb_spec c slash); done. }
      assert (skip_match (lits p) true name = Some t ∨ (t = "" ∧ name = p) ↔
              t = "" ∧ ∃ x, x ≠ "" ∧ String c name = x +:+ p ∧ contains_byte slash x = false) as Hiff.
      { rewrite IH. split.
        - intros [(-> & x & Hx & -> & Hs)|[-> ->]]; (split; [done|]).
          + exists (String c x). split; [done|]. split; [done|].
            apply (orb_false_intro _ _ Hcs) in Hs. simpl in *. by destruct (Ascii.eqb c slash).
          + by exists (String c "").
        - intros (-> & x & Hx & Hn & Hs). destruct (Hcons x Hx Hn) as (y & -> & ->).
          destruct y as [|d y]; [by right|left]. split; [done|]. exists (String d y).
          simpl in Hs. by apply orb_false_iff in Hs as [_ Hs]. }
      rewrite <- Hiff. clear Hiff.
      destruct (matchChunk (lits p) name) as [u|] eqn:Hm.
      * apply matchChunk_lits in Hm. destruct u as [|d u].
        -- rewrite string_app_nil_r in Hm. split; [intros [= <-]; by right|].
           intros [H|[-> _]]; [|done]. by apply IH in H as [-> _].
        -- split; [by left|]. intros [H|[-> H]]; [done|]. subst name.
           apply (f_equal String.length) in H. rewrite string_length_app in H. simpl in H. lia.
      * split; [by left|]. intros [H|[-> ->]]; [done|].
        assert (matchChunk (lits p) p = Some "") as Hp by (apply matchChunk_lits; by rewrite string_app_nil_r).
        congruence.
Qed.

Lemma match_literal p name : literal p = true → Match p name = Ok (String.eqb name p).
Proof.
  intros Hl. unfold Match. rewrite parse_pattern_literal by done. f_equal.
  destruct p as [|c p]; [done|]. cbn [lit_chunks match_chunks andb is_nil negb].
  destruct (matchChunk (lits (String c p)) name) as [t|] eqn:Hm.
  - apply matchChunk_lits in Hm as ->. rewrite orb_false_r.
    destruct (String.eqb_spec t "") as [->|Ht].
    + rewrite string_app_nil_r. symmetry. apply String.eqb_refl.
    + symmetry. apply String.eqb_neq. intros H.
      apply (f_equal String.length) in H. rewrite string_length_app in H.
      destruct t; [done|]. simpl in H. lia.
  - symmetry. apply String.eqb_neq. intros ->.
    assert (matchChunk (lits (String c p)) (String c p) = Some "") as Hp
      by (apply matchChunk_lits; by rewrite string_app_nil_r).
    congruence.
Qed.

Lemma match_star_literal p name :
  literal p = true → p ≠ "" →
  ∃ b, Match (String "*" p) name = Ok b ∧
       (b = true ↔ ∃ x, name = x +:+ p ∧ contains_byte slash x = false).
Proof.
  intros Hl Hp. unfold Match. rewrite parse_pattern_star_literal by done.
  eexists; split; [done|].
  destruct p as [|c p]; [done|]. clear Hl Hp. cbn [match_chunks andb is_nil lits negb].
  change (TLit c :: lits p) with (lits (String c p)). set (q := String c p).
  assert (match skip_match (lits q) true name with Some t => String.eqb t "" | None => false end = true ↔
          ∃ x, x ≠ "" ∧ name = x +:+ q ∧ contains_byte slash x = false) as Hskip.
  { destruct (skip_match (lits q) true name) as [t|] eqn:Hs.
    - apply skip_match_lits in Hs as [-> Hs]. done.
    - split; [done|]. intros H.
      assert (skip_match (lits q) true name = Some "") by (by apply skip_match_lits). congruence. }
  destruct (matchChunk (lits q) name) as [t|] eqn:Hm.
  - apply matchChunk_lits in Hm. rewrite orb_false_r.
    destruct (String.eqb_spec t "") as [->|Ht].
    + rewrite string_app_nil_r in Hm. split; [|done]. intros _. by exists "".
    + rewrite Hskip. split; [intros (x & _ & Hx); eauto|].
      intros (x & Hx & Hs). exists x. split; [|done]. intros ->.
      change (name = q) in Hx. rewrite Hx in Hm. apply (f_equal String.length) in Hm.
      rewrite string_length_app in Hm. destruct t; [done|]. simpl in Hm. lia.
  - rewrite Hskip. split; [intros (x & _ & Hx); eauto|].
    intros (x & Hx & Hs). exists x. split; [|done]. intros ->.
    change (name = q) in Hx. subst name.
    assert (matchChunk (lits q) q = Some "") as Hp by (apply matchChunk_lits; by rewrite string_app_nil_r).
    congruence.
Qed.
