(* ===== verification/GoHttp.v ===== *)
(** * Go's [path], [net] and [net/http] packages, as far as gorp uses them

    Addresses, header maps with canonical keys, requests, response writers with
    net/http's "the first WriteHeader wins" rule, and handlers as state
    transformers. *)

From S2P Require Import Prelude GoStd.
Open Scope Z_scope.

(** ** [path.Base] *)
Definition Base (p : string) : string :=
  if String.eqb p "" then "."
  else
    let q := TrimRight slash p in
    let r := match last_index_byte slash q with Some i => drop (S i) q | None => q end in
    if String.eqb r "" then "/" else r.

(** ** [net.SplitHostPort] and [net.JoinHostPort] *)
Definition split_host (hostport : string) (i : nat) : option (string * string * string) :=
  if HasPrefix hostport "[" then
    match index_byte "]" hostport with
    | None => None
    | Some e =>
        if Nat.eqb (S e) i
        then Some (drop 1 (take e hostport), drop 1 hostport, drop (S e) hostport)
        else None
    end
  else
    let host := take i hostport in
    if contains_byte colon host then None else Some (host, hostport, hostport).

Definition SplitHostPort (hostport : string) : option (string * string) :=
  match last_index_byte colon hostport with
  | None => None
  | Some i =>
      match split_host hostport i with
      | None => None
      | Some (host, j, k) =>
          if contains_byte "[" j || contains_byte "]" k then None
          else Some (host, drop (S i) hostport)
      end
  end.

Definition JoinHostPort (host port : string) : string :=
  if contains_byte colon host then "[" +:+ host +:+ "]:" +:+ port
  else host +:+ ":" +:+ port.

Lemma last_index_byte_app b x y :
  contains_byte b y = false →
  last_index_byte b (x +:+ String b y) = Some (String.length x).
Proof.
  intros Hy.
  assert (∀ s, contains_byte b s = false → last_index_byte b s = None) as Hnone.
  { induction s as [|c s IH]; simpl; [done|]. intros [Hc Hs]%orb_false_iff.
    by rewrite (IH Hs), Hc. }
  induction x as [|c x IH]; simpl.
  - rewrite (Hnone _ Hy). by rewrite Ascii.eqb_refl.
  - by rewrite IH.
Qed.

Lemma index_byte_app b x y :
  contains_byte b x = false → index_byte b (x +:+ String b y) = Some (String.length x).
Proof.
  induction x as [|c x IH]; simpl; [by rewrite Ascii.eqb_refl|].
  intros [Hc Hx]%orb_false_iff. by rewrite Hc, (IH Hx).
Qed.

Lemma take_length_app x y : take (String.length x) (x +:+ y) = x.
Proof. induction x; simpl; [by destruct y|congruence]. Qed.

Lemma drop_length_app x y : drop (String.length x) (x +:+ y) = y.
Proof. induction x; simpl; auto. Qed.

Lemma drop_S_app x c y : drop (S (String.length x)) (x +:+ String c y) = y.
Proof. induction x as [|d x IH]; [done|]. apply IH. Qed.

Lemma contains_byte_app b x y : contains_byte b (x +:+ y) = contains_byte b x || contains_byte b y.
Proof. induction x as [|c x IH]; simpl; [done|]. by rewrite IH, orb_assoc. Qed.

(** Splitting a joined address gives the host and the port back. *)
Lemma SplitHostPort_Join host port :
  contains_byte "[" host = false → contains_byte "]" host = false →
  contains_byte colon port = false → contains_byte "[" port = false → contains_byte "]" port = false →
  SplitHostPort (JoinHostPort host port) = Some (host, port).
Proof.
  intros Ho Hc Hpc Hpo Hpb. unfold JoinHostPort. destruct (contains_byte colon host) eqn:Hcol.
  - assert ("[" +:+ host +:+ "]:" +:+ port = (String "[" (host +:+ "]")) +:+ String colon port) as ->.
    { simpl. by rewrite string_app_assoc. }
    unfold SplitHostPort. rewrite last_index_byte_app by done.
    set (h := (String "[" (host +:+ "]")) +:+ String colon port).
    assert (h = String "[" (host +:+ String "]" (String colon port))) as Hh.
    { unfold h. simpl. by rewrite string_app_assoc. }
    assert (index_byte "]" h = Some (S (String.length host))) as Hi.
    { rewrite Hh. simpl. by rewrite index_byte_app. }
    assert (Nat.eqb (S (S (String.length host))) (String.length (String "[" (host +:+ "]"))) = true) as He.
    { apply Nat.eqb_eq. simpl. rewrite string_length_app. simpl. lia. }
    assert (drop (S (S (String.length host))) h = String colon port) as Hk
      by (rewrite Hh; apply drop_S_app).
    assert (drop (S (String.length (String "[" (host +:+ "]")))) h = port) as Hp by apply drop_S_app.
    assert (drop 1 (take (S (String.length host)) h) = host) as Ht
      by (rewrite Hh; apply take_length_app).
    assert (contains_byte "[" (drop 1 h) = false) as Hj.
    { rewrite Hh. simpl. rewrite contains_byte_app. simpl. by rewrite Ho, Hpo. }
    assert (HasPrefix h "[" = true) as Hb by (rewrite Hh; by destruct host).
    unfold split_host. rewrite Hb, Hi, He, Hk, Hp, Ht, Hj. simpl. by rewrite Hpb.
  - unfold SplitHostPort. change (host +:+ ":" +:+ port) with (host +:+ String colon port).
    rewrite last_index_byte_app by done.
    assert (contains_byte "[" (host +:+ String colon port) = false ∧
            contains_byte "]" (host +:+ String colon port) = false) as [H1 H2].
    { rewrite !contains_byte_app. simpl. rewrite Ho, Hc, Hpo, Hpb. done. }
    set (h := host +:+ String colon port) in *.
    assert (take (String.length host) h = host) as Ht by apply take_length_app.
    assert (drop (S (String.length host)) h = port) as Hp by apply drop_S_app.
    assert (HasPrefix h "[" = false) as Hb.
    { clearbody h. destruct h as [|c h]; [done|]. simpl in H1. apply orb_false_iff in H1 as [Hb _].
      unfold HasPrefix. cbn [prefixb]. destruct (Ascii.eqb_spec "[" c) as [<-|]; [discriminate Hb|done]. }
    unfold split_host. rewrite Hb, Ht, Hcol, H1, H2, Hp. done.
Qed.

Lemma TrimPrefix_app p s : TrimPrefix (p +:+ s) p = s.
Proof. unfold TrimPrefix, HasPrefix. rewrite prefix_app. apply drop_length_app. Qed.

Lemma HasPrefix_spec s p : HasPrefix s p = true ↔ ∃ t, s = p +:+ t.
Proof. apply prefix_spec. Qed.

(** ** [net/http.Header]: canonical keys, lists of values *)
Notation header := (gmap string (list string)).

Definition is_token (c : Ascii.ascii) : bool :=
  let z := ord c in
  is_digit c || ((65 <=? z) && (z <=? 90)) || ((97 <=? z) && (z <=? 122)) ||
  existsb (Ascii.eqb c) ["!"; "#"; "$"; "%"; "&"; "'"; "*"; "+"; "-"; "."; "^"; "_"; "`"; "|"; "~"]%char.

Fixpoint all_bytes (f : Ascii.ascii → bool) (s : string) : bool :=
  match s with
  | EmptyString => true
  | String c s' => f c && all_bytes f s'
  end.

Fixpoint canonical_go (upper : bool) (s : string) : string :=
  match s with
  | EmptyString => ""
  | String c s' =>
      let c' := if upper then upper_byte c else lower_byte c in
      String c' (canonical_go (Ascii.eqb c' "-") s')
  end.

(** [textproto.CanonicalMIMEHeaderKey]: a key that is not a token is kept. *)
Definition CanonicalHeaderKey (k : string) : string :=
  if all_bytes is_token k then canonical_go true k else k.

Definition header_Get (h : header) (k : string) : string :=
  match h !! CanonicalHeaderKey k with
  | Some (v :: _) => v
  | _ => ""
  end.
Definition header_Set (k v : string) (h : header) : header := <[CanonicalHeaderKey k := [v]]> h.
Definition header_Add (k v : string) (h : header) : header :=
  <[CanonicalHeaderKey k := default [] (h !! CanonicalHeaderKey k) ++ [v]]> h.
Definition header_Del (k : string) (h : header) : header := delete (CanonicalHeaderKey k) h.

Lemma header_Get_Set k v h : header_Get (header_Set k v h) k = v.
Proof. unfold header_Get, header_Set. by rewrite lookup_insert_eq. Qed.

Lemma header_Get_Set_ne k k' v h :
  CanonicalHeaderKey k ≠ CanonicalHeaderKey k' → header_Get (header_Set k v h) k' = header_Get h k'.
Proof. intros. unfold header_Get, header_Set. by rewrite lookup_insert_ne. Qed.

Lemma header_Get_Del k h : header_Get (header_Del k h) k = "".
Proof. unfold header_Get, header_Del. by rewrite lookup_delete_eq. Qed.
#[export] Hint Rewrite header_Get_Set header_Get_Del : gorp.

(** ** Strings cut at a separator *)

Lemma Cut_app sep x y : contains_byte sep x = false → Cut sep (x +:+ String sep y) = (x, y, true).
Proof. intros H. unfold Cut. rewrite index_byte_app by done. by rewrite take_length_app, drop_S_app. Qed.

Lemma all_bytes_impl (f g : Ascii.ascii → bool) s :
  (∀ c, f c = true → g c = true) → all_bytes f s = true → all_bytes g s = true.
Proof.
  intros H. induction s as [|c s IH]; simpl; [done|]. intros [Hc Hs]%andb_true_iff. by rewrite H, IH.
Qed.

Lemma all_bytes_app f a b : all_bytes f (a +:+ b) = all_bytes f a && all_bytes f b.
Proof. induction a as [|c a IH]; [done|]. cbn [String.append all_bytes]. by rewrite IH, andb_assoc. Qed.

Lemma Split_app sep x y : contains_byte sep x = false → Split sep (x +:+ String sep y) = x :: Split sep y.
Proof.
  induction x as [|c x IH]; simpl; [by rewrite Ascii.eqb_refl|].
  intros [Hc Hx]%orb_false_iff. by rewrite Hc, (IH Hx).
Qed.

Lemma Split_none sep x : contains_byte sep x = false → Split sep x = [x].
Proof. induction x as [|c x IH]; simpl; [done|]. intros [Hc Hx]%orb_false_iff. by rewrite Hc, (IH Hx). Qed.

Lemma all_bytes_contains f b s : f b = false → all_bytes f s = true → contains_byte b s = false.
Proof.
  intros Hf. induction s as [|c s IH]; simpl; [done|]. intros [Hc Hs]%andb_true_iff.
  rewrite (IH Hs), orb_false_r. destruct (Ascii.eqb_spec c b); [congruence|done].
Qed.

Lemma Split_Join sep l :
  l ≠ [] → Forall (λ x, contains_byte sep x = false) l → Split sep (Join (String sep "") l) = l.
Proof.
  intros Hne. induction 1 as [|x l Hx Hl IH]; [done|]. destruct l as [|y l]; [by apply Split_none|].
  change (Join _ (x :: y :: l)) with (x +:+ String sep (Join (String sep "") (y :: l))).
  by rewrite Split_app, IH.
Qed.

Lemma TrimSpace_id s : all_bytes (λ c, negb (is_space c)) s = true → TrimSpace s = s.
Proof.
  unfold TrimSpace. intros H.
  assert (trim_left_space s = s) as ->.
  { destruct s as [|c s]; [done|]. simpl in *. apply andb_true_iff in H as [Hc%negb_true_iff _]. by rewrite Hc. }
  induction s as [|c s IH]; [done|]. simpl in *. apply andb_true_iff in H as [Hc%negb_true_iff Hs].
  rewrite (IH Hs), Hc. by destruct s.
Qed.

(** ** Requests

    [r_query] and [r_cookies] are the decoded views [req.URL.Query()] and
    [req.Cookies()], in order; [r_length] is [ContentLength] (-1: unknown). *)
Record request : Type := mkRequest {
  r_method : string;
  r_host : string;
  r_path : string;
  r_query : list (string * string);
  r_cookies : list (string * string);
  r_header : header;
  r_remote : string;
  r_length : Z;
  r_has_body : bool;
  r_tls : bool;
}.

Definition set_path (p : string) (r : request) : request :=
  mkRequest (r_method r) (r_host r) p (r_query r) (r_cookies r) (r_header r) (r_remote r)
            (r_length r) (r_has_body r) (r_tls r).
Definition set_header (h : header) (r : request) : request :=
  mkRequest (r_method r) (r_host r) (r_path r) (r_query r) (r_cookies r) h (r_remote r)
            (r_length r) (r_has_body r) (r_tls r).

Fixpoint assoc (k : string) (l : list (string * string)) : option string :=
  match l with
  | [] => None
  | (k', v) :: l' => if String.eqb k' k then Some v else assoc k l'
  end.

Definition r_Cookie (r : request) (name : string) : option string := assoc name (r_cookies r).
Definition r_QueryGet (r : request) (name : string) : string := default "" (assoc name (r_query r)).

(** ** Response writers

    [w_reply] is what was sent: the status and the header map at the time of
    the first final [WriteHeader]; later calls and header changes do not reach
    the client.  Informational statuses are passed on and do not count. *)
Record writer : Type := mkWriter {
  w_header : header;
  w_reply : option (Z * header);
  w_body : string;
}.

Definition new_writer : writer := mkWriter ∅ None "".

Definition WriteHeader (code : Z) (w : writer) : writer :=
  if (100 <=? code) && (code <=? 199) && negb (code =? 101) then w
  else match w_reply w with
       | Some _ => w
       | None => mkWriter (w_header w) (Some (code, w_header w)) (w_body w)
       end.

Definition Write (body : string) (w : writer) : writer :=
  let w := match w_reply w with None => WriteHeader 200 w | Some _ => w end in
  mkWriter (w_header w) (w_reply w) (w_body w +:+ body).

Definition map_header (f : header → header) (w : writer) : writer :=
  mkWriter (f (w_header w)) (w_reply w) (w_body w).

Definition newline : string := String (ascii_of_nat 10) "".

(** [http.Error] *)
Definition http_Error (msg : string) (code : Z) (w : writer) : writer :=
  Write (msg +:+ newline)
    (WriteHeader code
      (map_header (λ h, header_Set "X-Content-Type-Options" "nosniff"
         (header_Set "Content-Type" "text/plain; charset=utf-8" (header_Del "Content-Length" h))) w)).

(** [http.NotFound] *)
Definition http_NotFound (w : writer) : writer := http_Error "404 page not found" 404 w.

Definition status_of (w : writer) : option Z := fst <$> w_reply w.

Lemma http_Error_status msg code w :
  200 ≤ code → w_reply w = None → status_of (http_Error msg code w) = Some code.
Proof.
  intros Hc Hw. unfold http_Error, Write, WriteHeader, status_of. simpl.
  rewrite Hw. bsplit; simpl; done.
Qed.

(** ** Handlers

    A handler runs against a world [W] (the state shared by requests), the
    request (a pointer in Go: later handlers see its changes) and the writer. *)
Definition handler (W : Type) : Type := W → request → writer → W * request * writer.
