(* ===== verification/Base64.v ===== *)
(** * [encoding/base64]

    The standard alphabet with padding ([StdEncoding]) and the URL alphabet
    without padding ([RawURLEncoding]).  As in Go, decoding ignores carriage
    returns and newlines. *)

From S2P Require Import Prelude GoStd.
Open Scope Z_scope.

Inductive encoding : Type := StdEncoding | RawURLEncoding.

Definition sextet (e : encoding) (n : Z) : Ascii.ascii :=
  if n <? 26 then chr (65 + n)
  else if n <? 52 then chr (71 + n)
  else if n <? 62 then chr (n - 4)
  else match e with
       | StdEncoding => if n =? 62 then "+"%char else "/"%char
       | RawURLEncoding => if n =? 62 then "-"%char else "_"%char
       end.

Definition unsextet (e : encoding) (c : Ascii.ascii) : option Z :=
  let z := ord c in
  if (65 <=? z) && (z <=? 90) then Some (z - 65)
  else if (97 <=? z) && (z <=? 122) then Some (z - 71)
  else if (48 <=? z) && (z <=? 57) then Some (z + 4)
  else match e with
       | StdEncoding => if z =? 43 then Some 62 else if z =? 47 then Some 63 else None
       | RawURLEncoding => if z =? 45 then Some 62 else if z =? 95 then Some 63 else None
       end.

Definition pad (e : encoding) (n : nat) : string :=
  match e, n with
  | StdEncoding, 1%nat => "="
  | StdEncoding, 2%nat => "=="
  | _, _ => ""
  end.

Fixpoint EncodeToString (e : encoding) (s : string) : string :=
  match s with
  | String a (String b (String c r)) =>
      let n := ord a * 65536 + ord b * 256 + ord c in
      String (sextet e (n / 262144)) (String (sextet e (n / 4096 mod 64))
        (String (sextet e (n / 64 mod 64)) (String (sextet e (n mod 64)) (EncodeToString e r))))
  | String a (String b EmptyString) =>
      let n := ord a * 65536 + ord b * 256 in
      String (sextet e (n / 262144)) (String (sextet e (n / 4096 mod 64))
        (String (sextet e (n / 64 mod 64)) (pad e 1)))
  | String a EmptyString =>
      let n := ord a * 65536 in
      String (sextet e (n / 262144)) (String (sextet e (n / 4096 mod 64)) (pad e 2))
  | EmptyString => ""
  end.

Definition bytes3 (n : Z) : string -> string :=
  λ r, String (chr (n / 65536)) (String (chr (n / 256 mod 256)) (String (chr (n mod 256)) r)).

(** The last quantum: two or three digits, with the padding the encoding wants. *)
Definition decode_tail (e : encoding) (s : string) : option string :=
  match s with
  | String w (String x r) =>
      match unsextet e w, unsextet e x with
      | Some vw, Some vx =>
          if String.eqb r (pad e 2)
          then Some (String (chr ((vw * 262144 + vx * 4096) / 65536)) "")
          else match r with
               | String y r' =>
                   match unsextet e y with
                   | Some vy =>
                       let n := vw * 262144 + vx * 4096 + vy * 64 in
                       if String.eqb r' (pad e 1)
                       then Some (String (chr (n / 65536)) (String (chr (n / 256 mod 256)) ""))
                       else None
                   | None => None
                   end
               | EmptyString => None
               end
      | _, _ => None
      end
  | _ => None
  end.

Fixpoint decode_go (e : encoding) (s : string) : option string :=
  match s with
  | EmptyString => Some ""
  | String w (String x (String y (String z r))) =>
      match unsextet e w, unsextet e x, unsextet e y, unsextet e z with
      | Some vw, Some vx, Some vy, Some vz =>
          bytes3 (vw * 262144 + vx * 4096 + vy * 64 + vz) <$> decode_go e r
      | _, _, _, _ => decode_tail e s
      end
  | _ => decode_tail e s
  end.

Fixpoint strip_newlines (s : string) : string :=
  match s with
  | EmptyString => ""
  | String c s' => if (ord c =? 10) || (ord c =? 13) then strip_newlines s' else String c (strip_newlines s')
  end.

Definition DecodeString (e : encoding) (s : string) : option string := decode_go e (strip_newlines s).

(** ** Round trip *)
Lemma unsextet_sextet e n : 0 ≤ n < 64 → unsextet e (sextet e n) = Some n.
Proof.
  intros Hn. unfold unsextet, sextet.
  destruct (Z.ltb_spec n 26); [rewrite ord_chr by lia; bsplit; f_equal; lia|].
  destruct (Z.ltb_spec n 52); [rewrite ord_chr by lia; bsplit; f_equal; lia|].
  destruct (Z.ltb_spec n 62); [rewrite ord_chr by lia; bsplit; f_equal; lia|].
  assert (n = 62 ∨ n = 63) as [-> | ->] by lia; by destruct e.
Qed.

Lemma sextet_not_newline e n : 0 ≤ n < 64 → (ord (sextet e n) =? 10) || (ord (sextet e n) =? 13) = false.
Proof.
  intros Hn. unfold sextet.
  destruct (Z.ltb_spec n 26); [rewrite ord_chr by lia; bsplit; done|].
  destruct (Z.ltb_spec n 52); [rewrite ord_chr by lia; bsplit; done|].
  destruct (Z.ltb_spec n 62); [rewrite ord_chr by lia; bsplit; done|].
  assert (n = 62 ∨ n = 63) as [-> | ->] by lia; by destruct e.
Qed.

Ltac sextets := repeat rewrite unsextet_sextet by (Z.to_euclidean_division_equations; lia).

Lemma strip_cons c s :
  (ord c =? 10) || (ord c =? 13) = false → strip_newlines (String c s) = String c (strip_newlines s).
Proof. intros H. simpl. by rewrite H. Qed.

(** Induction on a string by groups of three bytes. *)
Lemma string_ind3 (P : string → Prop) :
  P "" → (∀ a, P (String a "")) → (∀ a b, P (String a (String b ""))) →
  (∀ a b c r, P r → P (String a (String b (String c r)))) → ∀ s, P s.
Proof.
  intros H0 H1 H2 H3 s.
  assert (∀ n t, (String.length t <= n)%nat → P t) as H; [|by apply (H (String.length s))].
  induction n as [|n IH]; intros [|a [|b [|c r]]] Hl; simpl in *; auto; try lia.
  apply H3, IH. lia.
Qed.

Ltac ranges3 :=
  repeat match goal with
  | a : Ascii.ascii |- _ =>
      lazymatch goal with
      | _ : 0 ≤ ord a < 256 |- _ => fail
      | _ => pose proof (ord_range a)
      end
  end.

Lemma chr_of a z : z = ord a → chr z = a.
Proof. intros ->. apply chr_ord. Qed.

Lemma strip_encode e s : strip_newlines (EncodeToString e s) = EncodeToString e s.
Proof.
  induction s as [|a|a b|a b c r IH] using string_ind3; ranges3; cbn [EncodeToString]; cbv zeta; try done;
    repeat (rewrite strip_cons by (apply sextet_not_newline; Z.to_euclidean_division_equations; lia);
            f_equal); try done; by destruct e.
Qed.

Lemma decode_go_encode e s : decode_go e (EncodeToString e s) = Some s.
Proof.
  induction s as [|a|a b|a b c r IH] using string_ind3; ranges3; cbn [EncodeToString]; cbv zeta; try done.
  - assert (decode_go e (String (sextet e (ord a * 65536 / 262144))
              (String (sextet e (ord a * 65536 / 4096 mod 64)) (pad e 2))) =
            decode_tail e (String (sextet e (ord a * 65536 / 262144))
              (String (sextet e (ord a * 65536 / 4096 mod 64)) (pad e 2)))) as ->.
    { destruct e; [|done]. simpl. by sextets. }
    cbn [decode_tail]. sextets. rewrite String.eqb_refl. do 2 f_equal. apply chr_of.
    Z.to_euclidean_division_equations; lia.
  - set (n := ord a * 65536 + ord b * 256). set (q := String (sextet e (n / 262144)) _).
    assert (decode_go e q = decode_tail e q) as ->.
    { subst q n. destruct e; [|done]. simpl. by sextets. }
    subst q. cbn [decode_tail].
    assert (String.eqb (String (sextet e (n / 64 mod 64)) (pad e 1)) (pad e 2) = false) as ->.
    { apply String.eqb_neq. destruct e; [|done]. intros [= Hq].
      assert (unsextet StdEncoding (sextet StdEncoding (n / 64 mod 64)) = Some (n / 64 mod 64)) as Hu
        by (apply unsextet_sextet; Z.to_euclidean_division_equations; lia).
      rewrite Hq in Hu. done. }
    subst n. sextets. rewrite String.eqb_refl. f_equal.
    f_equal; [|f_equal]; apply chr_of; Z.to_euclidean_division_equations; lia.
  - cbn [decode_go]. sextets. rewrite IH. simpl. unfold bytes3. f_equal.
    f_equal; [|f_equal; [|f_equal]]; apply chr_of; Z.to_euclidean_division_equations; lia.
Qed.

Lemma DecodeString_Encode e s : DecodeString e (EncodeToString e s) = Some s.
Proof. unfold DecodeString. rewrite strip_encode. apply decode_go_encode. Qed.
