(* ===== verification/Backend.v ===== *)
(** * Backends: connection accounting, circuit breaker, health checks, proxying

    Models [pkg/backend/backend.go].  A [Backend] record holds the fields the
    methods read or write; every method is a function on it.  [now] is
    [time.Now().UnixNano()]; the upstream round trip, the dial and the hijack are
    arguments, since they are the outside world.  The file [CasCounter] has the
    interleaving model of the lock-free connection counter. *)

From S2P Require Import Prelude GoStd GoHttp.
Open Scope Z_scope.

(** ** State *)
Inductive breaker : Type := breakerClosed | breakerOpen | breakerHalfOpen.
#[global] Instance breaker_eq_dec : EqDecision breaker.
Proof. solve_decision. Defined.

Record Backend : Type := mkBackend {
  Name : string;
  URLHost : option string;          (* [None]: a nil URL *)
  MaxConnections : Z;
  HealthCheckPath : string;
  ActiveConnections : Z;
  Healthy : bool;
  retryAfter : Z;
  failureCount : Z;
  breakerState : breaker;
}.

Definition set_active (n : Z) (b : Backend) : Backend :=
  mkBackend (Name b) (URLHost b) (MaxConnections b) (HealthCheckPath b) n (Healthy b)
            (retryAfter b) (failureCount b) (breakerState b).
Definition set_healthy (h : bool) (b : Backend) : Backend :=
  mkBackend (Name b) (URLHost b) (MaxConnections b) (HealthCheckPath b) (ActiveConnections b) h
            (retryAfter b) (failureCount b) (breakerState b).
Definition set_retryAfter (t : Z) (b : Backend) : Backend :=
  mkBackend (Name b) (URLHost b) (MaxConnections b) (HealthCheckPath b) (ActiveConnections b)
            (Healthy b) t (failureCount b) (breakerState b).
Definition set_failures (n : Z) (b : Backend) : Backend :=
  mkBackend (Name b) (URLHost b) (MaxConnections b) (HealthCheckPath b) (ActiveConnections b)
            (Healthy b) (retryAfter b) n (breakerState b).
Definition set_breaker (s : breaker) (b : Backend) : Backend :=
  mkBackend (Name b) (URLHost b) (MaxConnections b) (HealthCheckPath b) (ActiveConnections b)
            (Healthy b) (retryAfter b) (failureCount b) s.

(** [backend.New]: the fields it sets; the rest are Go's zero values. *)
Definition newBackend (name : string) (host : option string) : Backend :=
  set_healthy true (mkBackend name host 0 "" 0 false 0 0 breakerClosed).

Definition second : Z := 1000000000.

(** ** Metrics ([pkg/metrics]): what the backend reports *)
Record metrics : Type := mkMetrics {
  m_requests : list (string * string * Z);   (* ObserveRequest: backend, method, status *)
  m_errors : list string;                    (* ObserveBackendError *)
  m_active : gmap string Z;                  (* SetActiveConnections *)
}.
Definition no_metrics : metrics := mkMetrics [] [] ∅.

Definition ObserveRequest (backend method : string) (status : Z) (m : metrics) : metrics :=
  mkMetrics (m_requests m ++ [(backend, method, status)]) (m_errors m) (m_active m).
Definition ObserveBackendError (backend : string) (m : metrics) : metrics :=
  mkMetrics (m_requests m) (m_errors m ++ [backend]) (m_active m).
Definition SetActiveConnections (backend : string) (count : Z) (m : metrics) : metrics :=
  mkMetrics (m_requests m) (m_errors m) (<[backend := count]> (m_active m)).

(** ** Connection accounting, without interference from other goroutines *)
Definition TryAcquire (b : Backend) : bool * Backend :=
  if MaxConnections b <=? 0 then (true, b)
  else
    let current := ActiveConnections b in
    if MaxConnections b <=? current then (false, b)
    else (true, set_active (int64 (current + 1)) b).

Definition Release (b : Backend) (m : metrics) : Backend * metrics :=
  if 0 <? ActiveConnections b then
    let active := int64 (ActiveConnections b - 1) in
    (set_active active b, SetActiveConnections (Name b) active m)
  else (b, m).

(** ** Circuit breaker

    Each call is one step here.  In [Available] the compare-and-swap to half-open and
    the store of [Healthy] are two atomic operations; what happens when another
    goroutine's [openCircuit] falls between them is not represented. *)
Definition Available (now : Z) (b : Backend) : bool * Backend :=
  if negb (String.eqb (HealthCheckPath b) "") then (Healthy b, b)
  else
    match breakerState b with
    | breakerClosed => (Healthy b, b)
    | breakerOpen =>
        if now <? retryAfter b then (false, b)
        else (true, set_healthy true (set_breaker breakerHalfOpen b))
    | breakerHalfOpen => (false, b)
    end.

Definition State (b : Backend) : string :=
  if negb (Healthy b) then "open"
  else match breakerState b with
       | breakerOpen => "open"
       | breakerHalfOpen => "half-open"
       | breakerClosed => "closed"
       end.

Definition Retry (now : Z) (b : Backend) : bool * Backend := Available now b.

Definition openCircuit (now : Z) (b : Backend) : Backend :=
  set_breaker breakerOpen
    (set_retryAfter (int64 (now + 30 * second)) (set_failures 0 (set_healthy false b))).

(** The end of the [ModifyResponse] hook: a response below 500 was received. *)
Definition recordSuccess (b : Backend) : Backend :=
  let b := set_failures 0 b in
  if String.eqb (HealthCheckPath b) "" && bool_decide (breakerState b = breakerHalfOpen)
  then set_retryAfter 0 (set_healthy true (set_breaker breakerClosed b))
  else b.

(** The breaker part of the [ErrorHandler] hook. *)
Definition recordFailure (now : Z) (b : Backend) : Backend :=
  if String.eqb (HealthCheckPath b) "" then
    match breakerState b with
    | breakerHalfOpen => openCircuit now b
    | breakerClosed =>
        let count := int32 (failureCount b + 1) in
        let b := set_failures count b in
        if 5 <=? count then openCircuit now b else b
    | breakerOpen => b
    end
  else b.

(** ** Active health checks *)
Definition setHealth (healthy : bool) (b : Backend) : Backend :=
  let b := set_healthy healthy b in
  if healthy then set_breaker breakerClosed (set_retryAfter 0 (set_failures 0 b))
  else set_breaker breakerOpen b.

(** [probe] is the outcome of the request of one check: an error before or
    during the round trip, or the response's status. *)
Definition checkHealth (probe : result string Z) (b : Backend) : Backend :=
  match URLHost b with
  | None => setHealth false b
  | Some _ =>
      match probe with
      | Err _ => setHealth false b
      | Ok code => if (code <? 200) || (300 <=? code) then setHealth false b else setHealth true b
      end
  end.

(** [RunHealthChecks] up to cancellation: one check at start, one per tick. *)
Definition RunHealthChecks (probe0 : result string Z) (ticks : list (result string Z)) (b : Backend) : Backend :=
  if String.eqb (HealthCheckPath b) "" then b
  else foldl (λ b p, checkHealth p b) (checkHealth probe0 b) ticks.

(** ** The status-recording response writer *)
Record metricsResponseWriter : Type := mkMRW { mrw_inner : writer; mrw_status : Z }.

Definition mrw_WriteHeader (status : Z) (w : metricsResponseWriter) : metricsResponseWriter :=
  if negb (mrw_status w =? 0) then w
  else if (100 <=? status) && (status <? 200) && negb (status =? 101)
  then mkMRW (WriteHeader status (mrw_inner w)) (mrw_status w)
  else mkMRW (WriteHeader status (mrw_inner w)) status.

Definition mrw_Write (body : string) (w : metricsResponseWriter) : metricsResponseWriter :=
  let w := if mrw_status w =? 0 then mrw_WriteHeader 200 w else w in
  mkMRW (Write body (mrw_inner w)) (mrw_status w).

Definition mrw_map_header (f : header → header) (w : metricsResponseWriter) : metricsResponseWriter :=
  mkMRW (map_header f (mrw_inner w)) (mrw_status w).

(** [http.Error] on the recording writer. *)
Definition mrw_Error (msg : string) (code : Z) (w : metricsResponseWriter) : metricsResponseWriter :=
  mrw_Write (msg +:+ newline)
    (mrw_WriteHeader code
      (mrw_map_header (λ h, header_Set "X-Content-Type-Options" "nosniff"
        (header_Set "Content-Type" "text/plain; charset=utf-8" (header_Del "Content-Length" h))) w)).

(** ** Proxying one request

    [upstream] is the transport: a response or an error, which is a timeout or
    not.  [ModifyResponse] hooks rewrite the response or fail. *)
Record response : Type := mkResponse {
  resp_status : Z;
  resp_header : header;
  resp_body : string;
}.

Inductive transportError : Type := TimeoutError (msg : string) | OtherError (msg : string).

Definition modifier : Type := response → result string response.

Fixpoint runModifiers (fs : list modifier) (r : response) : result string response :=
  match fs with
  | [] => Ok r
  | f :: fs' => match f r with Err e => Err e | Ok r' => runModifiers fs' r' end
  end.

(** The [ModifyResponse] hook of [backend.New]. *)
Definition modifyResponse (fs : list modifier) (r : response) (b : Backend) : result string response * Backend :=
  match runModifiers fs r with
  | Err e => (Err e, b)
  | Ok r' =>
      if 500 <=? resp_status r' then (Err "5xx http code error", b)
      else (Ok r', recordSuccess b)
  end.

(** The [ErrorHandler] hook of [backend.New]. *)
Definition errorHandler (now : Z) (err : transportError)
    (b : Backend) (m : metrics) (w : metricsResponseWriter) : Backend * metrics * metricsResponseWriter :=
  let '(status, message) :=
    match err with
    | TimeoutError _ => (504, "backend timeout")
    | OtherError _ => (502, "backend unavailable")
    end in
  (recordFailure now b, ObserveBackendError (Name b) m, mrw_Error message status w).

(** [httputil.ReverseProxy.ServeHTTP] with these hooks: the response's headers
    are added to the writer's, then its status and body. *)
Definition copyHeader (src : header) (dst : header) : header :=
  union_with (λ a c, Some (a ++ c)) dst src.

Definition reverseProxy (now : Z) (fs : list modifier) (upstream : result transportError response)
    (b : Backend) (m : metrics) (w : metricsResponseWriter) : Backend * metrics * metricsResponseWriter :=
  match upstream with
  | Err e => errorHandler now e b m w
  | Ok r =>
      match modifyResponse fs r b with
      | (Err e, b') => errorHandler now (OtherError e) b' m w
      | (Ok r', b') =>
          (b', m, mrw_Write (resp_body r')
                   (mrw_WriteHeader (resp_status r') (mrw_map_header (copyHeader (resp_header r')) w)))
      end
  end.

(** The [Proxy] handler of [backend.New]. *)
Definition Proxy (now : Z) (fs : list modifier) (upstream : result transportError response)
    (method : string) (b : Backend) (m : metrics) (w : writer) : Backend * metrics * writer :=
  match TryAcquire b with
  | (false, b) => (b, m, http_Error "backend unavailable" 503 w)
  | (true, b) =>
      let m := SetActiveConnections (Name b) (ActiveConnections b) m in
      let '(b, m, rw) := reverseProxy now fs upstream b m (mkMRW w 0) in
      let '(b, m) := Release b m in
      let m := SetActiveConnections (Name b) (ActiveConnections b) m in
      let status := if mrw_status rw =? 0 then 200 else mrw_status rw in
      (b, ObserveRequest (Name b) method status m, mrw_inner rw)
  end.

(** [Connect]: a CONNECT tunnel.  [dial] is the outcome of the TCP dial,
    [hijack] whether the writer supports hijacking and whether the hijack
    works, [established] whether the 200 line was written. *)
Inductive hijackOutcome : Type := NoHijacker | HijackError (msg : string) | Hijacked.

Definition connectTimeout (t : Z) : Z := if t <=? 0 then 30 * second else t.

Definition Connect (dial : result string unit) (hijack : hijackOutcome) (established : result string unit)
    (method : string) (b : Backend) (m : metrics) (w : writer) : Backend * metrics * writer * result string unit :=
  match TryAcquire b with
  | (false, b) => (b, m, http_Error "backend unavailable" 503 w, Err "reached max_connections")
  | (true, b) =>
      let m := SetActiveConnections (Name b) (ActiveConnections b) m in
      let finish (status : Z) (m : metrics) (r : result string unit) :=
        let '(b, m) := Release b m in
        (b, ObserveRequest (Name b) method status m, w, r) in
      match URLHost b with
      | None | Some EmptyString =>
          finish 502 (ObserveBackendError (Name b) m) (Err "no valid CONNECT target")
      | Some _ =>
          match dial with
          | Err e => finish 502 (ObserveBackendError (Name b) m) (Err e)
          | Ok _ =>
              match hijack with
              | NoHijacker => finish 502 m (Err "HTTP CONNECT is not supported by this listener")
              | HijackError e => finish 502 m (Err e)
              | Hijacked =>
                  match established with
                  | Err e => finish 502 m (Err e)
                  | Ok _ => finish 200 m (Ok tt)
                  end
              end
          end
      end
  end.

(** ** The reachable states of a backend

    [bstep] is one method call on a backend; a release follows an acquisition,
    so it happens with a positive count, and checks run only on backends that
    have a health-check path. *)
Definition configured (b : Backend) : Prop :=
  ActiveConnections b = 0 ∧ failureCount b = 0 ∧ breakerState b = breakerClosed ∧
  Healthy b = String.eqb (HealthCheckPath b) "" ∧ MaxConnections b ≤ MaxInt64.

Inductive bstep : Backend → Backend → Prop :=
  | step_available now b : bstep b (Available now b).2
  | step_acquire b : bstep b (TryAcquire b).2
  | step_release m b : 0 < ActiveConnections b → bstep b (Release b m).1
  | step_success b : bstep b (recordSuccess b)
  | step_failure now b : bstep b (recordFailure now b)
  | step_check probe b : HealthCheckPath b ≠ "" → bstep b (checkHealth probe b).

(** The passive breaker's flag and state agree. *)
Definition breaker_coherent (b : Backend) : Prop :=
  HealthCheckPath b = "" →
  Healthy b = match breakerState b with breakerOpen => false | _ => true end.

Record wf (b : Backend) : Prop := {
  wf_max : MaxConnections b ≤ MaxInt64;
  wf_active : 0 ≤ ActiveConnections b ≤ Z.max 0 (MaxConnections b);
  wf_failures : 0 ≤ failureCount b < 5;
  wf_breaker : breaker_coherent b;
}.

Lemma int64_id z : - 2 ^ 63 ≤ z ≤ MaxInt64 → int64 z = z.
Proof. intros. apply wrap_id; unfold MaxInt64 in *; lia. Qed.

Lemma int32_id z : - 2 ^ 31 ≤ z < 2 ^ 31 → int32 z = z.
Proof. intros. apply wrap_id; lia. Qed.

Ltac backend_cases :=
  repeat match goal with
  | |- context [if ?c then _ else _] => destruct c eqn:?
  | |- context [match breakerState ?b with _ => _ end] => destruct (breakerState b) eqn:?
  end.

Lemma configured_wf b : configured b → wf b.
Proof.
  intros (Ha & Hf & Hb & Hh & Hm). split; [done|lia|lia|].
  intros Hp. by rewrite Hb, Hh, Hp.
Qed.

Lemma Available_wf now b : wf b → wf (Available now b).2.
Proof.
  intros [H1 H2 H3 H4]. unfold Available. backend_cases; split; simpl; auto; done.
Qed.

Lemma TryAcquire_wf b : wf b → wf (TryAcquire b).2.
Proof.
  intros [H1 H2 H3 H4]. unfold TryAcquire.
  destruct (Z.leb_spec (MaxConnections b) 0); [done|].
  destruct (Z.leb_spec (MaxConnections b) (ActiveConnections b)); [done|].
  split; simpl; try done. rewrite int64_id; unfold MaxInt64 in *; lia.
Qed.

Lemma Release_wf m b : wf b → wf (Release b m).1.
Proof.
  intros [H1 H2 H3 H4]. unfold Release.
  destruct (Z.ltb_spec 0 (ActiveConnections b)); [|done].
  split; simpl; try done. rewrite int64_id; unfold MaxInt64 in *; lia.
Qed.

Lemma recordSuccess_wf b : wf b → wf (recordSuccess b).
Proof.
  intros [H1 H2 H3 H4]. unfold recordSuccess. backend_cases; split; simpl; try done; lia.
Qed.

Lemma openCircuit_wf now b : wf b → wf (openCircuit now b).
Proof. intros [H1 H2 H3 H4]. split; simpl; try done; lia. Qed.

Lemma recordFailure_wf now b : wf b → wf (recordFailure now b).
Proof.
  intros Hwf. unfold recordFailure. destruct (String.eqb _ _); [|done].
  destruct (breakerState b) eqn:Hs; [|done|by apply openCircuit_wf].
  destruct Hwf as [H1 H2 H3 H4]. rewrite int32_id by lia.
  destruct (Z.leb_spec 5 (failureCount b + 1)); split; simpl; try done; try lia.
Qed.

Lemma checkHealth_wf probe b : HealthCheckPath b ≠ "" → wf b → wf (checkHealth probe b).
Proof.
  intros Hp [H1 H2 H3 H4]. unfold checkHealth, setHealth.
  destruct (URLHost b); [destruct probe; backend_cases|]; split; simpl; try done; lia.
Qed.

Lemma bstep_wf b b' : bstep b b' → wf b → wf b'.
Proof.
  destruct 1; eauto using Available_wf, TryAcquire_wf, Release_wf, recordSuccess_wf,
    recordFailure_wf, checkHealth_wf.
Qed.

(** C1: whatever sequence of calls a configured backend receives, its
    connection count stays between zero and its limit, its failure count stays
    below the threshold of five, and the health flag of the passive breaker
    agrees with the breaker's state. *)
Theorem reachable_wf (b b' : Backend) : configured b → rtc bstep b b' → wf b'.
Proof.
  intros Hc Hr. apply configured_wf in Hc. induction Hr; eauto using bstep_wf.
Qed.

Definition sample_backend : Backend :=
  mkBackend "api" (Some "10.0.0.1:80") 2 "" 0 true 0 0 breakerClosed.

Lemma reachable_wf_witness :
  wf (recordFailure 7 (TryAcquire sample_backend).2).
Proof.
  apply (reachable_wf sample_backend).
  - by repeat split.
  - eapply rtc_l; [apply step_acquire|]. apply rtc_once, step_failure.
Defined.

(** ** The circuit breaker *)

(** [n] failures in a row, at the times [ts]. *)
Definition failures (ts : list Z) (b : Backend) : Backend := foldl (λ b t, recordFailure t b) b ts.

Definition passive (b : Backend) : Prop := HealthCheckPath b = "".

Lemma recordFailure_closed now b :
  passive b → breakerState b = breakerClosed → 0 ≤ failureCount b < 4 →
  recordFailure now b = set_failures (failureCount b + 1) b.
Proof.
  intros Hp Hs Hf. unfold recordFailure. rewrite Hp, Hs. simpl. rewrite int32_id by lia.
  destruct (Z.leb_spec 5 (failureCount b + 1)); [lia|done].
Qed.

Lemma failures_closed ts b :
  passive b → breakerState b = breakerClosed → 0 ≤ failureCount b →
  failureCount b + Z.of_nat (length ts) < 5 →
  failures ts b = set_failures (failureCount b + Z.of_nat (length ts)) b.
Proof.
  revert b; induction ts as [|t ts IH]; intros b Hp Hs H0 Hlt; simpl in *.
  - rewrite Z.add_0_r. by destruct b.
  - change (failures (t :: ts) b) with (failures ts (recordFailure t b)).
    rewrite recordFailure_closed by (done || lia).
    rewrite IH; simpl; try done; try lia. unfold set_failures; simpl. f_equal. lia.
Qed.

(** A closed breaker stays closed, and keeps the backend selectable, for
    fewer than five consecutive failures; the fifth opens it, and the backend
    is not selectable during the thirty seconds that follow. *)
Theorem breaker_trips_on_fifth (b : Backend) (ts : list Z) (t : Z) :
  passive b → breakerState b = breakerClosed → Healthy b = true → failureCount b = 0 →
  0 ≤ t ≤ MaxInt64 - 30 * second →
  ((length ts < 5)%nat → ∀ now, Available now (failures ts b) = (true, failures ts b)) ∧
  (length ts = 4%nat → ∀ now,
     breakerState (failures (ts ++ [t]) b) = breakerOpen ∧
     (now < t + 30 * second → (Available now (failures (ts ++ [t]) b)).1 = false) ∧
     (t + 30 * second ≤ now → (Available now (failures (ts ++ [t]) b)).1 = true)).
Proof.
  intros Hp Hs Hh Hf Ht. split.
  - intros Hlen now. rewrite failures_closed by (done || lia).
    unfold Available. simpl. by rewrite Hp, Hs, Hh.
  - intros Hlen now. unfold failures. rewrite foldl_app. fold (failures ts b).
    rewrite failures_closed by (done || lia). rewrite Hf, Hlen. simpl.
    unfold recordFailure. simpl. rewrite Hp, Hs. simpl. split; [done|].
    unfold Available. simpl. rewrite Hp. simpl. rewrite int64_id by (unfold second in *; lia).
    split; intros; bsplit; done.
Qed.

Lemma breaker_trips_on_fifth_witness :
  breakerState (failures [1; 2; 3; 4; 5] (newBackend "a" None)) = breakerOpen ∧
  (Available 30000000004 (failures [1; 2; 3; 4; 5] (newBackend "a" None))).1 = false.
Proof.
  destruct (breaker_trips_on_fifth (newBackend "a" None) [1; 2; 3; 4] 5) as [_ H];
    try reflexivity; [vm_compute; intuition discriminate|].
  destruct (H eq_refl 30000000004) as (H1 & H2 & _).
  split; [exact H1|apply H2; reflexivity].
Defined.

(** Successive calls to [Available] at the times [ts], with their answers. *)
Fixpoint run_available (ts : list Z) (b : Backend) : list bool * Backend :=
  match ts with
  | [] => ([], b)
  | t :: ts' =>
      let '(a, b1) := Available t b in
      let '(l, b2) := run_available ts' b1 in
      (a :: l, b2)
  end.

Lemma half_open_unavailable ts b :
  passive b → breakerState b = breakerHalfOpen →
  run_available ts b = (replicate (length ts) false, b).
Proof.
  intros Hp Hs. induction ts as [|t ts IH]; [done|]. simpl.
  unfold Available at 1. rewrite Hp, Hs. simpl. by rewrite IH.
Qed.

Lemma open_before ts b :
  passive b → breakerState b = breakerOpen → Forall (λ t, t < retryAfter b) ts →
  run_available ts b = (replicate (length ts) false, b).
Proof.
  intros Hp Hs Hts. induction Hts as [|t ts Ht _ IH]; [done|]. simpl.
  unfold Available at 1. rewrite Hp, Hs. simpl.
  destruct (Z.ltb_spec t (retryAfter b)); [|lia]. by rewrite IH.
Qed.

Lemma recordSuccess_half_open b :
  passive b → breakerState b = breakerHalfOpen →
  recordSuccess b = set_retryAfter 0 (set_healthy true (set_breaker breakerClosed (set_failures 0 b))).
Proof. intros Hp Hs. unfold recordSuccess. simpl. by rewrite Hp, Hs, bool_decide_true. Qed.

Lemma recordFailure_half_open now b :
  passive b → breakerState b = breakerHalfOpen → recordFailure now b = openCircuit now b.
Proof. intros Hp Hs. unfold recordFailure. by rewrite Hp, Hs. Qed.

(** C2: an open breaker admits exactly one probe.  Before [retryAfter] every
    answer is no; the first caller at or after it is admitted and moves the
    breaker to half-open; every later caller is refused until the probe's
    outcome is known: success closes the breaker and makes the backend
    selectable again, failure opens it for another thirty seconds. *)
Theorem open_breaker_single_probe (b : Backend) (early late : list Z) (t : Z) :
  passive b → breakerState b = breakerOpen → Forall (λ u, u < retryAfter b) early →
  retryAfter b ≤ t →
  ∃ b1, run_available (early ++ t :: late) b
        = (replicate (length early) false ++ true :: replicate (length late) false, b1) ∧
    State b1 = "half-open" ∧
    (∀ now, (Available now (recordSuccess b1)).1 = true ∧ State (recordSuccess b1) = "closed") ∧
    (∀ now, State (recordFailure now b1) = "open" ∧
            retryAfter (recordFailure now b1) = int64 (now + 30 * second)).
Proof.
  intros Hp Hs He Ht. exists (set_healthy true (set_breaker breakerHalfOpen b)). split.
  - induction He as [|u early Hu _ IH]; simpl.
    + unfold Available at 1. rewrite Hp, Hs. simpl.
      destruct (Z.ltb_spec t (retryAfter b)); [lia|].
      by rewrite half_open_unavailable.
    + unfold Available at 1. rewrite Hp, Hs. simpl.
      destruct (Z.ltb_spec u (retryAfter b)); [|lia]. by rewrite IH.
  - split; [done|]. split; intros now.
    + rewrite recordSuccess_half_open by done. unfold Available. simpl. by rewrite Hp.
    + by rewrite recordFailure_half_open.
Qed.

Lemma open_breaker_single_probe_witness :
  ∃ b1, run_available [10; 20; 30; 40] (set_retryAfter 25 (set_breaker breakerOpen (newBackend "a" None)))
        = ([false; false; true; false], b1).
Proof.
  destruct (open_breaker_single_probe (set_retryAfter 25 (set_breaker breakerOpen (newBackend "a" None)))
              [10; 20] [40] 30) as (b1 & H & _); try reflexivity.
  - repeat constructor.
  - simpl. lia.
  - exists b1. exact H.
Defined.

(** ** Proxying *)

(** What the client of a backend sees for an outcome of the round trip. *)
Definition client_status (fs : list modifier) (upstream : result transportError response) : Z :=
  match upstream with
  | Err (TimeoutError _) => 504
  | Err (OtherError _) => 502
  | Ok r =>
      match runModifiers fs r with
      | Err _ => 502
      | Ok r' => if 500 <=? resp_status r' then 502 else resp_status r'
      end
  end.

Lemma mrw_reply status body f w :
  200 ≤ status → w_reply w = None →
  let w' := mrw_Write body (mrw_WriteHeader status (mrw_map_header f (mkMRW w 0))) in
  mrw_status w' = status ∧ status_of (mrw_inner w') = Some status.
Proof.
  intros Hs Hw. unfold mrw_Write, mrw_WriteHeader, status_of. simpl.
  unfold Write, WriteHeader. simpl.
  destruct (Z.ltb_spec status 200); [lia|]. rewrite andb_false_r. simpl.
  destruct (Z.leb_spec status 199); [lia|]. rewrite andb_false_r. simpl. rewrite Hw. simpl.
  destruct (Z.eqb_spec status 0); [lia|]. done.
Qed.

Lemma reverseProxy_reply now fs upstream b m w :
  200 ≤ client_status fs upstream → w_reply w = None →
  let '(b', m', rw) := reverseProxy now fs upstream b m (mkMRW w 0) in
  Name b' = Name b ∧ ActiveConnections b' = ActiveConnections b ∧ m_requests m' = m_requests m ∧
  mrw_status rw = client_status fs upstream ∧
  status_of (mrw_inner rw) = Some (client_status fs upstream).
Proof.
  intros Hc Hw.
  assert (∀ t, Name (recordFailure t b) = Name b ∧
               ActiveConnections (recordFailure t b) = ActiveConnections b) as Hf.
  { intros t. unfold recordFailure. backend_cases; done. }
  assert (Name (recordSuccess b) = Name b ∧
          ActiveConnections (recordSuccess b) = ActiveConnections b) as Hsucc.
  { unfold recordSuccess. backend_cases; done. }
  destruct (Hf now) as [Hf1 Hf2]. destruct Hsucc as [Hs1 Hs2].
  unfold reverseProxy, modifyResponse, errorHandler, client_status, mrw_Error in *.
  destruct upstream as [r|[e|e]].
  - destruct (runModifiers fs r) as [r'|e]; [destruct (Z.leb_spec 500 (resp_status r'))|];
      rewrite ?Hf1, ?Hf2, ?Hs1, ?Hs2; repeat (split; [done|]); apply mrw_reply; (done || lia).
  - rewrite ?Hf1, ?Hf2. repeat (split; [done|]). apply mrw_reply; (done || lia).
  - rewrite ?Hf1, ?Hf2. repeat (split; [done|]). apply mrw_reply; (done || lia).
Qed.

Lemma acquire_release b b1 b2 m2 :
  wf b → TryAcquire b = (true, b1) → ActiveConnections b2 = ActiveConnections b1 →
  ActiveConnections (Release b2 m2).1 = ActiveConnections b ∧
  Name (Release b2 m2).1 = Name b2 ∧ m_requests (Release b2 m2).2 = m_requests m2.
Proof.
  intros [H1 H2 H3 H4] Ht Ha. unfold TryAcquire, Release in *.
  destruct (Z.leb_spec (MaxConnections b) 0); simplify_eq.
  - destruct (Z.ltb_spec 0 (ActiveConnections b2)); [lia|done].
  - destruct (Z.leb_spec (MaxConnections b) (ActiveConnections b)); simplify_eq.
    simpl in Ha. rewrite int64_id in Ha by (unfold MaxInt64 in *; lia). rewrite Ha.
    destruct (Z.ltb_spec 0 (ActiveConnections b + 1)); [|lia]. simpl.
    split; [|done]. rewrite int64_id; unfold MaxInt64 in *; lia.
Qed.

(** The state a proxied request leaves is reached by method calls of the
    backend. *)
Lemma reverseProxy_steps now fs upstream b m w :
  rtc bstep b (reverseProxy now fs upstream b m w).1.1.
Proof.
  unfold reverseProxy, modifyResponse, errorHandler.
  destruct upstream as [r|[]]; [destruct (runModifiers fs r); [destruct (500 <=? _)|]|..]; simpl;
    apply rtc_once; constructor.
Qed.

Lemma Release_steps b m : rtc bstep b (Release b m).1.
Proof.
  destruct (Z.ltb_spec 0 (ActiveConnections b)) as [H|H].
  - apply rtc_once. by constructor.
  - unfold Release. rewrite (proj2 (Z.ltb_ge _ _) H). done.
Qed.

Lemma Proxy_steps now fs upstream method b m w : rtc bstep b (Proxy now fs upstream method b m w).1.1.
Proof.
  unfold Proxy. pose proof (step_acquire b) as Ha. destruct (TryAcquire b) as [[] b1]; simpl in *; [|by apply rtc_once].
  pose proof (reverseProxy_steps now fs upstream b1
                (SetActiveConnections (Name b1) (ActiveConnections b1) m) (mkMRW w 0)) as Hr.
  destruct (reverseProxy _ _ _ _ _ _) as [[b2 m2] rw]. pose proof (Release_steps b2 m2) as Hrel.
  destruct (Release b2 m2) as [b3 m3]. simpl in *. eapply rtc_l; [done|]. by etrans.
Qed.

Lemma reverseProxy_active now fs upstream b m w :
  ActiveConnections (reverseProxy now fs upstream b m w).1.1 = ActiveConnections b.
Proof.
  unfold reverseProxy, modifyResponse, errorHandler, recordFailure, recordSuccess.
  destruct upstream as [r|[]]; [destruct (runModifiers fs r); [destruct (500 <=? _)|]|..]; simpl;
    backend_cases; done.
Qed.

Lemma Proxy_active now fs upstream method b m w :
  wf b → ActiveConnections (Proxy now fs upstream method b m w).1.1 = ActiveConnections b.
Proof.
  intros Hwf. unfold Proxy. destruct (TryAcquire b) as [[] b1] eqn:Ht.
  - pose proof (reverseProxy_active now fs upstream b1
                  (SetActiveConnections (Name b1) (ActiveConnections b1) m) (mkMRW w 0)) as Hr.
    destruct (reverseProxy _ _ _ _ _ _) as [[b2 m2] rw]. simpl in Hr.
    destruct (acquire_release b b1 b2 m2 Hwf Ht Hr) as (Ha & _). by destruct (Release b2 m2).
  - unfold TryAcquire in Ht. repeat case_match; simplify_eq. done.
Qed.

Lemma bsteps_wf b b' : rtc bstep b b' → wf b → wf b'.
Proof. induction 1; eauto using bstep_wf. Qed.

(** No step changes the limit. *)
Lemma bsteps_max b b' : rtc bstep b b' → MaxConnections b' = MaxConnections b.
Proof.
  induction 1 as [b|b b1 b' Hs _ IH]; [done|]. rewrite IH. clear IH. destruct Hs;
    unfold Available, TryAcquire, Release, recordSuccess, recordFailure, openCircuit, checkHealth, setHealth;
    try (destruct (URLHost b); [|done]; destruct probe; [|done]); by backend_cases.
Qed.

Lemma Proxy_spec now fs upstream method b m w :
  wf b → w_reply w = None → 200 ≤ client_status fs upstream →
  let '(b', m', w') := Proxy now fs upstream method b m w in
  ActiveConnections b' = ActiveConnections b ∧
  if (TryAcquire b).1
  then m_requests m' = m_requests m ++ [(Name b, method, client_status fs upstream)] ∧
       status_of w' = Some (client_status fs upstream)
  else b' = b ∧ m' = m ∧ status_of w' = Some 503.
Proof.
  intros Hwf Hw Hc. unfold Proxy. destruct (TryAcquire b) as [[] b1] eqn:Ht; simpl.
  - pose proof (reverseProxy_reply now fs upstream b1
      (SetActiveConnections (Name b1) (ActiveConnections b1) m) w Hc Hw) as Hr.
    destruct (reverseProxy _ _ _ _ _ _) as [[b2 m2] rw].
    destruct Hr as (Hn & Ha & Hm & Hst & Hso).
    destruct (acquire_release b b1 b2 m2 Hwf Ht Ha) as (Hact & Hname & Hreq).
    destruct (Release b2 m2) as [b3 m3] eqn:Hrel. simpl in *.
    assert (Name b1 = Name b) as Hn1.
    { unfold TryAcquire in Ht. repeat case_match; simplify_eq; done. }
    rewrite Hst. destruct (Z.eqb_spec (client_status fs upstream) 0); [lia|].
    rewrite Hname, Hn, Hn1, Hreq, Hm. done.
  - unfold TryAcquire in Ht. repeat case_match; simplify_eq.
    repeat split; try done. by apply http_Error_status.
Qed.

(** C6: proxying a request never leaks a connection.  At the limit the client
    gets 503 and nothing changes; otherwise the connection taken for the request
    is given back on every path (success, transport error, timeout, failing
    response modifier, upstream 5xx), and exactly one observation is recorded,
    with the status the client received. *)
Theorem Proxy_balanced (now : Z) (fs : list modifier) (upstream : result transportError response)
    (method : string) (b : Backend) (m : metrics) (w : writer) :
  wf b → w_reply w = None → 200 ≤ client_status fs upstream →
  let '(b', m', w') := Proxy now fs upstream method b m w in
  ActiveConnections b' = ActiveConnections b ∧
  if (TryAcquire b).1
  then m_requests m' = m_requests m ++ [(Name b, method, client_status fs upstream)] ∧
       status_of w' = Some (client_status fs upstream)
  else b' = b ∧ m' = m ∧ status_of w' = Some 503.
Proof. apply Proxy_spec. Qed.

Lemma Proxy_balanced_witness :
  ∃ b' m' w', Proxy 0 [] (Ok (mkResponse 503 ∅ "down")) "GET" sample_backend no_metrics new_writer = (b', m', w') ∧
  ActiveConnections b' = 0 ∧ status_of w' = Some 502 ∧ m_requests m' = [("api", "GET", 502)].
Proof.
  pose proof (Proxy_balanced 0 [] (Ok (mkResponse 503 ∅ "down")) "GET" sample_backend no_metrics new_writer) as H.
  destruct (Proxy 0 [] (Ok (mkResponse 503 ∅ "down")) "GET" sample_backend no_metrics new_writer)
    as [[b' m'] w'] eqn:E.
  destruct H as [H1 [H2 H3]]; [by apply configured_wf|reflexivity|vm_compute; discriminate|].
  exists b', m', w'. split; [reflexivity|]. split; [exact H1|]. split; [exact H3|exact H2].
Defined.

(** The outcome of a round trip drives the breaker of an unlimited passive
    backend: a response below 500 resets the failure count and closes a
    half-open breaker, while an upstream 5xx, which the client sees as a 502,
    counts as a failure exactly like a transport error. *)
Theorem proxied_outcome_drives_breaker (now : Z) (r : response) (e : transportError)
    (b : Backend) (m : metrics) (w : writer) (method : string) :
  passive b → MaxConnections b ≤ 0 → ActiveConnections b = 0 →
  (resp_status r < 500 → (Proxy now [] (Ok r) method b m w).1.1 = recordSuccess b) ∧
  (500 ≤ resp_status r →
     (Proxy now [] (Ok r) method b m w).1.1 = recordFailure now b ∧
     (Proxy now [] (Err e) method b m w).1.1 = recordFailure now b).
Proof.
  intros Hp Hm Ha.
  assert (TryAcquire b = (true, b)) as Ht.
  { unfold TryAcquire. destruct (Z.leb_spec (MaxConnections b) 0); [done|lia]. }
  assert (∀ b2 m2, ActiveConnections b2 = 0 → Release b2 m2 = (b2, m2)) as Hr.
  { intros b2 m2 H2. unfold Release. by rewrite H2. }
  assert (ActiveConnections (recordFailure now b) = 0 ∧ ActiveConnections (recordSuccess b) = 0) as [Hf Hs].
  { unfold recordFailure, recordSuccess. split; backend_cases; done. }
  unfold Proxy. rewrite Ht. unfold reverseProxy, modifyResponse, errorHandler. simpl.
  split; intros Hst; destruct (Z.leb_spec 500 (resp_status r)); try lia; simpl.
  - by rewrite Hr.
  - split; [by rewrite Hr|]. destruct e; simpl; by rewrite Hr.
Qed.

Lemma proxied_outcome_drives_breaker_witness :
  (Proxy 9 [] (Ok (mkResponse 500 ∅ "")) "GET" (newBackend "a" None) no_metrics new_writer).1.1
  = recordFailure 9 (newBackend "a" None).
Proof.
  apply (proxied_outcome_drives_breaker 9 (mkResponse 500 ∅ "") (OtherError "")
           (newBackend "a" None) no_metrics new_writer "GET"); simpl; try reflexivity; lia.
Defined.

Lemma Release_acquired b b1 m :
  wf b → TryAcquire b = (true, b1) → (Release b1 m).1 = b.
Proof.
  intros [H1 H2 H3 H4] Ht. unfold TryAcquire, Release in *.
  destruct (Z.leb_spec (MaxConnections b) 0); simplify_eq.
  - destruct (Z.ltb_spec 0 (ActiveConnections b1)); [lia|done].
  - destruct (Z.leb_spec (MaxConnections b) (ActiveConnections b)); simplify_eq. simpl.
    rewrite int64_id by (unfold MaxInt64 in *; lia).
    destruct (Z.ltb_spec 0 (ActiveConnections b + 1)); [|lia]. simpl.
    rewrite int64_id by (unfold MaxInt64 in *; lia). unfold set_active; simpl.
    replace (ActiveConnections b + 1 - 1) with (ActiveConnections b) by lia. by destruct b.
Qed.

Lemma Connect_spec (dial : result string unit) (hijack : hijackOutcome)
    (established : result string unit) (method : string) (b : Backend) (m : metrics) (w : writer) :
  wf b →
  let '(b', m', w', r) := Connect dial hijack established method b m w in
  b' = b ∧
  (is_ok r = true ↔ (TryAcquire b).1 = true ∧ URLHost b ≠ None ∧ URLHost b ≠ Some "" ∧
                    is_ok dial = true ∧ hijack = Hijacked ∧ is_ok established = true) ∧
  ((TryAcquire b).1 = true →
     m_requests m' = m_requests m ++ [(Name b, method, if is_ok r then 200 else 502)] ∧ w' = w).
Proof.
  intros Hwf. unfold Connect. destruct (TryAcquire b) as [[] b1] eqn:Ht; simpl.
  - assert (Name b1 = Name b ∧ URLHost b1 = URLHost b) as [Hn Hu].
    { unfold TryAcquire in Ht. repeat case_match; simplify_eq; done. }
    assert (∀ mm, (Release b1 mm).1 = b ∧ m_requests (Release b1 mm).2 = m_requests mm) as Hrel.
    { intros mm. split; [by apply Release_acquired|]. unfold Release. by case_match. }
    rewrite Hu, Hn.
    destruct (URLHost b) as [[|c h]|] eqn:HU; [|destruct dial as [?|?]; [destruct hijack; [..|destruct established as [?|?]]|]|];
      match goal with |- context [Release b1 ?mm] =>
        destruct (Release b1 mm) as [b2 m2] eqn:Hr; destruct (Hrel mm) as [He1 He2]; rewrite Hr in He1, He2
      end; simpl in *; subst; (split; [done|]); (split; [|by rewrite He2]); naive_solver.
  - unfold TryAcquire in Ht. repeat case_match; simplify_eq. split; [done|]. split; [|done].
    naive_solver.
Qed.

(** A CONNECT tunnel gives its connection back and leaves the backend as it
    found it whatever happens (missing target, failed dial, no hijacking, broken
    client), records one observation, and succeeds exactly when the whole
    sequence did; at the limit it answers 503 and reports an error. *)
Theorem Connect_balanced (dial : result string unit) (hijack : hijackOutcome)
    (established : result string unit) (method : string) (b : Backend) (m : metrics) (w : writer) :
  wf b →
  let '(b', m', w', r) := Connect dial hijack established method b m w in
  b' = b ∧
  (is_ok r = true ↔ (TryAcquire b).1 = true ∧ URLHost b ≠ None ∧ URLHost b ≠ Some "" ∧
                    is_ok dial = true ∧ hijack = Hijacked ∧ is_ok established = true) ∧
  ((TryAcquire b).1 = true →
     m_requests m' = m_requests m ++ [(Name b, method, if is_ok r then 200 else 502)] ∧ w' = w).
Proof. apply Connect_spec. Qed.

Lemma Connect_balanced_witness :
  (Connect (Err "refused") Hijacked (Ok tt) "CONNECT" sample_backend no_metrics new_writer).1.1.1 = sample_backend.
Proof.
  pose proof (Connect_balanced (Err "refused") Hijacked (Ok tt) "CONNECT" sample_backend no_metrics new_writer) as H.
  destruct (Connect _ _ _ _ _ _ _) as [[[b' m'] w'] r]. apply H. by apply configured_wf.
Defined.

(** The verdict of one health check. *)
Definition probe_ok (b : Backend) (p : result string Z) : bool :=
  match URLHost b, p with
  | Some _, Ok code => (200 <=? code) && (code <? 300)
  | _, _ => false
  end.

Lemma checkHealth_spec p b :
  Healthy (checkHealth p b) = probe_ok b p ∧ URLHost (checkHealth p b) = URLHost b ∧
  HealthCheckPath (checkHealth p b) = HealthCheckPath b.
Proof.
  unfold checkHealth, probe_ok. destruct (URLHost b) as [h|] eqn:HU; [|by simpl; rewrite HU].
  destruct p as [code|e]; [|by simpl; rewrite HU].
  destruct (Z.ltb_spec code 200), (Z.leb_spec 200 code), (Z.leb_spec 300 code), (Z.ltb_spec code 300);
    try lia; simpl; by rewrite HU.
Qed.

(** A backend with active health checks is selectable exactly when its last
    check answered with a 2xx status, whatever the checks before it gave and
    whatever requests succeeded or failed since: the passive breaker is out of
    the picture. *)
Theorem health_checks_decide (b : Backend) (p0 : result string Z) (ticks : list (result string Z))
    (traffic : list (Z + unit)) (now : Z) :
  HealthCheckPath b ≠ "" →
  let apply_traffic := foldl (λ b ev, match ev with inl t => recordFailure t b | inr _ => recordSuccess b end) in
  (Available now (apply_traffic (RunHealthChecks p0 ticks b) traffic)).1
  = probe_ok b (default p0 (last ticks)).
Proof.
  intros Hp apply_traffic.
  assert (∀ b1, HealthCheckPath b1 ≠ "" → Healthy (apply_traffic b1 traffic) = Healthy b1 ∧
           HealthCheckPath (apply_traffic b1 traffic) = HealthCheckPath b1) as Ht.
  { induction traffic as [|ev tr IH]; intros b1 Hb1; [done|]. simpl.
    assert (String.eqb (HealthCheckPath b1) "" = false) as He by by apply String.eqb_neq.
    destruct ev as [t|[]].
    - unfold recordFailure. rewrite He. by apply IH.
    - unfold recordSuccess. simpl. rewrite He. simpl. exact (IH (set_failures 0 b1) Hb1). }
  assert (RunHealthChecks p0 ticks b = foldl (λ b p, checkHealth p b) (checkHealth p0 b) ticks) as Hrun.
  { unfold RunHealthChecks. by rewrite (proj2 (String.eqb_neq _ _) Hp). }
  assert (Healthy (RunHealthChecks p0 ticks b) = probe_ok b (default p0 (last ticks)) ∧
          HealthCheckPath (RunHealthChecks p0 ticks b) = HealthCheckPath b) as [Hh Hpath].
  { rewrite Hrun. clear Hrun. revert b p0 Hp. induction ticks as [|p ps IH]; intros b p0 Hp.
    - simpl. pose proof (checkHealth_spec p0 b). naive_solver.
    - simpl foldl. destruct (checkHealth_spec p0 b) as (_ & Hu & Hpp).
      destruct (IH (checkHealth p0 b) p) as [H1 H2]; [congruence|].
      rewrite H1, H2. split; [|done].
      assert (default p0 (last (p :: ps)) = default p (last ps)) as -> by (rewrite last_cons; by destruct (last ps)).
      unfold probe_ok. by rewrite Hu. }
  destruct (Ht (RunHealthChecks p0 ticks b)) as [Hh2 Hp2]; [congruence|].
  unfold Available. rewrite Hp2, Hpath, (proj2 (String.eqb_neq _ _) Hp). simpl. congruence.
Qed.

Lemma health_checks_decide_witness :
  (Available 5 (RunHealthChecks (Err "refused") [Ok 503; Ok 204]
     (mkBackend "a" (Some "h:80") 0 "/health" 0 false 0 0 breakerClosed))).1 = true.
Proof.
  apply (health_checks_decide (mkBackend "a" (Some "h:80") 0 "/health" 0 false 0 0 breakerClosed)
    (Err "refused") [Ok 503; Ok 204] [] 5). discriminate.
Defined.
