(* ===== verification/Transport.v ===== *)
(** * The upstream transport: retries, backend authentication, configuration

    Models [pkg/backend/transport.go].  The base round trip, the request's
    context and [GetBody] belong to the outside world and are arguments; the
    model records the attempts made, the waits between them and the response
    bodies closed. *)

From S2P Require Import Prelude GoStd GoHttp Base64 Backend.
Open Scope Z_scope.

(** ** Retries *)

(** [req.Body] and [req.GetBody]: no body, a body that can be recreated
    ([GetBody]), a stream that cannot. *)
Inductive reqBody : Type := NilBody | NoBody | Replayable | Stream.

(** What a round trip returns: a response's status when it is not nil, and an
    error when it is not nil. *)
Record rtResult : Type := mkRT { rt_response : option Z; rt_error : option string }.

Definition retryableResponse (r : rtResult) : bool :=
  match rt_error r with
  | Some _ => true
  | None =>
      match rt_response r with
      | None => false
      | Some code => (code =? 502) || (code =? 503) || (code =? 504)
      end
  end.

Record retryTransport : Type := mkRetry { retries : Z; backoff : Z }.

(** The doubling loop on the delay: [attempt] rounds, capped at one second. *)
Fixpoint double_delay (n : nat) (delay : Z) : Z :=
  match n with
  | O => delay
  | S n' =>
      if delay <? second
      then double_delay n' (if second / 2 <? delay then second else delay * 2)
      else delay
  end.

Definition retryDelay (t : retryTransport) (attempt : nat) : Z :=
  double_delay attempt (if second <? backoff t then second else backoff t).

(** The world of one call: the base transport per attempt, the context's error
    when the call starts and after each attempt, whether the context ends
    during the wait after an attempt, and [GetBody]. *)
Record rtWorld : Type := mkWorld {
  base : nat → rtResult;
  ctx_start : option string;
  ctx_after : nat → option string;
  ctx_during_wait : nat → option string;
  get_body : nat → result string unit;
}.

Record rtTrace : Type := mkTrace {
  tr_attempts : list nat;   (* base round trips, in order *)
  tr_waits : list Z;        (* timers started, in order *)
  tr_closed : list nat;     (* attempts whose response body was closed *)
}.

Definition hasBody (b : reqBody) : bool := match b with Replayable | Stream => true | _ => false end.
Definition replayableBody (b : reqBody) : bool := match b with Stream => false | _ => true end.

(** The attempt loop; [todo] attempts remain. *)
Fixpoint retryLoop (t : retryTransport) (body : reqBody) (w : rtWorld) (todo attempt : nat) (tr : rtTrace)
    : rtResult * rtTrace :=
  match todo with
  | O => (mkRT None (Some "HTTP retry attempts exhausted"), tr)
  | S todo' =>
      match (if negb (Nat.eqb attempt 0) && hasBody body then get_body w attempt else Ok tt) with
      | Err e => (mkRT None (Some e), tr)
      | Ok _ =>
          let r := base w attempt in
          let tr := mkTrace (tr_attempts tr ++ [attempt]) (tr_waits tr) (tr_closed tr) in
          if Nat.eqb todo' 0 || negb (retryableResponse r) then (r, tr)
          else
            let tr := match rt_response r with
                      | Some _ => mkTrace (tr_attempts tr) (tr_waits tr) (tr_closed tr ++ [attempt])
                      | None => tr
                      end in
            match ctx_after w attempt with
            | Some e => (mkRT None (Some e), tr)
            | None =>
                let delay := retryDelay t attempt in
                if delay <=? 0 then retryLoop t body w todo' (S attempt) tr
                else
                  let tr := mkTrace (tr_attempts tr) (tr_waits tr ++ [delay]) (tr_closed tr) in
                  match ctx_during_wait w attempt with
                  | Some e => (mkRT None (Some e), tr)
                  | None => retryLoop t body w todo' (S attempt) tr
                  end
            end
      end
  end.

Definition RoundTrip (t : retryTransport) (method : string) (body : reqBody) (w : rtWorld) : rtResult * rtTrace :=
  let tr0 := mkTrace [] [] [] in
  if negb (String.eqb method "GET") && negb (String.eqb method "HEAD")
  then (base w 0%nat, mkTrace [0%nat] [] [])
  else
    match ctx_start w with
    | Some e => (mkRT None (Some e), tr0)
    | None =>
        let attempts := if replayableBody body then Z.to_nat (retries t + 1) else 1%nat in
        retryLoop t body w attempts 0 tr0
    end.

(** ** Backend authentication ([authTransport]) *)
Record AuthConfig : Type := mkAuth {
  auth_Type : string; auth_Username : string; auth_Password : string; auth_Token : string;
  auth_Header : string; auth_Prefix : string;
  auth_AccessKeyID : string; auth_SecretAccessKey : string; auth_Region : string; auth_Service : string;
}.

(** The header map of the cloned request; [sign] is the AWS signer. *)
Definition authRoundTrip (a : AuthConfig) (sign : header → result string header) (h : header)
    : result string header :=
  let type := ToLower (auth_Type a) in
  if String.eqb type "basic" then
    let encoded := EncodeToString StdEncoding (auth_Username a +:+ ":" +:+ auth_Password a) in
    Ok (header_Set "Authorization" ("Basic " +:+ encoded) h)
  else if String.eqb type "token" then
    let hd := if String.eqb (auth_Header a) "" then "Authorization" else auth_Header a in
    let prefix := if String.eqb (auth_Prefix a) "" then "Bearer " else auth_Prefix a in
    Ok (header_Set hd (prefix +:+ auth_Token a) h)
  else if String.eqb type "aws" then sign h
  else Ok h.

(** ** [NewTransport] *)
Record ProxyConfig : Type := mkProxyConfig { pc_URL : string; pc_Username : string; pc_Password : string }.

Record TransportConfig : Type := mkTC {
  tc_Timeout : Z; tc_ConnectTimeout : Z; tc_HeadersTimeout : Z; tc_IdleTimeout : Z;
  tc_Retries : Z; tc_RetryBackoff : Z; tc_Compression : bool;
  tc_Auth : option AuthConfig; tc_Proxy : option ProxyConfig;
}.

(** The assembled round tripper: effective timeouts, the outbound proxy, and
    the layers around the base transport, outermost first. *)
Inductive layer : Type := RetryLayer (t : retryTransport) | AuthLayer (a : AuthConfig).

Record transport : Type := mkTransport {
  dialTimeout : Z; responseHeaderTimeout : Z; idleConnTimeout : Z; disableCompression : bool;
  proxyURL : option string; layers : list layer;
}.

(** First positive duration of a list, else the last resort. *)
Definition orDefault (d fallback : Z) : Z := if d <=? 0 then fallback else d.

(** The effective settings and the layers, from a configuration whose retry
    settings were accepted. *)
Definition assemble (cfg : TransportConfig) (proxy : option string) : transport :=
  let retryBackoff :=
    if (0 <? tc_Retries cfg) && (tc_RetryBackoff cfg =? 0) then second / 10 else tc_RetryBackoff cfg in
  let connect := orDefault (orDefault (tc_ConnectTimeout cfg) (tc_Timeout cfg)) (30 * second) in
  let headers := orDefault (orDefault (tc_HeadersTimeout cfg) (tc_Timeout cfg)) (30 * second) in
  let idle := orDefault (tc_IdleTimeout cfg) (90 * second) in
  let auth := match tc_Auth cfg with
              | Some a => if String.eqb (auth_Type a) "" then [] else [AuthLayer a]
              | None => []
              end in
  let retry := if 0 <? tc_Retries cfg then [RetryLayer (mkRetry (tc_Retries cfg) retryBackoff)] else [] in
  mkTransport connect headers idle (negb (tc_Compression cfg)) proxy (retry ++ auth).

(** [tlsErr] is the outcome of [BuildTLSConfigForUpstream], [urlParse] is
    [url.Parse] on the proxy URL. *)
Definition NewTransport (tlsErr : option string) (urlParse : string → option string) (cfg : TransportConfig)
    : result string transport :=
  if (tc_Retries cfg <? 0) || (5 <? tc_Retries cfg) then Err "retries must be between 0 and 5"
  else if tc_RetryBackoff cfg <? 0 then Err "retry backoff must not be negative"
  else
    match tlsErr with
    | Some e => Err ("cannot build TLS config: " +:+ e)
    | None =>
        match tc_Proxy cfg with
        | Some p =>
            if String.eqb (pc_URL p) "" then Ok (assemble cfg None)
            else match urlParse (pc_URL p) with
                 | None => Err "parse proxy URL"
                 | Some u => Ok (assemble cfg (Some u))
                 end
        | None => Ok (assemble cfg None)
        end
    end.

(** ** Properties *)

Lemma double_delay_min n d :
  0 < d ≤ second → double_delay n d = Z.min second (d * 2 ^ Z.of_nat n).
Proof.
  revert d; induction n as [|n IH]; intros d Hd.
  - simpl. lia.
  - cbn [double_delay]. rewrite Nat2Z.inj_succ, Z.pow_succ_r by lia.
    assert (0 < 2 ^ Z.of_nat n) by (apply Z.pow_pos_nonneg; lia).
    unfold second in *. destruct (Z.ltb_spec d 1000000000); [|nia].
    destruct (Z.ltb_spec (1000000000 / 2) d) as [Hlt|Hge]; change (1000000000 / 2) with 500000000 in *.
    + rewrite IH by lia. nia.
    + rewrite IH by lia. f_equal. lia.
Qed.

(** The wait before retry [n] is the configured backoff doubled [n]
    times, capped at one second: the loop with its overflow guard computes the
    documented exponential backoff. *)
Theorem retryDelay_exponential (t : retryTransport) (n : nat) :
  0 < backoff t → retryDelay t n = Z.min second (backoff t * 2 ^ Z.of_nat n).
Proof.
  intros Hb. unfold retryDelay.
  assert (0 < 2 ^ Z.of_nat n) by (apply Z.pow_pos_nonneg; lia).
  destruct (Z.ltb_spec second (backoff t)).
  - rewrite double_delay_min by (unfold second in *; lia). unfold second in *. nia.
  - apply double_delay_min. lia.
Qed.

Lemma retryDelay_exponential_witness : retryDelay (mkRetry 5 (second / 10)) 3 = 800000000.
Proof. rewrite (retryDelay_exponential (mkRetry 5 (second / 10)) 3); reflexivity. Defined.

(** A call that the context never interrupts and whose body can be recreated. *)
Definition undisturbed (w : rtWorld) : Prop :=
  ctx_start w = None ∧ (∀ n, ctx_after w n = None) ∧ (∀ n, ctx_during_wait w n = None) ∧
  (∀ n, get_body w n = Ok tt).

Lemma retryDelay_pos t n : 0 < backoff t → 0 < retryDelay t n.
Proof.
  intros Hb. unfold retryDelay. assert (0 < 2 ^ Z.of_nat n) by (apply Z.pow_pos_nonneg; lia).
  rewrite double_delay_min by (unfold second; bsplit). unfold second. bsplit; nia.
Qed.

Definition attempted (attempt : nat) (tr : rtTrace) : rtTrace :=
  mkTrace (tr_attempts tr ++ [attempt]) (tr_waits tr) (tr_closed tr).

Definition waited (t : retryTransport) (r : rtResult) (attempt : nat) (tr : rtTrace) : rtTrace :=
  mkTrace (tr_attempts tr ++ [attempt]) (tr_waits tr ++ [retryDelay t attempt])
    (match rt_response r with Some _ => tr_closed tr ++ [attempt] | None => tr_closed tr end).

Lemma retryLoop_stop t body w todo attempt tr :
  undisturbed w → (todo = 0%nat ∨ retryableResponse (base w attempt) = false) →
  retryLoop t body w (S todo) attempt tr = (base w attempt, attempted attempt tr).
Proof.
  intros (Hs & Ha & Hd & Hg) Hstop. simpl. rewrite Hg.
  assert (Nat.eqb todo 0 || negb (retryableResponse (base w attempt)) = true) as ->.
  { destruct Hstop as [-> | ->]; [done|apply orb_true_r]. }
  by case_match; simplify_eq; case_match; simplify_eq.
Qed.

Lemma retryLoop_again t body w todo attempt tr :
  undisturbed w → 0 < backoff t → retryableResponse (base w attempt) = true →
  retryLoop t body w (S (S todo)) attempt tr
  = retryLoop t body w (S todo) (S attempt) (waited t (base w attempt) attempt tr).
Proof.
  intros (Hs & Ha & Hd & Hg) Hb Hr.
  pose proof (retryDelay_pos t attempt Hb) as Hpos.
  remember (S todo) as n eqn:Hn. simpl. rewrite Hg, Hr, Ha, Hd. subst n.
  destruct (Z.leb_spec (retryDelay t attempt) 0); [lia|]. unfold waited.
  by destruct (negb _ && _), (rt_response (base w attempt)).
Qed.

Lemma retryLoop_undisturbed t body w todo attempt tr :
  undisturbed w → 0 < backoff t →
  ∃ k, (k <= todo)%nat ∧
    let '(r, tr') := retryLoop t body w (S todo) attempt tr in
    r = base w (attempt + k) ∧
    tr_attempts tr' = tr_attempts tr ++ seq attempt (S k) ∧
    tr_waits tr' = tr_waits tr ++ map (retryDelay t) (seq attempt k) ∧
    (∀ j, (j < k)%nat → retryableResponse (base w (attempt + j)) = true) ∧
    (k = todo ∨ retryableResponse (base w (attempt + k)) = false).
Proof.
  intros Hw Hb. revert attempt tr; induction todo as [|todo IH]; intros attempt tr.
  - exists 0%nat. rewrite retryLoop_stop by auto. simpl.
    rewrite Nat.add_0_r, app_nil_r. repeat split; auto with lia.
  - destruct (retryableResponse (base w attempt)) eqn:Hr.
    + rewrite retryLoop_again by done.
      destruct (IH (S attempt) (waited t (base w attempt) attempt tr)) as (k & Hk & Hrest).
      exists (S k). split; [lia|].
      destruct (retryLoop t body w (S todo) _ _) as [r tr'].
      destruct Hrest as (-> & -> & -> & Hj & Hend). simpl tr_attempts. simpl tr_waits.
      rewrite <- !app_assoc. repeat split.
      * f_equal. lia.
      * intros [|j] Hjk; [by rewrite Nat.add_0_r|].
        replace (attempt + S j)%nat with (S attempt + j)%nat by lia. apply Hj. lia.
      * replace (attempt + S k)%nat with (S attempt + k)%nat by lia. destruct Hend; [left; lia|by right].
    + exists 0%nat. rewrite retryLoop_stop by auto. simpl.
      rewrite Nat.add_0_r, app_nil_r. repeat split; auto with lia.
Qed.

(** C28: an undisturbed GET or HEAD with retries returns what the first
    attempt that is not a transport error, 502, 503 or 504 returned, or what the
    last allowed attempt returned; no attempt is skipped or made after it, and
    the exponential delay separates every two attempts. *)
Theorem RoundTrip_retries (t : retryTransport) (method : string) (body : reqBody) (w : rtWorld) :
  method = "GET" ∨ method = "HEAD" → body ≠ Stream → 0 ≤ retries t → 0 < backoff t → undisturbed w →
  ∃ k : nat, Z.of_nat k ≤ retries t ∧
    let '(r, tr) := RoundTrip t method body w in
    r = base w k ∧ tr_attempts tr = seq 0 (S k) ∧
    tr_waits tr = map (λ i, Z.min second (backoff t * 2 ^ Z.of_nat i)) (seq 0 k) ∧
    (∀ j, (j < k)%nat → retryableResponse (base w j) = true) ∧
    (Z.of_nat k = retries t ∨ retryableResponse (base w k) = false).
Proof.
  intros Hm Hb Hr Hback Hw. unfold RoundTrip.
  assert (negb (String.eqb method "GET") && negb (String.eqb method "HEAD") = false) as ->
    by (destruct Hm as [-> | ->]; done).
  rewrite (proj1 Hw). assert (replayableBody body = true) as -> by (by destruct body).
  replace (Z.to_nat (retries t + 1)) with (S (Z.to_nat (retries t))) by lia.
  destruct (retryLoop_undisturbed t body w (Z.to_nat (retries t)) 0 (mkTrace [] [] []) Hw Hback)
    as (k & Hk & Hrest).
  exists k. split; [lia|]. destruct (retryLoop _ _ _ _ _ _) as [r tr].
  destruct Hrest as (-> & -> & -> & Hj & Hend). repeat split; try done.
  - simpl. apply map_ext. intros i. by apply retryDelay_exponential.
  - destruct Hend as [-> | ?]; [left; lia|by right].
Qed.

Definition flaky_world : rtWorld :=
  mkWorld (λ n, if Nat.eqb n 0 then mkRT (Some 503) None else mkRT (Some 200) None)
          None (λ _, None) (λ _, None) (λ _, Ok tt).

Lemma RoundTrip_retries_witness :
  ∃ k : nat, Z.of_nat k ≤ 2 ∧ (RoundTrip (mkRetry 2 100) "GET" NilBody flaky_world).1 = base flaky_world k.
Proof.
  destruct (RoundTrip_retries (mkRetry 2 100) "GET" NilBody flaky_world) as (k & Hk & H);
    [left; reflexivity|discriminate|simpl; lia|simpl; lia|repeat split|].
  exists k. split; [exact Hk|]. destruct (RoundTrip _ _ _ _). apply H.
Defined.

Lemma retryLoop_bounded t body w todo attempt tr :
  (length (tr_attempts (retryLoop t body w todo attempt tr).2) <= length (tr_attempts tr) + todo)%nat ∧
  (length (tr_waits (retryLoop t body w todo attempt tr).2) <= length (tr_waits tr) + (todo - 1))%nat.
Proof.
  revert attempt tr; induction todo as [|todo IH]; intros attempt tr; simpl; [lia|].
  destruct (if negb (Nat.eqb attempt 0) && hasBody body then get_body w attempt else Ok tt) as [_|e]; simpl; [|lia].
  destruct (Nat.eqb_spec todo 0) as [->|Hne]; simpl; [rewrite length_app; simpl; lia|].
  destruct (negb _); simpl; [rewrite length_app; simpl; lia|].
  destruct (rt_response (base w attempt)); simpl;
    (destruct (ctx_after w attempt); simpl; [rewrite length_app; simpl; lia|]);
    (destruct (Z.leb_spec (retryDelay t attempt) 0);
      [|destruct (ctx_during_wait w attempt); simpl; [rewrite !length_app; simpl; lia|]]);
    match goal with |- context [retryLoop t body w todo (S attempt) ?tr2] =>
      destruct (IH (S attempt) tr2) as [I1 I2] end;
    simpl in *; rewrite ?length_app in *; simpl in *; lia.
Qed.

(** Whatever the upstream, the context and the body do, a request is
    sent at most once plus the configured retries; a method other than GET and
    HEAD, and a request whose body cannot be recreated, is never sent twice and
    never waits. *)
Theorem RoundTrip_attempts_bounded (t : retryTransport) (method : string) (body : reqBody) (w : rtWorld) :
  0 ≤ retries t →
  let tr := (RoundTrip t method body w).2 in
  Z.of_nat (length (tr_attempts tr)) ≤ retries t + 1 ∧ Z.of_nat (length (tr_waits tr)) ≤ retries t ∧
  ((method ≠ "GET" ∧ method ≠ "HEAD") ∨ body = Stream →
     (length (tr_attempts tr) <= 1)%nat ∧ tr_waits tr = []).
Proof.
  intros Hr. unfold RoundTrip.
  destruct (negb (String.eqb method "GET") && negb (String.eqb method "HEAD")) eqn:Hm.
  { simpl. repeat split; (done || lia). }
  destruct (ctx_start w); [simpl; repeat split; (done || lia)|].
  set (n := if replayableBody body then Z.to_nat (retries t + 1) else 1%nat).
  destruct (retryLoop_bounded t body w n 0 (mkTrace [] [] [])) as [H1 H2]. simpl in H1, H2.
  cbv zeta. split; [|split].
  - subst n. destruct (replayableBody body); lia.
  - subst n. destruct (replayableBody body); lia.
  - intros [[Hg Hh]|Hs].
    + by rewrite (proj2 (String.eqb_neq _ _) Hg), (proj2 (String.eqb_neq _ _) Hh) in Hm.
    + assert (n = 1%nat) as Hn by (subst n body; done). rewrite Hn in *.
      split; [lia|]. apply length_zero_iff_nil. lia.
Qed.

Lemma RoundTrip_attempts_bounded_witness :
  (length (tr_attempts (RoundTrip (mkRetry 3 100) "POST" Replayable flaky_world).2) <= 1)%nat.
Proof.
  apply (RoundTrip_attempts_bounded (mkRetry 3 100) "POST" Replayable flaky_world); [simpl; lia|].
  left. split; discriminate.
Defined.

Lemma orDefault_spec d f : 0 < d ∧ orDefault d f = d ∨ d ≤ 0 ∧ orDefault d f = f.
Proof. unfold orDefault. destruct (Z.leb_spec d 0); lia. Qed.

(** A transport that [NewTransport] builds has positive timeouts, each the
    first positive one of its own setting, the general timeout and the default;
    its retry count is between one and five with a positive backoff when it
    retries at all, and the retry layer is outside the authentication layer, so
    every attempt is authenticated anew. *)
Theorem NewTransport_sound (tlsErr : option string) (urlParse : string → option string)
    (cfg : TransportConfig) (tr : transport) :
  NewTransport tlsErr urlParse cfg = Ok tr →
  0 < dialTimeout tr ∧ 0 < responseHeaderTimeout tr ∧ 0 < idleConnTimeout tr ∧
  (0 < tc_ConnectTimeout cfg → dialTimeout tr = tc_ConnectTimeout cfg) ∧
  (tc_ConnectTimeout cfg ≤ 0 → 0 < tc_Timeout cfg → dialTimeout tr = tc_Timeout cfg) ∧
  ∃ rl al, layers tr = rl ++ al ∧
    (rl = [] ∧ tc_Retries cfg = 0 ∨
     ∃ t, rl = [RetryLayer t] ∧ retries t = tc_Retries cfg ∧ 1 ≤ retries t ≤ 5 ∧ 0 < backoff t) ∧
    (al = [] ∨ ∃ a, al = [AuthLayer a] ∧ tc_Auth cfg = Some a).
Proof.
  unfold NewTransport.
  destruct (Z.ltb_spec (tc_Retries cfg) 0); [done|].
  destruct (Z.ltb_spec 5 (tc_Retries cfg)); [done|]. simpl.
  destruct (Z.ltb_spec (tc_RetryBackoff cfg) 0); [done|].
  destruct tlsErr; [done|]. intros Hok.
  assert (∃ p, tr = assemble cfg p) as [p ->].
  { destruct (tc_Proxy cfg) as [pc|]; [destruct (String.eqb _ _); [|destruct (urlParse _)]|];
      simplify_eq; eauto. }
  unfold assemble. cbn -[orDefault].
  pose proof (orDefault_spec (tc_ConnectTimeout cfg) (tc_Timeout cfg)).
  pose proof (orDefault_spec (orDefault (tc_ConnectTimeout cfg) (tc_Timeout cfg)) (30 * second)).
  pose proof (orDefault_spec (orDefault (tc_HeadersTimeout cfg) (tc_Timeout cfg)) (30 * second)).
  pose proof (orDefault_spec (tc_IdleTimeout cfg) (90 * second)).
  unfold second in *. do 5 (split; [lia|]).
  do 2 eexists. split; [reflexivity|]. split.
  - destruct (Z.ltb_spec 0 (tc_Retries cfg)); [right|left; split; [done|lia]].
    eexists. split; [reflexivity|]. simpl. split; [done|]. split; [lia|].
    destruct (Z.eqb_spec (tc_RetryBackoff cfg) 0); [done|lia].
  - destruct (tc_Auth cfg) as [a|]; [|by left]. destruct (String.eqb _ _); [by left|right; eauto].
Qed.

Lemma NewTransport_sound_witness :
  ∃ tr, NewTransport None Some (mkTC 0 0 (5 * second) 0 2 0 false None None) = Ok tr ∧ 0 < dialTimeout tr.
Proof.
  eexists. split; [reflexivity|].
  eapply (NewTransport_sound None Some (mkTC 0 0 (5 * second) 0 2 0 false None None)). reflexivity.
Defined.
