(* ===== verification/Parser.v ===== *)
(** * Configuration values and their typed accessors

    Models [pkg/helper/parser.go] and the [interface{}] values of
    configuration maps.  A map is an association list without duplicate keys;
    Go visits its entries in any order.  A [float64] is represented by its
    integer part and whether it has no fraction, which is all the code uses. *)

From S2P Require Import Prelude GoStd.
Open Scope Z_scope.

Inductive any : Type :=
  | VNil
  | VString (s : string)
  | VInt (z : Z)
  | VInt64 (z : Z)
  | VUint64 (z : Z)
  | VFloat (whole : Z) (integral : bool)
  | VBool (b : bool)
  | VList (l : list any)
  | VMap (m : list (string * any)).

Notation config_map := (list (string * any)).

Fixpoint lookup_any (k : string) (m : config_map) : option any :=
  match m with
  | [] => None
  | (k', v) :: m' => if String.eqb k' k then Some v else lookup_any k m'
  end.

Definition ParseStringOrDefault (config : config_map) (key defaultValue : string) : string :=
  match lookup_any key config with Some (VString s) => s | _ => defaultValue end.

Definition ParseInt (config : config_map) (key : string) (defaultValue : Z) : Z :=
  match lookup_any key config with Some (VInt z) => z | _ => defaultValue end.

Fixpoint string_entries (m : config_map) : option (list (string * string)) :=
  match m with
  | [] => Some []
  | (k, VString s) :: m' => cons (k, s) <$> string_entries m'
  | _ :: _ => None
  end.

Definition ParseStringMap (config : config_map) (key : string) : result string (list (string * string)) :=
  match lookup_any key config with
  | Some (VMap raw) =>
      match string_entries raw with
      | Some l => Ok l
      | None => Err ("invalid value for " +:+ key)
      end
  | _ => Err ("missing or invalid " +:+ key)
  end.

Fixpoint string_items (l : list any) : option (list string) :=
  match l with
  | [] => Some []
  | VString s :: l' => cons s <$> string_items l'
  | _ :: _ => None
  end.

Definition ParseStringSlice (config : config_map) (key : string) : result string (list string) :=
  match lookup_any key config with
  | Some (VList raw) =>
      match string_items raw with
      | Some l => Ok l
      | None => Err ("invalid value for " +:+ key)
      end
  | _ => Err ("missing or invalid " +:+ key)
  end.

(** [parse] is [time.ParseDuration]. *)
Definition ParseDuration (parse : string → option Z) (config : config_map) (key : string) (defaultValue : Z)
    : result string Z :=
  match lookup_any key config with
  | Some (VString raw) =>
      match parse raw with Some d => Ok d | None => Err "time: invalid duration" end
  | _ => Ok defaultValue
  end.

Definition ParseBool (config : config_map) (key : string) (defaultValue : bool) : bool :=
  match lookup_any key config with
  | Some (VBool b) => b
  | Some (VString s) =>
      let v := ToLower s in
      if existsb (String.eqb v) ["true"; "yes"; "on"] then true
      else if existsb (String.eqb v) ["false"; "no"; "off"] then false
      else defaultValue
  | _ => defaultValue
  end.

Lemma string_items_length l r : string_items l = Some r → length r = length l.
Proof.
  revert r; induction l as [|v l IH]; intros r; simpl; [by intros [= <-]|].
  destruct v; try done. rewrite fmap_Some. intros (r' & Hr & ->). simpl. f_equal. auto.
Qed.

Lemma string_entries_length l r : string_entries l = Some r → length r = length l.
Proof.
  revert r; induction l as [|[k v] l IH]; intros r; simpl; [by intros [= <-]|].
  destruct v; try done. rewrite fmap_Some. intros (r' & Hr & ->). simpl. f_equal. auto.
Qed.
