(* ===== verification/Selector.v ===== *)
(** * Backend selectors

    Models [pkg/selector].  A selector works on the route's own pool of
    backends, a list of [Backend] records updated by [Available]; it returns the
    index of the chosen backend.  A random draw is a natural number [r], and
    [rand.Intn n] is [r mod n], which ranges over exactly [0 .. n-1]. *)

From S2P Require Import Prelude GoStd GoHttp Parser Backend.
Open Scope Z_scope.

(** [PanicIndex] stands for Go's index-out-of-range panic; no selector reaches
    it. *)
Inductive selErr : Type := ErrNoBackend | ErrNoValidBackend | PanicIndex.

Notation pool := (list Backend).
Definition outcome : Type := pool * result selErr nat.

Definition Intn (r n : nat) : nat := (r mod n)%nat.

(** [helpers.go]: the available backends, by index; [Available] is called on
    every backend of the pool, in order. *)
Fixpoint available_from (now : Z) (i : nat) (bs : pool) : list nat * pool :=
  match bs with
  | [] => ([], [])
  | b :: bs' =>
      let '(a, b1) := Available now b in
      let '(out, bs1) := available_from now (S i) bs' in
      ((if a then i :: out else out), b1 :: bs1)
  end.
Definition available (now : Z) (bs : pool) : list nat * pool := available_from now 0 bs.

(** ** First alive, random *)
Definition FirstAlive_Select (now : Z) (bs : pool) : outcome :=
  match bs with
  | [] => (bs, Err ErrNoBackend)
  | _ =>
      let '(av, bs1) := available now bs in
      match av with
      | [] => (bs1, Err ErrNoValidBackend)
      | i :: _ => (bs1, Ok i)
      end
  end.

Definition pick (l : list nat) (k : nat) : result selErr nat :=
  match l !! k with Some i => Ok i | None => Err PanicIndex end.

Definition Random_Select (now : Z) (r : nat) (bs : pool) : outcome :=
  match bs with
  | [] => (bs, Err ErrNoBackend)
  | _ =>
      let '(candidates, bs1) := available now bs in
      match candidates with
      | [] => (bs1, Err ErrNoValidBackend)
      | _ => (bs1, pick candidates (Intn r (length candidates)))
      end
  end.

(** ** Round robin: the loop and its cursor *)
Fixpoint rr_loop (now : Z) (todo : nat) (index : nat) (bs : pool) : nat * outcome :=
  match todo with
  | O => (index, (bs, Err ErrNoValidBackend))
  | S todo' =>
      match bs !! index with
      | None => (index, (bs, Err PanicIndex))
      | Some b =>
          let next := if Nat.leb (length bs) (S index) then 0%nat else S index in
          let '(a, b1) := Available now b in
          let bs1 := <[index := b1]> bs in
          if a then (next, (bs1, Ok index)) else rr_loop now todo' next bs1
      end
  end.

Definition RoundRobin_Select (now : Z) (index : nat) (bs : pool) : nat * outcome :=
  match bs with
  | [] => (index, (bs, Err ErrNoBackend))
  | _ => rr_loop now (length bs) index bs
  end.

(** ** Affinity: hash of a key, then the next available backend *)
Definition hashIndex (key : string) (n : nat) : nat :=
  if Nat.eqb n 1 then 0%nat else Z.to_nat (fnv32a key mod Z.of_nat n).

Record AffinitySelector : Type := mkAffinity {
  af_name : string;
  af_key : nat → request → string;                    (* first argument: a random draw *)
  af_backendIndex : option (request → Z * bool);
}.

Fixpoint affinity_loop (now : Z) (todo : nat) (index offset : nat) (bs : pool) : outcome :=
  match todo with
  | O => (bs, Err ErrNoValidBackend)
  | S todo' =>
      let k := ((index + offset) mod length bs)%nat in
      match bs !! k with
      | None => (bs, Err PanicIndex)
      | Some candidate =>
          let '(a, b1) := Available now candidate in
          let bs1 := <[k := b1]> bs in
          if a then (bs1, Ok k) else affinity_loop now todo' index (S offset) bs1
      end
  end.

Definition affinity_index (s : AffinitySelector) (r : nat) (req : request) (n : nat) : nat :=
  match af_backendIndex s with
  | Some f => let '(index, direct) := f req in
              if (direct : bool) then Z.to_nat index else hashIndex (af_key s r req) n
  | None => hashIndex (af_key s r req) n
  end.

Definition Affinity_Select (s : AffinitySelector) (now : Z) (r : nat) (req : request) (bs : pool) : outcome :=
  match bs with
  | [] => (bs, Err ErrNoBackend)
  | _ => affinity_loop now (length bs) (affinity_index s r req (length bs)) 0 bs
  end.

Definition NewCookieSelector (n : nat) (name : string) : AffinitySelector :=
  mkAffinity name (λ r req,
    match r_Cookie req name with
    | Some v => if String.eqb v "" then Itoa (Z.of_nat (Intn r n)) else v
    | None => Itoa (Z.of_nat (Intn r n))
    end) None.

Definition NewQueryParamSelector (n : nat) (name : string) : AffinitySelector :=
  mkAffinity name (λ r req,
    let value := r_QueryGet req name in
    if String.eqb value "" then Itoa (Z.of_nat (Intn r n)) else value) None.

Definition NewIPSelector (n : nat) : AffinitySelector :=
  mkAffinity "" (λ _ req,
    match SplitHostPort (r_remote req) with
    | Some (host, _) => host
    | None => r_remote req
    end) None.

Definition backendAffinityPrefix : string := "__gorp_backend_index:".

Definition BackendAffinityKey (index : Z) : string := backendAffinityPrefix +:+ Itoa index.

Definition header_backendIndex (n : nat) (name : string) (req : request) : Z * bool :=
  let value := header_Get (r_header req) name in
  if negb (HasPrefix value backendAffinityPrefix) then (0, false)
  else match Atoi (TrimPrefix value backendAffinityPrefix) with
       | Some index => (index, (0 <=? index) && (index <? Z.of_nat n))
       | None => (0, false)
       end.

Definition NewHeaderSelector (n : nat) (name : string) : AffinitySelector :=
  mkAffinity name (λ r req,
    let value := header_Get (r_header req) name in
    if String.eqb value "" then Itoa (Z.of_nat (Intn r n)) else value)
    (Some (header_backendIndex n name)).

(** ** Least connections and power of two choices *)
Definition load_of (bs : pool) (i : nat) : Z :=
  match bs !! i with Some b => ActiveConnections b | None => 0 end.

Fixpoint least_loop (bs : pool) (av : list nat) (bestLoad : Z) (candidates : list nat) : list nat :=
  match av with
  | [] => candidates
  | i :: av' =>
      let load := load_of bs i in
      if load <? bestLoad then least_loop bs av' load [i]
      else if load =? bestLoad then least_loop bs av' bestLoad (candidates ++ [i])
      else least_loop bs av' bestLoad candidates
  end.

Definition LeastConnections_Select (now : Z) (r : nat) (bs : pool) : outcome :=
  match bs with
  | [] => (bs, Err ErrNoBackend)
  | _ =>
      let '(av, bs1) := available now bs in
      match av with
      | [] => (bs1, Err ErrNoValidBackend)
      | _ =>
          match least_loop bs1 av MaxInt64 [] with
          | [] => (bs1, Err ErrNoValidBackend)
          | candidates => (bs1, pick candidates (Intn r (length candidates)))
          end
      end
  end.

(** The two distinct positions drawn by power of two choices. *)
Definition two_choices (r1 r2 n : nat) : nat * nat :=
  let i := Intn r1 n in
  let j := Intn r2 (n - 1) in
  (i, if Nat.leb i j then S j else j).

Definition PowerOfTwo_Select (now : Z) (r1 r2 : nat) (bs : pool) : outcome :=
  match bs with
  | [] => (bs, Err ErrNoBackend)
  | _ =>
      let '(av, bs1) := available now bs in
      match av with
      | [] => (bs1, Err ErrNoValidBackend)
      | [i] => (bs1, Ok i)
      | _ =>
          let '(i, j) := two_choices r1 r2 (length av) in
          match av !! i, av !! j with
          | Some a, Some b => (bs1, Ok (if load_of bs1 a <=? load_of bs1 b then a else b))
          | _, _ => (bs1, Err PanicIndex)
          end
      end
  end.

(** ** The selector of a route *)
Inductive Selector : Type :=
  | SCookie (a : AffinitySelector) | SHeader (a : AffinitySelector)
  | SIP (a : AffinitySelector) | SQuery (a : AffinitySelector)
  | SFirstAlive | SLeastConnections | SPowerOfTwo | SRandom
  | SRoundRobin (index : nat).

Record SelectorConfig : Type := mkSelectorConfig { sel_Type : string; sel_Config : config_map }.

Definition one_of (s : string) (l : list string) : bool := existsb (String.eqb s) l.

(** [selector.New] for a pool of [n] backends. *)
Definition New (c : SelectorConfig) (n : nat) : Selector :=
  let t := ToLower (sel_Type c) in
  if one_of t ["cookie"] then
    SCookie (NewCookieSelector n (ParseStringOrDefault (sel_Config c) "name" "SESSIONID"))
  else if one_of t ["first-alive"; "first"; "alive"] then SFirstAlive
  else if one_of t ["header"] then
    SHeader (NewHeaderSelector n (ParseStringOrDefault (sel_Config c) "name" "Affinity"))
  else if one_of t ["ip"; "source-ip"; "sourceip"; "ip-hash"; "iphash"] then SIP (NewIPSelector n)
  else if one_of t ["leastconnection"; "leastconnections"; "least-connection"; "least-connections"]
    then SLeastConnections
  else if one_of t ["power-of-two"; "poweroftwo"; "p2c"] then SPowerOfTwo
  else if one_of t ["query"; "query-param"; "queryparam"] then
    SQuery (NewQueryParamSelector n (ParseStringOrDefault (sel_Config c) "name" "SESSIONID"))
  else if one_of t ["rand"; "random"] then SRandom
  else SRoundRobin 0.

(** The [Select] method of the interface. *)
Definition Select (s : Selector) (now : Z) (r1 r2 : nat) (req : request) (bs : pool) : Selector * outcome :=
  match s with
  | SCookie a | SHeader a | SIP a | SQuery a => (s, Affinity_Select a now r1 req bs)
  | SFirstAlive => (s, FirstAlive_Select now bs)
  | SLeastConnections => (s, LeastConnections_Select now r1 bs)
  | SPowerOfTwo => (s, PowerOfTwo_Select now r1 r2 bs)
  | SRandom => (s, Random_Select now r1 bs)
  | SRoundRobin index => let '(index', o) := RoundRobin_Select now index bs in (SRoundRobin index', o)
  end.

(** ** What a selector promises

    [can] is the answer [Available] gives, [touch] what it leaves behind. *)
Definition can (now : Z) (b : Backend) : bool := (Available now b).1.
Definition touch (now : Z) (b : Backend) : Backend := (Available now b).2.

Record lawful (now : Z) (bs : pool) (o : outcome) : Prop := {
  law_frame : ∀ i b, bs !! i = Some b → o.1 !! i = Some b ∨ o.1 !! i = Some (touch now b);
  law_length : length o.1 = length bs;
  law_result :
    match o.2 with
    | Ok i => ∃ b, bs !! i = Some b ∧ can now b = true ∧ o.1 !! i = Some (touch now b)
    | Err ErrNoBackend => bs = []
    | Err ErrNoValidBackend => bs ≠ [] ∧ ∀ i b, bs !! i = Some b → can now b = false
    | Err PanicIndex => False
    end;
}.

(** A refused call leaves the backend as it was. *)
Lemma touch_unavailable now b : can now b = false → touch now b = b.
Proof.
  unfold can, touch, Available. destruct (negb _); [done|].
  destruct (breakerState b); [done| |done]. by destruct (now <? retryAfter b).
Qed.

Lemma available_from_spec now i bs :
  snd (available_from now i bs) = map (touch now) bs ∧
  (∀ k, k ∈ fst (available_from now i bs) ↔
        ∃ j b, k = (i + j)%nat ∧ bs !! j = Some b ∧ can now b = true).
Proof.
  revert i; induction bs as [|b bs IH]; intros i; simpl.
  { split; [done|]. intros k. split; [by intros ?%not_elem_of_nil|]. intros (j & b & _ & Hj & _). done. }
  unfold touch, can. destruct (Available now b) as [a b1] eqn:Ha.
  destruct (IH (S i)) as [IH1 IH2]. destruct (available_from now (S i) bs) as [out bs1]. simpl in *.
  split; [by rewrite IH1|]. intros k.
  assert ((∃ j c, k = (i + j)%nat ∧ (b :: bs) !! j = Some c ∧ (Available now c).1 = true) ↔
          (k = i ∧ a = true) ∨ k ∈ out) as ->.
  { rewrite IH2. split.
    - intros ([|j] & c & -> & Hj & Hc); simplify_eq/=.
      + left. rewrite Ha in Hc. simpl in Hc. split; [lia|done].
      + right. exists j, c. split; [lia|done].
    - intros [[-> ->]|(j & c & -> & Hj & Hc)].
      + exists 0%nat, b. rewrite Ha. split; [lia|done].
      + exists (S j), c. split; [lia|done]. }
  destruct a; [rewrite elem_of_cons|]; naive_solver.
Qed.

Lemma available_pool now bs : (available now bs).2 = map (touch now) bs.
Proof. apply available_from_spec. Qed.

Lemma available_elem now bs k :
  k ∈ (available now bs).1 ↔ ∃ b, bs !! k = Some b ∧ can now b = true.
Proof.
  unfold available. rewrite (proj2 (available_from_spec now 0 bs)). simpl.
  split; [intros (j & b & -> & H); eauto|intros (b & H); eauto].
Qed.

Lemma available_empty now bs :
  (available now bs).1 = [] → ∀ i b, bs !! i = Some b → can now b = false.
Proof.
  intros He i b Hi. destruct (can now b) eqn:Hc; [|done].
  assert (i ∈ (available now bs).1) as Hin by (apply available_elem; eauto).
  rewrite He in Hin. by apply not_elem_of_nil in Hin.
Qed.

(** The laws of the selectors that query the whole pool. *)
Lemma lawful_scan now bs r :
  bs ≠ [] →
  match r with
  | Ok i => i ∈ (available now bs).1
  | Err ErrNoValidBackend => (available now bs).1 = []
  | _ => False
  end → lawful now bs ((available now bs).2, r).
Proof.
  intros Hne Hr. rewrite available_pool. split; simpl.
  - intros i b Hi. right. rewrite list_lookup_fmap, Hi. done.
  - apply length_map.
  - destruct r as [i|[]]; try done.
    + apply available_elem in Hr as (b & Hb & Hc). exists b. split; [done|]. split; [done|].
      by rewrite list_lookup_fmap, Hb.
    + split; [done|]. by apply available_empty.
Qed.

Lemma lawful_nobackend now : lawful now [] ([], Err ErrNoBackend).
Proof. split; simpl; done. Qed.

Lemma pick_elem l k : (k < length l)%nat → ∃ i, pick l k = Ok i ∧ i ∈ l.
Proof.
  intros Hk. destruct (lookup_lt_is_Some_2 l k Hk) as [i Hi]. exists i. unfold pick. rewrite Hi.
  split; [done|]. apply list_elem_of_lookup. eauto.
Qed.

Lemma Intn_lt r n : n ≠ 0%nat → (Intn r n < n)%nat.
Proof. intros. by apply Nat.mod_upper_bound. Qed.

Ltac scan_pool now bs :=
  destruct bs as [|b0 bs0]; [apply lawful_nobackend|];
  remember (b0 :: bs0) as bs eqn:Hbs;
  assert (bs ≠ []) as Hne by (subst; done);
  pose proof (lawful_scan now bs) as Hscan;
  destruct (available now bs) as [av bs1] eqn:Hav; simpl in Hscan.

Lemma FirstAlive_lawful now bs : lawful now bs (FirstAlive_Select now bs).
Proof.
  unfold FirstAlive_Select. scan_pool now bs. subst bs. destruct av as [|i av].
  - by apply (Hscan (Err ErrNoValidBackend)).
  - apply (Hscan (Ok i) Hne). by apply elem_of_cons; left.
Qed.

Lemma Random_lawful now r bs : lawful now bs (Random_Select now r bs).
Proof.
  unfold Random_Select. scan_pool now bs. subst bs. destruct av as [|i av]; [by apply (Hscan (Err ErrNoValidBackend))|].
  destruct (pick_elem (i :: av) (Intn r (length (i :: av)))) as (k & -> & Hk); [by apply Intn_lt|].
  by apply (Hscan (Ok k) Hne).
Qed.

Lemma least_loop_spec bs av best cands :
  (∀ i, i ∈ cands → load_of bs i = best) →
  ∃ m, m ≤ best ∧ (∀ i, i ∈ av → m ≤ load_of bs i) ∧
    (∀ i, i ∈ least_loop bs av best cands → load_of bs i = m ∧ (i ∈ cands ∨ i ∈ av)) ∧
    (least_loop bs av best cands = [] → cands = [] ∧ ∀ i, i ∈ av → best < load_of bs i).
Proof.
  revert best cands; induction av as [|i av IH]; intros best cands Hc; simpl.
  { exists best. split; [lia|]. split; [by intros i ?%not_elem_of_nil|]. split; [eauto|].
    intros ->. split; [done|]. by intros i ?%not_elem_of_nil. }
  destruct (Z.ltb_spec (load_of bs i) best).
  - destruct (IH (load_of bs i) [i]) as (m & Hm & Hav & Hres & Hnil).
    { intros j ->%list_elem_of_singleton. done. }
    exists m. split; [lia|]. split.
    { intros j [-> |Hj]%elem_of_cons; [done|auto]. }
    split.
    + intros j Hj. destruct (Hres j Hj) as [? [?%list_elem_of_singleton|?]]; split; auto; right; set_solver.
    + intros Hn. destruct (Hnil Hn) as [? _]. done.
  - destruct (Z.eqb_spec (load_of bs i) best) as [He|He].
    + destruct (IH best (cands ++ [i])) as (m & Hm & Hav & Hres & Hnil).
      { intros j [Hj|Hj%list_elem_of_singleton]%elem_of_app; [auto|by subst]. }
      exists m. split; [done|]. split; [intros j [-> |Hj]%elem_of_cons; [lia|auto]|]. split.
      * intros j Hj. destruct (Hres j Hj) as [? Hor]. split; [done|]. set_solver.
      * intros Hn. destruct (Hnil Hn) as [Hx _]. by destruct cands.
    + destruct (IH best cands Hc) as (m & Hm & Hav & Hres & Hnil).
      exists m. split; [done|]. split; [intros j [-> |Hj]%elem_of_cons; [lia|auto]|]. split.
      * intros j Hj. destruct (Hres j Hj) as [? Hor]. split; [done|]. set_solver.
      * intros Hn. destruct (Hnil Hn) as [Hx Hall]. split; [done|].
        intros j [-> |Hj]%elem_of_cons; [lia|auto].
Qed.

(** Every connection count of the pool fits [int64]. *)
Definition counts_ok (bs : pool) : Prop := ∀ i b, bs !! i = Some b → ActiveConnections b ≤ MaxInt64.

Lemma touch_active now b : ActiveConnections (touch now b) = ActiveConnections b.
Proof.
  unfold touch, Available. destruct (negb _); [done|].
  destruct (breakerState b); [done| |done]. by destruct (now <? retryAfter b).
Qed.

Lemma load_of_available now bs i : load_of (available now bs).2 i = load_of bs i.
Proof.
  rewrite available_pool. unfold load_of. rewrite list_lookup_fmap.
  destruct (bs !! i); simpl; [apply touch_active|done].
Qed.

Lemma load_of_max bs i : counts_ok bs → load_of bs i ≤ MaxInt64.
Proof. intros H. unfold load_of. destruct (bs !! i) eqn:Hi; [by eapply H|by unfold MaxInt64]. Qed.

(** The candidates of least connections are the available backends of minimal
    load, and there is one when a backend is available. *)
Lemma least_candidates now bs i :
  counts_ok bs →
  let cands := least_loop (available now bs).2 (available now bs).1 MaxInt64 [] in
  (i ∈ cands → i ∈ (available now bs).1 ∧ ∀ j, j ∈ (available now bs).1 → load_of bs i ≤ load_of bs j) ∧
  (cands = [] → (available now bs).1 = []).
Proof.
  intros Hc cands.
  destruct (least_loop_spec (available now bs).2 (available now bs).1 MaxInt64 []) as (m & _ & Hav & Hres & Hnil).
  { by intros j ?%not_elem_of_nil. }
  split.
  - intros Hi. destruct (Hres i Hi) as [Hm [?%not_elem_of_nil|Hin]]; [done|]. split; [done|].
    intros j Hj. specialize (Hav j Hj). rewrite load_of_available in *. lia.
  - intros Hn. destruct (Hnil Hn) as [_ Hall]. destruct (available now bs).1 as [|j av] eqn:He; [done|].
    exfalso. specialize (Hall j ltac:(set_solver)). rewrite load_of_available in Hall.
    pose proof (load_of_max bs j Hc). lia.
Qed.

Lemma LeastConnections_lawful now r bs : counts_ok bs → lawful now bs (LeastConnections_Select now r bs).
Proof.
  intros Hcounts. unfold LeastConnections_Select.
  pose proof (least_candidates now bs) as Hleast.
  scan_pool now bs. subst bs. simpl in Hleast.
  destruct av as [|i av]; [by apply (Hscan (Err ErrNoValidBackend))|].
  destruct (least_loop bs1 (i :: av) MaxInt64 []) as [|k cands] eqn:Hl.
  { destruct (Hleast 0%nat Hcounts) as [_ H]. by specialize (H eq_refl). }
  destruct (pick_elem (k :: cands) (Intn r (length (k :: cands)))) as (c & -> & Hk); [by apply Intn_lt|].
  apply (Hscan (Ok c) Hne). by apply (Hleast c Hcounts).
Qed.

Lemma two_choices_distinct r1 r2 n :
  (2 <= n)%nat → let '(i, j) := two_choices r1 r2 n in (i < n)%nat ∧ (j < n)%nat ∧ i ≠ j.
Proof.
  intros Hn. unfold two_choices.
  pose proof (Intn_lt r1 n ltac:(lia)). pose proof (Intn_lt r2 (n - 1) ltac:(lia)).
  destruct (Nat.leb_spec (Intn r1 n) (Intn r2 (n - 1))); lia.
Qed.

Lemma PowerOfTwo_lawful now r1 r2 bs : lawful now bs (PowerOfTwo_Select now r1 r2 bs).
Proof.
  unfold PowerOfTwo_Select. scan_pool now bs. subst bs. destruct av as [|i [|j av]].
  - by apply (Hscan (Err ErrNoValidBackend)).
  - apply (Hscan (Ok i) Hne). set_solver.
  - pose proof (two_choices_distinct r1 r2 (length (i :: j :: av)) ltac:(simpl; lia)) as Htwo.
    destruct (two_choices r1 r2 (length (i :: j :: av))) as [k l]. destruct Htwo as (Hk & Hl & _).
    destruct (lookup_lt_is_Some_2 _ _ Hk) as [a Ha]. destruct (lookup_lt_is_Some_2 _ _ Hl) as [c Hc].
    rewrite Ha, Hc. apply (Hscan (Ok _) Hne).
    apply list_elem_of_lookup. destruct (_ <=? _); eauto.
Qed.

(** *** The selectors that walk the ring *)

(** [k] is the first position at or after [start], going round the ring, whose
    backend is available. *)
Definition first_in_ring (now : Z) (bs : pool) (start k : nat) : Prop :=
  (k < length bs)%nat ∧
  (∃ b, bs !! ((start + k) mod length bs)%nat = Some b ∧ can now b = true) ∧
  (∀ j b, (j < k)%nat → bs !! ((start + j) mod length bs)%nat = Some b → can now b = false).

Lemma rr_next (n i : nat) : (i < n)%nat → (if Nat.leb n (S i) then 0 else S i)%nat = (S i mod n)%nat.
Proof.
  intros. destruct (Nat.leb_spec n (S i)).
  - replace (S i) with n by lia. by rewrite Nat.Div0.mod_same.
  - by rewrite Nat.mod_small.
Qed.

Lemma rr_loop_spec now todo start bs :
  bs ≠ [] → (todo <= length bs)%nat →
  (∃ k, (k < todo)%nat ∧ first_in_ring now bs start k ∧
     ∃ b, bs !! ((start + k) mod length bs)%nat = Some b ∧
     rr_loop now todo (start mod length bs) bs
     = ((S (start + k) mod length bs)%nat,
        (<[((start + k) mod length bs)%nat := touch now b]> bs, Ok ((start + k) mod length bs)%nat))) ∨
  ((∀ j b, (j < todo)%nat → bs !! ((start + j) mod length bs)%nat = Some b → can now b = false) ∧
   rr_loop now todo (start mod length bs) bs
   = (((start + todo) mod length bs)%nat, (bs, Err ErrNoValidBackend))).
Proof.
  intros Hne. assert (length bs ≠ 0%nat) as Hn by (by destruct bs).
  revert start; induction todo as [|todo IH]; intros start Ht.
  { right. split; [intros; lia|]. simpl. by rewrite Nat.add_0_r. }
  simpl. destruct (lookup_lt_is_Some_2 bs (start mod length bs)) as [b Hb].
  { by apply Nat.mod_upper_bound. }
  rewrite Hb, rr_next by (by apply Nat.mod_upper_bound).
  assert ((S (start mod length bs) mod length bs)%nat = (S start mod length bs)%nat) as Hs.
  { rewrite <- Nat.add_1_l, Nat.Div0.add_mod_idemp_r. done. }
  rewrite Hs. destruct (Available now b) as [a b1] eqn:Ha. destruct a.
  - left. exists 0%nat. split; [lia|]. rewrite Nat.add_0_r. split.
    + split; [lia|]. split; [|intros; lia]. exists b. rewrite Nat.add_0_r. split; [done|]. unfold can. by rewrite Ha.
    + exists b. split; [done|]. unfold touch. by rewrite Ha.
  - assert (can now b = false) as Hcb by (unfold can; by rewrite Ha).
    pose proof (touch_unavailable now b Hcb) as Htb. unfold touch in Htb. rewrite Ha in Htb. simpl in Htb. subst b1.
    rewrite list_insert_id by done.
    assert (∀ j c, bs !! ((start + 0) mod length bs)%nat = Some c → (j = 0)%nat → can now c = false) as H0.
    { intros j c. rewrite Nat.add_0_r, Hb. by intros [= <-]. }
    destruct (IH (S start) ltac:(lia)) as [(k & Hk & (Hlt & Hex & Hall) & c & Hc & Hrr)|[Hall Hrr]].
    + left. exists (S k). split; [lia|]. replace (start + S k)%nat with (S start + k)%nat by lia.
      split; [|eauto]. split; [lia|]. replace (start + S k)%nat with (S start + k)%nat by lia.
      split; [done|]. intros [|j] d Hj Hd; [by eapply H0|].
      apply (Hall j d); [lia|]. by replace (S start + j)%nat with (start + S j)%nat by lia.
    + right. split.
      * intros [|j] d Hj Hd; [by eapply H0|].
        apply (Hall j d); [lia|]. by replace (S start + j)%nat with (start + S j)%nat by lia.
      * rewrite Hrr. do 2 f_equal. lia.
Qed.

(** The affinity loop visits the ring as round robin does. *)
Lemma affinity_loop_rr now todo index offset bs :
  bs ≠ [] →
  affinity_loop now todo index offset bs = (rr_loop now todo ((index + offset) mod length bs) bs).2.
Proof.
  intros Hne. assert (length bs ≠ 0%nat) as Hn by (by destruct bs).
  revert offset bs Hne Hn; induction todo as [|todo IH]; intros offset bs Hne Hn; simpl; [done|].
  set (k := ((index + offset) mod length bs)%nat).
  assert (k < length bs)%nat as Hk by (by apply Nat.mod_upper_bound).
  destruct (lookup_lt_is_Some_2 bs k Hk) as [b Hb]. rewrite Hb.
  destruct (Available now b) as [[] b1]; [done|].
  assert (length (<[k := b1]> bs) = length bs) as Hl by apply length_insert.
  rewrite IH; [|intros He; rewrite He in Hl; simpl in Hl; congruence|congruence].
  f_equal. rewrite Hl, rr_next by done. f_equal. subst k.
  rewrite <- (Nat.add_1_l ((index + offset) mod length bs)), Nat.Div0.add_mod_idemp_r. f_equal. lia.
Qed.

Lemma ring_covers (n start i : nat) : (i < n)%nat → ∃ j, (j < n)%nat ∧ ((start + j) mod n)%nat = i.
Proof.
  intros Hi. exists ((i + (n - start mod n)) mod n)%nat. split; [apply Nat.mod_upper_bound; lia|].
  rewrite Nat.Div0.add_mod_idemp_r. rewrite (Nat.div_mod_eq start n) at 1.
  pose proof (Nat.mod_upper_bound start n ltac:(lia)).
  replace (n * (start / n) + start mod n + (i + (n - start mod n)))%nat
    with (i + (start / n + 1) * n)%nat by nia.
  rewrite Nat.Div0.mod_add. by apply Nat.mod_small.
Qed.

(** A full turn of the ring finds the first available backend, changes nothing
    but that backend, and fails only when none is available. *)
Lemma ring_scan now start bs :
  bs ≠ [] →
  (∃ k b, first_in_ring now bs start k ∧ bs !! ((start + k) mod length bs)%nat = Some b ∧
     rr_loop now (length bs) (start mod length bs) bs
     = ((S (start + k) mod length bs)%nat,
        (<[((start + k) mod length bs)%nat := touch now b]> bs, Ok ((start + k) mod length bs)%nat))) ∨
  ((∀ i b, bs !! i = Some b → can now b = false) ∧
   rr_loop now (length bs) (start mod length bs) bs
   = ((start mod length bs)%nat, (bs, Err ErrNoValidBackend))).
Proof.
  intros Hne. destruct (rr_loop_spec now (length bs) start bs Hne ltac:(lia))
    as [(k & _ & Hf & b & Hb & Hrr)|[Hall Hrr]]; [left; eauto 10|right].
  split.
  - intros i b Hi. destruct (ring_covers (length bs) start i) as (j & Hj & Hm); [by eapply lookup_lt_Some|].
    apply (Hall j); [done|]. by rewrite Hm.
  - rewrite Hrr. f_equal. replace (start + length bs)%nat with (start + 1 * length bs)%nat by lia.
    by rewrite Nat.Div0.mod_add.
Qed.

Lemma ring_lawful now start bs :
  bs ≠ [] → lawful now bs (rr_loop now (length bs) (start mod length bs) bs).2.
Proof.
  intros Hne. destruct (ring_scan now start bs Hne) as [(k & b & Hf & Hb & ->)|[Hall ->]]; split; simpl.
  - intros i c Hi. rewrite list_lookup_insert. case_decide as Hd; [|by left].
    destruct Hd as [<- _]. rewrite Hb in Hi. simplify_eq. by right.
  - apply length_insert.
  - destruct Hf as (_ & (b' & Hb' & Hc) & _). rewrite Hb in Hb'. simplify_eq.
    exists b'. split; [done|]. split; [done|]. apply list_lookup_insert_eq. by eapply lookup_lt_Some.
  - by left.
  - done.
  - done.
Qed.

(** ** The interface between selectors and routes

    A route uses a selector through [sel] and relies on the two laws; the
    [Selector] of this package is the instance. *)
Class SelectorOps (S : Type) : Type := {
  sel : S → Z → nat → nat → request → pool → S * outcome;
  sel_ready : S → pool → Prop;
}.

Class LawfulSelector (S : Type) `{SelectorOps S} : Prop := {
  sel_lawful : ∀ s now r1 r2 req bs, sel_ready s bs → lawful now bs (sel s now r1 r2 req bs).2;
  sel_ready_next : ∀ s now r1 r2 req bs, sel_ready s bs →
    sel_ready (sel s now r1 r2 req bs).1 (sel s now r1 r2 req bs).2.1;
}.

(** The cursor of round robin stays inside the pool. *)
Definition cursor_ok (s : Selector) (n : nat) : Prop :=
  match s with SRoundRobin i => (i < Nat.max 1 n)%nat | _ => True end.

#[global] Instance Selector_ops : SelectorOps Selector := {
  sel := Select;
  sel_ready s bs := counts_ok bs ∧ cursor_ok s (length bs);
}.

Lemma RoundRobin_mod index (bs : pool) now :
  (index < Nat.max 1 (length bs))%nat → bs ≠ [] →
  RoundRobin_Select now index bs = rr_loop now (length bs) (index mod length bs) bs.
Proof.
  intros Hi Hne. destruct bs as [|b bs]; [done|]. unfold RoundRobin_Select.
  rewrite (Nat.mod_small index) by (simpl in *; lia). done.
Qed.

Lemma Affinity_ring a now r req bs :
  bs ≠ [] →
  Affinity_Select a now r req bs
  = (rr_loop now (length bs) (affinity_index a r req (length bs) mod length bs) bs).2.
Proof.
  intros Hne. destruct bs as [|b bs]; [done|]. unfold Affinity_Select.
  rewrite affinity_loop_rr by done. by rewrite Nat.add_0_r.
Qed.

Lemma Select_lawful s now r1 r2 req bs :
  sel_ready s bs → lawful now bs (Select s now r1 r2 req bs).2.
Proof.
  intros [Hc Hi]. destruct bs as [|b bs'] eqn:Hbs.
  { destruct s; simpl; apply lawful_nobackend. }
  assert (bs ≠ []) as Hne by (by subst). rewrite <- Hbs in *. clear Hbs b bs'.
  destruct s; simpl in *; auto using FirstAlive_lawful, LeastConnections_lawful, PowerOfTwo_lawful, Random_lawful;
    try (rewrite Affinity_ring by done; by apply ring_lawful).
  rewrite RoundRobin_mod by done. pose proof (ring_lawful now index bs Hne) as Hl.
  by destruct (rr_loop _ _ _ _).
Qed.

Lemma lawful_counts now bs o : lawful now bs o → counts_ok bs → counts_ok o.1.
Proof.
  intros [Hf Hl _] Hc i b Hi.
  destruct (lookup_lt_is_Some_2 bs i) as [b0 H0].
  { rewrite <- Hl. by eapply lookup_lt_Some. }
  specialize (Hc i b0 H0). destruct (Hf i b0 H0) as [He|He]; rewrite Hi in He; simplify_eq; [done|].
  by rewrite touch_active.
Qed.

Lemma Select_cursor s now r1 r2 req bs :
  cursor_ok s (length bs) → cursor_ok (Select s now r1 r2 req bs).1 (length bs).
Proof.
  intros Hi. destruct s; simpl in *; try done.
  destruct bs as [|b bs']; [done|]. rewrite RoundRobin_mod by done.
  destruct (ring_scan now index (b :: bs')) as [(k & c & _ & _ & ->)|[_ ->]]; [done|..]; simpl;
    apply (Nat.lt_le_trans _ (length (b :: bs'))); try apply Nat.mod_upper_bound; simpl; lia.
Qed.

#[global] Instance Selector_lawful : LawfulSelector Selector.
Proof.
  split; [intros; by apply Select_lawful|].
  intros s now r1 r2 req bs [Hc Hi]. pose proof (Select_lawful s now r1 r2 req bs (conj Hc Hi)) as Hl.
  split; [by eapply lawful_counts|]. simpl. rewrite (law_length _ _ _ Hl). by apply Select_cursor.
Qed.

Lemma New_cursor c n : cursor_ok (New c n) n.
Proof. unfold New. repeat case_match; simpl; try done; lia. Qed.

(** A run of requests through a selector. *)
Definition call : Type := Z * nat * nat * request.

Fixpoint run_selects (s : Selector) (bs : pool) (calls : list call) : list (pool * Z * outcome) :=
  match calls with
  | [] => []
  | (now, r1, r2, req) :: calls' =>
      let '(s', o) := Select s now r1 r2 req bs in
      (bs, now, o) :: run_selects s' o.1 calls'
  end.


Definition sample_request : request :=
  mkRequest "GET" "example.com" "/api/users" [] [] ∅ "192.0.2.7:4711" 0 false false.

Definition sample_pool : pool := [newBackend "a" (Some "h1"); newBackend "b" (Some "h2"); newBackend "c" (Some "h3")].

Lemma sample_counts : counts_ok sample_pool.
Proof. intros [|[|[|i]]] b Hb; simplify_eq/=; unfold MaxInt64; lia. Qed.


(** ** What each selector chooses *)

(** A backend that answers yes at any time and is not changed by the question. *)
Definition steady (b : Backend) : Prop := ∀ now, Available now b = (true, b).

Lemma steady_closed b : breakerState b = breakerClosed → Healthy b = true → steady b.
Proof. intros Hs Hh now. unfold Available. rewrite Hs, Hh. by destruct (negb _). Qed.

Fixpoint run_rr (nows : list Z) (index : nat) (bs : pool) : list (result selErr nat) :=
  match nows with
  | [] => []
  | now :: nows' => let '(index', (bs', r)) := RoundRobin_Select now index bs in r :: run_rr nows' index' bs'
  end.

Lemma RoundRobin_steady now index bs :
  (index < length bs)%nat → Forall steady bs →
  RoundRobin_Select now index bs = ((S index mod length bs)%nat, (bs, Ok index)).
Proof.
  intros Hi Hst. assert (bs ≠ []) as Hne by (by destruct bs; simpl in Hi; [lia|]).
  rewrite RoundRobin_mod by (done || lia).
  destruct (ring_scan now index bs Hne) as [(k & b & (_ & _ & Hall) & Hb & ->)|[Hall _]].
  - assert (k = 0%nat) as ->.
    { destruct k as [|k]; [done|]. exfalso.
      destruct (lookup_lt_is_Some_2 bs ((index + 0) mod length bs)) as [c Hc].
      { apply Nat.mod_upper_bound. lia. }
      specialize (Hall 0%nat c ltac:(lia) Hc). unfold can in Hall.
      by rewrite (proj1 (Forall_lookup steady bs) Hst _ _ Hc) in Hall. }
    rewrite Nat.add_0_r, (Nat.mod_small index) in * by done. do 2 f_equal.
    apply list_insert_id. unfold touch. by rewrite (proj1 (Forall_lookup steady bs) Hst _ _ Hb).
  - destruct (lookup_lt_is_Some_2 bs index Hi) as [c Hc]. specialize (Hall _ _ Hc). unfold can in Hall.
    by rewrite (proj1 (Forall_lookup steady bs) Hst _ _ Hc) in Hall.
Qed.

(** Over healthy backends round robin goes round the pool: the [k]-th
    call from cursor [index] returns backend [(index + k) mod n], so any [n]
    consecutive calls use each of the [n] backends exactly once. *)
Theorem round_robin_fair (bs : pool) (index : nat) (nows : list Z) :
  Forall steady bs → (index < length bs)%nat →
  run_rr nows index bs = map (λ k, Ok ((index + k) mod length bs)%nat) (seq 0 (length nows)) ∧
  (length nows = length bs → ∀ i, (i < length bs)%nat → Ok i ∈ run_rr nows index bs).
Proof.
  intros Hst Hi.
  assert (run_rr nows index bs = map (λ k, Ok ((index + k) mod length bs)%nat) (seq 0 (length nows))) as Hrun.
  { revert index Hi. induction nows as [|now nows IH]; intros index Hi; [done|]. simpl.
    rewrite RoundRobin_steady by done.
    rewrite IH by (apply Nat.mod_upper_bound; lia).
    f_equal; [by rewrite Nat.add_0_r, Nat.mod_small|].
    rewrite <- seq_shift, map_map. apply map_ext. intros k.
    rewrite Nat.Div0.add_mod_idemp_l. do 2 f_equal. lia. }
  split; [done|]. intros Hlen i Hi2. rewrite Hrun, Hlen.
  destruct (ring_covers (length bs) index i Hi2) as (j & Hj & Hm).
  apply list_elem_of_In, in_map_iff. exists j. split; [by rewrite Hm|]. apply in_seq. lia.
Qed.

Lemma round_robin_fair_witness :
  run_rr [1; 2; 3; 4] 1 sample_pool = [Ok 1%nat; Ok 2%nat; Ok 0%nat; Ok 1%nat].
Proof.
  apply (round_robin_fair sample_pool 1 [1; 2; 3; 4]); [|simpl; lia].
  repeat constructor; apply steady_closed; reflexivity.
Defined.

Lemma available_from_head now k bs :
  head (available_from now k bs).1 = (λ i, (k + i)%nat) <$> find_index (can now) bs.
Proof.
  revert k; induction bs as [|b bs IH]; intros k; simpl; [done|].
  unfold can at 1. destruct (Available now b) as [a b1]. specialize (IH (S k)).
  destruct (available_from now (S k) bs) as [out bs1]. simpl in *. destruct a; simpl.
  - f_equal. lia.
  - rewrite IH. destruct (find_index (can now) bs); simpl; [f_equal; lia|done].
Qed.

(** First-alive returns the available backend that comes first in the
    configuration. *)
Theorem first_alive_is_first (now : Z) (bs : pool) (i : nat) :
  (FirstAlive_Select now bs).2 = Ok i ↔
  (∃ b, bs !! i = Some b ∧ can now b = true) ∧
  (∀ j b, (j < i)%nat → bs !! j = Some b → can now b = false).
Proof.
  rewrite <- find_index_Some. unfold FirstAlive_Select.
  destruct bs as [|b bs]; [done|]. unfold available.
  pose proof (available_from_head now 0 (b :: bs)) as Hh.
  destruct (available_from now 0 (b :: bs)) as [av bs1]. simpl fst in Hh.
  destruct av as [|k av]; simpl head in Hh; simpl snd;
    destruct (find_index (can now) (b :: bs)) as [j|]; simplify_eq/=; naive_solver.
Qed.

(** Least connections returns an available backend whose number of
    active connections no other available backend is below. *)
Theorem least_connections_minimal (now : Z) (r : nat) (bs : pool) (i : nat) :
  counts_ok bs → (LeastConnections_Select now r bs).2 = Ok i →
  (∃ b, bs !! i = Some b ∧ can now b = true) ∧
  (∀ j b, bs !! j = Some b → can now b = true → load_of bs i ≤ load_of bs j).
Proof.
  intros Hc. unfold LeastConnections_Select. destruct bs as [|b0 bs0] eqn:Hbs; [done|]. rewrite <- Hbs in *.
  pose proof (least_candidates now bs i Hc) as Hleast.
  pose proof (available_elem now bs) as Hel.
  destruct (available now bs) as [av bs1]. simpl in *.
  destruct av as [|a av]; [done|].
  destruct (least_loop bs1 (a :: av) MaxInt64 []) as [|k cands]; [done|]. simpl snd. intros Hpick.
  assert (i ∈ k :: cands) as Hin.
  { unfold pick in Hpick. destruct ((k :: cands) !! _) eqn:Hl; simplify_eq.
    apply list_elem_of_lookup. eauto. }
  destruct (proj1 Hleast Hin) as [Hav Hmin]. split; [by apply Hel|].
  intros j b Hj Hb. apply Hmin, Hel. eauto.
Qed.

Definition loaded_pool : pool := [set_active 4 (newBackend "a" None); set_active 1 (newBackend "b" None)].

Lemma least_connections_minimal_witness : load_of loaded_pool 1 ≤ load_of loaded_pool 0.
Proof.
  apply (least_connections_minimal 0 7 loaded_pool 1) with (b := set_active 4 (newBackend "a" None)).
  - intros [|[|i]] b Hb; simplify_eq/=; unfold MaxInt64; lia.
  - reflexivity.
  - reflexivity.
  - reflexivity.
Defined.

(** Power of two choices compares two different available backends and
    takes the less loaded: whenever two backends are available, some other
    available backend is at least as loaded as the one chosen. *)
Theorem power_of_two_beats_another (now : Z) (r1 r2 : nat) (bs : pool) (i : nat) :
  (PowerOfTwo_Select now r1 r2 bs).2 = Ok i → (2 <= length (available now bs).1)%nat →
  ∃ p q j, (available now bs).1 !! p = Some i ∧ (available now bs).1 !! q = Some j ∧ p ≠ q ∧
           load_of bs i ≤ load_of bs j.
Proof.
  unfold PowerOfTwo_Select. destruct bs as [|b0 bs0] eqn:Hbs; [done|]. rewrite <- Hbs in *.
  pose proof (load_of_available now bs) as Hload.
  destruct (available now bs) as [av bs1]. cbn [fst snd] in *.
  destruct av as [|a [|c av]]; [done|simpl; lia|]. set (l := a :: c :: av). intros Hsel Hlen.
  pose proof (two_choices_distinct r1 r2 (length l) Hlen) as Htwo.
  destruct (two_choices r1 r2 (length l)) as [p q]. destruct Htwo as (Hp & Hq & Hpq).
  destruct (lookup_lt_is_Some_2 l p Hp) as [x Hx]. destruct (lookup_lt_is_Some_2 l q Hq) as [y Hy].
  rewrite Hx, Hy in Hsel. simpl in Hsel. rewrite !Hload in Hsel.
  destruct (Z.leb_spec (load_of bs x) (load_of bs y)); simplify_eq.
  - exists p, q, y. done.
  - exists q, p, x. split; [done|]. split; [done|]. split; [done|lia].
Qed.

Lemma power_of_two_beats_another_witness :
  ∃ p q j, (available 0 sample_pool).1 !! p = Some 0%nat ∧ (available 0 sample_pool).1 !! q = Some j ∧ p ≠ q ∧
           load_of sample_pool 0 ≤ load_of sample_pool j.
Proof. apply (power_of_two_beats_another 0 0 0 sample_pool); [reflexivity|simpl; lia]. Defined.

(** ** Affinity *)

(** The selector finds the client value [v] in the request. *)
Inductive identifies (n : nat) (req : request) (v : string) : AffinitySelector → Prop :=
  | identifies_cookie name : r_Cookie req name = Some v → v ≠ "" →
      identifies n req v (NewCookieSelector n name)
  | identifies_query name : r_QueryGet req name = v → v ≠ "" →
      identifies n req v (NewQueryParamSelector n name)
  | identifies_ip port : SplitHostPort (r_remote req) = Some (v, port) →
      identifies n req v (NewIPSelector n)
  | identifies_header name : header_Get (r_header req) name = v → v ≠ "" →
      HasPrefix v backendAffinityPrefix = false →
      identifies n req v (NewHeaderSelector n name).

Lemma identifies_index n req v a r :
  identifies n req v a → affinity_index a r req n = hashIndex v n.
Proof.
  intros [name Hv Hne|name Hv Hne|port Hv|name Hv Hne Hp]; unfold affinity_index; simpl.
  - rewrite Hv. by rewrite (proj2 (String.eqb_neq v "") Hne).
  - rewrite Hv. by rewrite (proj2 (String.eqb_neq v "") Hne).
  - by rewrite Hv.
  - unfold header_backendIndex. rewrite Hv, Hp. simpl. by rewrite (proj2 (String.eqb_neq v "") Hne).
Qed.

(** The outcome of a walk of the ring from [start]: the first available backend,
    the only one the walk touches. *)
Definition ring_outcome (now : Z) (bs : pool) (start : nat) (o : outcome) : Prop :=
  match o.2 with
  | Ok i => ∃ k b, i = ((start + k) mod length bs)%nat ∧ first_in_ring now bs start k ∧
                   bs !! i = Some b ∧ o.1 = <[i := touch now b]> bs
  | Err e => e = ErrNoValidBackend ∧ o.1 = bs ∧ ∀ i b, bs !! i = Some b → can now b = false
  end.

Lemma ring_scan_outcome now start bs :
  bs ≠ [] → ring_outcome now bs start (rr_loop now (length bs) (start mod length bs) bs).2.
Proof.
  intros Hne. destruct (ring_scan now start bs Hne) as [(k & b & Hf & Hb & ->)|[Hall ->]];
    unfold ring_outcome; simpl; eauto 10.
Qed.

(** Affinity is sticky.  A request that carries a client value goes to the
    first available backend at or after the value's hash in the ring: the same
    one whatever the random draw, with no other backend touched, and an error
    only when none is available. *)
Theorem affinity_sticky (a : AffinitySelector) (v : string) (now : Z) (r : nat) (req : request) (bs : pool) :
  bs ≠ [] → identifies (length bs) req v a →
  ring_outcome now bs (hashIndex v (length bs)) (Affinity_Select a now r req bs) ∧
  (∀ r', Affinity_Select a now r' req bs = Affinity_Select a now r req bs).
Proof.
  intros Hne Hid. split.
  - rewrite Affinity_ring, (identifies_index _ _ _ _ _ Hid) by done. by apply ring_scan_outcome.
  - intros r'. by rewrite !Affinity_ring, !(identifies_index _ _ _ _ _ Hid) by done.
Qed.

Lemma affinity_sticky_witness :
  ring_outcome 5 sample_pool (hashIndex "192.0.2.7" 3)
    (Affinity_Select (NewIPSelector 3) 5 0 sample_request sample_pool).
Proof.
  apply (affinity_sticky (NewIPSelector 3) "192.0.2.7" 5 0 sample_request sample_pool); [done|].
  apply (identifies_ip 3 _ "192.0.2.7" "4711"). reflexivity.
Defined.

Lemma affinity_key_index n name r req (i : nat) :
  header_Get (r_header req) name = BackendAffinityKey (Z.of_nat i) →
  (i < n)%nat → Z.of_nat n ≤ MaxInt64 →
  affinity_index (NewHeaderSelector n name) r req n = i.
Proof.
  intros Hv Hi Hn. unfold affinity_index, NewHeaderSelector, header_backendIndex.
  cbn [af_backendIndex]. rewrite Hv. unfold BackendAffinityKey.
  rewrite (proj2 (HasPrefix_spec _ backendAffinityPrefix)) by eauto. cbn [negb].
  rewrite TrimPrefix_app, Atoi_Itoa by lia.
  rewrite (proj2 (Z.leb_le 0 _)), (proj2 (Z.ltb_lt _ _)) by lia. simpl. lia.
Qed.

(** Response affinity round trip.  The key the proxy writes for backend
    [i], sent back by the client in the selector's header, selects backend [i]
    while it is available, and the next available one after it otherwise. *)
Theorem affinity_key_roundtrip (name : string) (now : Z) (r : nat) (req : request) (bs : pool) (i : nat) :
  header_Get (r_header req) name = BackendAffinityKey (Z.of_nat i) →
  (i < length bs)%nat → Z.of_nat (length bs) ≤ MaxInt64 →
  ring_outcome now bs i (Affinity_Select (NewHeaderSelector (length bs) name) now r req bs) ∧
  (∀ b, bs !! i = Some b → can now b = true →
        (Affinity_Select (NewHeaderSelector (length bs) name) now r req bs).2 = Ok i).
Proof.
  intros Hv Hi Hn. assert (bs ≠ []) as Hne by (by destruct bs; simpl in *; [lia|]).
  rewrite Affinity_ring, (affinity_key_index _ _ _ _ i) by done. split; [by apply ring_scan_outcome|].
  intros b Hb Hc. pose proof (ring_scan_outcome now i bs Hne) as Ho. unfold ring_outcome in Ho.
  destruct (rr_loop _ _ _ _).2 as [bs1 [k|e]]; simpl in *.
  - destruct Ho as ([|k'] & c & -> & (_ & _ & Hall) & _); [by rewrite Nat.add_0_r, Nat.mod_small|].
    specialize (Hall 0%nat b ltac:(lia)). rewrite Nat.add_0_r, Nat.mod_small in Hall by done.
    rewrite Hall in Hc; done.
  - destruct Ho as (_ & _ & Hall). by rewrite (Hall i b Hb) in Hc.
Qed.

Lemma affinity_key_roundtrip_witness :
  (Affinity_Select (NewHeaderSelector 3 "Affinity") 7 4
     (set_header (header_Set "Affinity" "__gorp_backend_index:2" ∅) sample_request) sample_pool).2 = Ok 2%nat.
Proof.
  eapply (affinity_key_roundtrip "Affinity" 7 4
    (set_header (header_Set "Affinity" "__gorp_backend_index:2" ∅) sample_request) sample_pool 2);
    [reflexivity|simpl; lia|unfold MaxInt64; simpl; lia|reflexivity|reflexivity].
Defined.

(** ** The half-open probe and the selectors that scan the whole pool *)

(** One request on a pool: a selection, then what the chosen backend records. *)
Inductive traffic : pool → pool → Prop :=
  | traffic_served s now r1 r2 req bs bs1 i b b' :
      sel_ready s bs → (Select s now r1 r2 req bs).2 = (bs1, Ok i) → bs1 !! i = Some b →
      rtc bstep b b' → traffic bs (<[i := b']> bs1)
  | traffic_refused s now r1 r2 req bs bs1 e :
      sel_ready s bs → (Select s now r1 r2 req bs).2 = (bs1, Err e) → traffic bs bs1.

Definition half_open_at (j : nat) (bs : pool) : Prop :=
  ∃ b, bs !! j = Some b ∧ HealthCheckPath b = "" ∧ breakerState b = breakerHalfOpen.

Lemma half_open_can now b :
  HealthCheckPath b = "" → breakerState b = breakerHalfOpen → can now b = false ∧ touch now b = b.
Proof. intros Hp Hb. unfold can, touch, Available. by rewrite Hp, Hb. Qed.

Lemma half_open_never_selected s now r1 r2 req bs j :
  sel_ready s bs → half_open_at j bs →
  (Select s now r1 r2 req bs).2.2 ≠ Ok j ∧ half_open_at j (Select s now r1 r2 req bs).2.1.
Proof.
  intros Hr (b & Hb & Hp & Hs). pose proof (Select_lawful s now r1 r2 req bs Hr) as [Hf _ Hres].
  destruct (half_open_can now b Hp Hs) as [Hc Ht]. split.
  - intros He. rewrite He in Hres. destruct Hres as (c & Hc' & Hcan & _). congruence.
  - exists b. split; [|done]. destruct (Hf j b Hb) as [H|H]; [done|]. by rewrite Ht in H.
Qed.

Lemma traffic_half_open j bs bs' : traffic bs bs' → half_open_at j bs → half_open_at j bs'.
Proof.
  intros Ht Hh. destruct Ht as [s now r1 r2 req bs bs1 i b b' Hr He Hb Hst|s now r1 r2 req bs bs1 e Hr He];
    pose proof (half_open_never_selected s now r1 r2 req bs j Hr Hh) as [Hn Hh1]; rewrite He in *; simpl in *; [|done].
  destruct Hh1 as (c & Hc & Hcs). exists c. split; [|done]. rewrite list_lookup_insert_ne; [done|congruence].
Qed.

(** The selectors that first filter the whole pool by availability. *)
Definition scans (s : Selector) : bool :=
  match s with SFirstAlive | SLeastConnections | SPowerOfTwo | SRandom => true | _ => false end.

(** Whichever backend such a selector chooses, every backend of the pool was asked. *)
Lemma scan_touches s now r1 r2 req bs i :
  scans s = true → (Select s now r1 r2 req bs).2.2 = Ok i → (Select s now r1 r2 req bs).2.1 = map (touch now) bs.
Proof.
  destruct s; try done; intros _; cbn [Select snd];
    unfold FirstAlive_Select, LeastConnections_Select, PowerOfTwo_Select, Random_Select;
    (destruct bs as [|b0 bs0]; [done|]); rewrite <- available_pool; destruct (available now (b0 :: bs0)) as [av bs1];
    repeat case_match; done.
Qed.

(** C39: a scan of the pool spends the recovery probe of backends it does not
    choose.  When a selector that filters the pool by availability (first-alive,
    least-connections, power-of-two or random) picks another backend while backend
    [j]'s circuit breaker has expired, [j] is left half-open without a request, and
    from then on no request of the following sequence, through whichever selectors,
    reaches [j] again. *)
Theorem unselected_probe_is_lost (s0 : Selector) (now : Z) (a1 a2 : nat) (req0 : request)
    (bs bs1 bs' : pool) (i j : nat) (b : Backend) :
  scans s0 = true → (Select s0 now a1 a2 req0 bs).2 = (bs1, Ok i) → i ≠ j → bs !! j = Some b →
  HealthCheckPath b = "" → breakerState b = breakerOpen → retryAfter b ≤ now →
  rtc traffic bs1 bs' →
  ∀ s t r1 r2 req, sel_ready s bs' → (Select s t r1 r2 req bs').2.2 ≠ Ok j.
Proof.
  intros Hscan Hsel Hij Hb Hp Hs Hle Htr s t r1 r2 req Hr.
  assert (half_open_at j bs1) as Hh.
  { pose proof (scan_touches s0 now a1 a2 req0 bs i Hscan) as Hpool. rewrite Hsel in Hpool. cbn in Hpool.
    rewrite Hpool by done. exists (touch now b). rewrite list_lookup_fmap, Hb. split; [done|].
    unfold touch, Available. rewrite Hp, Hs. simpl. rewrite (proj2 (Z.ltb_ge _ _) Hle). done. }
  clear Hsel Hij Hb. apply half_open_never_selected; [done|].
  revert Hh Hr. induction Htr as [|p q r' Hpq _ IH]; intros Hh Hr; [done|].
  apply IH; [by eapply traffic_half_open|done].
Qed.

Definition tripped : Backend := openCircuit 0 (newBackend "b" (Some "h2")).

Definition tripped_pool : pool := [newBackend "a" (Some "h1"); tripped].

Lemma unselected_probe_is_lost_witness :
  let after := (Select SPowerOfTwo (31 * second) 0 0 sample_request tripped_pool).2.1 in
  (Select SPowerOfTwo (31 * second) 0 0 sample_request tripped_pool).2.2 = Ok 0%nat ∧
  ~ ((Select SRandom (99 * second) 1 0 sample_request after).2.2 = Ok 1%nat).
Proof.
  split; [reflexivity|].
  apply (unselected_probe_is_lost SPowerOfTwo (31 * second) 0 0 sample_request tripped_pool
           (Select SPowerOfTwo (31 * second) 0 0 sample_request tripped_pool).2.1
           (Select SPowerOfTwo (31 * second) 0 0 sample_request tripped_pool).2.1 0 1 tripped);
    try reflexivity; try done.
  split; [|done]. intros [|[|k]] b Hb; simpl in Hb; simplify_eq/=; unfold MaxInt64; lia.
Defined.

(** The selectors that walk the ring spend no other backend's probe:
    round robin and affinity change the chosen backend and nothing else. *)
Theorem ring_selectors_keep_probes (s : Selector) (now : Z) (r1 r2 : nat) (req : request)
    (bs : pool) (j : nat) :
  match s with SCookie _ | SHeader _ | SIP _ | SQuery _ | SRoundRobin _ => True | _ => False end →
  sel_ready s bs → (Select s now r1 r2 req bs).2.2 ≠ Ok j →
  (Select s now r1 r2 req bs).2.1 !! j = bs !! j.
Proof.
  intros Hs [_ Hi] Hj. destruct bs as [|b bs'] eqn:Hbs; [by destruct s|].
  assert (bs ≠ []) as Hne by (by subst). rewrite <- Hbs in *. clear Hbs b bs'.
  assert (∃ start, (Select s now r1 r2 req bs).2
                   = (rr_loop now (length bs) (start mod length bs) bs).2) as [start He].
  { destruct s; try done; simpl; try (eexists; by apply Affinity_ring).
    exists index. rewrite RoundRobin_mod by done. by destruct (rr_loop _ _ _ _). }
  rewrite He in *. pose proof (ring_scan_outcome now start bs Hne) as Ho. unfold ring_outcome in Ho.
  destruct (rr_loop _ _ _ _).2 as [bs1 [k|e]]; simpl in *.
  - destruct Ho as (k' & c & -> & _ & _ & ->). apply list_lookup_insert_ne. congruence.
  - by destruct Ho as (_ & -> & _).
Qed.

Lemma ring_selectors_keep_probes_witness :
  (Select (SRoundRobin 0) (31 * second) 0 0 sample_request [newBackend "a" (Some "h1"); tripped]).2.1 !! 1%nat
  = Some tripped.
Proof.
  apply (ring_selectors_keep_probes (SRoundRobin 0) (31 * second) 0 0 sample_request
           [newBackend "a" (Some "h1"); tripped] 1); [done| |done].
  split; [|simpl; lia]. intros [|[|k]] b Hb; simpl in Hb; simplify_eq/=; unfold MaxInt64; lia.
Defined.
