(* ===== verification/CasCounter.v ===== *)
(** * The lock-free connection counter, under interleaving

    [Backend.TryAcquire] and [Release] ([pkg/backend/backend.go]) and
    [connectionLimiter.ServeHTTP], [limitedListener.Accept]
    ([pkg/server/server.go]) share one algorithm: load the counter, give up at
    the limit, otherwise compare-and-swap it up, and retry when the swap fails.
    A backend releases with a load and a decrement, the listener limiters with
    one atomic decrement.  Every atomic operation is one step here, and any
    number of goroutines interleave. *)

From S2P Require Import Prelude GoStd GoHttp Backend.
Open Scope Z_scope.

(** Where a goroutine is.  [Loaded v]: it has read [v < limit] and is about to
    compare-and-swap.  [Releasing]: [Release] has read a positive counter. *)
Inductive pc : Type := Idle | Loaded (v : Z) | Held | Releasing | Rejected | Finished.

Record counter : Type := mkCounter { active : Z; goroutines : list pc }.

Definition move (i : nat) (p : pc) (a : Z) (c : counter) : counter :=
  mkCounter a (<[i := p]> (goroutines c)).

(** [checked] tells a backend's [Release] from the unconditional decrement. *)
Inductive cstep (limit : Z) (checked : bool) : counter → counter → Prop :=
  | c_load i c : goroutines c !! i = Some Idle →
      cstep limit checked c
        (move i (if limit <=? active c then Rejected else Loaded (active c)) (active c) c)
  | c_cas i c v : goroutines c !! i = Some (Loaded v) →
      cstep limit checked c
        (if active c =? v then move i Held (int64 (v + 1)) c else move i Idle (active c) c)
  | c_release_load i c : checked = true → goroutines c !! i = Some Held →
      cstep limit checked c
        (move i (if 0 <? active c then Releasing else Finished) (active c) c)
  | c_release_add i c : goroutines c !! i = Some Releasing →
      cstep limit checked c (move i Finished (int64 (active c - 1)) c)
  | c_decrement i c : checked = false → goroutines c !! i = Some Held →
      cstep limit checked c (move i Finished (int64 (active c - 1)) c).

(** Goroutines that hold a slot of the counter. *)
Definition holds (p : pc) : bool := match p with Held | Releasing => true | _ => false end.
Definition holders (ps : list pc) : Z := Z.of_nat (length (filter (λ p, holds p = true) ps)).

Lemma holders_move ps i p q :
  ps !! i = Some p →
  holders (<[i := q]> ps) = holders ps - (if holds p then 1 else 0) + (if holds q then 1 else 0).
Proof.
  unfold holders. revert i; induction ps as [|x ps IH]; intros i Hi; [done|].
  destruct i as [|i]; simplify_eq/=.
  - rewrite !filter_cons. destruct (holds p), (holds q); repeat case_decide; simpl; try done; lia.
  - specialize (IH i Hi). rewrite !filter_cons. case_decide; simpl; lia.
Qed.

Lemma holders_nonneg ps : 0 ≤ holders ps.
Proof. unfold holders. lia. Qed.

Definition initial (n : nat) : counter := mkCounter 0 (replicate n Idle).

Lemma holders_initial n : holders (replicate n Idle) = 0.
Proof. unfold holders. induction n; simpl; [done|]. rewrite filter_cons_False; done. Qed.

Record cinv (limit : Z) (c : counter) : Prop := {
  inv_count : active c = holders (goroutines c);
  inv_limit : active c ≤ limit;
  inv_loaded : ∀ i v, goroutines c !! i = Some (Loaded v) → v < limit;
}.

Lemma loaded_move limit c i q :
  (∀ j v, goroutines c !! j = Some (Loaded v) → v < limit) →
  (∀ v, q = Loaded v → v < limit) →
  ∀ j v, <[i := q]> (goroutines c) !! j = Some (Loaded v) → v < limit.
Proof.
  intros H Hq j v. rewrite list_lookup_insert. case_decide; [|eauto]. intros [= ->]. eauto.
Qed.

Lemma cstep_inv limit checked c c' :
  0 < limit ≤ MaxInt64 → cstep limit checked c c' → cinv limit c → cinv limit c'.
Proof.
  intros Hl Hstep [Hc Hle Hld]. pose proof (holders_nonneg (goroutines c)).
  assert (∀ z, -1 ≤ z ≤ limit → int64 z = z) as H64.
  { intros z Hz. apply int64_id. unfold MaxInt64 in *. lia. }
  destruct Hstep as [i c Hi|i c v Hi|i c Hk Hi|i c Hi|i c Hk Hi].
  - destruct (Z.leb_spec limit (active c)); split; simpl;
      try (rewrite (holders_move _ _ _ _ Hi); simpl; lia); try done;
      apply loaded_move; try done; intros v [= <-]; lia.
  - specialize (Hld _ _ Hi) as Hv. destruct (Z.eqb_spec (active c) v) as [Heq|Hne]; split; simpl;
      try (apply loaded_move; done); try (rewrite (holders_move _ _ _ _ Hi); simpl); rewrite ?H64 by lia; lia.
  - destruct (Z.ltb_spec 0 (active c)); split; simpl;
      try (apply loaded_move; done); try (rewrite (holders_move _ _ _ _ Hi); simpl); try lia.
    pose proof (holders_move _ _ _ Finished Hi) as Hm.
    pose proof (holders_nonneg (<[i := Finished]> (goroutines c))). simpl in Hm. lia.
  - pose proof (holders_move _ _ _ Finished Hi) as Hm. simpl in Hm.
    pose proof (holders_nonneg (<[i := Finished]> (goroutines c))).
    split; simpl; try (apply loaded_move; done); rewrite ?Hm, ?H64 by lia; lia.
  - pose proof (holders_move _ _ _ Finished Hi) as Hm. simpl in Hm.
    pose proof (holders_nonneg (<[i := Finished]> (goroutines c))).
    split; simpl; try (apply loaded_move; done); rewrite ?Hm, ?H64 by lia; lia.
Qed.

Lemma reachable_cinv limit checked n c :
  0 < limit ≤ MaxInt64 → rtc (cstep limit checked) (initial n) c → cinv limit c.
Proof.
  intros Hl Hr.
  assert (cinv limit (initial n)) as H0.
  { split; simpl; [by rewrite holders_initial|lia|].
    intros i v Hi. apply lookup_replicate in Hi as [? _]. done. }
  revert H0. induction Hr; eauto using cstep_inv.
Qed.

(** C5: for any number of goroutines and any interleaving of their atomic
    operations, the counter equals the number of slots held, so never more than
    the limit are held at once, and no slot leaks: once every goroutine has
    finished or been rejected, the counter is back to zero. *)
Theorem concurrent_limit (limit : Z) (checked : bool) (n : nat) (c : counter) :
  0 < limit ≤ MaxInt64 → rtc (cstep limit checked) (initial n) c →
  active c = holders (goroutines c) ∧ 0 ≤ holders (goroutines c) ≤ limit ∧
  (Forall (λ p, p = Finished ∨ p = Rejected) (goroutines c) → active c = 0).
Proof.
  intros Hl Hr. destruct (reachable_cinv _ _ _ _ Hl Hr) as [Hc Hle _].
  pose proof (holders_nonneg (goroutines c)). split; [done|]. split; [lia|].
  intros Hall. rewrite Hc. unfold holders. clear -Hall.
  induction Hall as [|p ps Hp _ IH]; [done|].
  rewrite filter_cons_False; [done|]. by destruct Hp as [->| ->].
Qed.

Lemma concurrent_limit_witness :
  ∃ c, rtc (cstep 1 true) (initial 2) c ∧ active c = 1 ∧ holders (goroutines c) = 1.
Proof.
  assert (rtc (cstep 1 true) (initial 2) (mkCounter 1 [Held; Rejected])) as Hr.
  { eapply rtc_l; [apply (c_load 1 true 0); reflexivity|].
    eapply rtc_l; [apply (c_cas 1 true 0 _ 0); reflexivity|].
    eapply rtc_l; [apply (c_load 1 true 1); reflexivity|]. apply rtc_refl. }
  exists (mkCounter 1 [Held; Rejected]). split; [exact Hr|].
  destruct (concurrent_limit 1 true 2 _ ltac:(unfold MaxInt64; lia) Hr) as (H1 & H2 & _).
  split; [reflexivity|]. rewrite <- H1. reflexivity.
Defined.

(** Without interference, the load and compare-and-swap of a goroutine do
    what the sequential [TryAcquire] does on a limited backend: it ends up
    holding a slot, with the counter [TryAcquire] leaves, when [TryAcquire]
    grants, and rejected with the counter unchanged when it refuses. *)
Theorem solo_acquire_refines (b : Backend) (ps : list pc) (i : nat) :
  wf b → 0 < MaxConnections b → ps !! i = Some Idle →
  let '(granted, b') := TryAcquire b in
  rtc (cstep (MaxConnections b) true) (mkCounter (ActiveConnections b) ps)
    (mkCounter (ActiveConnections b') (<[i := if granted then Held else Rejected]> ps)).
Proof.
  intros [H1 H2 H3 H4] Hm Hi. unfold TryAcquire.
  destruct (Z.leb_spec (MaxConnections b) 0); [lia|].
  pose proof (c_load (MaxConnections b) true i (mkCounter (ActiveConnections b) ps) Hi) as Hload.
  simpl in Hload. destruct (Z.leb_spec (MaxConnections b) (ActiveConnections b)).
  - by apply rtc_once.
  - eapply rtc_l; [exact Hload|].
    assert (<[i := Loaded (ActiveConnections b)]> ps !! i = Some (Loaded (ActiveConnections b))) as Hl.
    { apply list_lookup_insert_eq. by eapply lookup_lt_Some. }
    pose proof (c_cas (MaxConnections b) true i
      (move i (Loaded (ActiveConnections b)) (ActiveConnections b) (mkCounter (ActiveConnections b) ps)) _ Hl) as Hcas.
    simpl in Hcas. rewrite Z.eqb_refl in Hcas. unfold move in Hcas. simpl in Hcas.
    rewrite list_insert_insert_eq in Hcas. by apply rtc_once.
Qed.

Lemma solo_acquire_refines_witness :
  rtc (cstep 2 true) (mkCounter 0 [Idle]) (mkCounter 1 [Held]).
Proof.
  apply (solo_acquire_refines sample_backend [Idle] 0); [by apply configured_wf|simpl; lia|reflexivity].
Defined.
