(* ===== verification/Routing.v ===== *)
(** * Routing: wildcards, routes, the router and middleware chains

    Models [pkg/routing]: [wildcard.go], [route.go], [router.go],
    [middleware.go], [openapi.go] and the request-log metadata of
    [builtin_logging.go].

    The static part of a route (its matching rules and its middleware) is the
    record [Route]; the state it shares between requests (the selector and its
    pool of backends) lives in the [world], at the route's index.  The [env] of a
    request holds what the outside world contributes to it: the clock, the
    random draws, the upstream's answers. *)

From S2P Require Import Prelude GoStd GoHttp Parser Backend Selector.
Open Scope Z_scope.

(** ** Wildcards *)
Definition MatchWildcard (pattern value : string) : bool :=
  match Match pattern value with Ok ok => ok | Err _ => false end.

(** ** The world of a request *)
Record env : Type := mkEnv {
  e_now : Z;                                                  (* clock at selection *)
  e_end : Z;                                                  (* clock when the upstream has answered *)
  e_rand1 : nat;
  e_rand2 : nat;
  e_upstream : Backend → request → result transportError response;
  e_dial : Backend → result string unit;
  e_hijack : hijackOutcome;
  e_established : result string unit;
  e_serveFile : string → request → writer → writer;           (* [http.ServeFile] on the local disk *)
}.

Record routeState : Type := mkRouteState { rs_selector : Selector; rs_pool : pool }.

Section world.
  Context {X : Type}.                                         (* state of the middleware *)

Record world : Type := mkWorld {
  wd_routes : list routeState;
  wd_metrics : metrics;
  wd_log : string * string;                                   (* [requestLogDetails]: route, backend *)
  wd_env : env;
  wd_mw : X;
}.

Definition set_routes (rs : list routeState) (wd : world) : world :=
  mkWorld rs (wd_metrics wd) (wd_log wd) (wd_env wd) (wd_mw wd).
Definition set_metrics (m : metrics) (wd : world) : world :=
  mkWorld (wd_routes wd) m (wd_log wd) (wd_env wd) (wd_mw wd).
Definition set_log (d : string * string) (wd : world) : world :=
  mkWorld (wd_routes wd) (wd_metrics wd) d (wd_env wd) (wd_mw wd).
Definition set_mw (x : X) (wd : world) : world :=
  mkWorld (wd_routes wd) (wd_metrics wd) (wd_log wd) (wd_env wd) x.

(** ** Middleware *)
Definition Middleware : Type := handler world → handler world.

(** The loop of [ChainMiddleware], from the last index down to 0. *)
Fixpoint chain_from (i : nat) (h : handler world) (ms : list Middleware) : handler world :=
  match i with
  | O => h
  | S i' => chain_from i' (match (ms !! i' : option Middleware) with Some m => m h | None => h end) ms
  end.
Definition ChainMiddleware (h : handler world) (ms : list Middleware) : handler world :=
  chain_from (length ms) h ms.

(** [MiddlewareRegistry] *)
Definition MiddlewareRegistry : Type := gmap string Middleware.
Definition NewMiddlewareRegistry : MiddlewareRegistry := ∅.
Definition Register (name : string) (m : Middleware) (mr : MiddlewareRegistry) : MiddlewareRegistry :=
  <[name := m]> mr.
Definition Get (mr : MiddlewareRegistry) (name : string) : option Middleware := mr !! name.
Fixpoint GetAll (mr : MiddlewareRegistry) (names : list string) : list Middleware :=
  match names with
  | [] => []
  | name :: names' => match Get mr name with
                      | Some m => m :: GetAll mr names'
                      | None => GetAll mr names'
                      end
  end.

(** ** Routes *)
Record Route : Type := mkRoute {
  rt_Name : string;
  rt_Prefix : string;
  rt_StripPrefix : bool;
  rt_Hosts : list string;
  rt_Paths : list string;
  rt_Endpoints : list string;
  rt_Middleware : list Middleware;
  rt_Modifiers : nat → request → list modifier;               (* [ModifyResponse] of its backends *)
}.

Definition MatchEndpoint (r : Route) (endpoint : string) : bool :=
  match rt_Endpoints r with
  | [] => true
  | es => existsb (λ e, String.eqb e endpoint) es
  end.

Definition MatchPath (r : Route) (req : request) : bool :=
  existsb (λ p, MatchWildcard p (r_path req) || MatchWildcard p (Base (r_path req))) (rt_Paths r).

Definition Route_Match (r : Route) (req : request) : bool :=
  if MatchPath r req then true
  else if negb (String.eqb (rt_Prefix r) "") && HasPrefix (r_path req) (rt_Prefix r) then true
  else if String.eqb (r_method req) "CONNECT" && String.eqb (rt_Prefix r) "/" then true
  else existsb (λ h, MatchWildcard h (r_host req)) (rt_Hosts r).

Definition selErr_Error (e : selErr) : string :=
  match e with
  | ErrNoBackend => "no backend available"
  | ErrNoValidBackend => "no valid backend"
  | PanicIndex => "index out of range"
  end.

Definition SetRequestLogMetadata (route backend : string) (wd : world) : world := set_log (route, backend) wd.

(** The rewriting of the path by [StripPrefix]. *)
Definition strip_path (r : Route) (path : string) : string :=
  if rt_StripPrefix r && negb (String.eqb (rt_Prefix r) "") then
    let p := TrimPrefix path (rt_Prefix r) in
    if HasPrefix p "/" then p else "/" +:+ p
  else path.

Definition no_state : routeState := mkRouteState SFirstAlive [].
Definition state_at (wd : world) (idx : nat) : routeState := default no_state (wd_routes wd !! idx).
Definition set_state (idx : nat) (rs : routeState) (wd : world) : world :=
  set_routes (<[idx := rs]> (wd_routes wd)) wd.
Definition set_backend (idx i : nat) (b : Backend) (wd : world) : world :=
  let rs := state_at wd idx in
  set_state idx (mkRouteState (rs_selector rs) (<[i := b]> (rs_pool rs))) wd.

(** The innermost handler of a route, once backend [i] is selected.  After a
    hijack the response writer no longer reaches the client. *)
Definition backend_handler (r : Route) (idx i : nat) : handler world := λ wd req w,
  let e := wd_env wd in
  match rs_pool (state_at wd idx) !! i with
  | None => (wd, req, w)
  | Some b =>
      if String.eqb (r_method req) "CONNECT" then
        let '(b', m', w', res) :=
          Connect (e_dial e b) (e_hijack e) (e_established e) (r_method req) b (wd_metrics wd) w in
        let wd' := set_metrics m' (set_backend idx i b' wd) in
        match res with
        | Ok _ => (wd', req, w')
        | Err _ => (wd', req, match e_hijack e, (TryAcquire b).1, e_dial e b, URLHost b with
                              | Hijacked, true, Ok _, Some (String _ _) => w'
                              | _, _, _, _ => http_Error "backend tunnel unavailable" 502 w'
                              end)
        end
      else
        let '(b', m', w') :=
          Proxy (e_end e) (rt_Modifiers r i req) (e_upstream e b req) (r_method req) b (wd_metrics wd) w in
        (set_metrics m' (set_backend idx i b' wd), req, w')
  end.

Definition Route_ServeHTTP (idx : nat) (r : Route) : handler world := λ wd req w,
  let wd := SetRequestLogMetadata (rt_Name r) "" wd in
  let rs := state_at wd idx in
  let e := wd_env wd in
  let '(sel', (bs', res)) := Select (rs_selector rs) (e_now e) (e_rand1 e) (e_rand2 e) req (rs_pool rs) in
  let wd := set_state idx (mkRouteState sel' bs') wd in
  match res with
  | Err err => (wd, req, http_Error (selErr_Error err) 502 w)
  | Ok i =>
      match bs' !! i with
      | None => (wd, req, http_Error "no backend" 503 w)
      | Some b =>
          let wd := SetRequestLogMetadata (rt_Name r) (Name b) wd in
          let req := set_path (strip_path r (r_path req)) req in
          let h := backend_handler r idx i in
          let h := match rt_Middleware r with [] => h | ms => ChainMiddleware h ms end in
          h wd req w
      end
  end.

(** ** The router *)
Record Router : Type := mkRouter { Routes : list Route; Directory : string }.

(** [routeFor]: first a route whose path pattern matches, then any match; the
    result is the route's index. *)
Definition routeFor (rtr : Router) (req : request) (endpoint : string) : option nat :=
  match find_index (λ r, MatchEndpoint r endpoint && MatchPath r req) (Routes rtr) with
  | Some i => Some i
  | None => find_index (λ r, MatchEndpoint r endpoint && Route_Match r req) (Routes rtr)
  end.

Definition ServeHTTPForEndpoint (rtr : Router) (endpoint : string) : handler world := λ wd req w,
  match routeFor rtr req endpoint with
  | Some idx =>
      match Routes rtr !! idx with
      | Some r => Route_ServeHTTP idx r wd req w
      | None => (wd, req, w)
      end
  | None =>
      if negb (String.eqb (Directory rtr) "")
      then (wd, req, e_serveFile (wd_env wd) (Directory rtr +:+ r_path req) req w)
      else (wd, req, http_NotFound w)
  end.

Definition Router_ServeHTTP (rtr : Router) : handler world := ServeHTTPForEndpoint rtr "".

Record EndpointHandler : Type := mkEndpointHandler { eh_router : Router; eh_endpoint : string }.
Definition NewEndpointHandler (rtr : Router) (endpoint : string) : EndpointHandler :=
  mkEndpointHandler rtr endpoint.
Definition EndpointHandler_ServeHTTP (h : EndpointHandler) : handler world :=
  ServeHTTPForEndpoint (eh_router h) (eh_endpoint h).

(** ** OpenAPI validation

    The OpenAPI library (loading, validating and routing a contract) is a
    parameter; an error is its message. *)
Section openapi.
  Context {Doc OARouter OARoute Params Loc : Type}.
  Variable url_Parse : string → result string Loc.
  Variable LoadFromURI : Loc → result string Doc.
  Variable LoadFromFile LoadFromData : string → result string Doc.
  Variable ValidateDoc : Doc → result string unit.
  Variable NewOARouter : Doc → result string OARouter.
  Variable FindRoute : OARouter → request → result string (OARoute * Params).
  Variable ValidateRequest : request → Params → OARoute → result string unit.

Definition routeStatusCode (err : string) : Z :=
  if Contains (ToLower err) "method" then 405 else 404.

Inductive openapiErr : Type :=
  | OAEmptyFile | OAParseLocation (e : string) | OALoad (e : string) | OAValidate (e : string) | OARouterErr (e : string).

Definition openapi_load (filename : string) : result openapiErr Doc :=
  if HasPrefix filename "http://" || HasPrefix filename "https://" || HasPrefix filename "file://" then
    match url_Parse filename with
    | Err e => Err (OAParseLocation e)
    | Ok location => match LoadFromURI location with Ok d => Ok d | Err e => Err (OALoad e) end
    end
  else
    match LoadFromFile filename with
    | Ok d => Ok d
    | Err _ => match LoadFromData filename with Ok d => Ok d | Err e => Err (OALoad e) end
    end.

Definition openapi_handler (router : OARouter) (next : handler world) : handler world := λ wd req w,
  match FindRoute router req with
  | Err e => (wd, req, http_Error ("OpenAPI route validation failed: " +:+ e) (routeStatusCode e) w)
  | Ok (route, params) =>
      match ValidateRequest req params route with
      | Err e => (wd, req, http_Error ("OpenAPI request validation failed: " +:+ e) 400 w)
      | Ok _ => next wd req w
      end
  end.

Definition OpenAPIMiddleware (filename : string) : result openapiErr Middleware :=
  if String.eqb (TrimSpace filename) "" then Err OAEmptyFile
  else
    match openapi_load filename with
    | Err e => Err e
    | Ok document =>
        match ValidateDoc document with
        | Err e => Err (OAValidate e)
        | Ok _ =>
            match NewOARouter document with
            | Err e => Err (OARouterErr e)
            | Ok router => Ok (openapi_handler router)
            end
        end
    end.
End openapi.
End world.
Arguments world : clear implicits.
Arguments Middleware : clear implicits.
Arguments Route : clear implicits.
Arguments Router : clear implicits.

(** ** Wildcards *)

(** The wildcards of hosts and paths.  A pattern without special
    characters matches itself and nothing else; a star followed by such a text
    matches exactly the values that end with the text and have no slash before
    it. *)
Theorem wildcard_semantics (p v : string) :
  literal p = true →
  (MatchWildcard p v = true ↔ v = p) ∧
  (p ≠ "" → MatchWildcard (String "*" p) v = true ↔
            ∃ x, v = x +:+ p ∧ contains_byte slash x = false).
Proof.
  intros Hl. unfold MatchWildcard. split.
  - rewrite match_literal by done. apply String.eqb_eq.
  - intros Hp. destruct (match_star_literal p v Hl Hp) as (b & -> & Hb). done.
Qed.

Lemma wildcard_semantics_witness : MatchWildcard "*.example.com" "api.example.com" = true.
Proof.
  apply (wildcard_semantics ".example.com" "api.example.com"); [reflexivity|discriminate|].
  exists "api". split; reflexivity.
Defined.

(** ** Route selection *)
Section router_spec.
  Context {X : Type}.
  Implicit Types (rtr : Router X).

(** Route [i] is the first one that serves the endpoint and satisfies [f]. *)
Definition first_route rtr (endpoint : string) (f : Route X → bool) (i : nat) : Prop :=
  (∃ r, Routes rtr !! i = Some r ∧ MatchEndpoint r endpoint = true ∧ f r = true) ∧
  (∀ j r, (j < i)%nat → Routes rtr !! j = Some r → MatchEndpoint r endpoint = true → f r = false).

Definition no_route rtr (endpoint : string) (f : Route X → bool) : Prop :=
  ∀ j r, Routes rtr !! j = Some r → MatchEndpoint r endpoint = true → f r = false.

Lemma first_route_index rtr endpoint f i :
  find_index (λ r, MatchEndpoint r endpoint && f r) (Routes rtr) = Some i ↔ first_route rtr endpoint f i.
Proof.
  rewrite find_index_Some. unfold first_route. split; intros [(r & Hr & Hm) Hall].
  - split; [exists r; by rewrite <- andb_true_iff|]. intros j r' Hj Hr' He.
    specialize (Hall j r' Hj Hr'). by rewrite He in Hall.
  - split; [exists r; by rewrite andb_true_iff|]. intros j r' Hj Hr'.
    destruct (MatchEndpoint r' endpoint) eqn:He; [|done]. by eapply Hall.
Qed.

Lemma no_route_index rtr endpoint f :
  find_index (λ r, MatchEndpoint r endpoint && f r) (Routes rtr) = None ↔ no_route rtr endpoint f.
Proof.
  rewrite find_index_None. unfold no_route. split; intros Hall j r Hr.
  - intros He. specialize (Hall j r Hr). by rewrite He in Hall.
  - destruct (MatchEndpoint r endpoint) eqn:He; [|done]. by eapply Hall.
Qed.

(** The three ways [routeFor] can end. *)
Lemma routeFor_cases rtr req endpoint :
  (∃ i, routeFor rtr req endpoint = Some i ∧ first_route rtr endpoint (λ r, MatchPath r req) i) ∨
  (∃ i, routeFor rtr req endpoint = Some i ∧ first_route rtr endpoint (λ r, Route_Match r req) i) ∨
  (routeFor rtr req endpoint = None ∧ no_route rtr endpoint (λ r, Route_Match r req)).
Proof.
  unfold routeFor. destruct (find_index _ (Routes rtr)) as [k|] eqn:H1.
  { left. exists k. split; [done|]. by apply first_route_index. }
  right. destruct (find_index (λ r, MatchEndpoint r endpoint && Route_Match r req) (Routes rtr)) as [k|] eqn:H2.
  - left. exists k. split; [done|]. by apply first_route_index.
  - right. split; [done|]. by apply no_route_index.
Qed.

(** The router picks, among the routes attached to the endpoint, the first
    one with a matching path pattern, even when a route before it matches by
    prefix or host; without a path match, the first one that matches by prefix,
    CONNECT or host; and none exactly when no route of the endpoint matches. *)
Theorem routeFor_spec (rtr : Router X) (req : request) (endpoint : string) :
  (∀ i, routeFor rtr req endpoint = Some i ↔
        first_route rtr endpoint (λ r, MatchPath r req) i ∨
        (no_route rtr endpoint (λ r, MatchPath r req) ∧
         first_route rtr endpoint (λ r, Route_Match r req) i)) ∧
  (routeFor rtr req endpoint = None ↔ no_route rtr endpoint (λ r, Route_Match r req)).
Proof.
  unfold routeFor.
  pose proof (first_route_index rtr endpoint (λ r, MatchPath r req)) as H1.
  pose proof (no_route_index rtr endpoint (λ r, MatchPath r req)) as H2.
  pose proof (first_route_index rtr endpoint (λ r, Route_Match r req)) as H3.
  pose proof (no_route_index rtr endpoint (λ r, Route_Match r req)) as H4.
  assert (no_route rtr endpoint (λ r, Route_Match r req) → no_route rtr endpoint (λ r, MatchPath r req)) as H5.
  { intros Hn j r Hr He. specialize (Hn j r Hr He). unfold Route_Match in Hn. simpl in *.
    by destruct (MatchPath r req). }
  destruct (find_index _ (Routes rtr)) as [k|]; split.
  - intros i. rewrite <- H1, <- H2. split; [by left|by intros [?|[? _]]].
  - rewrite <- H4. split; [done|]. intros Hn%H4%H5%H2. done.
  - intros i. rewrite H3, <- H1, <- H2. split; [by right|by intros [?|[_ ?]]].
  - done.
Qed.

(** ** Middleware chains *)
Lemma chain_from_app i h (ms : list (Middleware X)) m :
  (i <= length ms)%nat → chain_from i h (ms ++ [m]) = chain_from i h ms.
Proof.
  revert h; induction i as [|i IH]; intros h Hi; [done|]. simpl.
  rewrite (lookup_app_l ms [m] i) by exact Hi. apply IH. by apply Nat.lt_le_incl.
Qed.

(** The first middleware of the list is the outermost one. *)
Lemma ChainMiddleware_foldr h (ms : list (Middleware X)) : ChainMiddleware h ms = foldr (λ m h, m h) h ms.
Proof.
  unfold ChainMiddleware. revert h. induction ms as [|m ms IH] using rev_ind; intros h; [done|].
  rewrite length_app, Nat.add_1_r. simpl.
  rewrite list_lookup_middle by done. rewrite chain_from_app by done. rewrite IH. by rewrite foldr_app.
Qed.

(** The first middleware listed runs first, and one that answers without
    calling the next handler shields everything after it: with a rejecting
    middleware in the chain, neither the later ones nor the backend matter. *)
Theorem rejection_shields (pre post post' : list (Middleware X)) (m : Middleware X)
    (h h' : handler (world X)) (reject : handler (world X)) :
  (∀ next, m next = reject) →
  ChainMiddleware h (pre ++ m :: post) = ChainMiddleware h' (pre ++ m :: post') ∧
  ChainMiddleware h (m :: post) = reject.
Proof. intros Hm. rewrite !ChainMiddleware_foldr, !foldr_app. simpl. by rewrite !Hm. Qed.

(** ** The invariant of the shared state *)

(** Every pool is well formed and usable by its selector. *)
Definition state_ok (rs : routeState) : Prop :=
  cursor_ok (rs_selector rs) (length (rs_pool rs)) ∧ Forall wf (rs_pool rs).
Definition world_ok (wd : world X) : Prop := Forall state_ok (wd_routes wd).

(** The connection counts of all backends agree. *)
Definition same_load (wd wd' : world X) : Prop :=
  map (λ rs, map ActiveConnections (rs_pool rs)) (wd_routes wd)
  = map (λ rs, map ActiveConnections (rs_pool rs)) (wd_routes wd').

(** What a handler promises about the shared state. *)
Definition keeps (h : handler (world X)) : Prop :=
  ∀ wd req w, world_ok wd → world_ok (h wd req w).1.1 ∧ same_load wd (h wd req w).1.1.

(** A middleware that keeps the shared state whenever its next handler does. *)
Class SafeMiddleware (m : Middleware X) : Prop := safe_middleware : ∀ h, keeps h → keeps (m h).

Lemma ChainMiddleware_keeps h ms : Forall SafeMiddleware ms → keeps h → keeps (ChainMiddleware h ms).
Proof. intros Hms Hh. rewrite ChainMiddleware_foldr. induction Hms; simpl; auto. Qed.

Lemma wf_counts_ok bs : Forall wf bs → counts_ok bs.
Proof.
  intros H i b Hb. destruct (proj1 (Forall_lookup _ _) H i b Hb) as [H1 H2 _ _]. unfold MaxInt64 in *. lia.
Qed.

Lemma state_ok_ready rs : state_ok rs → sel_ready (rs_selector rs) (rs_pool rs).
Proof. intros [Hc Hw]. split; [by apply wf_counts_ok|done]. Qed.

Lemma state_at_ok wd idx : world_ok wd → state_ok (state_at wd idx).
Proof.
  intros H. unfold state_at. destruct (wd_routes wd !! idx) as [rs|] eqn:Hi; simpl.
  - by apply (proj1 (Forall_lookup _ _) H idx).
  - split; [done|constructor].
Qed.

(** Replacing the state of a route by one of equal load keeps both. *)
Lemma set_state_keeps wd idx rs :
  world_ok wd → state_ok rs →
  map ActiveConnections (rs_pool rs) = map ActiveConnections (rs_pool (state_at wd idx)) →
  world_ok (set_state idx rs wd) ∧ same_load wd (set_state idx rs wd).
Proof.
  intros Hw Hr Hl. unfold world_ok, same_load, set_state; simpl. split.
  - by apply Forall_insert.
  - rewrite list_fmap_insert. rewrite Hl. unfold state_at.
    destruct (wd_routes wd !! idx) as [rs0|] eqn:Hi; simpl.
    + symmetry. apply list_insert_id. by rewrite list_lookup_fmap, Hi.
    + symmetry. apply list_insert_ge. rewrite length_map. by apply lookup_ge_None_1.
Qed.

Lemma lawful_wf now bs o : lawful now bs o → Forall wf bs → Forall wf o.1.
Proof.
  intros [Hf Hl _] Hw. apply Forall_lookup. intros i b Hi.
  destruct (lookup_lt_is_Some_2 bs i) as [b0 H0].
  { rewrite <- Hl. by eapply lookup_lt_Some. }
  pose proof (proj1 (Forall_lookup _ _) Hw i b0 H0) as Hb0.
  destruct (Hf i b0 H0) as [He|He]; rewrite Hi in He; simplify_eq; [done|]. by apply Available_wf.
Qed.

Lemma lawful_load now bs o : lawful now bs o → map ActiveConnections o.1 = map ActiveConnections bs.
Proof.
  intros [Hf Hl _]. apply list_eq. intros i. rewrite !list_lookup_fmap.
  destruct (bs !! i) as [b|] eqn:Hb; simpl.
  - destruct (Hf i b Hb) as [->| ->]; simpl; [done|]. by rewrite touch_active.
  - apply lookup_ge_None_1 in Hb. by rewrite lookup_ge_None_2 by lia.
Qed.

Lemma same_load_trans wd1 wd2 wd3 : same_load wd1 wd2 → same_load wd2 wd3 → same_load wd1 wd3.
Proof. unfold same_load. by intros -> . Qed.

Lemma set_backend_keeps wd idx i b b' :
  world_ok wd → rs_pool (state_at wd idx) !! i = Some b →
  wf b' → ActiveConnections b' = ActiveConnections b →
  world_ok (set_backend idx i b' wd) ∧ same_load wd (set_backend idx i b' wd).
Proof.
  intros Hw Hb Hwf Ha. destruct (state_at_ok wd idx Hw) as [Hc Hf].
  apply set_state_keeps; [done|split; simpl|simpl].
  - by rewrite length_insert.
  - by apply Forall_insert.
  - rewrite list_fmap_insert, Ha. apply list_insert_id. by rewrite list_lookup_fmap, Hb.
Qed.

Lemma backend_handler_keeps r idx i : keeps (backend_handler r idx i).
Proof.
  intros wd req w Hw. unfold backend_handler.
  destruct (rs_pool (state_at wd idx) !! i) as [b|] eqn:Hb; [|done].
  assert (wf b) as Hwf by (by apply (proj1 (Forall_lookup _ _) (proj2 (state_at_ok wd idx Hw)) i)).
  destruct (String.eqb _ _).
  - pose proof (Connect_spec (e_dial (wd_env wd) b) (e_hijack (wd_env wd)) (e_established (wd_env wd))
                  (r_method req) b (wd_metrics wd) w Hwf) as Hc.
    destruct (Connect _ _ _ _ _ _ _) as [[[b' m'] w'] res]. destruct Hc as [-> _].
    pose proof (set_backend_keeps wd idx i b b Hw Hb Hwf eq_refl). by destruct res.
  - pose proof (Proxy_steps (e_end (wd_env wd)) (rt_Modifiers r i req) (e_upstream (wd_env wd) b req)
                  (r_method req) b (wd_metrics wd) w) as Hs.
    pose proof (Proxy_active (e_end (wd_env wd)) (rt_Modifiers r i req) (e_upstream (wd_env wd) b req)
                  (r_method req) b (wd_metrics wd) w Hwf) as Ha.
    destruct (Proxy _ _ _ _ _ _ _) as [[b' m'] w']. simpl in *.
    apply (set_backend_keeps wd idx i b b' Hw Hb); [by eapply bsteps_wf|done].
Qed.

(** The state after the selection of a backend. *)
Lemma select_keeps wd idx now (r1 r2 : nat) req :
  world_ok wd →
  let rs := state_at wd idx in
  let '(sel', (bs', _)) := Select (rs_selector rs) now r1 r2 req (rs_pool rs) in
  world_ok (set_state idx (mkRouteState sel' bs') wd) ∧
  same_load wd (set_state idx (mkRouteState sel' bs') wd).
Proof.
  intros Hw rs. pose proof (state_at_ok wd idx Hw) as Hok. fold rs in Hok.
  pose proof (Select_lawful (rs_selector rs) now r1 r2 req (rs_pool rs) (state_ok_ready rs Hok)) as Hl.
  pose proof (Select_cursor (rs_selector rs) now r1 r2 req (rs_pool rs) (proj1 Hok)) as Hc.
  pose proof (lawful_wf _ _ _ Hl (proj2 Hok)) as Hf. pose proof (lawful_load _ _ _ Hl) as Hld.
  pose proof (law_length _ _ _ Hl) as Hlen.
  destruct (Select _ _ _ _ _ _) as [sel' [bs' res]]. simpl in *.
  apply set_state_keeps; [done|split; simpl|done]; [by rewrite Hlen|done].
Qed.

Lemma Route_ServeHTTP_keeps idx r :
  Forall SafeMiddleware (rt_Middleware r) → keeps (Route_ServeHTTP idx r).
Proof.
  intros Hm wd req w Hw. unfold Route_ServeHTTP.
  set (wd1 := SetRequestLogMetadata (rt_Name r) "" wd).
  pose proof (select_keeps wd1 idx (e_now (wd_env wd1)) (e_rand1 (wd_env wd1)) (e_rand2 (wd_env wd1)) req Hw) as Hs.
  simpl in Hs. destruct (Select _ _ _ _ _ _) as [sel' [bs' res]]. destruct Hs as [Hs1 Hs2].
  destruct res as [i|e]; [|done]. destruct (bs' !! i) as [b|]; [|done].
  set (h := match rt_Middleware r with [] => _ | _ => _ end).
  assert (keeps h) as Hh.
  { subst h. destruct (rt_Middleware r) as [|m ms]; [apply backend_handler_keeps|].
    apply ChainMiddleware_keeps; [done|apply backend_handler_keeps]. }
  destruct (Hh (SetRequestLogMetadata (rt_Name r) (Name b) (set_state idx (mkRouteState sel' bs') wd1))
               (set_path (strip_path r (r_path req)) req) w Hs1) as [H1 H2].
  split; [done|]. by eapply same_load_trans; [exact Hs2|].
Qed.

Lemma ServeHTTPForEndpoint_keeps rtr endpoint :
  Forall (λ r, Forall SafeMiddleware (rt_Middleware r)) (Routes rtr) → keeps (ServeHTTPForEndpoint rtr endpoint).
Proof.
  intros Hm wd req w Hw. unfold ServeHTTPForEndpoint.
  destruct (routeFor rtr req endpoint) as [idx|]; [|by case_match].
  destruct (Routes rtr !! idx) as [r|] eqn:Hr; [|done].
  apply Route_ServeHTTP_keeps; [|done]. by apply (proj1 (Forall_lookup _ _) Hm idx).
Qed.

(** C7: serving a request, whatever it is and whatever the upstream does,
    keeps every backend of every route well formed (connection counts within
    limits, breaker coherent), keeps every selector usable, and gives back every
    connection it took, provided the routes' middleware is safe. *)
Theorem serving_keeps_state (rtr : Router X) (endpoint : string) (wd : world X) (req : request) (w : writer) :
  Forall (λ r, Forall SafeMiddleware (rt_Middleware r)) (Routes rtr) → world_ok wd →
  world_ok (ServeHTTPForEndpoint rtr endpoint wd req w).1.1 ∧
  same_load wd (ServeHTTPForEndpoint rtr endpoint wd req w).1.1.
Proof. intros Hm Hw. by apply ServeHTTPForEndpoint_keeps. Qed.
End router_spec.

(** ** A concrete router for the witnesses *)
Definition sample_env : env :=
  mkEnv 1 2 0 0 (λ _ _, Ok (mkResponse 200 ∅ "hello")) (λ _, Ok tt) NoHijacker (Ok tt) (λ _ _ w, w).

Definition sample_world : world unit :=
  mkWorld [mkRouteState (SRoundRobin 0) sample_pool] no_metrics (EmptyString, EmptyString) sample_env tt.

Definition sample_route : Route unit :=
  mkRoute "api" "/api" true [] [] [] [] (λ _ _, []).

Definition sample_router : Router unit := mkRouter [sample_route] "".

Lemma sample_world_ok : world_ok sample_world.
Proof.
  constructor; [|constructor]. split; [simpl; lia|].
  repeat constructor; simpl; unfold MaxInt64; lia.
Qed.

Lemma rejection_shields_witness :
  ChainMiddleware (ServeHTTPForEndpoint sample_router "")
    [(λ _ wd req w, (wd, req, http_NotFound w)) : Middleware unit; λ h, h]
  = λ wd req w, (wd, req, http_NotFound w).
Proof. by apply (rejection_shields [] [λ h, h] [] _ _ (ServeHTTPForEndpoint sample_router "")). Defined.

Lemma serving_keeps_state_witness :
  same_load sample_world (ServeHTTPForEndpoint sample_router "" sample_world sample_request new_writer).1.1.
Proof.
  apply (serving_keeps_state sample_router "" sample_world sample_request new_writer).
  - repeat constructor.
  - apply sample_world_ok.
Defined.

(** ** What the client gets *)
Section route_reply.
  Context {X : Type}.

(** The answer of backend [b], as the client sees it. *)
Definition backend_status (r : Route X) (i : nat) (e : env) (b : Backend) (req : request) : Z :=
  if (TryAcquire b).1 then client_status (rt_Modifiers r i req) (e_upstream e b req) else 503.

Lemma proxied_reply (r : Route X) idx i wd req w b :
  rs_pool (state_at wd idx) !! i = Some b → wf b → r_method req ≠ "CONNECT" → w_reply w = None →
  200 ≤ client_status (rt_Modifiers r i req) (e_upstream (wd_env wd) b req) →
  status_of (backend_handler r idx i wd req w).2 = Some (backend_status r i (wd_env wd) b req) ∧
  (backend_handler r idx i wd req w).1.2 = req.
Proof.
  intros Hb Hwf Hm Hw Hc. unfold backend_handler, backend_status. rewrite Hb.
  rewrite (proj2 (String.eqb_neq _ _) Hm).
  pose proof (Proxy_spec (e_end (wd_env wd)) (rt_Modifiers r i req) (e_upstream (wd_env wd) b req)
                (r_method req) b (wd_metrics wd) w Hwf Hw Hc) as Hp.
  destruct (Proxy _ _ _ _ _ _ _) as [[b' m'] w']. destruct Hp as [_ Hp]. simpl.
  split; [|done]. by destruct (TryAcquire b).1; destruct Hp as (_ & Hp); [|destruct Hp].
Qed.

Lemma strip_path_slash (r : Route X) path :
  rt_StripPrefix r = true → rt_Prefix r ≠ "" → HasPrefix (strip_path r path) "/" = true.
Proof.
  intros Hs Hp. unfold strip_path. rewrite Hs, (proj2 (String.eqb_neq _ _) Hp).
  cbn [andb negb]. destruct (HasPrefix (TrimPrefix path (rt_Prefix r)) "/") eqn:H; [done|].
  apply HasPrefix_spec. by eexists.
Qed.

(** A plain request on a route without middleware gets exactly one answer.
    When no backend of the route is available it is a 502 and the path is left
    alone; otherwise an available backend is asked, with the route's prefix
    stripped from the path (the result always starts with a slash), and the
    client sees that backend's answer, or 503 when it is at its limit. *)
Theorem route_reply (r : Route X) (idx : nat) (wd : world X) (req : request) (w : writer) :
  world_ok wd → (idx < length (wd_routes wd))%nat →
  rt_Middleware r = [] → r_method req ≠ "CONNECT" → w_reply w = None →
  (∀ i b req', 200 ≤ client_status (rt_Modifiers r i req') (e_upstream (wd_env wd) b req')) →
  let bs := rs_pool (state_at wd idx) in
  let now := e_now (wd_env wd) in
  let '(wd', req', w') := Route_ServeHTTP idx r wd req w in
  if existsb (can now) bs then
    ∃ i b, bs !! i = Some b ∧ can now b = true ∧ wd_log wd' = (rt_Name r, Name b) ∧
           r_path req' = strip_path r (r_path req) ∧
           (rt_StripPrefix r = true → rt_Prefix r ≠ "" → HasPrefix (r_path req') "/" = true) ∧
           status_of w' = Some (backend_status r i (wd_env wd) (touch now b) req')
  else status_of w' = Some 502 ∧ req' = req ∧ wd_log wd' = (rt_Name r, EmptyString).
Proof.
  intros Hok Hidx Hm Hmeth Hw Hc bs now. unfold Route_ServeHTTP. rewrite Hm.
  set (wd1 := SetRequestLogMetadata (rt_Name r) "" wd).
  change (state_at wd1 idx) with (state_at wd idx). change (wd_env wd1) with (wd_env wd). fold now.
  pose proof (state_at_ok wd idx Hok) as Hst.
  pose proof (Select_lawful (rs_selector (state_at wd idx)) now (e_rand1 (wd_env wd)) (e_rand2 (wd_env wd)) req bs
                (state_ok_ready _ Hst)) as [Hf Hl Hres].
  fold bs. destruct (Select _ _ _ _ _ _) as [sel' [bs' res]]. simpl in *.
  assert (existsb (can now) bs = true ↔ ∃ i b, bs !! i = Some b ∧ can now b = true) as Hex.
  { rewrite existsb_exists. split.
    - intros (b & Hin & Hb). apply list_elem_of_In, list_elem_of_lookup in Hin as [i Hi]. eauto.
    - intros (i & b & Hi & Hb). exists b. split; [|done]. apply list_elem_of_In, list_elem_of_lookup. eauto. }
  destruct res as [i|e].
  - destruct Hres as (b & Hb & Hcan & Hb'). rewrite Hb'.
    rewrite (proj2 Hex) by eauto.
    set (wd2 := SetRequestLogMetadata _ _ _). set (req2 := set_path _ _).
    assert (rs_pool (state_at wd2 idx) !! i = Some (touch now b)) as Hp.
    { unfold state_at, wd2; simpl. rewrite list_lookup_insert_eq by done. done. }
    assert (wf (touch now b)) as Hwf.
    { apply Available_wf. by apply (proj1 (Forall_lookup _ _) (proj2 Hst) i). }
    destruct (proxied_reply r idx i wd2 req2 w (touch now b) Hp Hwf Hmeth Hw (Hc i (touch now b) req2)) as [H1 H2].
    assert (wd_log (backend_handler r idx i wd2 req2 w).1.1 = (rt_Name r, Name b)) as Hlog.
    { unfold backend_handler. rewrite Hp. rewrite (proj2 (String.eqb_neq (r_method req2) "CONNECT") Hmeth).
      destruct (Proxy _ _ _ _ _ _ _) as [[b3 m3] w3]. simpl.
      f_equal. unfold touch, Available. by repeat case_match. }
    destruct (backend_handler r idx i wd2 req2 w) as [[wd3 req3] w3]. simpl in *. subst req3.
    exists i, b. repeat (split; [done|]). split; [|done]. apply strip_path_slash.
  - assert (existsb (can now) bs = false) as Hno.
    { apply not_true_is_false. rewrite Hex. intros (i & b & Hb & Hcan). destruct e; [|destruct Hres as [_ Hr]|done].
      - by rewrite Hres in Hb.
      - by rewrite (Hr i b Hb) in Hcan. }
    rewrite Hno. split; [|done]. by apply http_Error_status.
Qed.
End route_reply.

Lemma route_reply_witness :
  status_of (Route_ServeHTTP 0 sample_route sample_world sample_request new_writer).2 = Some 200.
Proof.
  pose proof (route_reply sample_route 0 sample_world sample_request new_writer sample_world_ok) as H.
  destruct (Route_ServeHTTP 0 sample_route sample_world sample_request new_writer) as [[wd' req'] w'] eqn:E.
  cbn [snd]. simpl in H. destruct H as (i & b & Hb & _ & _ & _ & _ & ->); [lia|done|done|done|done|].
  destruct i as [|[|[|i]]]; simplify_eq/=; reflexivity.
Defined.
