(* ===== verification/RateLimiter.v ===== *)
(** * The rate limiter

    Models [pkg/routing/builtin_rate_limiter.go].  Times and durations are
    nanoseconds; [nextCleanup] is [None] for Go's zero time.  The middleware
    reads the limiter from the state it shares between requests through
    [get]/[put]. *)

From S2P Require Import Prelude GoStd GoHttp Backend Selector Routing.
Open Scope Z_scope.

Definition minute : Z := 60 * second.

Record rateLimitBucket : Type := mkBucket { bk_count : Z; bk_resetTime : Z }.

Record rateLimiter : Type := mkLimiter {
  rl_buckets : gmap string rateLimitBucket;
  rl_window : Z;
  rl_maxRequests : Z;
  rl_nextCleanup : option Z;
  rl_cleanupInterval : Z;
}.

Definition newRateLimiter (maxRequests window : Z) : rateLimiter :=
  let cleanupInterval := if (window <=? 0) || (minute <? window) then minute else window in
  mkLimiter ∅ window maxRequests None cleanupInterval.

(** [!now.Before(bucket.resetTime)] *)
Definition expired (now : Z) (b : rateLimitBucket) : bool := negb (now <? bk_resetTime b).

Definition cleanup (now : Z) (l : rateLimiter) : rateLimiter :=
  if match rl_nextCleanup l with None => true | Some t => negb (now <? t) end
  then mkLimiter (filter (λ kb, expired now kb.2 = false) (rl_buckets l)) (rl_window l) (rl_maxRequests l)
         (Some (now + rl_cleanupInterval l)) (rl_cleanupInterval l)
  else l.

Definition set_bucket (k : string) (b : rateLimitBucket) (l : rateLimiter) : rateLimiter :=
  mkLimiter (<[k := b]> (rl_buckets l)) (rl_window l) (rl_maxRequests l) (rl_nextCleanup l) (rl_cleanupInterval l).

(** The part of [allow] after the cleanup. *)
Definition take_slot (key : string) (now : Z) (l : rateLimiter) : bool * rateLimiter :=
  let fresh := (true, set_bucket key (mkBucket 1 (now + rl_window l)) l) in
  match rl_buckets l !! key with
  | None => fresh
  | Some b =>
      if expired now b then fresh
      else
        let count := int64 (bk_count b + 1) in
        (count <=? rl_maxRequests l, set_bucket key (mkBucket count (bk_resetTime b)) l)
  end.

Definition allow (key : string) (now : Z) (l : rateLimiter) : bool * rateLimiter :=
  take_slot key now (cleanup now l).

Definition matchesAnyPath (patterns : list string) (requestPath : string) : bool :=
  existsb (λ p, MatchWildcard p requestPath || MatchWildcard p (Base requestPath)) patterns.

Definition clientIP (remoteAddr : string) : string :=
  match SplitHostPort remoteAddr with
  | Some (host, _) => host
  | None => TrimSpace remoteAddr
  end.

Section middleware.
  Context {X : Type} (get : X → rateLimiter) (put : rateLimiter → X → X).

Definition rateLimit (patterns : list string) : Middleware X := λ next wd req w,
  if negb (match patterns with [] => true | _ => false end) && negb (matchesAnyPath patterns (r_path req))
  then next wd req w
  else
    let '(ok, l) := allow (clientIP (r_remote req)) (e_now (wd_env wd)) (get (wd_mw wd)) in
    let wd := set_mw (put l (wd_mw wd)) wd in
    if ok then next wd req w else (wd, req, http_Error "rate limit exceeded" 429 w).

Definition RateLimitSimple : Middleware X := rateLimit [].
Definition RateLimitExtensions (extensions : list string) : Middleware X := rateLimit extensions.

#[global] Instance rateLimit_safe patterns : SafeMiddleware (rateLimit patterns).
Proof.
  intros h Hh wd req w Hw. unfold rateLimit. destruct (_ && _); [by apply Hh|].
  destruct (allow _ _ _) as [[] l]; [|done]. by apply (Hh (set_mw _ wd)).
Qed.
End middleware.

(** ** Runs of the limiter *)
Definition hit : Type := string * Z.

Fixpoint run_limiter (l : rateLimiter) (hits : list hit) : list bool :=
  match hits with
  | [] => []
  | (k, t) :: hits' => let '(ok, l') := allow k t l in ok :: run_limiter l' hits'
  end.

Fixpoint end_limiter (l : rateLimiter) (hits : list hit) : rateLimiter :=
  match hits with
  | [] => l
  | (k, t) :: hits' => end_limiter (allow k t l).2 hits'
  end.

(** The hits come in the order of the clock, from [t0] on. *)
Fixpoint in_order (t0 : Z) (hits : list hit) : Prop :=
  match hits with
  | [] => True
  | (_, t) :: hits' => t0 ≤ t ∧ in_order t hits'
  end.

(** ** The reference: fixed windows, never forgotten

    A client's bucket is created by its first hit and replaced by the first hit
    at or after its reset time. *)
Definition live (now : Z) (b : option rateLimitBucket) : option rateLimitBucket :=
  match b with Some b => if expired now b then None else Some b | None => None end.

Fixpoint run_reference (l : rateLimiter) (hits : list hit) : list bool :=
  match hits with
  | [] => []
  | (k, t) :: hits' => let '(ok, l') := take_slot k t l in ok :: run_reference l' hits'
  end.

(** Two limiters with the same parameters and the same live buckets. *)
Record agree (now : Z) (l r : rateLimiter) : Prop := {
  ag_window : rl_window l = rl_window r;
  ag_max : rl_maxRequests l = rl_maxRequests r;
  ag_live : ∀ k, live now (rl_buckets l !! k) = live now (rl_buckets r !! k);
}.

Lemma live_later now now' b : now ≤ now' → live now' (live now b) = live now' b.
Proof.
  intros Hle. destruct b as [b|]; [|done]. simpl. unfold expired.
  destruct (Z.ltb_spec now (bk_resetTime b)); simpl; [done|]. unfold expired.
  destruct (Z.ltb_spec now' (bk_resetTime b)); simpl; [lia|done].
Qed.

Lemma agree_later now now' l r : now ≤ now' → agree now l r → agree now' l r.
Proof. intros Hle [H1 H2 H3]. split; [done|done|]. intros k.
  rewrite <- (live_later now now' (rl_buckets l !! k)), <- (live_later now now' (rl_buckets r !! k)) by done.
  by rewrite H3.
Qed.

Lemma cleanup_agree now l : agree now (cleanup now l) l.
Proof.
  unfold cleanup. destruct (match rl_nextCleanup l with None => true | Some t => _ end); [|done].
  split; [done|done|]. intros k. simpl. rewrite map_lookup_filter.
  destruct (rl_buckets l !! k) as [b|]; [|done]. simpl.
  case_guard as Hg; simpl in *; [done|]. by destruct (expired now b).
Qed.

Lemma take_slot_live k now l :
  take_slot k now l =
  match live now (rl_buckets l !! k) with
  | None => (true, set_bucket k (mkBucket 1 (now + rl_window l)) l)
  | Some b => (int64 (bk_count b + 1) <=? rl_maxRequests l,
               set_bucket k (mkBucket (int64 (bk_count b + 1)) (bk_resetTime b)) l)
  end.
Proof. unfold take_slot. destruct (rl_buckets l !! k) as [b|]; simpl; [by destruct (expired now b)|done]. Qed.

Lemma set_bucket_agree now l r k b : agree now l r → agree now (set_bucket k b l) (set_bucket k b r).
Proof.
  intros [H1 H2 H3]. split; [done|done|]. intros k'. simpl.
  destruct (decide (k = k')) as [->|]; [by rewrite !lookup_insert_eq|by rewrite !lookup_insert_ne].
Qed.

Lemma take_slot_agree k now l r :
  agree now l r → (take_slot k now l).1 = (take_slot k now r).1 ∧
  agree now (take_slot k now l).2 (take_slot k now r).2.
Proof.
  intros Ha. destruct (Ha) as [H1 H2 H3]. rewrite !take_slot_live, H1, H2, H3.
  destruct (live now (rl_buckets r !! k)); simpl; (split; [done|]); by apply set_bucket_agree.
Qed.

Lemma agree_trans now l r s : agree now l r → agree now r s → agree now l s.
Proof. intros [? ? H] [? ? H']. split; [congruence|congruence|]. intros k. by rewrite H, H'. Qed.

Lemma run_agree hits t0 l r :
  agree t0 l r → in_order t0 hits → run_limiter l hits = run_reference r hits.
Proof.
  revert t0 l r; induction hits as [|[k t] hits IH]; intros t0 l r Ha; [done|]. intros [Hle Ho]. simpl.
  unfold allow. apply (agree_later _ t) in Ha; [|done].
  destruct (take_slot_agree k t (cleanup t l) r) as [He Ha'].
  { eapply agree_trans; [apply cleanup_agree|done]. }
  destruct (take_slot k t (cleanup t l)) as [ok l'], (take_slot k t r) as [ok' r']. simpl in *. subst.
  f_equal. by eapply IH.
Qed.

(** C4: the limiter implements fixed windows.  Over any sequence of hits in
    the order of the clock, from any state, its answers are those of the
    reference that never removes a bucket: the cleanup of expired buckets
    cannot be observed. *)
Theorem cleanup_unobservable (l : rateLimiter) (t0 : Z) (hits : list hit) :
  in_order t0 hits → run_limiter l hits = run_reference l hits.
Proof. intros. by apply (run_agree hits t0). Qed.

Lemma cleanup_unobservable_witness :
  run_limiter (newRateLimiter 1 second) [("a", 5); ("b", 6); ("a", 7); ("a", 2 * second)]
  = run_reference (newRateLimiter 1 second) [("a", 5); ("b", 6); ("a", 7); ("a", 2 * second)].
Proof. apply (cleanup_unobservable _ 0). unfold second. simpl. lia. Defined.

(** ** The quota *)

(** The answers given to one client. *)
Fixpoint answers_of (k : string) (hits : list hit) (oks : list bool) : list bool :=
  match hits, oks with
  | (k', _) :: hits', ok :: oks' =>
      if String.eqb k' k then ok :: answers_of k hits' oks' else answers_of k hits' oks'
  | _, _ => []
  end.

Definition hits_of (k : string) (hits : list hit) : list hit := List.filter (λ h, String.eqb h.1 k) hits.

Lemma set_bucket_lookup k k' b l :
  rl_buckets (set_bucket k b l) !! k' = if String.eqb k k' then Some b else rl_buckets l !! k'.
Proof.
  simpl. destruct (String.eqb_spec k k') as [->|]; [apply lookup_insert_eq|by apply lookup_insert_ne].
Qed.

(** Inside the window of a live bucket the counter runs on. *)
Lemma run_window k hits l b :
  rl_buckets l !! k = Some b → 0 ≤ bk_count b →
  bk_count b + Z.of_nat (length (hits_of k hits)) ≤ MaxInt64 →
  Forall (λ h, h.2 < bk_resetTime b) hits →
  answers_of k hits (run_reference l hits)
  = map (λ i, bk_count b + 1 + Z.of_nat i <=? rl_maxRequests l) (seq 0 (length (hits_of k hits))).
Proof.
  revert l b; induction hits as [|[k' t] hits IH]; intros l b Hb H0 Hmax Hall; [done|].
  apply Forall_cons in Hall as [Ht Hall]. simpl in Ht. cbn [run_reference].
  destruct (String.eqb_spec k' k) as [->|Hne].
  - rewrite take_slot_live, Hb. simpl live. unfold expired at 1. rewrite (proj2 (Z.ltb_lt _ _) Ht).
    cbn [negb]. unfold hits_of in *. simpl in *. rewrite String.eqb_refl in *. simpl in *.
    assert (int64 (bk_count b + 1) = bk_count b + 1) as He by (apply int64_id; lia).
    rewrite He. f_equal; [f_equal; lia|].
    rewrite (IH _ (mkBucket (bk_count b + 1) (bk_resetTime b))); simpl;
      [|by rewrite lookup_insert_eq|lia|lia|done].
    rewrite <- seq_shift, map_map. apply map_ext. intros i. f_equal. lia.
  - pose proof (take_slot_live k' t l) as Hts.
    assert (∃ ok b', take_slot k' t l = (ok, set_bucket k' b' l)) as (ok & b' & ->).
    { rewrite Hts. destruct (live t (rl_buckets l !! k')); eauto. }
    unfold hits_of in *. simpl in *. rewrite (proj2 (String.eqb_neq _ _) Hne) in *.
    apply (IH (set_bucket k' b' l) b); try done. simpl. by rewrite lookup_insert_ne.
Qed.

(** C27: the quota.  From a client's first hit of a window, the hits it makes
    before the window ends are accepted as long as fewer than the quota came
    before, and refused from then on, whatever other clients do meanwhile.  The
    first hit is accepted even for a quota below one. *)
Theorem quota_respected (l : rateLimiter) (k : string) (t0 : Z) (hits : list hit) :
  live t0 (rl_buckets l !! k) = None → in_order t0 ((k, t0) :: hits) →
  Forall (λ h, h.2 < t0 + rl_window l) hits →
  Z.of_nat (length (hits_of k ((k, t0) :: hits))) ≤ MaxInt64 →
  answers_of k ((k, t0) :: hits) (run_limiter l ((k, t0) :: hits))
  = map (λ i, Z.of_nat i <? Z.max 1 (rl_maxRequests l)) (seq 0 (length (hits_of k ((k, t0) :: hits)))).
Proof.
  intros Hlive Ho Hall Hmax. rewrite (run_agree _ t0 l l) by done. cbn [run_reference].
  rewrite take_slot_live, Hlive. unfold hits_of in *. simpl in Hmax |- *. rewrite String.eqb_refl in *.
  simpl in *. f_equal; [symmetry; apply Z.ltb_lt; lia|].
  rewrite (run_window k hits _ (mkBucket 1 (t0 + rl_window l))); simpl;
    [|by rewrite lookup_insert_eq|lia|unfold hits_of; lia|done].
  rewrite <- seq_shift, map_map. apply map_ext. intros i.
  destruct (Z.leb_spec (1 + 1 + Z.of_nat i) (rl_maxRequests l)), (Z.ltb_spec (Z.of_nat (S i)) (Z.max 1 (rl_maxRequests l)));
    lia || done.
Qed.

Lemma quota_respected_witness :
  answers_of "a" [("a", 5); ("b", 6); ("a", 7); ("a", 8)]
    (run_limiter (newRateLimiter 2 second) [("a", 5); ("b", 6); ("a", 7); ("a", 8)]) = [true; true; false].
Proof.
  apply (quota_respected (newRateLimiter 2 second) "a" 5 [("b", 6); ("a", 7); ("a", 8)]).
  - reflexivity.
  - simpl. lia.
  - unfold second. repeat constructor.
  - simpl. unfold MaxInt64. lia.
Defined.

(** ** Memory *)
Record tidy (now : Z) (l : rateLimiter) : Prop := {
  td_window : 0 < rl_window l;
  td_interval : 0 < rl_cleanupInterval l ≤ Z.min minute (rl_window l);
  td_clean : ∃ c, rl_nextCleanup l = Some c ∧ now < c ≤ now + rl_cleanupInterval l ∧
             map_Forall (λ _ b, c - rl_cleanupInterval l < bk_resetTime b) (rl_buckets l);
}.

Lemma take_slot_frame k now l :
  ∃ b, (take_slot k now l).2 = set_bucket k b l ∧ (bk_resetTime b = now + rl_window l ∨ now < bk_resetTime b).
Proof.
  rewrite take_slot_live. destruct (rl_buckets l !! k) as [b|]; simpl; [|eauto].
  unfold expired. destruct (Z.ltb_spec now (bk_resetTime b)); simpl; eauto.
Qed.

Lemma allow_tidy k now l :
  0 < rl_window l → 0 < rl_cleanupInterval l ≤ Z.min minute (rl_window l) →
  (rl_nextCleanup l = None ∨ ∃ t0, t0 ≤ now ∧ tidy t0 l) →
  tidy now (allow k now l).2.
Proof.
  intros Hw Hi Hor. unfold allow.
  assert (∃ c, rl_nextCleanup (cleanup now l) = Some c ∧ now < c ≤ now + rl_cleanupInterval l ∧
               map_Forall (λ _ b, c - rl_cleanupInterval l < bk_resetTime b) (rl_buckets (cleanup now l)) ∧
               rl_window (cleanup now l) = rl_window l ∧
               rl_cleanupInterval (cleanup now l) = rl_cleanupInterval l) as (c & Hc & Hn & Hb & Hwl & Hil).
  { unfold cleanup.
    destruct (match rl_nextCleanup l with None => true | Some t => negb (now <? t) end) eqn:Hcl.
    - exists (now + rl_cleanupInterval l). simpl. split; [done|]. split; [lia|]. split; [|done].
      intros k' b [_ He]%map_lookup_filter_Some. simpl in He. unfold expired in He.
      destruct (Z.ltb_spec now (bk_resetTime b)); [lia|done].
    - destruct Hor as [Hor|(t0 & Ht0 & [_ _ (c & Hc & Hn & Hb)])]; [by rewrite Hor in Hcl|].
      rewrite Hc in Hcl. destruct (Z.ltb_spec now c); [|done]. exists c. split; [done|]. split; [lia|done]. }
  destruct (take_slot_frame k now (cleanup now l)) as (b & -> & Hor'). rewrite Hwl in Hor'.
  split; simpl; rewrite ?Hwl, ?Hil; [done|done|]. exists c. split; [done|]. split; [done|].
  apply map_Forall_insert_2; [lia|done].
Qed.

(** The limiter forgets.  However many clients it sees, after any run of
    hits in the order of the clock every bucket it still holds was due for reset
    at most one cleanup interval, hence at most one minute, ago. *)
Theorem buckets_do_not_pile_up (maxRequests window t0 : Z) (hits : list hit) (k : string) (t : Z) :
  0 < window → in_order t0 (hits ++ [(k, t)]) →
  map_Forall (λ _ b, t - Z.min minute window < bk_resetTime b)
    (rl_buckets (end_limiter (newRateLimiter maxRequests window) (hits ++ [(k, t)]))).
Proof.
  intros Hw.
  assert (∀ l t0, 0 < rl_window l → 0 < rl_cleanupInterval l ≤ Z.min minute (rl_window l) →
            (rl_nextCleanup l = None ∨ ∃ t1, t1 ≤ t0 ∧ tidy t1 l) → in_order t0 (hits ++ [(k, t)]) →
            tidy t (end_limiter l (hits ++ [(k, t)])) ∧ rl_window (end_limiter l (hits ++ [(k, t)])) = rl_window l) as Hrun.
  { induction hits as [|[k' t'] hits IH]; intros l t1 Hlw Hli Hor Ho; simpl in *.
    - destruct Ho as [Hle _]. split.
      + apply allow_tidy; [done|done|]. destruct Hor as [|(t2 & Ht2 & Htd)]; [by left|right].
        exists t2. split; [lia|done].
      + unfold allow. destruct (take_slot_frame k t (cleanup t l)) as (b & -> & _). simpl.
        unfold cleanup. by destruct (match rl_nextCleanup l with None => true | Some t => _ end).
    - destruct Ho as [Hle Ho].
      assert (tidy t' (allow k' t' l).2) as Htd.
      { apply allow_tidy; [done|done|]. destruct Hor as [|(t2 & Ht2 & Htd)]; [by left|right].
        exists t2. split; [lia|done]. }
      assert (rl_window (allow k' t' l).2 = rl_window l) as Hwin.
      { unfold allow. destruct (take_slot_frame k' t' (cleanup t' l)) as (b & -> & _). simpl.
        unfold cleanup. by destruct (match rl_nextCleanup l with None => true | Some t => _ end). }
      destruct (IH (allow k' t' l).2 t') as [H1 H2]; [by destruct Htd|by destruct Htd|right; by exists t'|done|].
      by rewrite H2. }
  intros Ho. unfold newRateLimiter in *.
  destruct (Hrun (mkLimiter ∅ window maxRequests None
      (if (window <=? 0) || (minute <? window) then minute else window)) t0) as [[_ Hi (c & _ & Hc & Hb)] Hwin];
    simpl; try done.
  { unfold minute, second in *. destruct (Z.leb_spec window 0), (Z.ltb_spec (60 * 1000000000) window); simpl; lia. }
  { by left. }
  eapply map_Forall_impl; [exact Hb|]. intros k' b Hkb. simpl in *. rewrite Hwin in Hi. simpl in Hi. lia.
Qed.

Lemma buckets_do_not_pile_up_witness :
  map_Forall (λ _ b, 2 * second - Z.min minute second < bk_resetTime b)
    (rl_buckets (end_limiter (newRateLimiter 3 second) [("a", 5); ("b", 2 * second)])).
Proof. apply (buckets_do_not_pile_up 3 second 0 [("a", 5)] "b" (2 * second)); unfold second; simpl; lia. Defined.
