(* ===== verification/Middleware.v ===== *)
(** * Built-in middleware: headers, prefixes, tracing, logging, allow lists

    Models [builtin_middleware.go], [builtin_request_headers.go],
    [builtin_response_headers.go], [builtin_tracing.go] and the [Logging]
    middleware of [builtin_logging.go] in [pkg/routing].  A Go map that is ranged
    over is the list of its entries in the order of the iteration.  Random
    values, UUIDs, and the parsers of URLs, addresses and CIDR blocks are
    parameters. *)

From S2P Require Import Prelude GoStd GoHttp Backend Selector Routing.
Open Scope Z_scope.

(** ** Hexadecimal and white-space helpers of the standard library *)
Definition hex_digit (n : Z) : Ascii.ascii := if n <? 10 then chr (48 + n) else chr (87 + n).

(** [hex.EncodeToString] *)
Fixpoint hex_Encode (s : string) : string :=
  match s with
  | EmptyString => ""
  | String c s' => String (hex_digit (ord c / 16)) (String (hex_digit (ord c mod 16)) (hex_Encode s'))
  end.

(** [strings.Trim] with a one-byte cutset *)
Definition Trim (b : Ascii.ascii) (s : string) : string := TrimRight b (TrimLeft b s).

Section builtin.
  Context {X : Type}.
  Implicit Types (next : handler (world X)).

(** ** Simple request middleware *)
Definition set_env (e : env) (wd : world X) : world X :=
  mkWorld (wd_routes wd) (wd_metrics wd) (wd_log wd) e (wd_mw wd).
Definition sleep (d : Z) (e : env) : env :=
  mkEnv (e_now e + Z.max 0 d) (e_end e + Z.max 0 d) (e_rand1 e) (e_rand2 e) (e_upstream e) (e_dial e)
        (e_hijack e) (e_established e) (e_serveFile e).

Definition Delay (duration : Z) : Middleware X := λ next wd req w,
  next (set_env (sleep duration (wd_env wd)) wd) req w.

Definition CorrelationID (uuid_v4 : world X → string) (uuid_v6 uuid_v7 : world X → result string string)
    (uuidtype : string) : Middleware X := λ next wd req w,
  let current := header_Get (r_header req) "X-Correlation-Id" in
  let correlationID :=
    if String.eqb current "" then
      let t := ToLower uuidtype in
      if String.eqb t "uuidv6" then match uuid_v6 wd with Ok uid => uid | Err _ => uuid_v4 wd end
      else if String.eqb t "uuidv7" then match uuid_v7 wd with Ok uid => uid | Err _ => uuid_v4 wd end
      else uuid_v4 wd
    else current in
  next wd (set_header (header_Set "X-Correlation-Id" correlationID (r_header req)) req)
       (map_header (header_Set "X-Correlation-Id" correlationID) w).

Definition CORS : Middleware X := λ next wd req w,
  let w := map_header (λ h,
    header_Set "Access-Control-Allow-Credentials" "true"
      (header_Set "Access-Control-Allow-Headers" "Content-Type, Authorization, X-Requested-With"
        (header_Set "Access-Control-Allow-Methods" "GET, POST, PUT, DELETE, OPTIONS"
          (header_Set "Access-Control-Allow-Origin" "*" h)))) w in
  if String.eqb (r_method req) "OPTIONS" then (wd, req, WriteHeader 200 w)
  else next wd req w.

Definition AddPrefix (prefix : string) : Middleware X :=
  let prefix := if HasPrefix prefix "/" then prefix else "/" +:+ prefix in
  λ next wd req w, next wd (set_path (prefix +:+ r_path req) req) w.

(** [IPWhitelist]; [nets] are the blocks that parse, an invalid one is skipped. *)
Definition parse_networks {Net : Type} (ParseCIDR : string → option Net) (cidrs : list string) : list Net :=
  omap ParseCIDR cidrs.

Definition IPWhitelist {IP Net : Type} (ParseIP : string → option IP) (ParseCIDR : string → option Net)
    (Contains : Net → IP → bool) (allowedCIDRs : list string) : Middleware X :=
  let networks := parse_networks ParseCIDR allowedCIDRs in
  λ next wd req w,
    let host := match SplitHostPort (r_remote req) with Some (h, _) => h | None => "" end in
    let ip := match ParseIP host with Some ip => Some ip | None => ParseIP (r_remote req) end in
    let allowed := match ip with Some ip => existsb (λ n, Contains n ip) networks | None => false end in
    if negb allowed then (wd, req, http_Error "Forbidden" 403 w) else next wd req w.

(** ** Request headers *)
Definition add_all (hs : list (string * string)) (h : header) : header :=
  foldl (λ h '(k, v), header_Add k v h) h hs.
Definition set_all (hs : list (string * string)) (h : header) : header :=
  foldl (λ h '(k, v), header_Set k v h) h hs.

Definition AddRequestHeaders (hs : list (string * string)) : Middleware X := λ next wd req w,
  next wd (set_header (add_all hs (r_header req)) req) w.
Definition SetRequestHeader (hs : list (string * string)) : Middleware X := λ next wd req w,
  next wd (set_header (set_all hs (r_header req)) req) w.
Definition ModifyRequestHeaders (hs : list (string * string)) : Middleware X := λ next wd req w,
  next wd (set_header (set_all hs (r_header req)) req) w.

(** [delete(r.Header, name)]: the key is used as it is written. *)
Definition delete_raw (names : list string) (h : header) : header := foldl (λ h n, delete n h) h names.
Definition RemoveRequestHeaders (names : list string) : Middleware X := λ next wd req w,
  next wd (set_header (delete_raw names (r_header req)) req) w.

(** ** Distributed tracing *)
Definition isLowerHex (s : string) : bool :=
  all_bytes (λ c, let z := ord c in ((48 <=? z) && (z <=? 57)) || ((97 <=? z) && (z <=? 102))) s.

Definition parseTraceParent (value : string) : option (string * string * string) :=
  match Split "-" value with
  | [v; t; p; f] =>
      if negb (String.eqb v "00") || negb (Nat.eqb (String.length t) 32) ||
         negb (Nat.eqb (String.length p) 16) || negb (Nat.eqb (String.length f) 2) then None
      else if negb (isLowerHex t) || negb (isLowerHex p) || negb (isLowerHex f) then None
      else if String.eqb (Trim "0" t) "" || String.eqb (Trim "0" p) "" then None
      else Some (t, p, f)
  | _ => None
  end.

(** [trace_rand] and [span_rand] are the bytes drawn for new identifiers. *)
Definition DistributedTracing (trace_rand span_rand : world X → string) : Middleware X := λ next wd req w,
  let '(traceID, flags) :=
    match parseTraceParent (header_Get (r_header req) "traceparent") with
    | Some (t, _, f) => (t, f)
    | None => (hex_Encode (trace_rand wd), "00")
    end in
  let spanID := hex_Encode (span_rand wd) in
  let traceParent := "00-" +:+ traceID +:+ "-" +:+ spanID +:+ "-" +:+ flags in
  next wd (set_header (header_Set "traceparent" traceParent (r_header req)) req)
       (map_header (header_Set "traceparent" traceParent) w).

(** ** Logging

    The recording writer notes the status of the reply sent through it; a
    request without one is logged as 200. *)
Record logEntry : Type := mkLogEntry {
  le_method : string; le_remote : string; le_status : Z;
  le_route : string; le_backend : string; le_correlation : string;
}.

Definition Logging (emit : logEntry → X → X) : Middleware X := λ next wd req w,
  let '(wd', req', w') := next wd req w in
  let status := match status_of w' with Some s => s | None => 200 end in
  let entry := mkLogEntry (r_method req') (r_remote req') status (wd_log wd').1 (wd_log wd').2
                 (header_Get (r_header req') "X-Correlation-Id") in
  (set_mw (emit entry (wd_mw wd')) wd', req', w').

(** ** All of them keep the shared state *)
#[global] Instance Delay_safe d : SafeMiddleware (Delay d).
Proof. intros h Hh wd req w Hw. exact (Hh (set_env _ wd) req w Hw). Qed.
#[global] Instance CorrelationID_safe a b c t : SafeMiddleware (CorrelationID a b c t).
Proof. intros h Hh wd req w Hw. apply (Hh wd _ _ Hw). Qed.
#[global] Instance CORS_safe : SafeMiddleware CORS.
Proof. intros h Hh wd req w Hw. unfold CORS. destruct (String.eqb _ _); [done|]. apply (Hh wd _ _ Hw). Qed.
#[global] Instance AddPrefix_safe p : SafeMiddleware (AddPrefix p).
Proof. intros h Hh wd req w Hw. apply (Hh wd _ _ Hw). Qed.
#[global] Instance IPWhitelist_safe {IP Net} (a : string → option IP) (b : string → option Net) c l :
  SafeMiddleware (IPWhitelist a b c l).
Proof. intros h Hh wd req w Hw. unfold IPWhitelist. destruct (negb _); [done|]. apply (Hh wd _ _ Hw). Qed.
#[global] Instance AddRequestHeaders_safe hs : SafeMiddleware (AddRequestHeaders hs).
Proof. intros h Hh wd req w Hw. apply (Hh wd _ _ Hw). Qed.
#[global] Instance SetRequestHeader_safe hs : SafeMiddleware (SetRequestHeader hs).
Proof. intros h Hh wd req w Hw. apply (Hh wd _ _ Hw). Qed.
#[global] Instance ModifyRequestHeaders_safe hs : SafeMiddleware (ModifyRequestHeaders hs).
Proof. intros h Hh wd req w Hw. apply (Hh wd _ _ Hw). Qed.
#[global] Instance RemoveRequestHeaders_safe hs : SafeMiddleware (RemoveRequestHeaders hs).
Proof. intros h Hh wd req w Hw. apply (Hh wd _ _ Hw). Qed.
#[global] Instance DistributedTracing_safe a b : SafeMiddleware (DistributedTracing a b).
Proof.
  intros h Hh wd req w Hw. unfold DistributedTracing.
  destruct (parseTraceParent _) as [[[t p] f]|]; apply (Hh wd _ _ Hw).
Qed.
#[global] Instance Logging_safe emit : SafeMiddleware (Logging emit).
Proof.
  intros h Hh wd req w Hw. unfold Logging. specialize (Hh wd req w Hw).
  destruct (h wd req w) as [[wd' req'] w']. exact Hh.
Qed.
End builtin.

(** ** Response modifiers *)
Definition on_header (f : header → header) : modifier := λ r,
  Ok (mkResponse (resp_status r) (f (resp_header r)) (resp_body r)).

Definition AddResponseHeaders (hs : list (string * string)) : modifier := on_header (add_all hs).
Definition SetResponseHeaders (hs : list (string * string)) : modifier := on_header (set_all hs).
Definition ModifyResponseHeaders (hs : list (string * string)) : modifier := on_header (set_all hs).
Definition RemoveResponseHeaders (names : list string) : modifier :=
  on_header (λ h, foldl (λ h n, header_Del n h) h names).

Definition SetBackendAffinityHeader (name : string) (backendIndex : Z) : modifier := λ r,
  if existsb (λ kv, EqualFold kv.1 name) (map_to_list (resp_header r)) then Ok r
  else on_header (header_Set name (BackendAffinityKey backendIndex)) r.

Definition prefixLocationPath (prefix path : string) : string :=
  if String.eqb prefix "" then path
  else if String.eqb path "" then prefix
  else if String.eqb prefix "/" then "/" +:+ TrimLeft slash path
  else TrimRight slash prefix +:+ "/" +:+ TrimLeft slash path.

(** A parsed URL, as far as the code looks at it; [u_rest] stands for the
    fields it leaves alone. *)
Record URL (R : Type) : Type := mkURL { u_Host : string; u_Path : string; u_RawPath : string; u_rest : R }.
Arguments mkURL {R}. Arguments u_Host {R}. Arguments u_Path {R}. Arguments u_RawPath {R}. Arguments u_rest {R}.

Section location.
  Context {R : Type} (url_Parse : string → result string (URL R)) (url_String : URL R → string).

Definition AddResponseLocationPrefix (prefix : string) : modifier := λ r,
  let location := header_Get (resp_header r) "Location" in
  if String.eqb location "" then Ok r
  else match url_Parse location with
       | Err e => Err e
       | Ok u =>
           let u' := mkURL (u_Host u) (prefixLocationPath prefix (u_Path u)) "" (u_rest u) in
           on_header (header_Set "Location" (url_String u')) r
       end.

Definition SetResponseLocationHost (host : string) : modifier := λ r,
  let location := header_Get (resp_header r) "Location" in
  if String.eqb location "" then Ok r
  else match url_Parse location with
       | Err e => Err e
       | Ok u =>
           if String.eqb (u_Host u) "" then Ok r
           else on_header (header_Set "Location" (url_String (mkURL host (u_Path u) (u_RawPath u) (u_rest u)))) r
       end.
End location.

(** ** Tracing: the header the proxy writes is one it accepts *)

Lemma isLowerHex_no_dash s : isLowerHex s = true → contains_byte "-" s = false.
Proof. by apply all_bytes_contains. Qed.

Lemma Trim_empty b s : Trim b s = "" ↔ all_bytes (λ c, Ascii.eqb c b) s = true.
Proof.
  unfold Trim. assert (∀ t, TrimRight b t = "" → all_bytes (λ c, Ascii.eqb c b) t = true) as Hr.
  { induction t as [|c t IH]; simpl; [done|]. destruct (TrimRight b t) eqn:Ht; [|done].
    destruct (Ascii.eqb c b); [intros _; by apply IH|done]. }
  induction s as [|c s IH]; simpl; [done|]. destruct (Ascii.eqb c b) eqn:Hc; [done|].
  split; [|done]. intros H%Hr. simpl in H. by rewrite Hc in H.
Qed.

Lemma hex_digit_range n : 0 ≤ n < 16 →
  (let z := ord (hex_digit n) in ((48 <=? z) && (z <=? 57)) || ((97 <=? z) && (z <=? 102))) = true ∧
  (hex_digit n = "0"%char ↔ n = 0).
Proof.
  intros Hn. unfold hex_digit. destruct (Z.ltb_spec n 10).
  - rewrite ord_chr by lia. split; [apply orb_true_iff; left; apply andb_true_iff; lia|].
    split; [|by intros ->]. intros He%(f_equal ord). rewrite ord_chr in He by lia.
    change (ord "0") with 48 in He. lia.
  - rewrite ord_chr by lia. split; [apply orb_true_iff; right; apply andb_true_iff; lia|].
    split; [|lia]. intros He%(f_equal ord). rewrite ord_chr in He by lia.
    change (ord "0") with 48 in He. lia.
Qed.

Lemma nibbles c : 0 ≤ ord c / 16 < 16 ∧ 0 ≤ ord c mod 16 < 16.
Proof.
  pose proof (ord_range c). split; [|apply Z.mod_pos_bound; lia].
  split; [apply Z.div_pos; lia|]. apply Z.div_lt_upper_bound; lia.
Qed.

Lemma hex_Encode_spec s :
  isLowerHex (hex_Encode s) = true ∧ String.length (hex_Encode s) = (2 * String.length s)%nat ∧
  (Trim "0" (hex_Encode s) = "" → all_bytes (λ c, ord c =? 0) s = true).
Proof.
  rewrite Trim_empty. unfold isLowerHex. induction s as [|c s (IH1 & IH2 & IH3)]; [done|].
  cbn [hex_Encode all_bytes String.length]. destruct (nibbles c) as [Hh Hl].
  destruct (hex_digit_range _ Hh) as [Hh1 Hh2]. destruct (hex_digit_range _ Hl) as [Hl1 Hl2].
  cbv zeta in Hh1, Hl1 |- *. split; [by rewrite Hh1, Hl1, IH1|]. split; [rewrite IH2; lia|].
  intros [Ha [Hb Hs]%andb_true_iff]%andb_true_iff. apply andb_true_iff. split; [|by apply IH3].
  apply Ascii.eqb_eq in Ha, Hb. apply Hh2 in Ha. apply Hl2 in Hb. apply Z.eqb_eq.
  pose proof (Z.div_mod (ord c) 16). lia.
Qed.

(** Writing a trace parent and reading it back. *)
Lemma parseTraceParent_write t p f :
  String.length t = 32%nat → String.length p = 16%nat → String.length f = 2%nat →
  isLowerHex t = true → isLowerHex p = true → isLowerHex f = true →
  Trim "0" t ≠ "" → Trim "0" p ≠ "" →
  parseTraceParent ("00-" +:+ t +:+ "-" +:+ p +:+ "-" +:+ f) = Some (t, p, f).
Proof.
  intros Ht Hp Hf Ht1 Hp1 Hf1 Ht2 Hp2. unfold parseTraceParent.
  assert (Split "-" ("00-" +:+ t +:+ "-" +:+ p +:+ "-" +:+ f) = ["00"; t; p; f]) as ->.
  { change ("00-" +:+ t +:+ "-" +:+ p +:+ "-" +:+ f)
      with ("00" +:+ String "-" (t +:+ String "-" (p +:+ String "-" f))).
    rewrite (Split_app "-" "00"), (Split_app "-" t), (Split_app "-" p), (Split_none "-" f)
      by (reflexivity || by apply isLowerHex_no_dash). done. }
  rewrite Ht, Hp, Hf, Ht1, Hp1, Hf1, (proj2 (String.eqb_neq _ _) Ht2), (proj2 (String.eqb_neq _ _) Hp2). done.
Qed.

Lemma parseTraceParent_valid v t p f :
  parseTraceParent v = Some (t, p, f) →
  String.length t = 32%nat ∧ String.length f = 2%nat ∧ isLowerHex t = true ∧ isLowerHex f = true ∧
  Trim "0" t ≠ "".
Proof.
  unfold parseTraceParent. destruct (Split "-" v) as [|a [|b [|c [|d [|]]]]]; try done.
  intros H. do 3 (case_match; [done|]). simplify_eq.
  repeat match goal with H : _ || _ = false |- _ => apply orb_false_iff in H as [? ?] end.
  repeat match goal with H : negb _ = false |- _ => apply negb_false_iff in H end.
  repeat match goal with H : Nat.eqb _ _ = true |- _ => apply Nat.eqb_eq in H end.
  repeat (split; [done|]). by apply String.eqb_neq.
Qed.

Section tracing.
  Context {X : Type}.

(** Distributed tracing.  Whatever the client sends, the backend receives
    a valid trace parent carrying the proxy's own span, and the client receives
    the same; a valid incoming trace keeps its trace id and flags, anything else
    starts a new trace with flags 00. *)
Theorem tracing_propagates (trace_rand span_rand : world X → string) (next : handler (world X))
    (wd : world X) (req : request) (w : writer) :
  String.length (trace_rand wd) = 16%nat → all_bytes (λ c, ord c =? 0) (trace_rand wd) = false →
  String.length (span_rand wd) = 8%nat → all_bytes (λ c, ord c =? 0) (span_rand wd) = false →
  ∃ t f req' w',
    DistributedTracing trace_rand span_rand next wd req w = next wd req' w' ∧
    parseTraceParent (header_Get (r_header req') "traceparent") = Some (t, hex_Encode (span_rand wd), f) ∧
    header_Get (w_header w') "traceparent" = header_Get (r_header req') "traceparent" ∧
    match parseTraceParent (header_Get (r_header req) "traceparent") with
    | Some (t0, _, f0) => t = t0 ∧ f = f0
    | None => t = hex_Encode (trace_rand wd) ∧ f = "00"
    end.
Proof.
  intros Hl1 Hz1 Hl2 Hz2. unfold DistributedTracing.
  destruct (hex_Encode_spec (trace_rand wd)) as (Ha & Hb & Hc).
  destruct (hex_Encode_spec (span_rand wd)) as (Hd & He & Hf).
  assert (Trim "0" (hex_Encode (span_rand wd)) ≠ "") as Hs by (intros H%Hf; congruence).
  assert (Trim "0" (hex_Encode (trace_rand wd)) ≠ "") as Ht by (intros H%Hc; congruence).
  destruct (parseTraceParent (header_Get (r_header req) "traceparent")) as [[[t p] f]|] eqn:Hp.
  - destruct (parseTraceParent_valid _ _ _ _ Hp) as (H1 & H2 & H3 & H4 & H5).
    exists t, f. do 2 eexists. split; [done|]. cbn [r_header set_header w_header map_header].
    rewrite !header_Get_Set. split; [|done]. apply parseTraceParent_write; try done; lia.
  - exists (hex_Encode (trace_rand wd)), "00". do 2 eexists. split; [done|].
    cbn [r_header set_header w_header map_header].
    rewrite !header_Get_Set. split; [|done]. apply parseTraceParent_write; try done; lia.
Qed.
End tracing.

Lemma tracing_propagates_witness :
  ∃ t f req' w',
    DistributedTracing (λ _, "0123456789abcdef") (λ _, "01234567") (ServeHTTPForEndpoint sample_router "")
      sample_world sample_request new_writer = ServeHTTPForEndpoint sample_router "" sample_world req' w' ∧
    parseTraceParent (header_Get (r_header req') "traceparent") = Some (t, "3031323334353637", f).
Proof.
  destruct (tracing_propagates (λ _, "0123456789abcdef") (λ _, "01234567") (ServeHTTPForEndpoint sample_router "")
    sample_world sample_request new_writer) as (t & f & req' & w' & H1 & H2 & _); try reflexivity.
  exists t, f, req', w'. split; [exact H1|exact H2].
Defined.

(** ** Removing headers *)

(** The keys of a request's header map, as [net/http] reads it. *)
Definition canonical_header (h : header) : Prop := ∀ k v, h !! k = Some v → CanonicalHeaderKey k = k.

(** Removing response headers works for any spelling of the name, but
    removing request headers does not: on a header map as [net/http] builds it,
    a name that is not written in canonical form removes nothing. *)
Theorem request_header_removal_is_case_sensitive (name : string) (h : header) (r : response) :
  canonical_header h →
  (CanonicalHeaderKey name ≠ name → delete_raw [name] h = h) ∧
  (CanonicalHeaderKey name = name → header_Get (delete_raw [name] h) name = "") ∧
  (∃ r', RemoveResponseHeaders [name] r = Ok r' ∧ header_Get (resp_header r') name = "").
Proof.
  intros Hc. split; [|split].
  - intros Hn. unfold delete_raw. simpl. apply delete_id.
    destruct (h !! name) as [v|] eqn:Hl; [|done]. by destruct Hn; eapply Hc.
  - intros Hn. unfold delete_raw, header_Get. simpl. rewrite Hn. by rewrite lookup_delete_eq.
  - eexists. split; [done|]. apply header_Get_Del.
Qed.

Lemma request_header_removal_is_case_sensitive_witness :
  delete_raw ["x-api-key"] (header_Set "X-Api-Key" "secret" ∅) = header_Set "X-Api-Key" "secret" ∅.
Proof.
  apply (request_header_removal_is_case_sensitive "x-api-key" (header_Set "X-Api-Key" "secret" ∅)
           (mkResponse 200 ∅ EmptyString)); [|discriminate].
  intros k v. unfold header_Set. destruct (decide (CanonicalHeaderKey "X-Api-Key" = k)) as [<-|Hk].
  - intros _. reflexivity.
  - rewrite lookup_insert_ne by done. done.
Defined.
