(* ===== verification/Auth.v ===== *)
(** * Authentication middleware

    Models [builtin_auth_basic.go], [builtin_auth_token.go],
    [builtin_auth_digest.go], [builtin_auth_openid.go] and [builtin_secure.go] of
    [pkg/routing].  Hash functions, signature verification, JSON decoding and
    random tokens are parameters; base64, the parsers and every decision are
    modelled. *)

From S2P Require Import Prelude GoStd GoHttp Base64 Backend Selector Routing Middleware.
Open Scope Z_scope.

(** The double quote, for header values. *)
Definition dq : string := String (ascii_of_nat 34) "".
Definition dquote : Ascii.ascii := ascii_of_nat 34.
Definition quoted (s : string) : string := dq +:+ s +:+ dq.

(** ** Basic authentication *)

(** [http.Request.BasicAuth] *)
Definition parseBasicAuth (auth : string) : option (string * string) :=
  if Nat.ltb (String.length auth) 6 || negb (EqualFold (take 6 auth) "Basic ") then None
  else match DecodeString StdEncoding (drop 6 auth) with
       | None => None
       | Some c => match Cut colon c with
                   | (username, password, true) => Some (username, password)
                   | (_, _, false) => None
                   end
       end.

Definition r_BasicAuth (req : request) : option (string * string) :=
  let auth := header_Get (r_header req) "Authorization" in
  if String.eqb auth "" then None else parseBasicAuth auth.

Definition challenge (value : string) (w : writer) : writer :=
  http_Error "Unauthorized" 401 (map_header (header_Set "WWW-Authenticate" value) w).

Section auth.
  Context {X : Type}.

Definition BasicAuth (realm : string) (users : gmap string string) : Middleware X :=
  let realm := if String.eqb realm "" then "Restricted" else realm in
  λ next wd req w,
    let reject := (wd, req, challenge ("Basic realm=" +:+ quoted realm) w) in
    match r_BasicAuth req with
    | Some (username, password) =>
        match users !! username with
        | Some expected => if String.eqb password expected then next wd req w else reject
        | None => reject
        end
    | None => reject
    end.

(** ** Token authentication *)
Definition TokenAuth (realm : string) (tokens : list string) (hdr prefix : string) : Middleware X :=
  let realm := if String.eqb realm "" then "Restricted" else realm in
  let hdr := if String.eqb hdr "" then "Authorization" else hdr in
  let prefix := if String.eqb prefix "" then "Bearer " else prefix in
  let allowed : gset string := list_to_set tokens in
  λ next wd req w,
    let value := header_Get (r_header req) hdr in
    let reject := (wd, req, challenge ("Bearer realm=" +:+ quoted realm) w) in
    if HasPrefix value prefix then
      if bool_decide (TrimPrefix value prefix ∈ allowed) then next wd req w else reject
    else reject.

(** ** Digest authentication *)

(** [strings.TrimLeft] with a two-byte cutset, [strings.IndexAny] *)
Fixpoint trim_left_any (a b : Ascii.ascii) (s : string) : string :=
  match s with
  | String c s' => if Ascii.eqb c a || Ascii.eqb c b then trim_left_any a b s' else s
  | EmptyString => ""
  end.

Fixpoint index_any (a b : Ascii.ascii) (s : string) : option nat :=
  match s with
  | EmptyString => None
  | String c s' => if Ascii.eqb c a || Ascii.eqb c b then Some 0%nat else S <$> index_any a b s'
  end.

Definition space : Ascii.ascii := " "%char.
Definition comma : Ascii.ascii := ","%char.
Definition equals : Ascii.ascii := "="%char.

(** One turn of the loop of [parseDigestParams]: the rest of the header and the
    parameter read, if any; [None] leaves the loop. *)
Definition digest_turn (header : string) : option (string * option (string * string)) :=
  let header := TrimLeft space header in
  match index_any equals comma header with
  | None => None
  | Some keyEnd =>
      let key := TrimSpace (take keyEnd header) in
      if negb (HasPrefix (drop keyEnd header) "=")
      then Some (trim_left_any space comma (drop (S keyEnd) header), None)
      else
        let header := TrimLeft space (drop (S keyEnd) header) in
        if HasPrefix header dq then
          let header := drop 1 header in
          match index_byte dquote header with
          | None => None
          | Some e => Some (trim_left_any space comma (drop (S e) header), Some (key, take e header))
          end
        else
          match index_byte comma header with
          | None => Some ("", Some (key, TrimSpace header))
          | Some e => Some (trim_left_any space comma (drop (S e) header), Some (key, TrimSpace (take e header)))
          end
  end.

(** The loop; every turn consumes a byte, so the length of the header plus one
    is enough fuel ([digest_loop_fuel]). *)
Fixpoint digest_loop (fuel : nat) (header : string) (values : gmap string string) : gmap string string :=
  match fuel with
  | O => values
  | S f =>
      match header with
      | EmptyString => values
      | _ =>
          match digest_turn header with
          | None => values
          | Some (rest, None) => digest_loop f rest values
          | Some (rest, Some (k, v)) => digest_loop f rest (<[k := v]> values)
          end
      end
  end.

Definition parseDigestParams (header : string) : gmap string string :=
  digest_loop (S (String.length header)) header ∅.

Section digest.
  Context (get : X → gmap string Z) (put : gmap string Z → X → X).   (* the nonces and their expiry *)
  Context (md5 : string → string) (nonceToken opaqueToken : world X → string).
  Context (realm0 : string) (users : gmap string string) (timeout0 : Z).

Definition md5Hash (value : string) : string := hex_Encode (md5 value).

Definition digest_realm : string := if String.eqb realm0 "" then "Restricted" else realm0.
Definition digest_timeout : Z := if timeout0 <=? 0 then 5 * 60 * second else timeout0.

Definition generateChallenge (wd : world X) : string * world X :=
  let nonce := nonceToken wd in
  let opaque := opaqueToken wd in
  ("Digest realm=" +:+ quoted digest_realm +:+ ", nonce=" +:+ quoted nonce +:+ ", opaque=" +:+ quoted opaque
     +:+ ", algorithm=MD5, qop=" +:+ quoted "auth",
   set_mw (put (<[nonce := e_now (wd_env wd) + digest_timeout]> (get (wd_mw wd))) (wd_mw wd)) wd).

Definition isValidNonce (value : string) (wd : world X) : bool * world X :=
  match get (wd_mw wd) !! value with
  | None => (false, wd)
  | Some expiry =>
      if expiry <? e_now (wd_env wd)
      then (false, set_mw (put (delete value (get (wd_mw wd))) (wd_mw wd)) wd)
      else (true, wd)
  end.

Definition digest_response (username password method uri nonce nc cnonce qop : string) : string :=
  let hA1 := md5Hash (Join ":" [username; digest_realm; password]) in
  let hA2 := md5Hash (Join ":" [method; uri]) in
  md5Hash (Join ":" [hA1; nonce; nc; cnonce; qop; hA2]).

Definition digest_reject : handler (world X) := λ wd req w,
  let '(c, wd) := generateChallenge wd in (wd, req, challenge c w).

Definition DigestAuth : Middleware X := λ next wd req w,
  let authHeader := header_Get (r_header req) "Authorization" in
  if String.eqb authHeader "" || negb (HasPrefix authHeader "Digest ") then digest_reject wd req w
  else
    let params := parseDigestParams (TrimPrefix authHeader "Digest ") in
    let p k := default "" (params !! k) in
    if String.eqb (p "username") "" || negb (String.eqb (p "realm") digest_realm) || String.eqb (p "nonce") "" ||
       String.eqb (p "uri") "" || String.eqb (p "response") "" || negb (String.eqb (p "qop") "auth") ||
       String.eqb (p "nc") "" || String.eqb (p "cnonce") ""
    then digest_reject wd req w
    else
      let '(valid, wd) := isValidNonce (p "nonce") wd in
      if negb valid then digest_reject wd req w
      else match users !! p "username" with
           | None => digest_reject wd req w
           | Some password =>
               let expected := digest_response (p "username") password (r_method req) (p "uri") (p "nonce")
                                 (p "nc") (p "cnonce") (p "qop") in
               if negb (String.eqb expected (p "response")) then digest_reject wd req w
               else next wd req w
           end.

#[global] Instance DigestAuth_safe : SafeMiddleware DigestAuth.
Proof.
  intros h Hh wd req w Hw. unfold DigestAuth.
  assert (∀ wd1, wd_routes wd1 = wd_routes wd → world_ok (digest_reject wd1 req w).1.1 ∧
                 same_load wd (digest_reject wd1 req w).1.1) as Hrej.
  { intros wd1 He. unfold digest_reject, generateChallenge, world_ok, same_load. simpl. by rewrite He. }
  destruct (_ || _); [by apply Hrej|]. destruct (_ || _); [by apply Hrej|].
  assert (∀ v, wd_routes (isValidNonce v wd).2 = wd_routes wd ∧
               ((isValidNonce v wd).1 = true → (isValidNonce v wd).2 = wd)) as Hv.
  { intros v. unfold isValidNonce. by repeat case_match. }
  match goal with |- context [isValidNonce ?v wd] => destruct (Hv v) as [Hv1 Hv2]; destruct (isValidNonce v wd) as [[] wd1] end;
    simpl in *; [|by apply Hrej].
  rewrite Hv2 by done. case_match; [|by apply Hrej]. case_match; [by apply Hrej|]. by apply Hh.
Qed.
End digest.

#[global] Instance BasicAuth_safe realm users : SafeMiddleware (BasicAuth realm users).
Proof. intros h Hh wd req w Hw. unfold BasicAuth. repeat case_match; try done; by apply Hh. Qed.

#[global] Instance TokenAuth_safe realm tokens hdr prefix : SafeMiddleware (TokenAuth realm tokens hdr prefix).
Proof. intros h Hh wd req w Hw. unfold TokenAuth. repeat case_match; try done; by apply Hh. Qed.
End auth.

(** ** OpenID Connect: JWT validation *)
Definition claimAudience : Type := list string.
Definition aud_Contains (a : claimAudience) (target : string) : bool := existsb (λ aud, String.eqb aud target) a.

Record openIDClaims : Type := mkClaims {
  cl_Iss : string; cl_Aud : claimAudience; cl_Exp : Z; cl_Nbf : Z; cl_Iat : Z;
}.

Inductive hash : Type := SHA256 | SHA384 | SHA512.

Section openid.
  Context {Key : Type}.                                             (* RSA public keys *)
  Variable decodeHeader : string → option string.                   (* JSON: the [alg] field, empty if absent *)
  Variable decodeClaims : string → option openIDClaims.
  Variable pem_Decode : string → option string.
  Variable ParsePKIX : string → result string (option Key).         (* [Ok None]: not an RSA key *)
  Variable ParsePKCS1 : string → result string Key.
  Variable ParseCertificate : string → result string (option Key).
  Variable VerifyPKCS1v15 : Key → hash → string → string → result string unit.
  Variable hmac : hash → string → string → string.
  Variable hash_Available : hash → bool.

Definition parseRSAPublicKey (pemData : string) : result string Key :=
  match pem_Decode pemData with
  | None => Err "invalid PEM data"
  | Some block =>
      match ParsePKIX block with
      | Ok (Some k) => Ok k
      | _ =>
          match ParsePKCS1 block with
          | Ok k => Ok k
          | Err _ =>
              match ParseCertificate block with
              | Ok (Some k) => Ok k
              | Ok None => Err "unsupported public key type"
              | Err e => Err e
              end
          end
      end
  end.

Definition hash_of (algorithm : string) : option hash :=
  if one_of algorithm ["RS256"; "HS256"] then Some SHA256
  else if one_of algorithm ["RS384"; "HS384"] then Some SHA384
  else if one_of algorithm ["RS512"; "HS512"] then Some SHA512
  else None.

Definition verifyJWTSignature (signingInput signature algorithm key : string) : result string unit :=
  match hash_of algorithm with
  | None => Err ("unsupported algorithm " +:+ algorithm)
  | Some hsh =>
      if negb (hash_Available hsh) then Err "hash function not available"
      else if HasPrefix algorithm "RS" then
        match parseRSAPublicKey key with
        | Err e => Err e
        | Ok pub => VerifyPKCS1v15 pub hsh signingInput signature
        end
      else if negb (String.eqb (hmac hsh key signingInput) signature) then Err "invalid token signature"
      else Ok tt
  end.

Definition validateOpenIDClaims (now : Z) (payload issuer audience : string) : result string unit :=
  match decodeClaims payload with
  | None => Err "invalid token claims"
  | Some c =>
      if negb (cl_Exp c =? 0) && (cl_Exp c <? now) then Err "token expired"
      else if negb (cl_Nbf c =? 0) && (now <? cl_Nbf c) then Err "token not valid yet"
      else if negb (String.eqb issuer "") && negb (String.eqb (cl_Iss c) issuer) then Err "unexpected issuer"
      else if negb (String.eqb audience "") && negb (aud_Contains (cl_Aud c) audience)
      then Err "unexpected audience"
      else Ok tt
  end.

Fixpoint try_keys (keys : list string) (input signature alg : string) (check : result string unit)
    (last : result string unit) : result string unit :=
  match keys with
  | [] => last
  | key :: keys' =>
      match verifyJWTSignature input signature alg key with
      | Err e => try_keys keys' input signature alg check (Err e)
      | Ok _ => check
      end
  end.

Definition validateOpenIDJWT (now : Z) (token algorithm : string) (keys : list string) (issuer audience : string)
  : result string unit :=
  match keys with
  | [] => Err "no signing keys configured"
  | _ =>
      match Split "." token with
      | [h; p; s] =>
          match DecodeString RawURLEncoding h with
          | None => Err "invalid token header"
          | Some headerBytes =>
              match DecodeString RawURLEncoding p with
              | None => Err "invalid token payload"
              | Some payloadBytes =>
                  match DecodeString RawURLEncoding s with
                  | None => Err "invalid token signature"
                  | Some signature =>
                      match decodeHeader headerBytes with
                      | None => Err "invalid token header json"
                      | Some alg0 =>
                          let alg := if String.eqb alg0 "" then algorithm else alg0 in
                          if negb (EqualFold alg algorithm) then Err "unexpected token algorithm"
                          else try_keys keys (Join "." [h; p]) signature alg
                                 (validateOpenIDClaims now payloadBytes issuer audience) (Ok tt)
                      end
                  end
              end
          end
      | _ => Err "invalid token format"
      end
  end.

Definition OpenIDAuth {X : Type} (issuer audience hdr prefix algorithm : string) (keys : list string)
    (removeHeader : bool) : Middleware X :=
  let hdr := if String.eqb hdr "" then "Authorization" else hdr in
  let prefix := if String.eqb prefix "" then "Bearer " else prefix in
  let algorithm := if String.eqb algorithm "" then "RS256" else algorithm in
  λ next wd req w,
    let value := header_Get (r_header req) hdr in
    if negb (HasPrefix value prefix) then
      (wd, req, challenge ("Bearer realm=" +:+ quoted "OpenID" +:+ ", error=" +:+ quoted "invalid_schema") w)
    else
      match validateOpenIDJWT (e_now (wd_env wd) / second) (TrimSpace (TrimPrefix value prefix))
              algorithm keys issuer audience with
      | Err e =>
          (wd, req, http_Error "Unauthorized" 401
             (map_header (λ h, header_Set "X-OpenID-Error" e
                (header_Set "WWW-Authenticate"
                   ("Bearer realm=" +:+ quoted "OpenID" +:+ ", error=" +:+ quoted "invalid_token") h)) w))
      | Ok _ =>
          next wd (if removeHeader then set_header (header_Del hdr (r_header req)) req else req) w
      end.

#[global] Instance OpenIDAuth_safe {X} a b c d e f g : SafeMiddleware (X := X) (OpenIDAuth a b c d e f g).
Proof. intros h Hh wd req w Hw. unfold OpenIDAuth. repeat case_match; try done; by apply Hh. Qed.
End openid.

(** ** Signed access cookies *)
Section secure.
  Context (hmac256 : string → string → string).      (* HMAC-SHA256: key, message *)

Definition hex_mac (secret message : string) : string := hex_Encode (hmac256 secret message).

(** [rand] is [rand.Read] into a buffer of that many bytes. *)
Definition randomNonce (rand : nat → result string string) (n : nat) : result string string :=
  match rand n with Err e => Err e | Ok buf => Ok (hex_Encode buf) end.

(** [nonce] is what [randomNonce 8] gave; [now] the clock in nanoseconds. *)
Definition generateCookie (now : Z) (nonce : result string string) (userAgent : string) (ttl : Z) (secret : string)
  : result string string :=
  match nonce with
  | Err e => Err e
  | Ok nonce =>
      let expire := (now + ttl) / second in
      let payload := Itoa expire +:+ "|" +:+ nonce in
      let encoded := EncodeToString RawURLEncoding payload in
      Ok (encoded +:+ ":" +:+ hex_mac secret (encoded +:+ "|" +:+ userAgent))
  end.

Definition validateCookie (now : Z) (cookieValue userAgent secret : string) : bool :=
  match SplitN2 colon cookieValue with
  | [encoded; signature] =>
      if negb (String.eqb (hex_mac secret (encoded +:+ "|" +:+ userAgent)) signature) then false
      else match DecodeString RawURLEncoding encoded with
           | None => false
           | Some payload =>
               match SplitN2 "|" payload with
               | [e; _] => match Atoi e with
                           | None => false
                           | Some expire => now / second <=? expire
                           end
               | _ => false
               end
           end
  | _ => false
  end.

(** [http.SetCookie] with the attributes the middleware uses. *)
Definition access_cookie (value : string) (expired secure : bool) : string :=
  "access=" +:+ value +:+ "; Path=/" +:+ (if expired then "; Max-Age=0" else "") +:+ "; HttpOnly"
    +:+ (if secure then "; Secure" else "") +:+ "; SameSite=Strict".

Definition SetCookie (cookie : string) (w : writer) : writer := map_header (header_Add "Set-Cookie" cookie) w.
Definition no_cache (w : writer) : writer :=
  map_header (header_Set "Cache-Control" "no-cache,no-store,max-age=0,s-max-age=0,must-revalidate") w.

Context {X : Type} (nonce : world X → result string string)
  (http_Redirect : request → string → Z → writer → writer).

Definition UserAgent (req : request) : string := header_Get (r_header req) "User-Agent".

(** [secret] is the key followed by the start time. *)
Definition Secure (path secret redirect : string) (ttl : Z) : Middleware X := λ next wd req w,
  let now := e_now (wd_env wd) in
  if String.eqb (r_path req) path then
    match generateCookie now (nonce wd) (UserAgent req) (15 * second) secret with
    | Err _ => (wd, req, http_Error "internal error" 500 w)
    | Ok token =>
        let w := SetCookie (access_cookie token false (r_tls req)) w in
        if negb (String.eqb redirect "") then (wd, req, http_Redirect req redirect 302 (no_cache w))
        else (wd, req, Write "ok" (no_cache (map_header (header_Add "Content-Type" "text/plain") w)))
    end
  else
    match r_Cookie req "access" with
    | None => (wd, req, http_Error "gone" 410 (no_cache w))
    | Some cookie =>
        if negb (validateCookie now cookie (UserAgent req) secret) then
          (wd, req, http_Error "gone" 410 (no_cache (SetCookie (access_cookie "" true (r_tls req)) w)))
        else
          match generateCookie now (nonce wd) (UserAgent req) ttl secret with
          | Err _ => (wd, req, http_Error "internal error" 500 w)
          | Ok token => next wd req (SetCookie (access_cookie token false (r_tls req)) w)
          end
    end.

#[global] Instance Secure_safe a b c d : SafeMiddleware (Secure a b c d).
Proof. intros h Hh wd req w Hw. unfold Secure. repeat case_match; try done; by apply Hh. Qed.
End secure.

(** ** Basic and token authentication let exactly the right requests through *)

Lemma parseBasicAuth_roundtrip u p :
  contains_byte colon u = false →
  parseBasicAuth ("Basic " +:+ EncodeToString StdEncoding (u +:+ ":" +:+ p)) = Some (u, p).
Proof.
  intros Hu. unfold parseBasicAuth.
  assert (take 6 ("Basic " +:+ EncodeToString StdEncoding (u +:+ ":" +:+ p)) = "Basic ") as ->
    by apply (take_length_app "Basic ").
  assert (drop 6 ("Basic " +:+ EncodeToString StdEncoding (u +:+ ":" +:+ p))
          = EncodeToString StdEncoding (u +:+ ":" +:+ p)) as -> by apply (drop_length_app "Basic ").
  rewrite DecodeString_Encode, string_length_app. change (u +:+ ":" +:+ p) with (u +:+ String colon p).
  rewrite Cut_app by done. done.
Qed.

Lemma challenge_status c w : w_reply w = None → status_of (challenge c w) = Some 401.
Proof. intros Hw. by apply http_Error_status. Qed.

Section gates.
  Context {X : Type}.
  Implicit Types (next : handler (world X)) (wd : world X).

(** Basic authentication.  Correct credentials, encoded as a client does,
    reach the next handler; every other request is answered with 401 and
    neither the next handler nor the shared state is touched. *)
Theorem basic_auth_gate (realm : string) (users : gmap string string) (next : handler (world X))
    (wd : world X) (req : request) (w : writer) :
  w_reply w = None →
  (∀ u p, contains_byte colon u = false → users !! u = Some p →
     header_Get (r_header req) "Authorization" = "Basic " +:+ EncodeToString StdEncoding (u +:+ ":" +:+ p) →
     BasicAuth realm users next wd req w = next wd req w) ∧
  ((∀ u p, r_BasicAuth req = Some (u, p) → users !! u ≠ Some p) →
     ∃ w', BasicAuth realm users next wd req w = (wd, req, w') ∧ status_of w' = Some 401).
Proof.
  intros Hw. unfold BasicAuth. split.
  - intros u p Hu Hp Hh.
    assert (r_BasicAuth req = Some (u, p)) as ->.
    { unfold r_BasicAuth. rewrite Hh. by apply parseBasicAuth_roundtrip. }
    by rewrite Hp, String.eqb_refl.
  - intros Hno. destruct (r_BasicAuth req) as [[u p]|]; [|eexists; split; [done|by apply challenge_status]].
    specialize (Hno u p eq_refl). destruct (users !! u) as [e|];
      [destruct (String.eqb_spec p e); [congruence|]|]; (eexists; split; [done|by apply challenge_status]).
Qed.

Definition token_header (hdr : string) : string := if String.eqb hdr "" then "Authorization" else hdr.
Definition token_prefix (prefix : string) : string := if String.eqb prefix "" then "Bearer " else prefix.

(** Token authentication.  A request passes exactly when its header is the
    prefix followed by one of the configured tokens; any other gets 401. *)
Theorem token_auth_gate (realm : string) (tokens : list string) (hdr prefix : string)
    (next : handler (world X)) (wd : world X) (req : request) (w : writer) :
  w_reply w = None →
  if existsb (λ t, String.eqb (header_Get (r_header req) (token_header hdr)) (token_prefix prefix +:+ t)) tokens
  then TokenAuth realm tokens hdr prefix next wd req w = next wd req w
  else ∃ w', TokenAuth realm tokens hdr prefix next wd req w = (wd, req, w') ∧ status_of w' = Some 401.
Proof.
  intros Hw. unfold TokenAuth. fold (token_header hdr) (token_prefix prefix).
  set (v := header_Get _ _). set (p := token_prefix prefix).
  destruct (existsb _ tokens) eqn:He.
  - apply existsb_exists in He as (t & Hin & Ht%String.eqb_eq). rewrite Ht.
    rewrite (proj2 (HasPrefix_spec _ p)), TrimPrefix_app by eauto.
    rewrite bool_decide_true; [done|]. apply elem_of_list_to_set, list_elem_of_In. done.
  - destruct (HasPrefix v p) eqn:Hp; [|eexists; split; [done|by apply challenge_status]].
    apply HasPrefix_spec in Hp as [t Ht]. rewrite Ht, TrimPrefix_app in *.
    rewrite bool_decide_false; [eexists; split; [done|by apply challenge_status]|].
    rewrite elem_of_list_to_set. intros Hin%list_elem_of_In.
    apply not_true_iff_false in He. apply He, existsb_exists. exists t. split; [done|].
    apply String.eqb_refl.
Qed.
End gates.

Lemma basic_auth_gate_witness :
  BasicAuth "" {["ann" := "pw"]} (ServeHTTPForEndpoint sample_router "") sample_world
    (set_header (header_Set "Authorization" "Basic YW5uOnB3" ∅) sample_request) new_writer
  = ServeHTTPForEndpoint sample_router "" sample_world
      (set_header (header_Set "Authorization" "Basic YW5uOnB3" ∅) sample_request) new_writer.
Proof.
  apply (basic_auth_gate "" {["ann" := "pw"]} (ServeHTTPForEndpoint sample_router "") sample_world
    (set_header (header_Set "Authorization" "Basic YW5uOnB3" ∅) sample_request) new_writer eq_refl) with (u := "ann") (p := "pw");
    reflexivity.
Defined.

Lemma token_auth_gate_witness :
  ∃ w', TokenAuth "" ["t1"; "t2"] "" "" (ServeHTTPForEndpoint sample_router "") sample_world sample_request new_writer
        = (sample_world, sample_request, w') ∧ status_of w' = Some 401.
Proof.
  apply (token_auth_gate "" ["t1"; "t2"] "" "" (ServeHTTPForEndpoint sample_router "") sample_world sample_request new_writer).
  reflexivity.
Defined.

(** ** Digest parameters *)

(** How a client writes parameters: a key, and a value in quotes or as a bare token
    (as clients do for qop, nc and algorithm), with a comma and spaces between them.
    Keys are tokens; a value in quotes has no quote in it. *)
Definition digest_key (k : string) : bool :=
  all_bytes (λ c, negb (is_space c) && negb (Ascii.eqb c equals) && negb (Ascii.eqb c comma)) k.

Inductive param_form : Type := InQuotes | Bare.
Record param : Type := mkParam { pm_key : string; pm_form : param_form; pm_value : string }.

Definition bare_value (v : string) : bool :=
  negb (String.eqb v "") && all_bytes (λ c, negb (is_space c) && negb (Ascii.eqb c dquote) && negb (Ascii.eqb c comma)) v.
Definition good_param (p : param) : Prop :=
  digest_key (pm_key p) = true ∧
  match pm_form p with InQuotes => contains_byte dquote (pm_value p) = false | Bare => bare_value (pm_value p) = true end.

Definition render_value (p : param) : string := match pm_form p with InQuotes => quoted (pm_value p) | Bare => pm_value p end.
Definition render_param (p : param) : string := pm_key p +:+ String equals (render_value p).

Fixpoint render_params (gap : string) (ps : list param) : string :=
  match ps with
  | [] => ""
  | [p] => render_param p
  | p :: ps' => render_param p +:+ String comma (gap +:+ render_params gap ps')
  end.

Lemma length_trim_left_any a b s : (String.length (trim_left_any a b s) <= String.length s)%nat.
Proof. induction s as [|c s IH]; simpl; [done|]. destruct (_ || _); simpl; lia. Qed.

Lemma length_TrimLeft b s : (String.length (TrimLeft b s) <= String.length s)%nat.
Proof. induction s as [|c s IH]; simpl; [done|]. destruct (Ascii.eqb c b); simpl; lia. Qed.

Lemma index_any_lt a b s i : index_any a b s = Some i → (i < String.length s)%nat.
Proof.
  revert i; induction s as [|c s IH]; intros i; simpl; [done|].
  destruct (_ || _); [intros [= <-]; lia|]. destruct (index_any a b s) as [j|]; [|done].
  intros [= <-]. specialize (IH j eq_refl). lia.
Qed.

#[local] Arguments drop : simpl nomatch.

Lemma digest_turn_shorter s rest kv : digest_turn s = Some (rest, kv) → (String.length rest < String.length s)%nat.
Proof.
  unfold digest_turn. pose proof (length_TrimLeft space s) as Hs. set (h := TrimLeft space s) in *.
  destruct (index_any equals comma h) as [i|] eqn:Hi; [|done]. apply index_any_lt in Hi.
  assert (String.length (drop (S i) h) < String.length s)%nat as Hd by (rewrite length_drop; lia).
  destruct (negb _).
  { intros [= <- <-]. pose proof (length_trim_left_any space comma (drop (S i) h)). lia. }
  pose proof (length_TrimLeft space (drop (S i) h)) as Ht. set (g := TrimLeft space (drop (S i) h)) in *.
  destruct (HasPrefix g dq).
  - destruct (index_byte _ _) as [e|]; [|done]. intros [= <- <-].
    eapply Nat.le_lt_trans; [apply length_trim_left_any|]. rewrite !length_drop. lia.
  - destruct (index_byte _ _) as [e|]; intros [= <- <-]; [|simpl; lia].
    eapply Nat.le_lt_trans; [apply length_trim_left_any|]. rewrite !length_drop. lia.
Qed.

(** The loop ends by itself: any fuel above the length gives the same map. *)
Lemma digest_loop_fuel f1 f2 s m :
  (String.length s < f1)%nat → (String.length s < f2)%nat → digest_loop f1 s m = digest_loop f2 s m.
Proof.
  revert f2 s m; induction f1 as [|f1 IH]; intros f2 s m H1 H2; [lia|].
  destruct f2 as [|f2]; [lia|]. simpl. destruct s as [|c s]; [done|].
  destruct (digest_turn (String c s)) as [[rest [[k v]|]]|] eqn:Ht; [| |done];
    apply digest_turn_shorter in Ht; apply IH; lia.
Qed.

Lemma index_any_app a b x c y :
  all_bytes (λ d, negb (Ascii.eqb d a) && negb (Ascii.eqb d b)) x = true → Ascii.eqb c a || Ascii.eqb c b = true →
  index_any a b (x +:+ String c y) = Some (String.length x).
Proof.
  intros Hx Hc. induction x as [|d x IH]; simpl in *; [by rewrite Hc|].
  apply andb_true_iff in Hx as [[Ha Hb]%andb_true_iff Hx].
  apply negb_true_iff in Ha, Hb. by rewrite Ha, Hb, (IH Hx).
Qed.

(** A header that starts with a key starts with neither a space nor a comma. *)
Lemma trim_key_head k rest :
  digest_key k = true →
  TrimLeft space (k +:+ String equals rest) = k +:+ String equals rest ∧
  trim_left_any space comma (k +:+ String equals rest) = k +:+ String equals rest.
Proof.
  destruct k as [|c k]; [done|]. unfold digest_key. simpl.
  intros [[[Hs%negb_true_iff _]%andb_true_iff Hc%negb_true_iff]%andb_true_iff _]%andb_true_iff.
  assert (Ascii.eqb c space = false) as ->; [|by rewrite Hc].
  destruct (Ascii.eqb_spec c space) as [->|]; done.
Qed.

Lemma digest_turn_quoted k v rest :
  digest_key k = true → contains_byte dquote v = false →
  digest_turn (k +:+ String equals (quoted v +:+ rest)) = Some (trim_left_any space comma rest, Some (k, v)).
Proof.
  intros Hk Hv. unfold digest_turn. set (tail := quoted v +:+ rest).
  rewrite (proj1 (trim_key_head k tail Hk)).
  rewrite index_any_app; [|by eapply all_bytes_impl; [|exact Hk];
    intros c [[_ H1]%andb_true_iff H2]%andb_true_iff; rewrite H1, H2|done].
  rewrite take_length_app, drop_length_app, drop_S_app.
  rewrite TrimSpace_id by (eapply all_bytes_impl; [|exact Hk];
    intros c [[H0 _]%andb_true_iff _]%andb_true_iff; exact H0).
  assert (tail = String dquote (v +:+ String dquote rest)) as Htail.
  { unfold tail, quoted. unfold dq. simpl. by rewrite string_app_assoc. }
  rewrite Htail. change (HasPrefix (String equals (String dquote (v +:+ String dquote rest))) "=") with true.
  change (TrimLeft space (String dquote (v +:+ String dquote rest))) with (String dquote (v +:+ String dquote rest)).
  change (HasPrefix (String dquote (v +:+ String dquote rest)) dq) with true. cbn [negb].
  change (drop 1 (String dquote (v +:+ String dquote rest))) with (v +:+ String dquote rest).
  rewrite index_byte_app by done. by rewrite drop_S_app, take_length_app.
Qed.

Lemma index_byte_none b s : contains_byte b s = false → index_byte b s = None.
Proof. induction s as [|c s IH]; [done|]. cbn. intros [Hc Hs]%orb_false_iff. by rewrite Hc, IH. Qed.

(** What follows a parameter. *)
Definition ends_param (rest : string) : Prop := rest = "" ∨ ∃ r, rest = String comma r.

Lemma digest_turn_bare k v rest :
  digest_key k = true → bare_value v = true → ends_param rest →
  digest_turn (k +:+ String equals (v +:+ rest)) = Some (trim_left_any space comma rest, Some (k, v)).
Proof.
  intros Hk [Hne%negb_true_iff Hv]%andb_true_iff Hrest. unfold digest_turn.
  rewrite (proj1 (trim_key_head k _ Hk)).
  rewrite index_any_app; [|by eapply all_bytes_impl; [|exact Hk];
    intros c [[_ H1]%andb_true_iff H2]%andb_true_iff; rewrite H1, H2|done].
  rewrite take_length_app, drop_length_app, drop_S_app.
  rewrite TrimSpace_id by (eapply all_bytes_impl; [|exact Hk];
    intros c [[H0 _]%andb_true_iff _]%andb_true_iff; exact H0).
  change (HasPrefix (String equals (v +:+ rest)) "=") with true. cbn [negb].
  assert (contains_byte comma v = false) as Hc.
  { clear -Hv. induction v as [|c v IH]; [done|]. cbn in *. apply andb_true_iff in Hv as [[_ Hc%negb_true_iff]%andb_true_iff Hv].
    by rewrite Hc, IH. }
  assert (TrimSpace v = v) as Ht by (apply TrimSpace_id; eapply all_bytes_impl; [|exact Hv];
    intros c [[H0 _]%andb_true_iff _]%andb_true_iff; exact H0).
  assert (TrimLeft space (v +:+ rest) = v +:+ rest ∧ HasPrefix (v +:+ rest) dq = false) as [-> ->].
  { destruct v as [|c v]; [done|]. cbn in Hv. apply andb_true_iff in Hv as [[[Hs%negb_true_iff Hq%negb_true_iff]%andb_true_iff _]%andb_true_iff _].
    split; cbn [TrimLeft String.append].
    - destruct (Ascii.eqb_spec c space) as [->|]; done.
    - unfold dq, HasPrefix. cbn [prefixb]. rewrite Ascii.eqb_sym in Hq. unfold dquote in Hq. by rewrite ?Hq. }
  destruct Hrest as [->|(r & ->)].
  - rewrite string_app_nil_r, (index_byte_none _ _ Hc), Ht. done.
  - rewrite index_byte_app, drop_S_app, take_length_app, Ht by done. done.
Qed.

Lemma digest_turn_param p rest : good_param p → ends_param rest →
  digest_turn (render_param p +:+ rest) = Some (trim_left_any space comma rest, Some (pm_key p, pm_value p)).
Proof.
  intros [Hk Hv] Hr. unfold render_param, render_value. rewrite string_app_assoc. cbn [String.append].
  destruct (pm_form p); [by apply digest_turn_quoted|by apply digest_turn_bare].
Qed.

Definition spaces (gap : string) : Prop := all_bytes (Ascii.eqb space) gap = true.

Lemma render_params_head gap p ps : spaces gap →
  ∃ rest, render_params gap (p :: ps) = render_param p +:+ rest ∧ ends_param rest ∧
          (Forall good_param ps → trim_left_any space comma rest = render_params gap ps).
Proof.
  intros Hg. destruct ps as [|q ps].
  - exists "". split; [|split; [by left|done]]. simpl. by rewrite string_app_nil_r.
  - exists (String comma (gap +:+ render_params gap (q :: ps))). split; [done|]. split; [right; by eexists|].
    intros [[Hk _] _]%Forall_cons. cbn [trim_left_any].
    assert (∀ s, trim_left_any space comma (gap +:+ s) = trim_left_any space comma s) as Hgap.
    { intros s. clear -Hg. unfold spaces in Hg. induction gap as [|c gap IH]; [done|]. cbn [String.append all_bytes] in *.
      apply andb_true_iff in Hg as [Hc%Ascii.eqb_eq Hg]. subst c. cbn [trim_left_any]. by apply IH. }
    change (Ascii.eqb comma space || Ascii.eqb comma comma) with true. cbv iota. rewrite Hgap.
    assert (∃ r, render_params gap (q :: ps) = pm_key q +:+ String equals r) as [r ->].
    { destruct ps; cbn [render_params]; unfold render_param; rewrite ?string_app_assoc; by eexists. }
    by apply (trim_key_head (pm_key q) r Hk).
Qed.

Definition param_map (m : gmap string string) (ps : list param) : gmap string string :=
  foldl (λ m p, <[pm_key p := pm_value p]> m) m ps.

Lemma digest_loop_render gap ps f m :
  spaces gap → Forall good_param ps → (String.length (render_params gap ps) < f)%nat →
  digest_loop f (render_params gap ps) m = param_map m ps.
Proof.
  intros Hg. revert f m; induction ps as [|p ps IH]; intros f m Hall Hf; [by destruct f|].
  apply Forall_cons in Hall as [Hp Hall]. destruct (render_params_head gap p ps Hg) as (rest & Hr & He & Htrim).
  destruct f as [|f]; [lia|]. rewrite Hr in *. cbn [digest_loop].
  pose proof (digest_turn_param p rest Hp He) as Ht.
  destruct (render_param p +:+ rest) as [|c s] eqn:E; [unfold render_param in E; by destruct (pm_key p)|].
  rewrite Ht, (Htrim Hall). apply digest_turn_shorter in Ht. rewrite (Htrim Hall) in Ht.
  rewrite IH; [done|done|lia].
Qed.

(** Digest parameters round trip.  A header written by a client as parameters
    between commas, with values in quotes or bare, is read back as exactly those
    parameters (the last one wins when a key is repeated). *)
Theorem digest_params_roundtrip (gap : string) (ps : list param) :
  spaces gap → Forall good_param ps → parseDigestParams (render_params gap ps) = param_map ∅ ps.
Proof. intros Hg H. apply digest_loop_render; [done|done|lia]. Qed.

Lemma digest_params_roundtrip_witness :
  parseDigestParams (render_params " " [mkParam "username" InQuotes "ann"; mkParam "nc" Bare "00000001"; mkParam "uri" InQuotes "/a b, c=d"])
    !! "uri" = Some "/a b, c=d".
Proof. rewrite digest_params_roundtrip; [reflexivity|reflexivity|]. repeat constructor. Defined.

Lemma param_map_lookup ps m k v :
  NoDup (map pm_key ps) → (∃ form, mkParam k form v ∈ ps) → param_map m ps !! k = Some v.
Proof.
  revert m. induction ps as [|p ps IH]; intros m Hnd [form Hin]; [by apply elem_of_nil in Hin|].
  apply NoDup_cons in Hnd as [Hn Hnd]. apply elem_of_cons in Hin as [<-|Hin]; [|by apply IH; eauto]. simpl in *.
  assert (∀ m', m' !! k = Some v → param_map m' ps !! k = Some v) as Hkeep; [|apply Hkeep; by rewrite lookup_insert_eq].
  clear -Hn. induction ps as [|q ps IH]; intros m' Hm; [done|]. apply not_elem_of_cons in Hn as [Hq Hn].
  apply IH; [done|]. by rewrite lookup_insert_ne.
Qed.

(** ** The digest handshake *)
Section digest_handshake.
  Context {X : Type} (get : X → gmap string Z) (put : gmap string Z → X → X).
  Context (get_put : ∀ m x, get (put m x) = m).
  Context (md5 : string → string) (nonceToken opaqueToken : world X → string).
  Context (realm : string) (users : gmap string string) (timeout : Z).

(** The parameters of an answer, in any order and in any form, and possibly
    others such as opaque and algorithm. *)
Definition answers (ps : list param) (user uri nonce response nc cnonce : string) : Prop :=
  NoDup (map pm_key ps) ∧ Forall good_param ps ∧
  ∀ k v, (k, v) ∈ [("username", user); ("realm", digest_realm realm); ("nonce", nonce); ("uri", uri);
                   ("response", response); ("qop", "auth"); ("nc", nc); ("cnonce", cnonce)] → ∃ form, mkParam k form v ∈ ps.

(** What can happen between a challenge and its answer, between the times [t0] and
    [t1]: the sections other requests run under the mutex, and anything that leaves
    the nonces alone. *)
Inductive meanwhile (t0 t1 : Z) : world X → world X → Prop :=
  | mw_challenge wd : t0 ≤ e_now (wd_env wd) ≤ t1 →
      meanwhile t0 t1 wd (generateChallenge get put nonceToken opaqueToken realm timeout wd).2
  | mw_check wd value : t0 ≤ e_now (wd_env wd) ≤ t1 → meanwhile t0 t1 wd (isValidNonce get put value wd).2
  | mw_other wd wd' : get (wd_mw wd') = get (wd_mw wd) → meanwhile t0 t1 wd wd'.

Definition nonce_valid (nonce : string) (until : Z) (wd : world X) : Prop :=
  ∃ expiry, get (wd_mw wd) !! nonce = Some expiry ∧ until ≤ expiry.

Lemma meanwhile_valid nonce t0 t1 wd wd' :
  t1 ≤ t0 + digest_timeout timeout → meanwhile t0 t1 wd wd' →
  nonce_valid nonce (t0 + digest_timeout timeout) wd → nonce_valid nonce (t0 + digest_timeout timeout) wd'.
Proof using get_put.
  intros Ht Hm (e & He & Hle). destruct Hm as [wd Hn|wd value Hn|wd wd' Hs]; unfold nonce_valid.
  - simpl. rewrite get_put. destruct (decide (nonceToken wd = nonce)) as [<-|Hne].
    + rewrite lookup_insert_eq. eexists. split; [done|]. lia.
    + rewrite lookup_insert_ne by done. eauto.
  - unfold isValidNonce. destruct (get (wd_mw wd) !! value) as [ex|] eqn:Hv; [|simpl; eauto].
    destruct (Z.ltb_spec ex (e_now (wd_env wd))) as [Hlt|]; [|simpl; eauto]. simpl. rewrite get_put.
    rewrite lookup_delete_ne; [eauto|]. intros ->. rewrite He in Hv. injection Hv as <-. lia.
  - rewrite Hs. eauto.
Qed.

Lemma meanwhiles_valid nonce t0 t1 wd wd' :
  t1 ≤ t0 + digest_timeout timeout → rtc (meanwhile t0 t1) wd wd' →
  nonce_valid nonce (t0 + digest_timeout timeout) wd → nonce_valid nonce (t0 + digest_timeout timeout) wd'.
Proof using get_put. intros Ht. induction 1 as [wd|wd wd1 wd2 Hm _ IH]; [done|]. intros Hv. apply IH. by eapply meanwhile_valid. Qed.

Lemma digest_reject_status wd req w :
  w_reply w = None →
  status_of (digest_reject get put nonceToken opaqueToken realm timeout wd req w).2 = Some 401.
Proof. intros Hw. unfold digest_reject. simpl. by apply challenge_status. Qed.

End digest_handshake.

(** A client that writes its answer as curl does. *)
Definition curl_answer (response : string) : list param :=
  [mkParam "username" InQuotes "ann"; mkParam "realm" InQuotes "Restricted"; mkParam "nonce" InQuotes "n0"; mkParam "uri" InQuotes "/x";
   mkParam "cnonce" InQuotes "c"; mkParam "nc" Bare "00000001"; mkParam "qop" Bare "auth"; mkParam "response" InQuotes response;
   mkParam "opaque" InQuotes "o0"; mkParam "algorithm" Bare "MD5"].

Lemma curl_answer_complete response k v :
  (k, v) ∈ [("username", "ann"); ("realm", digest_realm ""); ("nonce", "n0"); ("uri", "/x");
            ("response", response); ("qop", "auth"); ("nc", "00000001"); ("cnonce", "c")] → ∃ form, mkParam k form v ∈ curl_answer response.
Proof.
  unfold curl_answer. intros Hk. rewrite !elem_of_cons in Hk. setoid_rewrite elem_of_cons.
  destruct Hk as [Hk|[Hk|[Hk|[Hk|[Hk|[Hk|[Hk|[Hk|Hk]]]]]]]]; [..|by apply elem_of_nil in Hk]; injection Hk as -> ->;
    [exists InQuotes|exists InQuotes|exists InQuotes|exists InQuotes|exists InQuotes|exists Bare|exists Bare|exists InQuotes];
    repeat (first [left; reflexivity | right]).
Qed.


(** ** OpenID: what an accepted token has proved *)
Section openid_spec.
  Context {Key : Type} (decodeHeader : string → option string) (decodeClaims : string → option openIDClaims).
  Context (pem_Decode : string → option string) (ParsePKIX : string → result string (option Key)).
  Context (ParsePKCS1 : string → result string Key) (ParseCertificate : string → result string (option Key)).
  Context (VerifyPKCS1v15 : Key → hash → string → string → result string unit).
  Context (hmac : hash → string → string → string) (hash_Available : hash → bool).
  Notation verify := (verifyJWTSignature pem_Decode ParsePKIX ParsePKCS1 ParseCertificate VerifyPKCS1v15 hmac
                        hash_Available).
  Notation validate := (validateOpenIDJWT decodeHeader decodeClaims pem_Decode ParsePKIX ParsePKCS1
                          ParseCertificate VerifyPKCS1v15 hmac hash_Available).

(** The claims are acceptable at time [now]. *)
Definition claims_ok (now : Z) (issuer audience : string) (c : openIDClaims) : Prop :=
  (cl_Exp c = 0 ∨ now ≤ cl_Exp c) ∧ (cl_Nbf c = 0 ∨ cl_Nbf c ≤ now) ∧
  (issuer = "" ∨ cl_Iss c = issuer) ∧ (audience = "" ∨ audience ∈ cl_Aud c).

Lemma guard_ok (g : bool) (e : string) (k : result string unit) :
  (if g then Err e else k) = Ok tt ↔ g = false ∧ k = Ok tt.
Proof. by destruct g; naive_solver. Qed.

Lemma validateOpenIDClaims_spec now payload issuer audience :
  validateOpenIDClaims decodeClaims now payload issuer audience = Ok tt ↔
  ∃ c, decodeClaims payload = Some c ∧ claims_ok now issuer audience c.
Proof.
  unfold validateOpenIDClaims, claims_ok. destruct (decodeClaims payload) as [c|]; [|naive_solver].
  assert (aud_Contains (cl_Aud c) audience = true ↔ audience ∈ cl_Aud c) as Haud.
  { unfold aud_Contains. rewrite existsb_exists, list_elem_of_In. split.
    - intros (a & Ha & ->%String.eqb_eq). done.
    - intros Ha. exists audience. split; [done|apply String.eqb_refl]. }
  rewrite !guard_ok, !andb_false_iff, !negb_false_iff, !Z.eqb_eq, !Z.ltb_ge, !String.eqb_eq, Haud.
  split; [intros; exists c; naive_solver|intros (c' & [= <-] & H); naive_solver].
Qed.

Lemma try_keys_spec keys input signature alg check last :
  try_keys pem_Decode ParsePKIX ParsePKCS1 ParseCertificate VerifyPKCS1v15 hmac hash_Available
    keys input signature alg check last
  = if existsb (λ key, is_ok (verify input signature alg key)) keys then check
    else match rev keys with [] => last | key :: _ => verify input signature alg key end.
Proof.
  revert last; induction keys as [|key keys IH]; intros last; simpl; [done|].
  destruct (verify input signature alg key) as [[]|e] eqn:Hv; simpl; [done|]. rewrite IH.
  destruct (existsb _ keys); [done|]. destruct (rev keys); simpl; [by rewrite Hv|done].
Qed.

Lemma openid_accepts_spec (now : Z) (token algorithm : string) (keys : list string) (issuer audience : string) :
  validate now token algorithm keys issuer audience = Ok tt ↔
  ∃ h p s hb pb sb alg0 c key,
    Split "." token = [h; p; s] ∧ DecodeString RawURLEncoding h = Some hb ∧
    DecodeString RawURLEncoding p = Some pb ∧ DecodeString RawURLEncoding s = Some sb ∧
    decodeHeader hb = Some alg0 ∧
    let alg := if String.eqb alg0 "" then algorithm else alg0 in
    EqualFold alg algorithm = true ∧ key ∈ keys ∧ verify (Join "." [h; p]) sb alg key = Ok tt ∧
    decodeClaims pb = Some c ∧ claims_ok now issuer audience c.
Proof.
  unfold validateOpenIDJWT. split.
  - destruct keys as [|k0 keys0] eqn:Hk; [done|]. rewrite <- Hk.
    destruct (Split "." token) as [|h [|p [|s [|]]]]; try done.
    destruct (DecodeString _ h) as [hb|] eqn:Hh; [|done]. destruct (DecodeString _ p) as [pb|] eqn:Hp; [|done].
    destruct (DecodeString _ s) as [sb|] eqn:Hs; [|done]. destruct (decodeHeader hb) as [alg0|] eqn:Ha; [|done].
    set (alg := if String.eqb alg0 "" then _ else _). destruct (EqualFold alg algorithm) eqn:He; [|done].
    cbn [negb]. rewrite try_keys_spec.
    destruct (existsb _ keys) eqn:Hex.
    + apply existsb_exists in Hex as (key & Hin & Hv). intros (c & Hc & Hok)%validateOpenIDClaims_spec.
      destruct (verify _ sb alg key) as [[]|] eqn:Hvk; [|done].
      exists h, p, s, hb, pb, sb, alg0, c, key. repeat (split; [done|]). split; [by apply list_elem_of_In|done].
    + intros Hlast. exfalso. destruct (rev keys) as [|key ks] eqn:Hr.
      { apply (f_equal (@length string)) in Hr. rewrite length_rev, Hk in Hr. done. }
      assert (In key keys) as Hin by (apply in_rev; rewrite Hr; by left).
      apply not_true_iff_false in Hex. apply Hex, existsb_exists. exists key. by rewrite Hlast.
  - intros (h & p & s & hb & pb & sb & alg0 & c & key & -> & -> & -> & -> & -> & He & Hin & Hv & Hc & Hok).
    destruct keys as [|k0 keys0] eqn:Hk; [by apply not_elem_of_nil in Hin|]. rewrite <- Hk in *.
    rewrite He. cbn [negb]. rewrite try_keys_spec.
    assert (existsb (λ key, is_ok (verify (Join "." [h; p]) sb (if String.eqb alg0 "" then algorithm else alg0) key))
              keys = true) as ->.
    { apply existsb_exists. exists key. split; [by apply list_elem_of_In|]. by rewrite Hv. }
    apply validateOpenIDClaims_spec. eauto.
Qed.

(** C17: an OpenID token is accepted exactly when it has three segments that
    decode, its algorithm (the configured one when the token names none) is the
    configured one up to case, some configured key verifies its signature under
    that algorithm, and its claims are in date and name the configured issuer
    and audience. *)
Theorem openid_accepts_iff (now : Z) (token algorithm : string) (keys : list string) (issuer audience : string) :
  validate now token algorithm keys issuer audience = Ok tt ↔
  ∃ h p s hb pb sb alg0 c key,
    Split "." token = [h; p; s] ∧ DecodeString RawURLEncoding h = Some hb ∧
    DecodeString RawURLEncoding p = Some pb ∧ DecodeString RawURLEncoding s = Some sb ∧
    decodeHeader hb = Some alg0 ∧
    let alg := if String.eqb alg0 "" then algorithm else alg0 in
    EqualFold alg algorithm = true ∧ key ∈ keys ∧ verify (Join "." [h; p]) sb alg key = Ok tt ∧
    decodeClaims pb = Some c ∧ claims_ok now issuer audience c.
Proof. apply openid_accepts_spec. Qed.

(** Although the comparison of algorithms ignores case, a token whose
    algorithm is not spelled in upper case is never accepted: signature
    verification only knows the upper-case names. *)
Theorem openid_lowercase_rejected (now : Z) (token algorithm : string) (keys : list string) (issuer audience : string)
    (h p s hb alg : string) :
  Split "." token = [h; p; s] → DecodeString RawURLEncoding h = Some hb →
  decodeHeader hb = Some alg → alg ≠ "" → ToUpper alg ≠ alg →
  is_ok (validate now token algorithm keys issuer audience) = false.
Proof.
  intros Hsp Hh Ha Hne Hup. unfold validateOpenIDJWT. destruct keys as [|k0 keys0] eqn:Hk; [done|].
  rewrite <- Hk in *. rewrite Hsp, Hh, Ha. destruct (DecodeString _ p); [|done]. destruct (DecodeString _ s); [|done].
  rewrite (proj2 (String.eqb_neq _ _) Hne). destruct (negb _); [done|]. rewrite try_keys_spec.
  assert (∀ input sig key, is_ok (verify input sig alg key) = false) as Hv.
  { intros input sig key. unfold verifyJWTSignature, hash_of, one_of. simpl.
    repeat (match goal with |- context [String.eqb alg ?x] => destruct (String.eqb_spec alg x) as [->|] end;
            [by destruct Hup|]). done. }
  destruct (existsb _ keys) eqn:He.
  { apply existsb_exists in He as (key & _ & H). by rewrite Hv in H. }
  destruct (rev keys) eqn:Hr; [|apply Hv].
  apply (f_equal (@length string)) in Hr. rewrite length_rev, Hk in Hr. done.
Qed.
End openid_spec.

Lemma openid_lowercase_rejected_witness :
  is_ok (validateOpenIDJWT (Key := unit) (λ s, Some s) (λ _, Some (mkClaims "" [] 0 0 0)) Some
           (λ _, Ok (Some tt)) (λ _, Ok tt) (λ _, Ok None) (λ _ _ _ _, Ok tt) (λ _ _ s, s) (λ _, true)
           0 "cnMyNTY.e30.c2ln" "RS256" ["key"] "" "") = false.
Proof.
  apply (openid_lowercase_rejected (Key := unit) (λ s, Some s) (λ _, Some (mkClaims "" [] 0 0 0)) Some
           (λ _, Ok (Some tt)) (λ _, Ok tt) (λ _, Ok None) (λ _ _ _ _, Ok tt) (λ _ _ s, s) (λ _, true)
           0 "cnMyNTY.e30.c2ln" "RS256" ["key"] "" "" "cnMyNTY" "e30" "c2ln" "rs256" "rs256");
    (reflexivity || discriminate).
Defined.

(** ** Access cookies *)
Lemma encode_no_colon s : contains_byte colon (EncodeToString RawURLEncoding s) = false.
Proof.
  assert (∀ n, 0 ≤ n < 64 → Ascii.eqb (sextet RawURLEncoding n) colon = false) as Hx.
  { intros n Hn. destruct (Ascii.eqb_spec (sextet RawURLEncoding n) colon) as [He|]; [|done].
    pose proof (unsextet_sextet RawURLEncoding n Hn) as H. rewrite He in H. done. }
  induction s as [|a|a b|a b c s IH] using string_ind3; [done|..]; cbn [EncodeToString contains_byte pad];
    ranges3; repeat rewrite Hx by (Z.to_euclidean_division_equations; lia); done.
Qed.

Lemma digits_no_byte b f n s :
  is_digit b = false → 0 ≤ n → contains_byte b s = false → contains_byte b (digits f n s) = false.
Proof.
  intros Hb. revert n s; induction f as [|f IH]; intros n s Hn Hs; simpl; [done|].
  assert (contains_byte b (String (digit (n mod 10)) s) = false) as Hc.
  { simpl. rewrite Hs, orb_false_r. destruct (Ascii.eqb_spec (digit (n mod 10)) b) as [He|]; [|done].
    destruct (is_digit_digit (n mod 10)) as [Hd _]; [apply Z.mod_pos_bound; lia|]. congruence. }
  destruct (n <? 10); [done|]. apply IH; [apply Z.div_pos; lia|done].
Qed.

Lemma Itoa_no_byte b n : is_digit b = false → 0 ≤ n → contains_byte b (Itoa n) = false.
Proof. intros Hb Hn. unfold Itoa. destruct (Z.ltb_spec n 0); [lia|]. by apply digits_no_byte. Qed.

Lemma hex_digit_inj m n : 0 ≤ m < 16 → 0 ≤ n < 16 → hex_digit m = hex_digit n → m = n.
Proof.
  intros Hm Hn He%(f_equal ord). unfold hex_digit in He.
  destruct (Z.ltb_spec m 10), (Z.ltb_spec n 10); rewrite !ord_chr in He by lia; lia.
Qed.

Lemma hex_Encode_inj s t : hex_Encode s = hex_Encode t → s = t.
Proof.
  revert t; induction s as [|c s IH]; intros [|d t]; simpl; try done. intros [= H1 H2 H3].
  destruct (nibbles c) as [Hc1 Hc2]. destruct (nibbles d) as [Hd1 Hd2].
  apply hex_digit_inj in H1; [|done..]. apply hex_digit_inj in H2; [|done..].
  f_equal; [|by apply IH]. apply ord_inj. pose proof (Z.div_mod (ord c) 16). pose proof (Z.div_mod (ord d) 16). lia.
Qed.

Section secure_spec.
  Context (hmac256 : string → string → string).

(** The part of a token that is signed, for a nonce and an expiry time. *)
Definition cookie_payload (expire : Z) (nonce : string) : string :=
  EncodeToString RawURLEncoding (Itoa expire +:+ "|" +:+ nonce).

(** Access cookies.  A cookie generated for a user agent is valid for that
    agent exactly until its time to live is over, and invalid for any other
    agent on which the MAC does not collide. *)
Theorem access_cookie_roundtrip (now ttl : Z) (nonce ua secret : string) :
  0 ≤ (now + ttl) / second ≤ MaxInt64 →
  ∃ token, generateCookie hmac256 now (Ok nonce) ua ttl secret = Ok token ∧
    (∀ t, validateCookie hmac256 t token ua secret = (t / second <=? (now + ttl) / second)) ∧
    (∀ t ua', hmac256 secret (cookie_payload ((now + ttl) / second) nonce +:+ "|" +:+ ua')
              ≠ hmac256 secret (cookie_payload ((now + ttl) / second) nonce +:+ "|" +:+ ua) →
              validateCookie hmac256 t token ua' secret = false).
Proof.
  intros Hexp. eexists. split; [reflexivity|]. set (e := (now + ttl) / second) in *.
  fold (cookie_payload e nonce). set (p := cookie_payload e nonce).
  assert (∀ sig, SplitN2 colon (p +:+ ":" +:+ sig) = [p; sig]) as Hsplit.
  { intros sig. unfold SplitN2. change (p +:+ ":" +:+ sig) with (p +:+ String colon sig).
    by rewrite Cut_app by apply encode_no_colon. }
  split.
  - intros t. unfold validateCookie. rewrite Hsplit, String.eqb_refl. cbn [negb].
    unfold p, cookie_payload. rewrite DecodeString_Encode. unfold SplitN2.
    change (Itoa e +:+ "|" +:+ nonce) with (Itoa e +:+ String "|" nonce).
    rewrite Cut_app by (apply Itoa_no_byte; [done|lia]). by rewrite Atoi_Itoa by lia.
  - intros t ua' Hne. unfold validateCookie. rewrite Hsplit.
    rewrite (proj2 (String.eqb_neq _ _)); [done|]. intros He%hex_Encode_inj. done.
Qed.

Context {X : Type} (nonce : world X → result string string) (http_Redirect : request → string → Z → writer → writer).

(** Outside the login path, a request without a valid access cookie is
    answered with 410 Gone and never reaches the next handler. *)
Theorem secure_gate (path secret redirect : string) (ttl : Z) (next : handler (world X))
    (wd : world X) (req : request) (w : writer) :
  r_path req ≠ path → w_reply w = None →
  (∀ v, r_Cookie req "access" = Some v → validateCookie hmac256 (e_now (wd_env wd)) v (UserAgent req) secret = false) →
  ∃ w', Secure hmac256 nonce http_Redirect path secret redirect ttl next wd req w = (wd, req, w') ∧
        status_of w' = Some 410.
Proof.
  intros Hp Hw Hc. unfold Secure. rewrite (proj2 (String.eqb_neq _ _) Hp).
  destruct (r_Cookie req "access") as [v|]; [rewrite (Hc v eq_refl)|];
    (eexists; split; [done|]; by apply http_Error_status).
Qed.
End secure_spec.

Lemma access_cookie_roundtrip_witness :
  ∃ token, generateCookie (λ k m, k +:+ m) (20 * second) (Ok "beef") "curl" (5 * second) "k" = Ok token ∧
           validateCookie (λ k m, k +:+ m) (25 * second) token "curl" "k" = true ∧
           validateCookie (λ k m, k +:+ m) (25 * second) token "wget" "k" = false.
Proof.
  destruct (access_cookie_roundtrip (λ k m, k +:+ m) (20 * second) (5 * second) "beef" "curl" "k")
    as (token & H1 & H2 & H3); [vm_compute; split; discriminate|].
  exists token. split; [exact H1|]. split; [rewrite H2; reflexivity|].
  apply H3. vm_compute. discriminate.
Defined.

Lemma secure_gate_witness :
  ∃ w', Secure (λ k m, k +:+ m) (λ _, Ok "beef") (λ _ _ _ w, w) "/login" "k" "" second
          (ServeHTTPForEndpoint sample_router "") sample_world sample_request new_writer
        = (sample_world, sample_request, w') ∧ status_of w' = Some 410.
Proof.
  apply (secure_gate (λ k m, k +:+ m) (λ _, Ok "beef") (λ _ _ _ w, w) "/login" "k" "" second
           (ServeHTTPForEndpoint sample_router "") sample_world sample_request new_writer);
    [discriminate|reflexivity|discriminate].
Defined.
