(* ===== verification/Socks5.v ===== *)
(** * The SOCKS5 listener

    Models [pkg/listener/socks5.go].  A connection is the bytes the client will
    send before the stream ends, the bytes written to it so far, and whether
    each write succeeds; reading and writing form a small state-and-error monad
    ([io]).  Dialling the target is an argument of the session. *)

From S2P Require Import Prelude GoStd GoHttp.
Open Scope Z_scope.

(** ** Connections *)
Record conn : Type := mkConn {
  c_in : string;                  (* bytes still to be read *)
  c_out : string;                 (* bytes written *)
  c_writes : list bool;           (* outcome of the next writes; they succeed when it is empty *)
}.

Definition io (A : Type) : Type := conn → result string A * conn.

#[global] Instance io_ret : MRet io := λ A a c, (Ok a, c).
#[global] Instance io_bind : MBind io := λ A B k m c,
  match m c with
  | (Ok a, c') => k a c'
  | (Err e, c') => (Err e, c')
  end.
Definition fail {A} (e : string) : io A := λ c, (Err e, c).

(** [io.ReadFull] into a buffer of [n] bytes. *)
Definition ReadFull (n : nat) : io string := λ c,
  if Nat.leb n (String.length (c_in c))
  then (Ok (take n (c_in c)), mkConn (drop n (c_in c)) (c_out c) (c_writes c))
  else (Err "unexpected EOF", mkConn "" (c_out c) (c_writes c)).

Definition conn_Write (bytes : string) : io unit := λ c,
  match c_writes c with
  | false :: ws => (Err "write error", mkConn (c_in c) (c_out c) ws)
  | true :: ws => (Ok tt, mkConn (c_in c) (c_out c +:+ bytes) ws)
  | [] => (Ok tt, mkConn (c_in c) (c_out c +:+ bytes) [])
  end.

(** [_ = f(...)]: the error is dropped. *)
Definition ignore (m : io unit) : io unit := λ c, (Ok tt, (m c).2).

(** ** Bytes *)
Fixpoint bytes (l : list Z) : string :=
  match l with [] => "" | z :: l' => String (chr (z mod 256)) (bytes l') end.
Definition byte_of (i : nat) (s : string) : Z := match String.get i s with Some c => ord c | None => 0 end.

Definition socks5Version : Z := 5.
Definition socks5NoAuth : Z := 0.
Definition socks5UsernamePass : Z := 2.
Definition socks5NoAcceptable : Z := 255.
Definition socks5Connect : Z := 1.
Definition socks5IPv4 : Z := 1.
Definition socks5Domain : Z := 3.
Definition socks5IPv6 : Z := 4.
Definition socks5Succeeded : Z := 0.
Definition socks5GeneralError : Z := 1.
Definition socks5CommandDenied : Z := 7.
Definition socks5AuthVersion : Z := 1.

(** ** Addresses ([net.IP]) *)

(** [IP.To4]: the four bytes of an IPv4 or IPv4-mapped address. *)
Definition To4 (ip : string) : option string :=
  if Nat.eqb (String.length ip) 4 then Some ip
  else if Nat.eqb (String.length ip) 16 && String.eqb (take 12 ip) (bytes [0; 0; 0; 0; 0; 0; 0; 0; 0; 0; 255; 255])
  then Some (drop 12 ip)
  else None.

Definition To16 (ip : string) : string :=
  if Nat.eqb (String.length ip) 4 then bytes [0; 0; 0; 0; 0; 0; 0; 0; 0; 0; 255; 255] +:+ ip
  else if Nat.eqb (String.length ip) 16 then ip
  else "".

Definition IPv4zero : string := bytes [0; 0; 0; 0; 0; 0; 0; 0; 0; 0; 255; 255; 0; 0; 0; 0].

Definition string4 (ip : string) : string :=
  Join "." (map (λ i, Itoa (byte_of i ip)) [0; 1; 2; 3]%nat).

Definition hex_char (n : Z) : Ascii.ascii := if n <? 10 then chr (48 + n) else chr (87 + n).
Definition hex16 (v : Z) : string :=
  let d i := String (hex_char (v / 16 ^ i mod 16)) "" in
  if v <? 16 then d 0 else if v <? 256 then d 1 +:+ d 0
  else if v <? 4096 then d 2 +:+ d 1 +:+ d 0 else d 3 +:+ d 2 +:+ d 1 +:+ d 0.

Definition group (ip : string) (i : nat) : Z := byte_of (2 * i) ip * 256 + byte_of (2 * i + 1) ip.

(** The longest run of at least two zero groups, the first one on a tie. *)
Fixpoint zero_run (ip : string) (i fuel : nat) : nat :=
  match fuel with
  | O => O
  | S f => if Nat.ltb i 8 && (group ip i =? 0) then S (zero_run ip (S i) f) else O
  end.
Definition best_run (ip : string) : nat * nat :=
  foldl (λ '(s, e) i, let l := zero_run ip i 8 in
           if Nat.leb 2 l && Nat.ltb (e - s) l then (i, i + l)%nat else (s, e))
        (255, 255)%nat (seq 0 8).

Definition string6 (ip : string) : string :=
  let '(zs, ze) := best_run ip in
  let part i := hex16 (group ip i) in
  if Nat.eqb zs 255 then Join ":" (map part (seq 0 8))
  else Join ":" (map part (seq 0 zs)) +:+ "::" +:+ Join ":" (map part (seq ze (8 - ze))).

(** [IP.String] of a 4- or 16-byte address. *)
Definition IP_String (ip : string) : string :=
  match To4 ip with
  | Some p4 => string4 p4
  | None => string6 ip
  end.

(** ** The protocol *)
Definition be16 (s : string) : Z := byte_of 0 s * 256 + byte_of 1 s.

(** The address of [net.TCPAddr]: an IP (nil: [None]) and a port. *)
Definition tcpAddr : Type := option string * Z.

Definition writeSOCKS5Bytes (status addressType : Z) (address : string) (port : Z) : io unit :=
  conn_Write (bytes [socks5Version; status; 0; addressType]
    +:+ (if addressType =? socks5IPv4 then default "" (To4 address) else To16 address)
    +:+ bytes [port / 256; port]).

Definition writeSOCKS5Reply (status : Z) (address : option tcpAddr) : io unit :=
  let '(bindHost, bindPort) := match address with Some a => a | None => (Some IPv4zero, 0) end in
  match bindHost with
  | None => writeSOCKS5Bytes status socks5IPv4 IPv4zero bindPort
  | Some ip =>
      match To4 ip with
      | Some p4 => writeSOCKS5Bytes status socks5IPv4 p4 bindPort
      | None => writeSOCKS5Bytes status socks5IPv6 ip bindPort
      end
  end.

Definition authenticateSOCKS5UserPass (users : gmap string string) : io unit :=
  header ← ReadFull 2;
  if negb (byte_of 0 header =? socks5AuthVersion) then fail "unsupported SOCKS5 authentication version"
  else
    username ← ReadFull (Z.to_nat (byte_of 1 header));
    passwordLength ← ReadFull 1;
    password ← ReadFull (Z.to_nat (byte_of 0 passwordLength));
    let status := if bool_decide (users !! username = Some password) then 0 else 255 in
    _ ← conn_Write (bytes [socks5AuthVersion; status]);
    if negb (status =? 0) then fail "invalid SOCKS5 username or password" else mret tt.

Definition negotiateSOCKS5 (users : gmap string string) : io unit :=
  header ← ReadFull 2;
  if negb (byte_of 0 header =? socks5Version) then fail "unsupported SOCKS version"
  else
    methods ← ReadFull (Z.to_nat (byte_of 1 header));
    let refuse :=
      _ ← ignore (conn_Write (bytes [socks5Version; socks5NoAcceptable]));
      fail "SOCKS5 client does not offer a supported authentication method" in
    if bool_decide (users = ∅) then
      if contains_byte (chr socks5NoAuth) methods then conn_Write (bytes [socks5Version; socks5NoAuth]) else refuse
    else
      if contains_byte (chr socks5UsernamePass) methods then
        _ ← conn_Write (bytes [socks5Version; socks5UsernamePass]);
        authenticateSOCKS5UserPass users
      else refuse.

Definition readSOCKS5ConnectRequest : io string :=
  header ← ReadFull 4;
  if negb (byte_of 0 header =? socks5Version) || negb (byte_of 1 header =? socks5Connect) then
    _ ← ignore (writeSOCKS5Reply socks5CommandDenied None);
    fail "unsupported SOCKS5 request"
  else
    host ← (if byte_of 3 header =? socks5IPv4 then
              address ← ReadFull 4; mret (IP_String address)
            else if byte_of 3 header =? socks5Domain then
              length ← ReadFull 1;
              ReadFull (Z.to_nat (byte_of 0 length))
            else if byte_of 3 header =? socks5IPv6 then
              address ← ReadFull 16; mret (IP_String address)
            else fail "unsupported SOCKS5 address type");
    portBytes ← ReadFull 2;
    mret (JoinHostPort host (Itoa (be16 portBytes))).

(** [handleSOCKS5Connection] up to the relay: the address dialled, if any,
    whether the tunnel was opened, and the connection. *)
Definition handleSOCKS5Connection (dial : string → result string tcpAddr) (users : gmap string string) (c : conn)
  : option string * bool * conn :=
  match negotiateSOCKS5 users c with
  | (Err _, c) => (None, false, c)
  | (Ok _, c) =>
      match readSOCKS5ConnectRequest c with
      | (Err _, c) => (None, false, (ignore (writeSOCKS5Reply socks5GeneralError None) c).2)
      | (Ok target, c) =>
          match dial target with
          | Err _ => (Some target, false, (ignore (writeSOCKS5Reply socks5GeneralError None) c).2)
          | Ok local =>
              match writeSOCKS5Reply socks5Succeeded (Some local) c with
              | (Err _, c) => (Some target, false, c)
              | (Ok _, c) => (Some target, true, c)
              end
          end
      end
  end.

(** ** The client's side: what a well-formed client sends *)
Definition len1 (s : string) : string := bytes [lenZ s].
Definition greeting (methods : string) : string := bytes [5] +:+ len1 methods +:+ methods.
Definition credentials (u p : string) : string := bytes [1] +:+ len1 u +:+ u +:+ len1 p +:+ p.

Inductive destination : Type := DstIPv4 (ip : string) | DstDomain (name : string) | DstIPv6 (ip : string).

Definition dst_ok (d : destination) : Prop :=
  match d with
  | DstIPv4 ip => String.length ip = 4%nat
  | DstDomain n => lenZ n < 256
  | DstIPv6 ip => String.length ip = 16%nat
  end.

Definition dst_host (d : destination) : string :=
  match d with DstIPv4 ip | DstIPv6 ip => IP_String ip | DstDomain n => n end.

Definition encode_dst (d : destination) : string :=
  match d with
  | DstIPv4 ip => bytes [1] +:+ ip
  | DstDomain n => bytes [3] +:+ len1 n +:+ n
  | DstIPv6 ip => bytes [4] +:+ ip
  end.

(** A CONNECT request; the reserved byte is free. *)
Definition connect_request (rsv : Z) (d : destination) (port : Z) : string :=
  bytes [5; 1; rsv] +:+ encode_dst d +:+ bytes [port / 256; port].

#[local] Arguments credentials : simpl never.
#[local] Arguments greeting : simpl never.
#[local] Arguments connect_request : simpl never.
#[local] Arguments len1 : simpl never.

(** ** Reading *)
Lemma ReadFull_app s t o ws n :
  n = String.length s → ReadFull n (mkConn (s +:+ t) o ws) = (Ok s, mkConn t o ws).
Proof.
  intros ->. unfold ReadFull. simpl. rewrite string_length_app.
  rewrite (proj2 (Nat.leb_le _ _)) by lia. by rewrite take_length_app, drop_length_app.
Qed.

Lemma ReadFull_inv n c s c' :
  ReadFull n c = (Ok s, c') →
  c_in c = s +:+ c_in c' ∧ String.length s = n ∧ c_out c' = c_out c ∧ c_writes c' = c_writes c.
Proof.
  unfold ReadFull. destruct (Nat.leb_spec n (String.length (c_in c))) as [Hl|]; [|done].
  intros [= <- <-]. simpl. rewrite take_drop_app. split; [done|]. split; [by apply length_take|done].
Qed.

Lemma io_bind_ok {A B} (m : io A) (k : A → io B) c b c' :
  (m ≫= k) c = (Ok b, c') ↔ ∃ a c1, m c = (Ok a, c1) ∧ k a c1 = (Ok b, c').
Proof.
  unfold mbind, io_bind. destruct (m c) as [[a|e] c1]; [naive_solver|].
  split; [done|]. intros (a & c2 & H & _). done.
Qed.

Lemma io_bind_run {A B} (m : io A) (k : A → io B) c a c1 : m c = (Ok a, c1) → (m ≫= k) c = k a c1.
Proof. intros H. unfold mbind, io_bind. by rewrite H. Qed.

Lemma conn_Write_ok i o b : conn_Write b (mkConn i o []) = (Ok tt, mkConn i (o +:+ b) []).
Proof. done. Qed.

Lemma conn_Write_in b c r c' : conn_Write b c = (r, c') → c_in c' = c_in c.
Proof. unfold conn_Write. destruct (c_writes c) as [|[] ?]; by intros [= <- <-]. Qed.

Lemma bytes_ord c : chr (ord c mod 256) = c.
Proof. pose proof (ord_range c). rewrite Z.mod_small by lia. apply chr_ord. Qed.

Lemma ord_byte z : 0 ≤ z < 256 → ord (chr (z mod 256)) = z.
Proof. intros. rewrite Z.mod_small by lia. by apply ord_chr. Qed.

Lemma len1_to_nat s : lenZ s < 256 → Z.to_nat (ord (chr (lenZ s mod 256))) = String.length s.
Proof. intros H. unfold lenZ in *. rewrite ord_byte by lia. lia. Qed.

(** ** A well-formed client gets its tunnel *)
Definition needs_auth (users : gmap string string) : bool := negb (bool_decide (users = ∅)).
Definition method_for (users : gmap string string) : Z :=
  if needs_auth users then socks5UsernamePass else socks5NoAuth.
Definition client_hello (users : gmap string string) (methods u p : string) : string :=
  greeting methods +:+ (if needs_auth users then credentials u p else "").

Lemma greeting_read methods t o ws :
  lenZ methods < 256 →
  ReadFull 2 (mkConn (greeting methods +:+ t) o ws)
  = (Ok (bytes [5; lenZ methods]), mkConn (methods +:+ t) o ws).
Proof.
  intros Hm. assert (greeting methods +:+ t = bytes [5; lenZ methods] +:+ (methods +:+ t)) as ->.
  { unfold greeting. by rewrite !string_app_assoc. }
  by apply ReadFull_app.
Qed.

Lemma authenticate_run users u p t o :
  lenZ u < 256 → lenZ p < 256 → users !! u = Some p →
  authenticateSOCKS5UserPass users (mkConn (credentials u p +:+ t) o []) = (Ok tt, mkConn t (o +:+ bytes [1; 0]) []).
Proof.
  intros Hu Hp Hup. unfold authenticateSOCKS5UserPass.
  assert (credentials u p +:+ t = bytes [1; lenZ u] +:+ (u +:+ (len1 p +:+ (p +:+ t)))) as ->.
  { unfold credentials. by rewrite !string_app_assoc. }
  erewrite io_bind_run by (by apply ReadFull_app). simpl.
  erewrite io_bind_run by (apply ReadFull_app; unfold byte_of; simpl; by apply len1_to_nat).
  erewrite io_bind_run by (by apply (ReadFull_app (len1 p))).
  erewrite io_bind_run by (apply ReadFull_app; unfold byte_of; simpl; by apply len1_to_nat).
  by rewrite bool_decide_true by done.
Qed.

Lemma negotiate_run users methods u p t o :
  lenZ methods < 256 → lenZ u < 256 → lenZ p < 256 →
  contains_byte (chr (method_for users)) methods = true →
  (needs_auth users = true → users !! u = Some p) →
  negotiateSOCKS5 users (mkConn (client_hello users methods u p +:+ t) o [])
  = (Ok tt, mkConn t (o +:+ bytes [5; method_for users] +:+ (if needs_auth users then bytes [1; 0] else "")) []).
Proof.
  intros Hm Hu Hp Hc Hup. unfold negotiateSOCKS5, client_hello. rewrite string_app_assoc.
  erewrite io_bind_run by (by apply greeting_read).
  change (negb (byte_of 0 (bytes [5; lenZ methods]) =? socks5Version)) with false. cbv iota.
  erewrite io_bind_run by (apply ReadFull_app; unfold byte_of; simpl; by apply len1_to_nat).
  unfold method_for, needs_auth in *. destruct (bool_decide (users = ∅)); cbn [negb] in *; cbv zeta.
  - by rewrite Hc.
  - rewrite Hc. erewrite io_bind_run by apply conn_Write_ok. rewrite authenticate_run by auto.
    by rewrite string_app_assoc.
Qed.

Lemma be16_bytes port : 0 ≤ port < 65536 → be16 (bytes [port / 256; port]) = port.
Proof.
  intros Hp. unfold be16, byte_of. simpl.
  rewrite ord_byte by (split; [apply Z.div_pos; lia|apply Z.div_lt_upper_bound; lia]).
  pose proof (Z.mod_pos_bound port 256). rewrite ord_chr by lia.
  pose proof (Z.div_mod port 256). lia.
Qed.

Lemma request_run rsv d port t o :
  dst_ok d → 0 ≤ port < 65536 →
  readSOCKS5ConnectRequest (mkConn (connect_request rsv d port +:+ t) o [])
  = (Ok (JoinHostPort (dst_host d) (Itoa port)), mkConn t o []).
Proof.
  intros Hd Hp. unfold readSOCKS5ConnectRequest.
  assert (∃ k body, encode_dst d = bytes [k] +:+ body ∧ connect_request rsv d port +:+ t
          = bytes [5; 1; rsv; k] +:+ (body +:+ (bytes [port / 256; port] +:+ t)) ∧
          k = match d with DstIPv4 _ => 1 | DstDomain _ => 3 | DstIPv6 _ => 4 end ∧
          body = match d with DstIPv4 ip | DstIPv6 ip => ip | DstDomain n => len1 n +:+ n end)
    as (k & body & He & -> & Hk & Hbody).
  { unfold connect_request. destruct d; simpl; do 2 eexists; (split; [done|]); rewrite ?string_app_assoc; done. }
  erewrite io_bind_run by (by apply ReadFull_app).
  assert (byte_of 0 (bytes [5; 1; rsv; k]) = 5 ∧ byte_of 1 (bytes [5; 1; rsv; k]) = 1 ∧
          byte_of 3 (bytes [5; 1; rsv; k]) = k) as (-> & -> & ->).
  { destruct d; subst; done. }
  cbn [Z.eqb negb orb socks5Version socks5Connect Pos.eqb]. subst k body.
  destruct d as [ip|n|ip]; simpl in Hd; cbn [Z.eqb socks5IPv4 socks5Domain socks5IPv6 Pos.eqb].
  - erewrite io_bind_run; [|erewrite io_bind_run by (by apply ReadFull_app); reflexivity].
    erewrite io_bind_run by (by apply (ReadFull_app (bytes [port / 256; port]))).
    by rewrite be16_bytes by done.
  - rewrite string_app_assoc.
    erewrite io_bind_run; [|erewrite io_bind_run by (by apply (ReadFull_app (len1 n)));
      apply ReadFull_app; unfold byte_of; simpl; by apply len1_to_nat].
    erewrite io_bind_run by (by apply (ReadFull_app (bytes [port / 256; port]))).
    by rewrite be16_bytes by done.
  - erewrite io_bind_run; [|erewrite io_bind_run by (by apply ReadFull_app); reflexivity].
    erewrite io_bind_run by (by apply (ReadFull_app (bytes [port / 256; port]))).
    by rewrite be16_bytes by done.
Qed.

(** What a client reads in a reply (RFC 1928, section 6): the version, the status,
    a reserved byte, the type of the address, four or sixteen bytes of address and
    two of port, and nothing more. *)
Definition read_reply (reply : string) : option (Z * string * Z) :=
  match reply with
  | String version (String status (String reserved (String kind body))) =>
      if (ord version =? 5) && (ord reserved =? 0) then
        let n := if ord kind =? 1 then 4%nat else if ord kind =? 4 then 16%nat else 0%nat in
        match n, drop n body with
        | S _, String high (String low EmptyString) => Some (ord status, take n body, 256 * ord high + ord low)
        | _, _ => None
        end
      else None
  | _ => None
  end.

(** The four bytes of an IPv4 address, which may be written as an IPv6 one, or the
    sixteen of another address. *)
Definition same_host (ip addr : string) : Prop :=
  ip = addr ∨ String.length addr = 4%nat ∧ ip = bytes [0; 0; 0; 0; 0; 0; 0; 0; 0; 0; 255; 255] +:+ addr.

Lemma read_reply_app status kind n addr port :
  0 ≤ status < 256 → (kind, n) = (1, 4%nat) ∨ (kind, n) = (4, 16%nat) → String.length addr = n → 0 ≤ port < 65536 →
  read_reply (bytes [socks5Version; status; 0; kind] +:+ addr +:+ bytes [port / 256; port]) = Some (status, addr, port).
Proof.
  intros Hs Hk Hl Hp. pose proof (be16_bytes port Hp) as He. unfold be16, byte_of in He. simpl in He.
  assert (∀ x, take n (addr +:+ x) = addr ∧ drop n (addr +:+ x) = x) as Hn by (intros x; rewrite <- Hl; split; [apply take_length_app|apply drop_length_app]).
  destruct (Hn (bytes [port / 256; port])) as [Ht Hd]. unfold read_reply.
  change (bytes [socks5Version; status; 0; kind] +:+ addr +:+ bytes [port / 256; port])
    with (String (chr (5 mod 256)) (String (chr (status mod 256)) (String (chr (0 mod 256)) (String (chr (kind mod 256)) (addr +:+ bytes [port / 256; port]))))).
  cbv beta iota. rewrite (ord_byte status Hs).
  destruct Hk as [[= -> ->]|[= -> ->]]; rewrite !ord_byte by lia; cbn [Z.eqb Pos.eqb andb]; cbv beta iota zeta; rewrite Ht, Hd; cbn [bytes]; (do 2 f_equal; lia).
Qed.

(** A reply with the address of the connection. *)
Lemma writeReply_run status ip port i o :
  0 ≤ status < 256 → String.length ip = 4%nat ∨ String.length ip = 16%nat → 0 ≤ port < 65536 →
  ∃ reply addr, writeSOCKS5Reply status (Some (Some ip, port)) (mkConn i o []) = (Ok tt, mkConn i (o +:+ reply) []) ∧
    read_reply reply = Some (status, addr, port) ∧ same_host ip addr.
Proof.
  intros Hs Hl Hp. unfold writeSOCKS5Reply, writeSOCKS5Bytes, conn_Write. destruct (To4 ip) as [p4|] eqn:H4.
  - assert (To4 p4 = Some p4 ∧ String.length p4 = 4%nat ∧ same_host ip p4) as (Hp4 & Hl4 & Hh).
    { revert H4. unfold To4. destruct (Nat.eqb_spec (String.length ip) 4) as [E|E].
      - intros [= <-]. rewrite E. split; [done|]. split; [done|by left].
      - destruct (Nat.eqb_spec (String.length ip) 16) as [E'|]; cbn [andb]; [|done]. destruct (String.eqb_spec (take 12 ip) (bytes [0; 0; 0; 0; 0; 0; 0; 0; 0; 0; 255; 255])) as [Ht|]; [|done].
        intros Hq. assert (p4 = drop 12 ip) as Hp4 by congruence. assert (String.length p4 = 4%nat) as Hd.
        { pose proof (f_equal String.length (take_drop_app 12 ip)) as Hx. rewrite <- Hp4, string_length_app, Ht, E' in Hx.
          change (String.length (bytes _)) with 12%nat in Hx. lia. }
        split; [by rewrite Hd|]. split; [done|]. unfold same_host. right. split; [done|]. by rewrite <- Ht, Hp4, take_drop_app. }
    eexists _, p4. split; [reflexivity|]. split; [|done]. rewrite Hp4. apply (read_reply_app status 1 4); auto.
  - assert (String.length ip = 16%nat) as H16.
    { destruct Hl as [Hl|]; [|done]. unfold To4 in H4. by rewrite Hl in H4. }
    eexists _, ip. split; [reflexivity|]. split; [|by left]. unfold To16. rewrite H16.
    apply (read_reply_app status 4 16); auto.
Qed.

(** C15: a well-formed SOCKS5 session succeeds.  A client that offers the
    method the listener wants, authenticates when users are configured, and asks
    to connect to an IPv4 address, an IPv6 address or a name, gets its target
    dialled under exactly that host and port, and receives the method choice,
    the authentication success and a reply, in this order; in the reply it reads
    success and the address of the connection to the target, as RFC 1928 lays it
    out.  What it sent behind the request is left for the relay. *)
Theorem socks5_session (users : gmap string string) (dial : string → result string tcpAddr) (ip : string) (lport : Z)
    (methods u p : string) (rsv : Z) (d : destination) (port : Z) (rest : string) :
  lenZ methods < 256 → contains_byte (chr (method_for users)) methods = true →
  lenZ u < 256 → lenZ p < 256 → (needs_auth users = true → users !! u = Some p) →
  dst_ok d → 0 ≤ port < 65536 →
  dial (JoinHostPort (dst_host d) (Itoa port)) = Ok (Some ip, lport) →
  String.length ip = 4%nat ∨ String.length ip = 16%nat → 0 ≤ lport < 65536 →
  ∃ reply addr,
    handleSOCKS5Connection dial users
      (mkConn (client_hello users methods u p +:+ connect_request rsv d port +:+ rest) "" [])
    = (Some (JoinHostPort (dst_host d) (Itoa port)), true,
       mkConn rest ((bytes [5; method_for users] +:+ (if needs_auth users then bytes [1; 0] else "")) +:+ reply) []) ∧
    read_reply reply = Some (0, addr, lport) ∧ same_host ip addr.
Proof.
  intros Hm Hc Hu Hp Hup Hd Hport Hdial Hip Hlp. unfold handleSOCKS5Connection.
  rewrite negotiate_run, request_run, Hdial by done.
  match goal with |- context [writeSOCKS5Reply _ _ (mkConn rest ?o [])] =>
    destruct (writeReply_run socks5Succeeded ip lport rest o) as (reply & addr & Hw & Hr & Hh); [done..|] end.
  exists reply, addr. split; [|done]. unfold tcpAddr in Hw |- *. by rewrite Hw.
Qed.

Lemma socks5_session_witness :
  ∃ reply addr,
    handleSOCKS5Connection (λ _, Ok (Some (bytes [127; 0; 0; 1]), 4242)) {["ann" := "pw"]}
      (mkConn (client_hello {["ann" := "pw"]} (bytes [0; 2]) "ann" "pw"
               +:+ connect_request 0 (DstDomain "example.com") 443 +:+ "hello") "" [])
    = (Some "example.com:443", true, mkConn "hello" (bytes [5; 2; 1; 0] +:+ reply) []) ∧
    read_reply reply = Some (0, addr, 4242) ∧ same_host (bytes [127; 0; 0; 1]) addr.
Proof.
  destruct (socks5_session {["ann" := "pw"]} (λ _, Ok (Some (bytes [127; 0; 0; 1]), 4242))
             (bytes [127; 0; 0; 1]) 4242 (bytes [0; 2]) "ann" "pw" 0 (DstDomain "example.com") 443 "hello") as (reply & addr & H);
    [vm_compute; reflexivity|reflexivity..|simpl; reflexivity|lia|reflexivity|left; reflexivity|lia|].
  exists reply, addr. exact H.
Defined.

(** ** A dialled target was asked for, by an authenticated client *)
Lemma two_bytes s : String.length s = 2%nat → ∃ a b, s = String a (String b "").
Proof. destruct s as [|a [|b [|]]]; simpl; try lia. eauto. Qed.

Lemma byte_bytes c : bytes [ord c] = String c "".
Proof. simpl. by rewrite bytes_ord. Qed.

Lemma len1_of s c : Z.to_nat (ord c) = String.length s → len1 s = String c "" ∧ lenZ s < 256.
Proof.
  intros H. pose proof (ord_range c). unfold len1, lenZ.
  replace (Z.of_nat (String.length s)) with (ord c) by lia. split; [apply byte_bytes|lia].
Qed.

Lemma authenticate_inv users c c' :
  authenticateSOCKS5UserPass users c = (Ok tt, c') →
  ∃ u p, c_in c = credentials u p +:+ c_in c' ∧ users !! u = Some p.
Proof.
  unfold authenticateSOCKS5UserPass. intros (h & c1 & (Hi1 & Hl1 & _)%ReadFull_inv & H)%io_bind_ok.
  destruct (two_bytes h Hl1) as (v & n & ->).
  destruct (Z.eqb_spec (byte_of 0 (String v (String n ""))) socks5AuthVersion) as [Hv|]; [|done].
  cbn [negb] in H.
  apply io_bind_ok in H as (u & c2 & (Hi2 & Hl2 & _)%ReadFull_inv & H).
  apply io_bind_ok in H as (pl & c3 & (Hi3 & Hl3 & _)%ReadFull_inv & H).
  apply io_bind_ok in H as (p & c4 & (Hi4 & Hl4 & _)%ReadFull_inv & H).
  apply io_bind_ok in H as ([] & c5 & Hw%conn_Write_in & H).
  destruct pl as [|m [|]]; simpl in Hl3; try lia.
  destruct (bool_decide_reflect (users !! u = Some p)) as [Hup|]; [|done].
  injection H as <-. exists u, p. split; [|done].
  destruct (len1_of u n (eq_sym Hl2)) as [Hu _]. destruct (len1_of p m (eq_sym Hl4)) as [Hp _].
  unfold credentials. rewrite Hu, Hp, Hi1, Hi2, Hi3, Hi4, Hw. simpl. rewrite !string_app_assoc. simpl.
  f_equal. unfold byte_of in Hv. simpl in Hv. rewrite <- (chr_ord v), Hv. done.
Qed.

Lemma negotiate_inv users c c' :
  negotiateSOCKS5 users c = (Ok tt, c') →
  ∃ methods u p, c_in c = client_hello users methods u p +:+ c_in c' ∧ lenZ methods < 256 ∧
    contains_byte (chr (method_for users)) methods = true ∧
    (needs_auth users = true → users !! u = Some p).
Proof.
  unfold negotiateSOCKS5. intros (h & c1 & (Hi1 & Hl1 & _)%ReadFull_inv & H)%io_bind_ok.
  destruct (two_bytes h Hl1) as (v & n & ->).
  destruct (Z.eqb_spec (byte_of 0 (String v (String n ""))) socks5Version) as [Hv|]; [|done].
  cbn [negb] in H.
  apply io_bind_ok in H as (ms & c2 & (Hi2 & Hl2 & _)%ReadFull_inv & H).
  destruct (len1_of ms n (eq_sym Hl2)) as [Hms Hlen].
  assert (greeting ms = String v (String n "") +:+ ms) as Hg.
  { unfold greeting. rewrite Hms. unfold byte_of in Hv. simpl in Hv |- *. by rewrite <- (chr_ord v), Hv. }
  cbv zeta in H. unfold client_hello, method_for, needs_auth. destruct (bool_decide (users = ∅)); cbn [negb] in *.
  - destruct (contains_byte _ ms) eqn:Hc; [|done]. apply conn_Write_in in H.
    exists ms, "", "". split; [|done]. by rewrite string_app_nil_r, Hg, Hi1, Hi2, H, string_app_assoc.
  - destruct (contains_byte _ ms) eqn:Hc; [|done].
    apply io_bind_ok in H as ([] & c3 & Hw%conn_Write_in & (u & p & Hi3 & Hup)%authenticate_inv).
    exists ms, u, p. split; [|done]. by rewrite Hg, Hi1, Hi2, <- Hw, Hi3, !string_app_assoc.
Qed.

Lemma request_inv c t c' :
  readSOCKS5ConnectRequest c = (Ok t, c') →
  ∃ rsv d port, c_in c = connect_request rsv d port +:+ c_in c' ∧ dst_ok d ∧ 0 ≤ port < 65536 ∧
    t = JoinHostPort (dst_host d) (Itoa port).
Proof.
  unfold readSOCKS5ConnectRequest. intros (h & c1 & (Hi1 & Hl1 & _)%ReadFull_inv & H)%io_bind_ok.
  destruct h as [|v [|cmd [|rsv [|k [|]]]]]; simpl in Hl1; try lia.
  destruct (Z.eqb_spec (byte_of 0 (String v (String cmd (String rsv (String k ""))))) socks5Version) as [Hv|];
    [|by destruct (byte_of 1 _ =? _)].
  destruct (Z.eqb_spec (byte_of 1 (String v (String cmd (String rsv (String k ""))))) socks5Connect) as [Hcmd|]; [|done].
  cbn [negb orb] in H. unfold byte_of in Hv, Hcmd. simpl in Hv, Hcmd.
  apply io_bind_ok in H as (host & c2 & Hhost & H).
  apply io_bind_ok in H as (pb & c3 & (Hi3 & Hl3 & _)%ReadFull_inv & [= <- <-]).
  assert (∃ d, c_in c1 = drop 1 (encode_dst d) +:+ c_in c2 ∧ take 1 (encode_dst d) = String k "" ∧
               dst_ok d ∧ dst_host d = host) as (d & Hd1 & Hd2 & Hd3 & <-).
  { unfold byte_of in Hhost. simpl in Hhost.
    destruct (Z.eqb_spec (ord k) socks5IPv4) as [Hk|].
    { apply io_bind_ok in Hhost as (a & c4 & (Hi4 & Hl4 & _)%ReadFull_inv & [= <- <-]).
      exists (DstIPv4 a). rewrite <- (chr_ord k), Hk. simpl. done. }
    destruct (Z.eqb_spec (ord k) socks5Domain) as [Hk|].
    { apply io_bind_ok in Hhost as (l & c4 & (Hi4 & Hl4 & _)%ReadFull_inv & (Hi5 & Hl5 & _)%ReadFull_inv).
      destruct l as [|ln [|]]; simpl in Hl4; try lia.
      destruct (len1_of host ln (eq_sym Hl5)) as [Hn Hlt].
      exists (DstDomain host). split.
      { change (drop 1 (encode_dst (DstDomain host))) with (len1 host +:+ host). by rewrite Hn, Hi4, Hi5. }
      rewrite <- (chr_ord k), Hk. done. }
    destruct (Z.eqb_spec (ord k) socks5IPv6) as [Hk|]; [|done].
    apply io_bind_ok in Hhost as (a & c4 & (Hi4 & Hl4 & _)%ReadFull_inv & [= <- <-]).
    exists (DstIPv6 a). rewrite <- (chr_ord k), Hk. simpl. done. }
  destruct (two_bytes pb Hl3) as (p1 & p2 & ->). pose proof (ord_range p1). pose proof (ord_range p2).
  exists (ord rsv), d, (ord p1 * 256 + ord p2). unfold be16, byte_of. simpl String.get. cbv beta iota.
  split; [|split; [done|split; [lia|done]]].
  unfold connect_request. rewrite <- (take_drop_app 1 (encode_dst d)), Hd2, Hi1, Hd1, Hi3.
  generalize (drop 1 (encode_dst d)). intros e. rewrite !string_app_assoc. simpl. rewrite !bytes_ord.
  rewrite <- (chr_ord v), Hv, <- (chr_ord cmd), Hcmd. do 5 f_equal.
  rewrite Z.div_add_l, Z.div_small, Z.add_0_r, bytes_ord by lia.
  replace (ord p1 * 256 + ord p2) with (ord p2 + ord p1 * 256) by lia.
  by rewrite Z_mod_plus_full, bytes_ord.
Qed.

(** C16: no target is dialled unless the client sent a complete session: the
    bytes it sent are a greeting that offers the required method, credentials of
    a configured user when users are configured, and a CONNECT request for
    exactly the address dialled. *)
Theorem socks5_dials_only_authenticated (dial : string → result string tcpAddr) (users : gmap string string)
    (c : conn) (t : string) (opened : bool) (c' : conn) :
  handleSOCKS5Connection dial users c = (Some t, opened, c') →
  ∃ methods u p rsv d port rest,
    c_in c = client_hello users methods u p +:+ connect_request rsv d port +:+ rest ∧
    contains_byte (chr (method_for users)) methods = true ∧
    (needs_auth users = true → users !! u = Some p) ∧
    dst_ok d ∧ 0 ≤ port < 65536 ∧ t = JoinHostPort (dst_host d) (Itoa port).
Proof.
  unfold handleSOCKS5Connection. intros H.
  destruct (negotiateSOCKS5 users c) as [[[]|e] c1] eqn:Hn; [|done].
  apply negotiate_inv in Hn as (ms & u & p & Hi1 & _ & Hm & Hup).
  destruct (readSOCKS5ConnectRequest c1) as [[target|e] c2] eqn:Hr; [|done].
  assert (target = t) as ->.
  { destruct (dial target); [destruct (writeSOCKS5Reply _ _ c2) as [[] ?]|]; by simplify_eq. }
  apply request_inv in Hr as (rsv & d & port & Hi2 & Hd & Hp & ->).
  exists ms, u, p, rsv, d, port, (c_in c2). by rewrite Hi1, Hi2.
Qed.

Lemma socks5_dials_only_authenticated_witness :
  ∃ methods u p rsv d port rest,
    bytes [5; 1; 0; 5; 1; 0; 1; 10; 0; 0; 7; 0; 80] =
      client_hello ∅ methods u p +:+ connect_request rsv d port +:+ rest ∧
    contains_byte (chr (method_for ∅)) methods = true ∧
    (needs_auth ∅ = true → (∅ : gmap string string) !! u = Some p) ∧
    dst_ok d ∧ 0 ≤ port < 65536 ∧ "10.0.0.7:80" = JoinHostPort (dst_host d) (Itoa port).
Proof.
  apply (socks5_dials_only_authenticated (λ _, Err "refused") ∅
           (mkConn (bytes [5; 1; 0; 5; 1; 0; 1; 10; 0; 0; 7; 0; 80]) "" []) "10.0.0.7:80" false
           (mkConn "" (bytes [5; 0; 5; 1; 0; 1; 0; 0; 0; 0; 0; 0]) [])).
  vm_compute. reflexivity.
Defined.

(** A request whose command is not CONNECT is answered twice: the
    listener writes the command-denied reply and then a general-error reply. *)
Theorem socks5_denied_replies_twice (dial : string → result string tcpAddr) (methods request rest : string) :
  lenZ methods < 256 → contains_byte (chr 0) methods = true →
  String.length request = 4%nat → byte_of 0 request = 5 → byte_of 1 request ≠ 1 →
  handleSOCKS5Connection dial ∅ (mkConn (greeting methods +:+ request +:+ rest) "" [])
  = (None, false, mkConn rest (bytes [5; 0] +:+ bytes [5; 7; 0; 1; 0; 0; 0; 0; 0; 0] +:+ bytes [5; 1; 0; 1; 0; 0; 0; 0; 0; 0]) []).
Proof.
  intros Hm Hc Hl Hv Hcmd. unfold handleSOCKS5Connection.
  assert (negotiateSOCKS5 ∅ (mkConn (greeting methods +:+ request +:+ rest) "" [])
          = (Ok tt, mkConn (request +:+ rest) (bytes [5; 0]) [])) as ->.
  { pose proof (negotiate_run ∅ methods "" "" (request +:+ rest) "") as Hn.
    unfold client_hello, needs_auth, method_for in Hn. rewrite bool_decide_true in Hn by done. cbn [negb] in Hn.
    rewrite string_app_nil_r in Hn. by apply Hn. }
  unfold readSOCKS5ConnectRequest. unfold mbind at 1, io_bind at 1. rewrite ReadFull_app by done.
  rewrite Hv, (proj2 (Z.eqb_neq _ socks5Connect) Hcmd). done.
Qed.

Lemma socks5_denied_replies_twice_witness :
  (handleSOCKS5Connection (λ _, Err "refused") ∅
     (mkConn (greeting (bytes [0]) +:+ bytes [5; 2; 0; 1] +:+ bytes [10]) "" [])).1 = (None, false).
Proof.
  rewrite (socks5_denied_replies_twice (λ _, Err "refused") (bytes [0]) (bytes [5; 2; 0; 1]) (bytes [10]));
    (reflexivity || discriminate).
Defined.
