(* ===== verification/ForwardProxy.v ===== *)
(** * The forward-proxy listener and its cascade

    Models [pkg/listener/proxy.go].  [url.Parse] and the network (dialling, TLS
    handshakes, the upstream proxy's response) are arguments; every decision,
    the CONNECT request sent to an upstream proxy and the authentication of
    clients are modelled. *)

From S2P Require Import Prelude GoStd GoHttp Base64 Backend Auth.
Open Scope Z_scope.

(** ** Configuration *)
Record proxyURL : Type := mkProxyURL {
  pu_Scheme : string;                         (* lower case, as [url.Parse] leaves it *)
  pu_Host : string;
  pu_Hostname : string;
  pu_User : option (string * string);
}.

Record CascadeProxy : Type := mkCascadeProxy {
  cp_URL : string; cp_Username : string; cp_Password : string;
  cp_Hosts : list string; cp_NoProxy : list string;
}.

Record cascadeProxy : Type := mkCascade {
  ca_url : proxyURL; ca_timeout : Z; ca_username : string; ca_password : string;
  ca_hosts : list string; ca_noProxy : list string;
}.

Inductive cascadeErr : Type := InvalidURL (u : string) | UnsupportedScheme (s : string) | BadPattern (p : string).

Fixpoint bad_pattern (ps : list string) : option string :=
  match ps with
  | [] => None
  | p :: ps' => match Match p "" with Err _ => Some p | Ok _ => bad_pattern ps' end
  end.

(** [newCascadeProxy]; [None] is a nil proxy. *)
Definition newCascadeProxy (url_Parse : string → option proxyURL) (timeout : Z) (configured : option CascadeProxy)
  : result cascadeErr (option cascadeProxy) :=
  match configured with
  | None => Ok None
  | Some c =>
      if String.eqb (cp_URL c) "" then Ok None
      else match url_Parse (cp_URL c) with
           | None => Err (InvalidURL (cp_URL c))
           | Some parsed =>
               if String.eqb (pu_Host parsed) "" then Err (InvalidURL (cp_URL c))
               else
                 let scheme := ToLower (pu_Scheme parsed) in
                 if negb (String.eqb scheme "http") && negb (String.eqb scheme "https") &&
                    negb (String.eqb scheme "socks5") then Err (UnsupportedScheme (pu_Scheme parsed))
                 else
                   let user := match pu_User parsed with
                               | Some u => Some u
                               | None => if String.eqb (cp_Username c) "" then None
                                         else Some (cp_Username c, cp_Password c)
                               end in
                   let parsed := mkProxyURL (pu_Scheme parsed) (pu_Host parsed) (pu_Hostname parsed) user in
                   match bad_pattern (cp_Hosts c ++ cp_NoProxy c) with
                   | Some p => Err (BadPattern p)
                   | None => Ok (Some (mkCascade parsed timeout (cp_Username c) (cp_Password c)
                                         (cp_Hosts c) (cp_NoProxy c)))
                   end
           end
  end.

(** ** Which hosts go through the cascade *)
Definition matchHostname (pattern host : string) : bool :=
  match Match (ToLower pattern) host with Ok matched => matched | Err _ => false end.

Definition matchesCascade (proxy : option cascadeProxy) (host : string) : bool :=
  match proxy with
  | None => false
  | Some p =>
      let host := TrimSuffix (ToLower (TrimSpace host)) "." in
      if existsb (λ pat, matchHostname pat host) (ca_noProxy p) then false
      else match ca_hosts p with
           | [] => true
           | hosts => existsb (λ pat, matchHostname pat host) hosts
           end
  end.

(** [strings.Trim s "[]"] *)
Fixpoint trim_right_any (a b : Ascii.ascii) (s : string) : string :=
  match s with
  | EmptyString => ""
  | String c s' =>
      match trim_right_any a b s' with
      | EmptyString => if Ascii.eqb c a || Ascii.eqb c b then "" else String c ""
      | t => String c t
      end
  end.

Definition hostFromAddress (address : string) : string :=
  match SplitHostPort address with
  | Some (host, _) => host
  | None => trim_right_any "[" "]" (trim_left_any "[" "]" address)
  end.

(** ** Dialling *)
Inductive route : Type :=
  | Direct (target : string)
  | ViaSOCKS5 (proxyHost : string) (auth : option (string * string)) (target : string)
  | ViaHTTP (proxyHost : string) (tls : bool) (request : string).

Definition crlf : string := String (ascii_of_nat 13) (String (ascii_of_nat 10) "").

(** The user and password [newSOCKS5Dialer] passes on. *)
Definition socks5Auth (p : cascadeProxy) : option (string * string) :=
  if String.eqb (ca_username p) "" then None else Some (ca_username p, ca_password p).

Definition proxyAuthorization (u pw : string) : string := "Basic " +:+ EncodeToString StdEncoding (u +:+ ":" +:+ pw).

(** The request [dialHTTPProxy] writes. *)
Definition connectRequest (p : cascadeProxy) (target : string) : string :=
  "CONNECT " +:+ target +:+ " HTTP/1.1" +:+ crlf +:+ "Host: " +:+ target +:+ crlf +:+
  match pu_User (ca_url p) with
  | Some (u, pw) => "Proxy-Authorization: " +:+ proxyAuthorization u pw +:+ crlf
  | None => ""
  end +:+ crlf.

(** What the network does for one connection through an HTTP proxy. *)
Record hop : Type := mkHop {
  h_dial : result string unit;
  h_tls : result string unit;
  h_write : result string unit;
  h_response : result string Z;
}.

Definition dialHTTPProxy (h : hop) (p : cascadeProxy) : result string unit :=
  match h_dial h with
  | Err e => Err e
  | Ok _ =>
      match (if String.eqb (pu_Scheme (ca_url p)) "https" then h_tls h else Ok tt) with
      | Err e => Err e
      | Ok _ =>
          match h_write h with
          | Err e => Err e
          | Ok _ =>
              match h_response h with
              | Err e => Err e
              | Ok status => if status =? 200 then Ok tt else Err "cascade proxy CONNECT failed"
              end
          end
      end
  end.

(** [dialCascade]: the way a target is reached, and the outcome. *)
Definition cascade_route (cascade : option cascadeProxy) (target : string) : route :=
  match cascade with
  | Some p =>
      if negb (matchesCascade cascade (hostFromAddress target)) then Direct target
      else if String.eqb (pu_Scheme (ca_url p)) "socks5" then ViaSOCKS5 (pu_Host (ca_url p)) (socks5Auth p) target
      else ViaHTTP (pu_Host (ca_url p)) (String.eqb (pu_Scheme (ca_url p)) "https") (connectRequest p target)
  | None => Direct target
  end.

Definition dialCascade (dial : route → result string unit) (h : hop) (cascade : option cascadeProxy) (target : string)
  : result string unit :=
  match cascade_route cascade target, cascade with
  | ViaHTTP _ _ _, Some p => dialHTTPProxy h p
  | r, _ => dial r
  end.

(** How [http.Transport], as [newProxyHandler] configures it, reaches a host for
    a plain request: [Some] is the proxy used. *)
Definition transport_proxy (cascade : option cascadeProxy) (hostname address : string) : option cascadeProxy :=
  match cascade with
  | None => None
  | Some p =>
      if String.eqb (pu_Scheme (ca_url p)) "socks5"
      then if matchesCascade cascade (hostFromAddress address) then Some p else None
      else if matchesCascade cascade hostname then Some p else None
  end.

(** ** Clients *)
Record forwardProxy : Type := mkForwardProxy {
  fp_timeout : Z; fp_users : gmap string string; fp_cascade : option cascadeProxy;
}.

Definition firstUsers (configured : list (gmap string string)) : gmap string string :=
  match configured with [] => ∅ | u :: _ => u end.

Definition newProxyHandler (timeout : Z) (configuredUsers : list (gmap string string)) (proxy : option cascadeProxy)
  : forwardProxy :=
  mkForwardProxy (if timeout <=? 0 then 30 * second else timeout) (firstUsers configuredUsers) proxy.

Definition NewProxyHandlerWithProxy (url_Parse : string → option proxyURL) (timeout : Z) (users : gmap string string)
    (proxy : option CascadeProxy) : result cascadeErr forwardProxy :=
  match newCascadeProxy url_Parse timeout proxy with
  | Err e => Err e
  | Ok configured => Ok (newProxyHandler timeout [users] configured)
  end.

Definition parseProxyBasicAuth (value : string) : option (string * string) :=
  if Nat.ltb (String.length value) 6 || negb (String.eqb (take 6 value) "Basic ") then None
  else match DecodeString StdEncoding (drop 6 value) with
       | None => None
       | Some credentials =>
           match index_byte colon credentials with
           | Some i => Some (take i credentials, drop (S i) credentials)
           | None => None
           end
       end.

Definition fp_authenticate (p : forwardProxy) (req : request) (w : writer) : bool * writer :=
  let reject := (false, http_Error "proxy authentication required" 407
                   (map_header (header_Set "Proxy-Authenticate" ("Basic realm=" +:+ quoted "proxy")) w)) in
  match parseProxyBasicAuth (header_Get (r_header req) "Proxy-Authorization") with
  | Some (username, password) =>
      match fp_users p !! username with
      | Some expected => if String.eqb expected password then (true, w) else reject
      | None => reject
      end
  | None => reject
  end.

(** What became of a client's request. *)
Inductive fpOutcome : Type :=
  | Replied (w : writer)                                    (* answered by the proxy itself *)
  | Forwarded (outbound : request) (scheme host : string)   (* handed to the reverse proxy *)
  | Tunnelled (r : route)                                   (* a CONNECT tunnel is open *)
  | Dropped (r : route).                                    (* the tunnel broke after the dial *)

Definition serveConnect (dial : route → result string unit) (h : hop) (hijack : hijackOutcome)
    (established : result string unit) (p : forwardProxy) (req : request) (w : writer) : fpOutcome :=
  if String.eqb (r_host req) "" then Replied (http_Error "CONNECT requires a host" 400 w)
  else
    let r := cascade_route (fp_cascade p) (r_host req) in
    match dialCascade dial h (fp_cascade p) (r_host req) with
    | Err e => Replied (http_Error ("connect to " +:+ r_host req +:+ ": " +:+ e) 502 w)
    | Ok _ =>
        match hijack with
        | NoHijacker => Replied (http_Error "HTTP CONNECT is not supported by this listener" 501 w)
        | HijackError _ => Dropped r
        | Hijacked => match established with Err _ => Dropped r | Ok _ => Tunnelled r end
        end
    end.

(** [scheme] and [host] are those of [r.URL], empty for a relative URL. *)
Definition fp_ServeHTTP (dial : route → result string unit) (h : hop) (hijack : hijackOutcome)
    (established : result string unit) (p : forwardProxy) (req : request) (scheme host : string) (w : writer)
  : fpOutcome :=
  let '(ok, w) := if bool_decide (fp_users p = ∅) then (true, w) else fp_authenticate p req w in
  if negb ok then Replied w
  else if String.eqb (r_method req) "CONNECT" then serveConnect dial h hijack established p req w
  else if String.eqb scheme "" || String.eqb host ""
  then Replied (http_Error "proxy requests must use an absolute URL" 400 w)
  else Forwarded (set_header (header_Del "Proxy-Authorization" (r_header req)) req) scheme host.

(** ** Theorems *)
Lemma parseProxyBasicAuth_roundtrip u pw :
  contains_byte colon u = false → parseProxyBasicAuth (proxyAuthorization u pw) = Some (u, pw).
Proof.
  intros Hu. unfold parseProxyBasicAuth, proxyAuthorization.
  assert (take 6 ("Basic " +:+ EncodeToString StdEncoding (u +:+ ":" +:+ pw)) = "Basic ") as ->
    by apply (take_length_app "Basic ").
  assert (drop 6 ("Basic " +:+ EncodeToString StdEncoding (u +:+ ":" +:+ pw))
          = EncodeToString StdEncoding (u +:+ ":" +:+ pw)) as -> by apply (drop_length_app "Basic ").
  rewrite DecodeString_Encode, string_length_app. change (u +:+ ":" +:+ pw) with (u +:+ String colon pw).
  rewrite index_byte_app, take_length_app, drop_S_app by done. done.
Qed.

(** C38: the forward proxy authenticates.  When users are configured, a request
    passes exactly when its Proxy-Authorization names a configured user with
    the right password, in the encoding the cascade itself uses to talk to an
    upstream proxy; any other request gets 407 and nothing is dialled.  The
    credentials are never forwarded. *)
Theorem proxy_authentication (dial : route → result string unit) (h : hop) (hijack : hijackOutcome)
    (established : result string unit) (p : forwardProxy) (req : request) (scheme host : string) (w : writer) :
  fp_users p ≠ ∅ → w_reply w = None →
  let out := fp_ServeHTTP dial h hijack established p req scheme host w in
  (∀ u pw, contains_byte colon u = false → fp_users p !! u = Some pw → scheme ≠ "" → host ≠ "" →
     header_Get (r_header req) "Proxy-Authorization" = proxyAuthorization u pw → r_method req ≠ "CONNECT" →
     ∃ o, out = Forwarded o scheme host) ∧
  ((∀ u pw, parseProxyBasicAuth (header_Get (r_header req) "Proxy-Authorization") = Some (u, pw) →
            fp_users p !! u ≠ Some pw) →
     ∃ w', out = Replied w' ∧ status_of w' = Some 407) ∧
  (∀ o s ho, out = Forwarded o s ho → header_Get (r_header o) "Proxy-Authorization" = "").
Proof.
  intros Hu Hw out. unfold out, fp_ServeHTTP. rewrite bool_decide_false by done. split; [|split].
  - intros u pw Hc Hup Hs Hh Hv Hm. unfold fp_authenticate.
    rewrite Hv, parseProxyBasicAuth_roundtrip, Hup, String.eqb_refl by done. cbn [negb].
    rewrite (proj2 (String.eqb_neq _ _) Hm), (proj2 (String.eqb_neq _ _) Hs), (proj2 (String.eqb_neq _ _) Hh).
    cbn [orb]. eauto.
  - intros Hno. unfold fp_authenticate.
    destruct (parseProxyBasicAuth _) as [[u pw]|];
      [specialize (Hno u pw eq_refl); destruct (fp_users p !! u) as [e|]; [destruct (String.eqb_spec e pw); [congruence|]|]|];
      (eexists; split; [done|]; by apply http_Error_status).
  - intros o s ho. destruct (fp_authenticate p req w) as [[] w']; cbn [negb]; [|done].
    destruct (String.eqb _ "CONNECT").
    + unfold serveConnect. by repeat case_match.
    + destruct (_ || _); [done|]. intros [= <- <- <-]. simpl. apply header_Get_Del.
Qed.

Definition sample_forward : forwardProxy := newProxyHandler 0 [{["ann" := "pw"]}] None.
Definition ok_hop : hop := mkHop (Ok tt) (Ok tt) (Ok tt) (Ok 200).
Definition get_request (auth : string) : request :=
  mkRequest "GET" "example.com" "/" [] [] (header_Set "Proxy-Authorization" auth ∅) "192.0.2.7:4711" 0 false false.

Lemma proxy_authentication_witness :
  ∃ w', fp_ServeHTTP (λ _, Ok tt) ok_hop NoHijacker (Ok tt) sample_forward (get_request "Basic YW5uOm5v")
          "http" "example.com" new_writer = Replied w' ∧ status_of w' = Some 407.
Proof.
  refine (proj1 (proj2 (proxy_authentication (λ _, Ok tt) ok_hop NoHijacker (Ok tt) sample_forward
            (get_request "Basic YW5uOm5v") "http" "example.com" new_writer _ eq_refl)) _).
  - apply map_non_empty_singleton.
  - intros u pw Hp. vm_compute in Hp. injection Hp as <- <-. vm_compute. discriminate.
Defined.

(** CONNECT tunnels and plain requests take the same way.  For a target
    [host:port], the tunnel goes through the cascade exactly when the transport
    used for plain requests to that host does: never for a host matched by
    no_proxy, otherwise when the host list is empty or matches. *)
Theorem cascade_consistent (p : cascadeProxy) (host port : string) :
  contains_byte "[" host = false → contains_byte "]" host = false →
  contains_byte colon port = false → contains_byte "[" port = false → contains_byte "]" port = false →
  let target := JoinHostPort host port in
  let normal := TrimSuffix (ToLower (TrimSpace host)) "." in
  let through := negb (existsb (λ pat, matchHostname pat normal) (ca_noProxy p)) &&
                 (match ca_hosts p with [] => true | _ => existsb (λ pat, matchHostname pat normal) (ca_hosts p) end) in
  transport_proxy (Some p) host target = (if through then Some p else None) ∧
  (if through then cascade_route (Some p) target ≠ Direct target else cascade_route (Some p) target = Direct target).
Proof.
  intros H1 H2 H3 H4 H5 target normal through.
  assert (hostFromAddress target = host) as Hhost.
  { unfold hostFromAddress, target. by rewrite SplitHostPort_Join. }
  assert (matchesCascade (Some p) host = through) as Hm.
  { unfold matchesCascade, through. fold normal. destruct (existsb _ (ca_noProxy p)); cbn [negb andb]; [done|].
    by destruct (ca_hosts p). }
  unfold transport_proxy, cascade_route. rewrite Hhost, Hm.
  destruct through, (String.eqb (pu_Scheme (ca_url p)) "socks5"); cbn [negb]; done.
Qed.

Lemma cascade_consistent_witness :
  transport_proxy (Some (mkCascade (mkProxyURL "http" "p:3128" "p" None) 0 "" "" ["*.example.com"] []))
    "API.example.com" "API.example.com:443"
  = Some (mkCascade (mkProxyURL "http" "p:3128" "p" None) 0 "" "" ["*.example.com"] []).
Proof.
  pose proof (cascade_consistent (mkCascade (mkProxyURL "http" "p:3128" "p" None) 0 "" "" ["*.example.com"] [])
                "API.example.com" "443" eq_refl eq_refl eq_refl eq_refl eq_refl) as H.
  vm_compute in H |- *. exact (proj1 H).
Defined.
