(* ===== verification/Config.v ===== *)
(** * Configuration: the data model and the loader

    Models [pkg/config/config.go] (the records, the decoding of TCP byte checks
    and users from YAML nodes) and [pkg/config/loader.go] (merging documents and
    ordering routes).  YAML and JSON decoding are arguments; [sort.Slice] is an
    argument with its documented contract. *)

From stdpp Require Import sorting.
From S2P Require Import Prelude GoStd GoHttp Parser Selector.
Open Scope Z_scope.

(** ** Records *)
Record TLSConfig : Type := mkTLS {
  CertFile : string; KeyFile : string; KeyPassphrase : string; MinVersion : string;
  CAFile : string; CRLFile : string; OCSPURL : string;
}.
Definition no_tls : TLSConfig := mkTLS "" "" "" "" "" "" "".

Record MiddlewareConfig : Type := mkMC { mc_Name : string; mc_Config : config_map }.

Record HealthCheckConfig : Type := mkHC { hc_Path : string; hc_Interval : string; hc_Timeout : string }.

Record BackendProxy : Type := mkBP {
  bp_URL : string; bp_Username : string; bp_Password : string; bp_Hosts : list string; bp_NoProxy : list string;
}.

Record BackendAuth : Type := mkBA {
  ba_Type : string; ba_Username : string; ba_Password : string; ba_Token : string; ba_Header : string;
  ba_Prefix : string; ba_AccessKeyID : string; ba_SecretAccessKey : string; ba_Region : string; ba_Service : string;
}.

Record BackendTLS : Type := mkBT {
  bt_Insecure : bool; bt_CAFile : string; bt_ServerName : string; bt_CertFile : string; bt_KeyFile : string;
  bt_KeyPassphrase : string;
}.

(** [config.Backend] *)
Record BackendConfig : Type := mkBC {
  bc_Name : string; bc_URL : string; bc_Timeout : string; bc_ConnectTimeout : string; bc_HeadersTimeout : string;
  bc_IdleTimeout : string; bc_MaxConnections : Z; bc_Retries : Z; bc_RetryBackoff : string;
  bc_HealthCheck : option HealthCheckConfig; bc_Compression : bool; bc_ForceTLS : bool; bc_TLS : BackendTLS;
  bc_Auth : option BackendAuth; bc_Proxy : option BackendProxy;
}.

Record TCPByteCheck : Type := mkCheck { ck_Any : bool; ck_Values : list Z }.

Record TCPRoute : Type := mkTCPRoute {
  tr_Name : string; tr_Hosts : list string; tr_TLS : option TLSConfig; tr_Backends : list BackendConfig;
}.

Record Listener : Type := mkListener {
  ln_Name : string; ln_Type : string; ln_Address : string; ln_ReadHeaderTimeout : string; ln_WriteTimeout : string;
  ln_IdleTimeout : string; ln_MaxConnections : Z; ln_MaxRequestBodySize : Z; ln_TLS : TLSConfig;
  ln_Users : gmap string string; ln_Log : bool; ln_Proxy : option BackendProxy; ln_Backends : list BackendConfig;
  ln_Routes : list TCPRoute; ln_InitialBytes : list TCPByteCheck; ln_Middlewares : list MiddlewareConfig;
}.

Record ServiceConfig : Type := mkService { sv_Name : string; sv_Backends : list BackendConfig }.

(** [config.Route] *)
Record RouteConfig : Type := mkRC {
  rc_Name : string; rc_Prefix : string; rc_StripPrefix : bool; rc_PreserveHost : bool; rc_Selector : SelectorConfig;
  rc_Hosts : list string; rc_Paths : list string; rc_Endpoints : list string; rc_Service : string;
  rc_Backends : list BackendConfig; rc_Middlewares : list MiddlewareConfig;
}.

Record AdminConfig : Type := mkAdmin {
  ad_Address : string; ad_Enabled : bool; ad_TLS : TLSConfig; ad_Middlewares : list MiddlewareConfig;
}.

Record Config : Type := mkConfig {
  cf_Admin : AdminConfig; cf_Listeners : list Listener; cf_Services : list ServiceConfig;
  cf_Routes : list RouteConfig; cf_Directory : string;
}.

Definition empty_config : Config := mkConfig (mkAdmin "" false no_tls []) [] [] [] "".

(** ** YAML nodes: byte checks and users

    A node is a scalar with its text, whether its tag is [!!str], and what
    decoding it as [uint8] and as [string] gives; a sequence; or a mapping. *)
Inductive node : Type :=
  | Scalar (value : string) (is_str : bool) (as_uint8 : result string Z) (as_string : result string string)
  | Sequence (items : list node)
  | Mapping (pairs : list (node * node)).

Definition decode_string (n : node) : result string string :=
  match n with Scalar _ _ _ s => s | _ => Err "cannot unmarshal into string" end.

Definition parseTCPByte (n : node) : result string Z :=
  match n with
  | Scalar value true _ _ =>
      match value with
      | String c EmptyString => Ok (ord c)
      | _ => Err "expected a single-byte character or number"
      end
  | Scalar _ false u _ => u
  | _ => Err "cannot unmarshal into uint8"
  end.

Fixpoint parse_bytes (ns : list node) : result string (list Z) :=
  match ns with
  | [] => Ok []
  | n :: ns' =>
      match parseTCPByte n with
      | Err e => Err e
      | Ok v => match parse_bytes ns' with Err e => Err e | Ok vs => Ok (v :: vs) end
      end
  end.

Definition TCPByteCheck_UnmarshalYAML (n : node) : result string TCPByteCheck :=
  match n with
  | Scalar "*" _ _ _ => Ok (mkCheck true [])
  | Sequence items =>
      match parse_bytes items with
      | Err e => Err ("invalid TCP byte values: " +:+ e)
      | Ok [] => Err "TCP byte values must not be empty"
      | Ok values => Ok (mkCheck false values)
      end
  | _ =>
      match parseTCPByte n with
      | Err e => Err ("invalid TCP byte value: " +:+ e)
      | Ok v => Ok (mkCheck false [v])
      end
  end.

Fixpoint users_of_pairs (ps : list (node * node)) (acc : gmap string string) : result string (gmap string string) :=
  match ps with
  | [] => Ok acc
  | (k, v) :: ps' =>
      match decode_string k with
      | Err e => Err e
      | Ok username =>
          match decode_string v with
          | Err e => Err e
          | Ok password => users_of_pairs ps' (<[username := password]> acc)
          end
      end
  end.

Fixpoint users_of_items (ns : list node) (acc : gmap string string) : result string (gmap string string) :=
  match ns with
  | [] => Ok acc
  | Mapping [p] :: ns' =>
      match users_of_pairs [p] acc with Err e => Err e | Ok acc' => users_of_items ns' acc' end
  | _ :: _ => Err "users list items must contain exactly one username and password"
  end.

Definition Users_UnmarshalYAML (n : node) : result string (gmap string string) :=
  match n with
  | Mapping ps => users_of_pairs ps ∅
  | Sequence items => users_of_items items ∅
  | _ => Err "users must be a mapping or a list of mappings"
  end.

(** ** The loader *)
Definition is_nil {A} (l : list A) : bool := match l with [] => true | _ => false end.

(** A document with nothing in it is skipped. *)
Definition empty_doc (doc : Config) : bool :=
  is_nil (cf_Listeners doc) && is_nil (cf_Services doc) && is_nil (cf_Routes doc) &&
  String.eqb (ad_Address (cf_Admin doc)) "" && negb (ad_Enabled (cf_Admin doc)) && String.eqb (cf_Directory doc) "".

Definition has_admin (doc : Config) : bool :=
  let a := cf_Admin doc in
  let t := ad_TLS a in
  negb (String.eqb (ad_Address a) "") || ad_Enabled a || negb (String.eqb (CertFile t) "") ||
  negb (String.eqb (KeyFile t) "") || negb (String.eqb (CAFile t) "") || negb (String.eqb (CRLFile t) "") ||
  negb (String.eqb (OCSPURL t) "") || negb (is_nil (ad_Middlewares a)).

Definition merge_doc (cfg doc : Config) : Config :=
  if empty_doc doc then cfg
  else mkConfig (if has_admin doc then cf_Admin doc else cf_Admin cfg)
         (cf_Listeners cfg ++ cf_Listeners doc) (cf_Services cfg ++ cf_Services doc) (cf_Routes cfg ++ cf_Routes doc)
         (if negb (String.eqb (cf_Directory doc) "") then cf_Directory doc else cf_Directory cfg).

(** The decoder yields documents until the end or an error. *)
Fixpoint merge_docs (cfg : Config) (docs : list (result string Config)) : result string Config :=
  match docs with
  | [] => Ok cfg
  | Err e :: _ => Err e
  | Ok doc :: docs' => merge_docs (merge_doc cfg doc) docs'
  end.

Definition empty_result (cfg : Config) : bool :=
  is_nil (cf_Listeners cfg) && is_nil (cf_Routes cfg) && String.eqb (ad_Address (cf_Admin cfg)) "" &&
  negb (ad_Enabled (cf_Admin cfg)) && String.eqb (cf_Directory cfg) "".

(** [less i j] of the sort: the longer prefix comes first. *)
Definition prefix_len (r : RouteConfig) : nat := String.length (rc_Prefix r).
Definition longer (r s : RouteConfig) : Prop := (prefix_len s <= prefix_len r)%nat.

Section loader.
  Context (sort_routes : list RouteConfig → list RouteConfig).

Definition sortRoutesByPrefixLength (cfg : Config) : Config :=
  mkConfig (cf_Admin cfg) (cf_Listeners cfg) (cf_Services cfg) (sort_routes (cf_Routes cfg)) (cf_Directory cfg).

(** What [json.Decoder] gives: the value or an error, then whether anything but
    white space follows it. *)
Inductive jsonTail : Type := TailEOF | TailValue | TailError (e : string).

Context (json_decode : string → result string (Config * jsonTail)) (yaml_docs : string → list (result string Config)).

Definition loadConfigBytes (data : string) : result string Config :=
  let trimmed := TrimSpace data in
  if HasPrefix trimmed "{" then
    match json_decode trimmed with
    | Err e => Err ("decode JSON configuration: " +:+ e)
    | Ok (cfg, TailEOF) => Ok (sortRoutesByPrefixLength cfg)
    | Ok (_, TailValue) => Err "decode JSON configuration: multiple top-level values"
    | Ok (_, TailError e) => Err ("decode JSON configuration: " +:+ e)
    end
  else
    match merge_docs empty_config (yaml_docs data) with
    | Err e => Err e
    | Ok cfg => if empty_result cfg then Err "empty or invalid config" else Ok (sortRoutesByPrefixLength cfg)
    end.

Context (ReadFile : string → result string string) (sort_Strings : list string → list string)
  (filepath_Join : string → string → string).

Definition Load (filename : string) : result string Config :=
  match ReadFile filename with Err e => Err e | Ok data => loadConfigBytes data end.

Definition is_yaml (name : string) : bool := HasSuffix (ToLower name) ".yaml" || HasSuffix (ToLower name) ".yml".

Fixpoint read_all (dir : string) (names : list string) : result string (list string) :=
  match names with
  | [] => Ok []
  | n :: ns =>
      match ReadFile (filepath_Join dir n) with
      | Err e => Err ("read config file " +:+ e)
      | Ok doc => match read_all dir ns with Err e => Err e | Ok docs => Ok (doc :: docs) end
      end
  end.

Definition doc_separator : string := newline +:+ "---" +:+ newline.

(** [entries] is what [os.ReadDir] returns: names and whether they are
    directories. *)
Definition LoadDir (dir : string) (entries : result string (list (string * bool))) : result string Config :=
  match entries with
  | Err e => Err ("read config dir " +:+ e)
  | Ok es =>
      let names := sort_Strings (map fst (List.filter (λ e, negb e.2 && is_yaml e.1) es)) in
      match read_all dir names with
      | Err e => Err e
      | Ok [] => Err "no yaml files found in config directory"
      | Ok docs => loadConfigBytes (Join doc_separator docs)
      end
  end.
End loader.

(** ** What loading gives *)

(** The contract of [sort.Slice] with this comparison. *)
Record sorts (sort_routes : list RouteConfig → list RouteConfig) : Prop := {
  sort_perm : ∀ l, sort_routes l ≡ₚ l;
  sort_sorted : ∀ l, StronglySorted longer (sort_routes l);
}.

Lemma merge_docs_all cfg docs cfg' :
  merge_docs cfg docs = Ok cfg' →
  ∃ ds, docs = map Ok ds ∧
    cf_Listeners cfg' = cf_Listeners cfg ++ concat (map cf_Listeners ds) ∧
    cf_Services cfg' = cf_Services cfg ++ concat (map cf_Services ds) ∧
    cf_Routes cfg' = cf_Routes cfg ++ concat (map cf_Routes ds).
Proof.
  revert cfg; induction docs as [|[d|e] docs IH]; intros cfg; simpl; [|intros H|done].
  { intros [= <-]. exists []. simpl. by rewrite !app_nil_r. }
  destruct (IH _ H) as (ds & -> & Hl & Hs & Hr). exists (d :: ds). split; [done|]. simpl.
  rewrite Hl, Hs, Hr. unfold merge_doc. destruct (empty_doc d) eqn:He; simpl; [|by rewrite !app_assoc].
  unfold empty_doc in He. repeat (apply andb_true_iff in He as [He ?]).
  destruct (cf_Listeners d), (cf_Services d), (cf_Routes d); done.
Qed.

(** Loading YAML documents, from one file or from a directory, loses and
    reorders nothing but the routes: listeners and services are those of all
    documents in order, and the routes are those of all documents, sorted so
    that a longer prefix always comes before a shorter one. *)
Theorem load_merges_documents (sort_routes : list RouteConfig → list RouteConfig)
    (json_decode : string → result string (Config * jsonTail)) (yaml_docs : string → list (result string Config))
    (data : string) (cfg : Config) :
  sorts sort_routes → HasPrefix (TrimSpace data) "{" = false →
  loadConfigBytes sort_routes json_decode yaml_docs data = Ok cfg →
  ∃ ds, yaml_docs data = map Ok ds ∧
    cf_Listeners cfg = concat (map cf_Listeners ds) ∧ cf_Services cfg = concat (map cf_Services ds) ∧
    cf_Routes cfg ≡ₚ concat (map cf_Routes ds) ∧ StronglySorted longer (cf_Routes cfg).
Proof.
  intros [Hperm Hsort] Hj. unfold loadConfigBytes. rewrite Hj.
  destruct (merge_docs empty_config (yaml_docs data)) as [c|e] eqn:Hm; [|done].
  destruct (empty_result c); [done|]. intros [= <-].
  destruct (merge_docs_all _ _ _ Hm) as (ds & -> & Hl & Hs & Hr). exists ds. simpl in *.
  repeat (split; [done|]). split; [|apply Hsort]. by rewrite Hperm, Hr.
Qed.

(** A sort that meets the contract. *)
#[global] Instance longer_dec r s : Decision (longer r s).
Proof. unfold longer. apply _. Defined.

Lemma merge_sort_sorts : sorts (merge_sort longer).
Proof.
  assert (Total longer) by (intros r s; unfold longer; lia).
  assert (Transitive longer) by (intros r s t; unfold longer; lia).
  split; [intros l; apply merge_sort_Permutation|intros l; by apply StronglySorted_merge_sort].
Qed.

Definition sample_backend_config (url : string) : BackendConfig :=
  mkBC "b" url "" "" "" "" 0 0 "" None false false (mkBT false "" "" "" "" "") None None.
Definition sample_route_config (name prefix : string) : RouteConfig :=
  mkRC name prefix false false (mkSelectorConfig "" []) [] [] [] "" [sample_backend_config "http://h"] [].

Lemma load_merges_documents_witness :
  let docs := [Ok (mkConfig (mkAdmin "" false no_tls []) [] [] [sample_route_config "root" "/"] "");
               Ok (mkConfig (mkAdmin "" false no_tls []) [] [] [sample_route_config "api" "/api"] "")] in
  ∃ ds, docs = map (Ok (E := string)) ds ∧
    cf_Listeners (mkConfig (mkAdmin "" false no_tls []) [] []
      [sample_route_config "api" "/api"; sample_route_config "root" "/"] "") = concat (map cf_Listeners ds).
Proof.
  intros docs.
  destruct (load_merges_documents (merge_sort longer) (λ _, Err "") (λ _, docs) "x"
    (mkConfig (mkAdmin "" false no_tls []) [] [] [sample_route_config "api" "/api"; sample_route_config "root" "/"] ""))
    as (ds & H1 & H2 & _); [apply merge_sort_sorts|reflexivity|vm_compute; reflexivity|].
  exists ds. split; [exact H1|exact H2].
Defined.
