(* ===== verification/Validate.v ===== *)
(** * Validation of the configuration

    Models [pkg/config/validate.go].  A problem is the path the code reports and
    its message without the quoted arguments.  [url.Parse],
    [time.ParseDuration] and the parsing of IP addresses are arguments.  Go maps
    are lists of entries; the code visits them in an unspecified order, which
    only permutes the problems. *)

From S2P Require Import Prelude GoStd GoHttp Parser Selector Config.
Open Scope Z_scope.

(** ** Tables *)
Definition listenerTypes : list string :=
  ["http"; "https"; "dynamic"; "http3"; "httpmulti"; "multi"; "tcp"; "unix"; "unix_tcp"; "proxy"; "proxy_tls"; "socks5"].

Definition selectorTypes : list string :=
  ["round-robin"; "roundrobin"; "rr"; "random"; "rand"; "first-alive"; "first"; "alive"; "header"; "cookie"; "ip";
   "source-ip"; "sourceip"; "ip-hash"; "iphash"; "leastconnection"; "leastconnections"; "least-connection";
   "least-connections"; "power-of-two"; "poweroftwo"; "p2c"; "query"; "query-param"; "queryparam"].

Definition rate_fields : list string := ["max_requests"; "window"; "extensions"].
Definition openid_fields : list string :=
  ["issuer"; "audience"; "header"; "prefix"; "algorithm"; "remove_header"; "keys"].
Definition secure_fields : list string := ["path"; "key"; "redirect"; "duration"].

Definition middlewareFields : list (string * list string) :=
  [("add_prefix", ["prefix"]); ("addprefix", ["prefix"]);
   ("ip_allow_list", ["sources"]); ("ipallowlist", ["sources"]);
   ("ip_white_list", ["sources"]); ("ipwhitelist", ["sources"]);
   ("delay", ["duration"]);
   ("add_request_headers", ["headers"]); ("set_request_headers", ["headers"]);
   ("modify_request_headers", ["headers"]); ("remove_request_headers", ["headers"]);
   ("correlation_id", ["type"]);
   ("distributed_tracing", []); ("tracing", []); ("trace_context", []); ("cors", []);
   ("log", []); ("logger", []); ("logging", []);
   ("rate", rate_fields); ("rate_limit", rate_fields); ("rate_limiter", rate_fields);
   ("basic_auth", ["realm"; "users"]); ("auth_basic", ["realm"; "users"]);
   ("token_auth", ["realm"; "tokens"; "header"; "prefix"]); ("auth_token", ["realm"; "tokens"; "header"; "prefix"]);
   ("auth_openid", openid_fields); ("openid_auth", openid_fields);
   ("auth_oidc", openid_fields); ("oidc_auth", openid_fields);
   ("digest_auth", ["realm"; "users"; "nonce_timeout"]); ("auth_digest", ["realm"; "users"; "nonce_timeout"]);
   ("secure_access", secure_fields); ("secureaccess", secure_fields); ("access_secure", secure_fields);
   ("dynamic_request", ["code"]); ("request_dynamic", ["code"]);
   ("openapi", ["file"]); ("openapi_validate", ["file"]); ("openapi_validation", ["file"]);
   ("add_response_headers", ["headers"]); ("set_response_headers", ["headers"]);
   ("modify_response_headers", ["headers"]); ("remove_response_headers", ["headers"]);
   ("add_location_prefix", ["prefix"]); ("add_response_location_prefix", ["prefix"]);
   ("set_location_host", ["host"]); ("replace_location_host", ["host"]); ("set_response_location_host", ["host"]);
   ("dynamic_response", ["code"]); ("response_dynamic", ["code"]);
   ("response_affinity", ["header"])].

Definition responseMiddlewares : list string :=
  ["add_response_headers"; "set_response_headers"; "modify_response_headers"; "remove_response_headers";
   "add_location_prefix"; "add_response_location_prefix"; "set_location_host"; "replace_location_host";
   "set_response_location_host"; "dynamic_response"; "response_dynamic"; "response_affinity"].

Definition requiredMiddlewareFields : list (string * list string) :=
  [("basic_auth", ["users"]); ("auth_basic", ["users"]); ("token_auth", ["tokens"]); ("auth_token", ["tokens"]);
   ("digest_auth", ["users"]); ("auth_digest", ["users"]); ("add_prefix", ["prefix"]); ("addprefix", ["prefix"]);
   ("ip_allow_list", ["sources"]); ("ipallowlist", ["sources"]);
   ("ip_white_list", ["sources"]); ("ipwhitelist", ["sources"]); ("delay", ["duration"]);
   ("add_request_headers", ["headers"]); ("set_request_headers", ["headers"]);
   ("modify_request_headers", ["headers"]); ("remove_request_headers", ["headers"]);
   ("add_response_headers", ["headers"]); ("set_response_headers", ["headers"]);
   ("modify_response_headers", ["headers"]); ("remove_response_headers", ["headers"]);
   ("add_location_prefix", ["prefix"]); ("add_response_location_prefix", ["prefix"]);
   ("set_location_host", ["host"]); ("replace_location_host", ["host"]); ("set_response_location_host", ["host"]);
   ("secure_access", ["path"]); ("secureaccess", ["path"]); ("access_secure", ["path"]);
   ("dynamic_request", ["code"]); ("request_dynamic", ["code"]);
   ("dynamic_response", ["code"]); ("response_dynamic", ["code"]);
   ("openapi", ["file"]); ("openapi_validate", ["file"]); ("openapi_validation", ["file"])].

Definition stringFields : list string :=
  ["prefix"; "type"; "realm"; "header"; "algorithm"; "issuer"; "audience"; "key"; "redirect"; "path"; "code"; "file"; "host"].

Fixpoint table {A} (k : string) (t : list (string * A)) : option A :=
  match t with
  | [] => None
  | (k', v) :: t' => if String.eqb k' k then Some v else table k t'
  end.

Definition IsKnownMiddleware (name : string) : bool :=
  match table (ToLower name) middlewareFields with Some _ => true | None => false end.
Definition IsResponseMiddleware (name : string) : bool := one_of (ToLower name) responseMiddlewares.

(** ** Problems *)
Definition problem : Type := string * string.
Definition at_path (path what : string) : list problem := [(path, what)].
Definition when (c : bool) (path what : string) : list problem := if c then at_path path what else [].
Definition indexed (path : string) (i : nat) : string := path +:+ "[" +:+ Itoa (Z.of_nat i) +:+ "]".

(** One list of problems per element, with its index. *)
Fixpoint each_from {A} (i : nat) (f : nat → A → list problem) (l : list A) : list problem :=
  match l with
  | [] => []
  | x :: l' => f i x ++ each_from (S i) f l'
  end.
Definition each {A} (f : nat → A → list problem) (l : list A) : list problem := each_from 0 f l.

(** ** Values *)
Definition emptyValue (v : option any) : bool :=
  match v with
  | None | Some VNil => true
  | Some (VString s) => String.eqb s ""
  | Some (VList l) => is_nil l
  | Some (VMap m) => is_nil m
  | Some _ => false
  end.

Definition integerValue (v : any) : Z * bool :=
  match v with
  | VInt z => (z, true)
  | VInt64 z => (z, true)
  | VUint64 z => (int64 z, z <=? MaxInt64)
  | VFloat w integral => (w, integral)
  | _ => (0, false)
  end.

Definition is_string (v : any) : bool := match v with VString _ => true | _ => false end.

(** ** Addresses and networks *)
Definition hostsConflict (first second : string) : bool :=
  String.eqb first second || String.eqb first "*" || String.eqb second "*".

Definition listenerNetwork (listenerType : string) : string :=
  if String.eqb listenerType "http3" then "udp"
  else if String.eqb listenerType "unix" || String.eqb listenerType "unix_tcp" then "unix"
  else "tcp".

(** A parsed URL; it is absolute when it has a scheme. *)
Record parsedURL : Type := mkParsed { vu_Scheme : string; vu_Host : string; vu_Hostname : string; vu_Port : string }.

(** [strings.ReplaceAll s "TLSV" "TLS"] *)
Fixpoint replace_tlsv (s : string) : string :=
  match s with
  | String "T" (String "L" (String "S" (String "V" s'))) => "TLS" +:+ replace_tlsv s'
  | String c s' => String c (replace_tlsv s')
  | EmptyString => ""
  end.

Definition tls_versions : list string := ["TLS1.0"; "TLS1.1"; "TLS1.2"; "TLS1.3"; "1.0"; "1.1"; "1.2"; "1.3"].

Section validate.
  Context (url_Parse : string → option parsedURL) (parseDur : string → option Z).
  Context (ParseIP : string → option (string * bool)).     (* canonical text, and whether it is unspecified *)

Definition validateNetworkAddress (path address : string) : list problem * option (string * string) :=
  match SplitHostPort address with
  | None => (at_path path "must be a host:port address", None)
  | Some (host, port) =>
      match Atoi port with
      | Some number =>
          if (number <? 0) || (65535 <? number) then (at_path path "port must be between 0 and 65535", None)
          else
            let host := match ParseIP host with
                        | Some (text, unspecified) => if (unspecified : bool) then "*" else text
                        | None => ToLower host
                        end in
            let host := if String.eqb host "" then "*" else host in
            ([], Some (host, Itoa number))
      | None => (at_path path "port must be between 0 and 65535", None)
      end
  end.

Definition validatePattern (path pattern : string) : list problem :=
  match Match pattern "" with Ok _ => [] | Err _ => at_path path "contains invalid pattern" end.

Definition validateDuration (path value : string) (mustBePositive : bool) : list problem :=
  if String.eqb value "" then []
  else match parseDur value with
       | Some d => when ((d <? 0) || (mustBePositive && (d =? 0))) path "must be a valid positive duration"
       | None => at_path path "must be a valid positive duration"
       end.

Definition validateTLS (path : string) (t : TLSConfig) (required : bool) : list problem :=
  let hasCert := negb (String.eqb (CertFile t) "") in
  let hasKey := negb (String.eqb (KeyFile t) "") in
  (if required && (negb hasCert || negb hasKey) then at_path path "requires both cert_file and key_file"
   else when (xorb hasCert hasKey) path "must set cert_file and key_file together") ++
  (if String.eqb (MinVersion t) "" then []
   else when (negb (one_of (ToUpper (replace_tlsv (MinVersion t))) tls_versions)) (path +:+ ".min_version") "is invalid").

Definition validateProxy (path rawURL : string) (hosts noProxy : list string) : list problem :=
  if String.eqb rawURL "" then at_path (path +:+ ".url") "is required"
  else
    match url_Parse rawURL with
    | Some u =>
        if String.eqb (vu_Host u) "" || String.eqb (vu_Scheme u) ""
        then at_path (path +:+ ".url") "must be an absolute proxy URL with a host"
        else when (negb (one_of (vu_Scheme u) ["http"; "https"; "socks5"])) (path +:+ ".url") "scheme is not supported"
    | None => at_path (path +:+ ".url") "must be an absolute proxy URL with a host"
    end ++
    each (λ _, validatePattern (path +:+ ".hosts")) hosts ++
    each (λ _, validatePattern (path +:+ ".no_proxy")) noProxy.

Definition valid_port (port : option string) : bool :=
  match port with
  | None => false
  | Some p => match Atoi p with Some n => (1 <=? n) && (n <=? 65535) | None => false end
  end.

Definition validateURL (path : string) (rawURL : string) (tcp : bool) : list problem :=
  match url_Parse rawURL with
  | None => at_path (path +:+ ".url") "must be an absolute URL with a host"
  | Some u =>
      if String.eqb (vu_Host u) "" || String.eqb (vu_Scheme u) ""
      then at_path (path +:+ ".url") "must be an absolute URL with a host"
      else if tcp && negb (String.eqb (vu_Scheme u) "tcp")
      then at_path (path +:+ ".url") "must use the tcp:// scheme"
      else if negb tcp && negb (String.eqb (vu_Scheme u) "http") && negb (String.eqb (vu_Scheme u) "https")
      then at_path (path +:+ ".url") "must use http:// or https://"
      else
        when (String.eqb (vu_Hostname u) "") (path +:+ ".url") "must contain a hostname" ++
        (if tcp || negb (String.eqb (vu_Port u) "")
         then when (negb (valid_port (if tcp then snd <$> SplitHostPort (vu_Host u) else Some (vu_Port u))))
                (path +:+ ".url") "must include a valid port between 1 and 65535"
         else [])
  end.

Definition validateAuth (path : string) (a : BackendAuth) : list problem :=
  let t := ToLower (ba_Type a) in
  when (negb (one_of t ["basic"; "token"; "aws"])) (path +:+ ".auth.type") "is not supported" ++
  (if String.eqb t "basic" then
     when (String.eqb (ba_Username a) "" || String.eqb (ba_Password a) "") (path +:+ ".auth")
       "basic requires username and password"
   else if String.eqb t "token" then
     when (String.eqb (ba_Token a) "") (path +:+ ".auth.token") "is required for token authentication"
   else if String.eqb t "aws" then
     when (String.eqb (ba_AccessKeyID a) "" || String.eqb (ba_SecretAccessKey a) "" ||
           String.eqb (ba_Region a) "" || String.eqb (ba_Service a) "") (path +:+ ".auth")
       "AWS requires access_key_id, secret_access_key, region, and service"
   else []).

Definition validateHealthCheck (path : string) (h : HealthCheckConfig) : list problem :=
  when (negb (String.eqb (hc_Path h) "") &&
        (negb (HasPrefix (hc_Path h) "/") || Contains (hc_Path h) "?" || Contains (hc_Path h) "#"))
    (path +:+ ".health_check.path") "must be an absolute path without query or fragment" ++
  validateDuration (path +:+ ".health_check.interval") (hc_Interval h) true ++
  validateDuration (path +:+ ".health_check.timeout") (hc_Timeout h) true.

Definition validateBackend (path : string) (b : BackendConfig) (tcp : bool) : list problem :=
  when (String.eqb (bc_Name b) "") (path +:+ ".name") "is required" ++
  validateURL path (bc_URL b) tcp ++
  when (bc_MaxConnections b <? 0) (path +:+ ".max_connections") "must not be negative" ++
  when ((bc_Retries b <? 0) || (5 <? bc_Retries b)) (path +:+ ".retries") "must be between 0 and 5" ++
  validateDuration (path +:+ ".timeout") (bc_Timeout b) false ++
  validateDuration (path +:+ ".connect_timeout") (bc_ConnectTimeout b) false ++
  validateDuration (path +:+ ".headers_timeout") (bc_HeadersTimeout b) false ++
  validateDuration (path +:+ ".idle_timeout") (bc_IdleTimeout b) false ++
  validateDuration (path +:+ ".retry_backoff") (bc_RetryBackoff b) true ++
  validateTLS (path +:+ ".tls") (mkTLS (bt_CertFile (bc_TLS b)) (bt_KeyFile (bc_TLS b)) "" "" "" "" "") false ++
  when (tcp && match bc_HealthCheck b with Some _ => true | None => false end) (path +:+ ".health_check")
    "is only supported for HTTP backends" ++
  when (tcp && ((0 <? bc_Retries b) || negb (String.eqb (bc_RetryBackoff b) ""))) (path +:+ ".retries")
    "is only supported for HTTP backends" ++
  match bc_Proxy b with
  | Some p =>
      when (negb (is_nil (bp_Hosts p)) || negb (is_nil (bp_NoProxy p))) (path +:+ ".proxy")
        "hosts and no_proxy are only supported on listener proxies" ++
      validateProxy (path +:+ ".proxy") (bp_URL p) [] []
  | None => []
  end ++
  match bc_Auth b with Some a => validateAuth path a | None => [] end ++
  match bc_HealthCheck b with Some h => validateHealthCheck path h | None => [] end.

(** ** Middleware *)

(** The type a field of the configuration must have. *)
Definition validateField (name path key : string) (v : any) : list problem :=
  if one_of key stringFields then when (negb (is_string v)) (path +:+ ".config." +:+ key) "must be a string"
  else if String.eqb key "users" ||
          (String.eqb key "headers" && negb (String.eqb name "remove_request_headers") &&
           negb (String.eqb name "remove_response_headers")) then
    match v with
    | VMap values => each (λ _ '(k, item), when (negb (is_string item)) (path +:+ ".config." +:+ key +:+ "." +:+ k)
                                             "must be a string") values
    | _ => at_path (path +:+ ".config." +:+ key) "must be a string map"
    end
  else if one_of key ["sources"; "tokens"; "keys"; "extensions"; "headers"] then
    match v with
    | VList values => each (λ i item, when (negb (is_string item)) (indexed (path +:+ ".config." +:+ key) i)
                                        "must be a string") values
    | _ => at_path (path +:+ ".config." +:+ key) "must be a string list"
    end
  else if String.eqb key "remove_header" then
    when (match v with VBool _ => false | _ => true end) (path +:+ ".config.remove_header") "must be a boolean"
  else [].

Definition validateConfigEntry (name path : string) (allowed : list string) (kv : string * any) : list problem :=
  let '(key, v) := kv in
  when (negb (one_of key allowed)) (path +:+ ".config") "contains unsupported field" ++ validateField name path key v.

Definition is_openid (name : string) : bool := one_of name ["auth_openid"; "openid_auth"; "auth_oidc"; "oidc_auth"].
Definition is_rate (name : string) : bool := one_of name ["rate"; "rate_limit"; "rate_limiter"].

Definition validateMiddleware (path : string) (m : MiddlewareConfig) (allowResponse : bool) : list problem :=
  let name := ToLower (mc_Name m) in
  match table name middlewareFields with
  | None => at_path (path +:+ ".name") "is not supported"
  | Some allowed =>
      when (IsResponseMiddleware name && negb allowResponse) (path +:+ ".name")
        "is a response middleware and can only be used on a route" ++
      each (λ _, validateConfigEntry name path allowed) (mc_Config m) ++
      each (λ _ field, when (emptyValue (lookup_any field (mc_Config m))) (path +:+ ".config." +:+ field) "is required")
        (default [] (table name requiredMiddlewareFields)) ++
      when (is_openid name && (emptyValue (lookup_any "keys" (mc_Config m)) &&
                               emptyValue (lookup_any "issuer" (mc_Config m))))
        (path +:+ ".config") "must define keys or issuer" ++
      (if is_rate name then
         match lookup_any "max_requests" (mc_Config m) with
         | Some v => let '(number, valid) := integerValue v in
                     when (negb valid || (number <=? 0)) (path +:+ ".config.max_requests") "must be a positive integer"
         | None => []
         end
       else []) ++
      each (λ _ field,
        match lookup_any field (mc_Config m) with
        | Some (VString text) => validateDuration (path +:+ ".config." +:+ field) text true
        | Some _ => at_path (path +:+ ".config." +:+ field) "must be a duration string"
        | None => []
        end) ["duration"; "window"; "nonce_timeout"]
  end.

(** ** Listeners

    [addrs] is the map [listenerAddresses], [names] the map [listenerNames]. *)
Record seen : Type := mkSeen { sn_names : list string; sn_addrs : list (string * list string) }.

Definition conflicts (network host port : string) (entry : string * list string) : bool :=
  match SplitN3 "|" entry.1 with
  | [n; h; p] => String.eqb n network && String.eqb p port && hostsConflict host h
  | _ => false
  end.

Definition network_key (network host port : string) : string := network +:+ "|" +:+ host +:+ "|" +:+ port.

(** [m[key] = append(m[key], name)] *)
Fixpoint append_name (key name : string) (m : list (string * list string)) : list (string * list string) :=
  match m with
  | [] => [(key, [name])]
  | (k, ns) :: m' => if String.eqb k key then (k, ns ++ [name]) :: m' else (k, ns) :: append_name key name m'
  end.

Definition validateListenerAddress (path : string) (l : Listener) (addrs : list (string * list string))
  : list problem * list (string * list string) :=
  if String.eqb (ln_Address l) "" then (at_path (path +:+ ".address") "is required", addrs)
  else
    let network := listenerNetwork (ln_Type l) in
    if String.eqb network "unix" then
      let key := network +:+ "|" +:+ ln_Address l in
      match table key addrs with
      | Some _ => (at_path (path +:+ ".address") "conflicts with listener", addrs)
      | None => ([], addrs ++ [(key, [ln_Name l])])
      end
    else
      match validateNetworkAddress (path +:+ ".address") (ln_Address l) with
      | (ps, Some (host, port)) =>
          if String.eqb port "0" then (ps, addrs)
          else (ps ++ when (existsb (conflicts network host port) addrs) (path +:+ ".address") "conflicts with listener",
                append_name (network_key network host port) (ln_Name l) addrs)
      | (ps, None) => (ps, addrs)
      end.

Definition requiresTLS (t : string) : bool :=
  one_of t ["https"; "http3"; "httpmulti"; "multi"; "proxy_tls"; "dynamic"].
Definition is_tcp (t : string) : bool := one_of t ["tcp"; "unix_tcp"].

Definition validateTCPRoute (path : string) (r : TCPRoute) : list problem :=
  when (String.eqb (tr_Name r) "") (path +:+ ".name") "is required" ++
  when (is_nil (tr_Hosts r)) (path +:+ ".hosts") "must contain at least one SNI pattern" ++
  each (λ _, validatePattern (path +:+ ".hosts")) (tr_Hosts r) ++
  match tr_TLS r with Some t => validateTLS (path +:+ ".tls") t false | None => [] end ++
  each (λ k b, validateBackend (indexed (path +:+ ".backends") k) b true) (tr_Backends r).

Definition validateListener (i : nat) (l : Listener) (s : seen) : list problem * seen :=
  let path := indexed "listeners" i in
  let '(addr_problems, addrs) := validateListenerAddress path l (sn_addrs s) in
  ((if String.eqb (ln_Name l) "" then at_path (path +:+ ".name") "is required"
    else when (one_of (ln_Name l) (sn_names s)) (path +:+ ".name") "is duplicated") ++
   when (negb (one_of (ln_Type l) listenerTypes)) (path +:+ ".type") "is not supported" ++
   addr_problems ++
   when ((ln_MaxConnections l <? 0) || (ln_MaxRequestBodySize l <? 0)) path
     "connection and request-body limits must not be negative" ++
   validateDuration (path +:+ ".read_header_timeout") (ln_ReadHeaderTimeout l) false ++
   validateDuration (path +:+ ".write_timeout") (ln_WriteTimeout l) false ++
   validateDuration (path +:+ ".idle_timeout") (ln_IdleTimeout l) false ++
   validateTLS (path +:+ ".tls") (ln_TLS l) (requiresTLS (ln_Type l)) ++
   when (negb (is_nil (ln_Backends l)) && negb (is_tcp (ln_Type l))) (path +:+ ".backends")
     "is only valid for TCP listeners" ++
   when (negb (is_nil (ln_Routes l)) && negb (is_tcp (ln_Type l))) (path +:+ ".routes")
     "is only valid for TCP listeners" ++
   when ((match ln_Proxy l with Some _ => true | None => false end || negb (bool_decide (ln_Users l = ∅)) || ln_Log l) &&
         negb (one_of (ln_Type l) ["proxy"; "proxy_tls"; "socks5"])) path
     "proxy settings are only valid for proxy and SOCKS5 listeners" ++
   match ln_Proxy l with
   | Some p => validateProxy (path +:+ ".proxy") (bp_URL p) (bp_Hosts p) (bp_NoProxy p)
   | None => []
   end ++
   each (λ j m, validateMiddleware (indexed (path +:+ ".middlewares") j) m false) (ln_Middlewares l) ++
   each (λ j r, validateTCPRoute (indexed (path +:+ ".routes") j) r) (ln_Routes l) ++
   each (λ j b, validateBackend (indexed (path +:+ ".backends") j) b true) (ln_Backends l),
   mkSeen (ln_Name l :: sn_names s) addrs).

Fixpoint validateListeners (i : nat) (ls : list Listener) (s : seen) : list problem * seen :=
  match ls with
  | [] => ([], s)
  | l :: ls' =>
      let '(p1, s1) := validateListener i l s in
      let '(p2, s2) := validateListeners (S i) ls' s1 in
      (p1 ++ p2, s2)
  end.

(** ** Services and routes *)
Definition validateService (i : nat) (sv : ServiceConfig) (names : list string) : list problem :=
  let path := indexed "services" i in
  (if String.eqb (sv_Name sv) "" then at_path (path +:+ ".name") "is required"
   else when (one_of (sv_Name sv) names) (path +:+ ".name") "is duplicated") ++
  when (is_nil (sv_Backends sv)) (path +:+ ".backends") "must not be empty" ++
  each (λ j b, validateBackend (indexed (path +:+ ".backends") j) b false) (sv_Backends sv).

Fixpoint validateServices (i : nat) (svs : list ServiceConfig) (names : list string) : list problem * list string :=
  match svs with
  | [] => ([], names)
  | sv :: svs' =>
      let '(ps, names') := validateServices (S i) svs' (sv_Name sv :: names) in
      (validateService i sv names ++ ps, names')
  end.

Definition validateSelector (path : string) (s : SelectorConfig) : list problem :=
  let t := ToLower (sel_Type s) in
  let accepts := one_of t ["header"; "cookie"; "query"; "query-param"; "queryparam"] in
  when (negb (String.eqb (sel_Type s) "") && negb (one_of t selectorTypes)) (path +:+ ".selector.type") "is not supported" ++
  each (λ _ '(key, v),
    if negb (String.eqb key "name") || negb accepts
    then at_path (path +:+ ".selector.config") "contains unsupported field"
    else when (negb (is_string v)) (path +:+ ".selector.config.name") "must be a string") (sel_Config s).

Definition validateRoute (i : nat) (r : RouteConfig) (routeNames listenerNames serviceNames : list string)
  : list problem :=
  let path := indexed "routes" i in
  (if String.eqb (rc_Name r) "" then at_path (path +:+ ".name") "is required"
   else when (one_of (rc_Name r) routeNames) (path +:+ ".name") "is duplicated") ++
  when (String.eqb (rc_Prefix r) "" && is_nil (rc_Hosts r) && is_nil (rc_Paths r)) path
    "must define at least one of prefix, hosts, or paths" ++
  each (λ _, validatePattern (path +:+ ".hosts")) (rc_Hosts r) ++
  each (λ _, validatePattern (path +:+ ".paths")) (rc_Paths r) ++
  each (λ _ e, when (negb (one_of e listenerNames)) (path +:+ ".endpoints") "references unknown listener") (rc_Endpoints r) ++
  when (negb (String.eqb (rc_Service r) "") && negb (one_of (rc_Service r) serviceNames)) (path +:+ ".service")
    "references unknown service" ++
  when (negb (String.eqb (rc_Service r) "") && negb (is_nil (rc_Backends r))) path
    "must not define both service and backends" ++
  when (is_nil (rc_Backends r) && String.eqb (rc_Service r) "") path "must define backends or reference a service" ++
  validateSelector path (rc_Selector r) ++
  each (λ j m, validateMiddleware (indexed (path +:+ ".middlewares") j) m true) (rc_Middlewares r) ++
  each (λ j b, validateBackend (indexed (path +:+ ".backends") j) b false) (rc_Backends r).

Fixpoint validateRoutes (i : nat) (rs : list RouteConfig) (routeNames listenerNames serviceNames : list string)
  : list problem :=
  match rs with
  | [] => []
  | r :: rs' => validateRoute i r routeNames listenerNames serviceNames ++
                validateRoutes (S i) rs' (rc_Name r :: routeNames) listenerNames serviceNames
  end.

Definition validateAdmin (a : AdminConfig) (addrs : list (string * list string)) : list problem :=
  each (λ i m, validateMiddleware (indexed "admin.middlewares" i) m false) (ad_Middlewares a) ++
  (if ad_Enabled a then
     validateTLS "admin.tls" (ad_TLS a) false ++
     (if String.eqb (ad_Address a) "" then at_path "admin.address" "is required when admin.enabled is true"
      else match validateNetworkAddress "admin.address" (ad_Address a) with
           | (ps, Some (host, port)) =>
               ps ++ (if String.eqb port "0" then []
                      else when (existsb (conflicts "tcp" host port) addrs) "admin.address" "conflicts with listener")
           | (ps, None) => ps
           end)
   else []).

Definition problems_of (cfg : Config) : list problem :=
  let '(p1, s) := validateListeners 0 (cf_Listeners cfg) (mkSeen [] []) in
  let '(p2, services) := validateServices 0 (cf_Services cfg) [] in
  p1 ++ p2 ++ validateRoutes 0 (cf_Routes cfg) [] (sn_names s) services ++ validateAdmin (cf_Admin cfg) (sn_addrs s).

(** [Validate]; [None] is a nil configuration. *)
Definition Validate (cfg : option Config) : result (list problem) unit :=
  match cfg with
  | None => Err (at_path "configuration" "is nil")
  | Some c => match problems_of c with [] => Ok tt | ps => Err ps end
  end.
End validate.

(** ** No problem means no offender *)
Lemma when_nil c path what : when c path what = [] ↔ c = false.
Proof. by destruct c. Qed.

Lemma each_nil {A} (f : nat → A → list problem) l :
  each f l = [] ↔ ∀ i x, l !! i = Some x → f i x = [].
Proof.
  unfold each. assert (∀ k, each_from k f l = [] ↔ ∀ i x, l !! i = Some x → f (k + i)%nat x = []) as H; [|apply H].
  induction l as [|x l IH]; intros k; simpl; [split; [intros _ i y Hi; done|done]|].
  rewrite app_nil, IH. split.
  - intros [Hx Hl] [|i] y Hy; simplify_eq/=; [by rewrite Nat.add_0_r|].
    replace (k + S i)%nat with (S k + i)%nat by lia. by apply (Hl i).
  - intros H. split; [rewrite <- (Nat.add_0_r k); by apply (H 0%nat)|].
    intros i y Hy. replace (S k + i)%nat with (k + S i)%nat by lia. by apply (H (S i)).
Qed.

Lemma one_of_In s l : one_of s l = true ↔ s ∈ l.
Proof.
  unfold one_of. rewrite existsb_exists, list_elem_of_In. split.
  - intros (x & Hx & ->%String.eqb_eq). done.
  - intros H. exists s. split; [done|apply String.eqb_refl].
Qed.

Lemma one_of_notin s l : one_of s l = false ↔ s ∉ l.
Proof. rewrite <- one_of_In. by destruct (one_of s l). Qed.

Lemma is_nil_true {A} (l : list A) : is_nil l = true ↔ l = [].
Proof. by destruct l. Qed.

Section valid.
  Context (url_Parse : string → option parsedURL) (parseDur : string → option Z).
  Context (ParseIP : string → option (string * bool)).
  Notation vListener := (validateListener url_Parse parseDur ParseIP).
  Notation vListeners := (validateListeners url_Parse parseDur ParseIP).
  Notation vServices := (validateServices url_Parse parseDur).
  Notation vRoutes := (validateRoutes url_Parse parseDur).

(** The name of an element: present and not used before. *)
Definition fresh_name (name : string) (before : list string) : Prop := name ≠ "" ∧ name ∉ before.

Lemma name_check_nil name before path what path' what' rest :
  (if String.eqb name "" then at_path path what else when (one_of name before) path' what') ++ rest = [] ↔
  fresh_name name before ∧ rest = [].
Proof.
  rewrite app_nil. unfold fresh_name. destruct (String.eqb_spec name ""); [naive_solver|].
  rewrite when_nil, one_of_notin. naive_solver.
Qed.

Lemma listener_names i ls s :
  (vListeners i ls s).1 = [] →
  Forall (λ l, ln_Name l ≠ "") ls ∧ NoDup (map ln_Name ls) ∧ (∀ l, l ∈ ls → ln_Name l ∉ sn_names s) ∧
  (∀ n, n ∈ sn_names (vListeners i ls s).2 ↔ n ∈ map ln_Name ls ∨ n ∈ sn_names s).
Proof.
  revert i s; induction ls as [|l ls IH]; intros i s; simpl.
  { intros _. split; [constructor|]. split; [constructor|]. split; [by intros l ?%not_elem_of_nil|].
    intros n. split; [by right|by intros [?%not_elem_of_nil|?]]. }
  destruct (vListener i l s) as [p1 s1] eqn:H1. destruct (vListeners (S i) ls s1) as [p2 s2] eqn:H2. simpl.
  intros [-> ->]%app_nil. specialize (IH (S i) s1). rewrite H2 in IH. destruct (IH eq_refl) as (Hne & Hnd & Hnot & Hin).
  unfold validateListener in H1. destruct (validateListenerAddress _ _ _ _) as [pa addrs]. injection H1 as H1 Hs1.
  apply name_check_nil in H1 as [[Hn1 Hn2] _]. subst s1. simpl in *.
  split; [by constructor|]. split.
  { constructor; [|done]. intros Hc. apply list_elem_of_In, in_map_iff in Hc as (l' & He & Hl').
    apply (Hnot l'); [by apply list_elem_of_In|]. rewrite He. by left. }
  split.
  - intros l' [-> |Hl']%elem_of_cons; [done|]. intros Hc. apply (Hnot l' Hl'). by right.
  - intros n. rewrite Hin, !elem_of_cons. naive_solver.
Qed.

Lemma service_names i svs names :
  (vServices i svs names).1 = [] →
  Forall (λ sv, sv_Name sv ≠ "" ∧ sv_Backends sv ≠ []) svs ∧ NoDup (map sv_Name svs) ∧
  (∀ sv, sv ∈ svs → sv_Name sv ∉ names) ∧
  (∀ n, n ∈ (vServices i svs names).2 ↔ n ∈ map sv_Name svs ∨ n ∈ names).
Proof.
  revert i names; induction svs as [|sv svs IH]; intros i names; simpl.
  { intros _. split; [constructor|]. split; [constructor|]. split; [by intros l ?%not_elem_of_nil|].
    intros n. split; [by right|by intros [?%not_elem_of_nil|?]]. }
  destruct (vServices (S i) svs (sv_Name sv :: names)) as [ps names'] eqn:H2. simpl.
  intros [H1 ->]%app_nil. specialize (IH (S i) (sv_Name sv :: names)). rewrite H2 in IH.
  destruct (IH eq_refl) as (Hne & Hnd & Hnot & Hin). simpl in *.
  apply name_check_nil in H1 as [[Hn1 Hn2] H1]. apply app_nil in H1 as [Hb%when_nil _].
  split; [constructor; [split; [done|by intros Hx; rewrite Hx in Hb]|done]|]. split.
  { constructor; [|done]. intros Hc. apply list_elem_of_In, in_map_iff in Hc as (sv' & He & Hsv').
    apply (Hnot sv'); [by apply list_elem_of_In|]. rewrite He. by left. }
  split.
  - intros sv' [-> |Hsv']%elem_of_cons; [done|]. intros Hc. apply (Hnot sv' Hsv'). by right.
  - intros n. rewrite Hin, !elem_of_cons. naive_solver.
Qed.

(** What a route refers to exists, and it has exactly one source of backends. *)
Definition route_resolved (listenerNames serviceNames : list string) (r : RouteConfig) : Prop :=
  (∀ e, e ∈ rc_Endpoints r → e ∈ listenerNames) ∧
  (rc_Backends r ≠ [] ∧ rc_Service r = "" ∨ rc_Backends r = [] ∧ rc_Service r ≠ "" ∧ rc_Service r ∈ serviceNames) ∧
  (rc_Prefix r ≠ "" ∨ rc_Hosts r ≠ [] ∨ rc_Paths r ≠ []).

Lemma route_ok i r names lnames snames :
  validateRoute url_Parse parseDur i r names lnames snames = [] →
  fresh_name (rc_Name r) names ∧ route_resolved lnames snames r.
Proof.
  unfold validateRoute. intros [Hn H]%name_check_nil. split; [done|].
  apply app_nil in H as [Hsrc%when_nil H]. do 2 apply app_nil in H as [_ H].
  apply app_nil in H as [He H]. apply app_nil in H as [Hs1%when_nil H].
  apply app_nil in H as [Hs2%when_nil H]. apply app_nil in H as [Hs3%when_nil _].
  split; [|split].
  - intros e [j Hj]%list_elem_of_lookup. apply one_of_In.
    pose proof (proj1 (each_nil _ _) He j e Hj) as Hw%when_nil. by destruct (one_of e lnames).
  - destruct (String.eqb_spec (rc_Service r) ""), (rc_Backends r); simpl in *; try done.
    + left. done.
    + right. split; [done|]. split; [done|]. apply one_of_In. by destruct (one_of (rc_Service r) snames).
  - destruct (String.eqb_spec (rc_Prefix r) ""); [|by left]. destruct (rc_Hosts r); [|by right; left].
    destruct (rc_Paths r); [done|by right; right].
Qed.

Lemma routes_ok i rs names lnames snames :
  vRoutes i rs names lnames snames = [] →
  NoDup (map rc_Name rs) ∧ (∀ r, r ∈ rs → rc_Name r ∉ names) ∧ Forall (route_resolved lnames snames) rs.
Proof.
  revert i names; induction rs as [|r rs IH]; intros i names; simpl.
  { intros _. split; [constructor|]. split; [by intros r ?%not_elem_of_nil|constructor]. }
  intros [H1 H2]%app_nil. apply route_ok in H1 as [[Hn1 Hn2] Hr]. destruct (IH _ _ H2) as (Hnd & Hnot & Hall).
  split.
  { constructor; [|done]. intros Hc. apply list_elem_of_In, in_map_iff in Hc as (r' & He & Hr').
    apply (Hnot r'); [by apply list_elem_of_In|]. rewrite He. by left. }
  split; [|by constructor].
  intros r' [-> |Hr']%elem_of_cons; [done|]. intros Hc. apply (Hnot r' Hr'). by right.
Qed.

(** C37: a configuration that passes validation is consistent: listeners,
    services and routes have unique names, every endpoint of a route names a
    listener, every route has something to match, and it takes its backends
    from exactly one place, inline or a service that exists and has backends. *)
Theorem validated_references (cfg : Config) :
  Validate url_Parse parseDur ParseIP (Some cfg) = Ok tt →
  NoDup (map ln_Name (cf_Listeners cfg)) ∧ NoDup (map sv_Name (cf_Services cfg)) ∧ NoDup (map rc_Name (cf_Routes cfg)) ∧
  Forall (route_resolved (map ln_Name (cf_Listeners cfg)) (map sv_Name (cf_Services cfg))) (cf_Routes cfg) ∧
  Forall (λ sv, sv_Backends sv ≠ []) (cf_Services cfg).
Proof.
  unfold Validate, problems_of.
  pose proof (listener_names 0 (cf_Listeners cfg) (mkSeen [] [])) as HL.
  pose proof (service_names 0 (cf_Services cfg) []) as HS.
  destruct (vListeners 0 (cf_Listeners cfg) (mkSeen [] [])) as [p1 s].
  destruct (vServices 0 (cf_Services cfg) []) as [p2 services]. simpl in *.
  destruct (p1 ++ p2 ++ _) eqn:Hp; [|done]. intros _.
  apply app_nil in Hp as [-> Hp]. apply app_nil in Hp as [-> Hp]. apply app_nil in Hp as [Hr _].
  destruct (HL eq_refl) as (_ & HL1 & _ & HL2). destruct (HS eq_refl) as (HS0 & HS1 & _ & HS2).
  apply routes_ok in Hr as (HR1 & _ & HR2).
  split; [done|]. split; [done|]. split; [done|]. split.
  - eapply Forall_impl; [exact HR2|]. intros r (H1 & H2 & H3). split; [|split; [|done]].
    + intros e He. specialize (H1 e He). apply HL2 in H1 as [|?%not_elem_of_nil]; done.
    + destruct H2 as [H2|(Ha & Hb & Hc)]; [by left|right]. apply HS2 in Hc as [Hc|?%not_elem_of_nil]; done.
  - eapply Forall_impl; [exact HS0|]. by intros sv [_ ?].
Qed.
End valid.

Definition sample_listener (name type address : string) : Listener :=
  mkListener name type address "" "" "" 0 0 no_tls ∅ false None [] [] [] [].
Definition sample_config : Config :=
  mkConfig (mkAdmin "" false no_tls [])
    [sample_listener "web" "http" ":8080"; sample_listener "alt" "http" "127.0.0.1:8081"]
    [] [sample_route_config "api" "/api"; sample_route_config "root" "/"] "".
Definition sample_url (s : string) : option parsedURL := Some (mkParsed "http" "h" "h" "").

Lemma validated_references_witness : NoDup (map rc_Name (cf_Routes sample_config)).
Proof.
  apply (validated_references sample_url (λ _, None) (λ _, None) sample_config). vm_compute. reflexivity.
Defined.

(** ** Listener addresses do not conflict *)
Section addresses.
  Context (url_Parse : string → option parsedURL) (parseDur : string → option Z).
  Context (ParseIP : string → option (string * bool)).
  Notation vListener := (validateListener url_Parse parseDur ParseIP).
  Notation vListeners := (validateListeners url_Parse parseDur ParseIP).

(** The host and port a network listener binds, normalised. *)
Definition bound (l : Listener) : option (string * string) :=
  (validateNetworkAddress ParseIP "address" (ln_Address l)).2.

Lemma bound_any_path path l : (validateNetworkAddress ParseIP path (ln_Address l)).2 = bound l.
Proof. unfold bound, validateNetworkAddress. by repeat case_match. Qed.

(** The key under which the validator remembers a listener's address. *)
Definition address_key (l : Listener) : option string :=
  if String.eqb (ln_Address l) "" then None
  else if String.eqb (listenerNetwork (ln_Type l)) "unix" then Some ("unix|" +:+ ln_Address l)
  else match bound l with
       | Some (host, port) => if String.eqb port "0" then None
                              else Some (network_key (listenerNetwork (ln_Type l)) host port)
       | None => None
       end.

Lemma append_name_keys key name m k : k ∈ map fst (append_name key name m) ↔ k = key ∨ k ∈ map fst m.
Proof.
  induction m as [|[k' ns] m IH]; simpl; [set_solver|].
  destruct (String.eqb_spec k' key) as [->|]; simpl; [set_solver|]. rewrite !elem_of_cons, IH. naive_solver.
Qed.

Lemma table_key {A} k (m : list (string * A)) : k ∈ map fst m → ∃ v, table k m = Some v.
Proof.
  induction m as [|[k' v] m IH]; simpl; [by intros ?%not_elem_of_nil|].
  destruct (String.eqb_spec k' k); [eauto|]. intros [->|]%elem_of_cons; [done|auto].
Qed.

Lemma Split3_key network host port :
  contains_byte "|" network = false → contains_byte "|" host = false →
  SplitN3 "|" (network_key network host port) = [network; host; port].
Proof.
  intros Hn Hh. unfold network_key, SplitN3, SplitN2, Cut.
  change (network +:+ "|" +:+ host +:+ "|" +:+ port) with (network +:+ String "|" (host +:+ String "|" port)).
  rewrite index_byte_app, take_length_app, drop_S_app by done. rewrite index_byte_app, take_length_app, drop_S_app by done.
  done.
Qed.

(** The key of an accepted listener is remembered and clashes with none before. *)
Lemma listener_address i l s :
  (vListener i l s).1 = [] →
  (∀ k, k ∈ map fst (sn_addrs (vListener i l s).2) ↔ Some k = address_key l ∨ k ∈ map fst (sn_addrs s)) ∧
  (listenerNetwork (ln_Type l) = "unix" → ∀ k, address_key l = Some k → k ∉ map fst (sn_addrs s)) ∧
  (listenerNetwork (ln_Type l) ≠ "unix" → ∀ host port host', bound l = Some (host, port) → port ≠ "0" →
     contains_byte "|" host' = false →
     network_key (listenerNetwork (ln_Type l)) host' port ∈ map fst (sn_addrs s) → hostsConflict host host' = false).
Proof.
  unfold validateListener. destruct (validateListenerAddress ParseIP (indexed "listeners" i) l (sn_addrs s)) as [pa addrs] eqn:Ha.
  simpl. intros H. apply app_nil in H as [_ H]. apply app_nil in H as [_ H]. apply app_nil in H as [-> _].
  unfold validateListenerAddress, address_key in *. simpl.
  destruct (String.eqb_spec (ln_Address l) "") as [He|He]; [discriminate Ha|].
  destruct (String.eqb_spec (listenerNetwork (ln_Type l)) "unix") as [Hu|Hu].
  - rewrite Hu in *. change ("unix" +:+ "|" +:+ ln_Address l) with ("unix|" +:+ ln_Address l) in Ha.
    destruct (table ("unix|" +:+ ln_Address l) (sn_addrs s)) eqn:Ht; [discriminate Ha|]. injection Ha as <-.
    split; [|split; [|done]].
    + intros k. rewrite map_app, elem_of_app. simpl. rewrite list_elem_of_singleton. naive_solver.
    + intros _ k Hk [v Hv]%table_key. assert (k = "unix|" +:+ ln_Address l) as -> by (by injection Hk).
      rewrite Ht in Hv. discriminate Hv.
  - pose proof (bound_any_path (indexed "listeners" i +:+ ".address") l) as Hb.
    destruct (validateNetworkAddress ParseIP (indexed "listeners" i +:+ ".address") (ln_Address l)) as [ps [[host port]|]];
      simpl in Hb; rewrite <- Hb.
    2: { injection Ha as _ <-. split; [naive_solver|]. split; [done|]. done. }
    destruct (String.eqb_spec port "0") as [Hp0|Hp]; injection Ha as Hps' <-.
    + split; [naive_solver|]. split; [done|]. by intros _ h p h' [= <- <-].
    + apply app_nil in Hps' as [_ Hw%when_nil]. split; [|split; [done|]].
      * intros k. rewrite append_name_keys. naive_solver.
      * intros _ h p h' [= <- <-] _ Hh' [j Hj]%list_elem_of_lookup.
        rewrite list_lookup_fmap in Hj. destruct (sn_addrs s !! j) as [[k ns]|] eqn:Hk; [|done]. simpl in Hj.
        injection Hj as ->. apply not_true_iff_false in Hw. destruct (hostsConflict host h') eqn:Hc; [|done].
        destruct Hw. apply existsb_exists. eexists. split; [apply list_elem_of_In, list_elem_of_lookup; eauto|].
        unfold conflicts. simpl fst. rewrite Split3_key; [|by unfold listenerNetwork; repeat case_match|done].
        by rewrite !String.eqb_refl, Hc.
Qed.

Lemma listeners_addresses i ls s :
  (vListeners i ls s).1 = [] →
  (∀ a l, ls !! a = Some l → listenerNetwork (ln_Type l) ≠ "unix" → ∀ host port host',
     bound l = Some (host, port) → port ≠ "0" → contains_byte "|" host' = false →
     network_key (listenerNetwork (ln_Type l)) host' port ∈ map fst (sn_addrs s) ∨
     (∃ b l', (b < a)%nat ∧ ls !! b = Some l' ∧
              address_key l' = Some (network_key (listenerNetwork (ln_Type l)) host' port)) →
     hostsConflict host host' = false).
Proof.
  revert i s; induction ls as [|l0 ls IH]; intros i s; simpl; [done|].
  pose proof (listener_address i l0 s) as Hl0. destruct (vListener i l0 s) as [p1 s1] eqn:H1.
  destruct (vListeners (S i) ls s1) as [p2 s2] eqn:H2. simpl. intros [-> ->]%app_nil.
  destruct (Hl0 eq_refl) as (Hkeys & _ & Hconf). simpl in *. specialize (IH (S i) s1). rewrite H2 in IH.
  intros [|a] l Ha Hu host port host' Hb Hp Hh Hor; simplify_eq/=.
  - destruct Hor as [Hin|(b & l' & Hlt & _)]; [by eapply Hconf|lia].
  - apply (IH eq_refl a l Ha Hu host port host' Hb Hp Hh).
    destruct Hor as [Hin|([|b] & l' & Hlt & Hl' & Hk)]; simplify_eq/=.
    + left. apply Hkeys. by right.
    + left. apply Hkeys. by left.
    + right. exists b, l'. split; [lia|done].
Qed.

(** In a validated configuration no two listeners of the same network bind
    overlapping addresses on a fixed port: their normalised hosts differ and
    neither is the wildcard (hosts are assumed to contain no vertical bar, the
    separator of the validator's keys). *)
Theorem validated_addresses (cfg : Config) (i j : nat) (li lj : Listener) (hi hj port : string) :
  Validate url_Parse parseDur ParseIP (Some cfg) = Ok tt → (i < j)%nat →
  cf_Listeners cfg !! i = Some li → cf_Listeners cfg !! j = Some lj →
  listenerNetwork (ln_Type li) = listenerNetwork (ln_Type lj) → listenerNetwork (ln_Type lj) ≠ "unix" →
  bound li = Some (hi, port) → bound lj = Some (hj, port) → port ≠ "0" → contains_byte "|" hi = false →
  hj ≠ hi ∧ hj ≠ "*" ∧ hi ≠ "*".
Proof.
  unfold Validate, problems_of. intros Hv Hij Hi Hj Hn Hu Hbi Hbj Hp Hbar.
  pose proof (listeners_addresses 0 (cf_Listeners cfg) (mkSeen [] [])) as HL.
  destruct (vListeners 0 (cf_Listeners cfg) (mkSeen [] [])) as [p1 s].
  destruct (validateServices url_Parse parseDur 0 (cf_Services cfg) []) as [p2 services].
  destruct (p1 ++ p2 ++ _) eqn:Hps; [|done]. apply app_nil in Hps as [-> _].
  assert (hostsConflict hj hi = false) as Hc.
  { apply (HL eq_refl j lj Hj Hu hj port hi Hbj Hp Hbar). right. exists i, li. split; [done|]. split; [done|].
    unfold address_key. rewrite Hbi, <- Hn. rewrite <- Hn in Hu.
    assert (ln_Address li ≠ "") as Hne by (intros He; unfold bound in Hbi; rewrite He in Hbi; discriminate Hbi).
    by rewrite (proj2 (String.eqb_neq _ _) Hne), (proj2 (String.eqb_neq _ _) Hu), (proj2 (String.eqb_neq _ _) Hp). }
  unfold hostsConflict in Hc. apply orb_false_iff in Hc as [[H1 H2]%orb_false_iff H3].
  repeat split; by apply String.eqb_neq.
Qed.
End addresses.

Lemma validated_addresses_witness : "127.0.0.1" ≠ "10.0.0.1" ∧ "127.0.0.1" ≠ "*" ∧ "10.0.0.1" ≠ "*".
Proof.
  apply (validated_addresses sample_url (λ _, None) (λ _, None)
    (mkConfig (mkAdmin "" false no_tls [])
       [sample_listener "a" "http" "10.0.0.1:80"; sample_listener "b" "http" "127.0.0.1:80"] [] [] "")
    0 1 (sample_listener "a" "http" "10.0.0.1:80") (sample_listener "b" "http" "127.0.0.1:80")
    "10.0.0.1" "127.0.0.1" "80"); try reflexivity; try discriminate; lia.
Defined.
