(* ===== verification/Builder.v ===== *)
(** * From configuration to running objects

    Models [pkg/server/builder.go].  A built middleware is a [mwSpec]: which
    builtin of [pkg/routing] is installed, with which arguments ([Middleware],
    [Auth] and [RateLimiter] give their behaviour).  What the builder asks of the
    outside world (durations, URLs, key files, provider keys, dynamic code and
    OpenAPI files) is the record [externals]. *)

From S2P Require Import Prelude GoStd GoHttp Parser Backend Transport Selector Routing Config Validate.
Open Scope Z_scope.

Record externals : Type := mkExternals {
  x_ParseDuration : string → option Z;
  x_GetJWKSPEM : string → result string (list string);
  x_dynamicRequest : string → result string unit;
  x_dynamicResponse : string → result string unit;
  x_openAPI : string → result string unit;
  x_tlsError : BackendTLS → option string;
  x_backendHost : string → result string string;            (* [url.Parse] in [backend.New]: the host *)
  x_proxyParse : string → option string;
}.

(** ** Middleware *)
Inductive mwSpec : Type :=
  | MAddPrefix (prefix : string)
  | MIPWhitelist (cidrs : list string)
  | MDelay (d : Z)
  | MAddRequestHeaders (hs : list (string * string))
  | MSetRequestHeader (hs : list (string * string))
  | MModifyRequestHeaders (hs : list (string * string))
  | MRemoveRequestHeaders (names : list string)
  | MCorrelationID (uuidtype : string)
  | MTracing | MCORS | MLogging
  | MRateLimit (maxRequests window : Z) (extensions : list string)
  | MBasicAuth (realm : string) (users : list (string * string))
  | MTokenAuth (realm : string) (tokens : list string) (hdr prefix : string)
  | MOpenID (issuer audience hdr prefix algorithm : string) (keys : list string) (removeHeader : bool)
  | MDigestAuth (realm : string) (users : list (string * string)) (timeout : Z)
  | MSecure (path key redirect : string) (ttl : Z)
  | MDynamic (source : string)
  | MOpenAPI (file : string).

Inductive respSpec : Type :=
  | RAdd (hs : list (string * string)) | RSet (hs : list (string * string)) | RModify (hs : list (string * string))
  | RRemove (names : list string) | RLocationPrefix (prefix : string) | RLocationHost (host : string)
  | RDynamic (source : string) | RAffinity (hdr : string).

Definition parseDurationOrDefault (parse : string → option Z) (value : string) (fallback : Z) : Z :=
  if String.eqb value "" then fallback
  else match parse value with
       | Some d => if d <=? 0 then fallback else d
       | None => fallback
       end.

Section build.
  Context (x : externals).

(** [if v, err := ...; err == nil && len(v) > 0 { append(f v) }] *)
Definition if_some {A B} (r : result string (list A)) (f : list A → B) : list B :=
  match r with Ok (a :: l) => [f (a :: l)] | _ => [] end.
Definition if_text {B} (s : string) (f : string → B) : list B := if String.eqb s "" then [] else [f s].

Definition build_response (mc : MiddlewareConfig) : result string (list respSpec) :=
  let c := mc_Config mc in
  if negb (IsResponseMiddleware (mc_Name mc)) then
    if IsKnownMiddleware (mc_Name mc) then Ok [] else Err "unknown response middleware"
  else
    let n := ToLower (mc_Name mc) in
    if String.eqb n "add_response_headers" then Ok (if_some (ParseStringMap c "headers") RAdd)
    else if String.eqb n "set_response_headers" then Ok (if_some (ParseStringMap c "headers") RSet)
    else if String.eqb n "modify_response_headers" then Ok (if_some (ParseStringMap c "headers") RModify)
    else if String.eqb n "remove_response_headers" then Ok (if_some (ParseStringSlice c "headers") RRemove)
    else if one_of n ["add_location_prefix"; "add_response_location_prefix"] then
      Ok (if_text (ParseStringOrDefault c "prefix" "") RLocationPrefix)
    else if one_of n ["set_location_host"; "replace_location_host"; "set_response_location_host"] then
      Ok (if_text (ParseStringOrDefault c "host" "") RLocationHost)
    else if one_of n ["dynamic_response"; "response_dynamic"] then
      let source := ParseStringOrDefault c "code" "" in
      match x_dynamicResponse x source with Err e => Err ("dynamic response middleware: " +:+ e) | Ok _ => Ok [RDynamic source] end
    else if String.eqb n "response_affinity" then
      let hdr := ParseStringOrDefault c "header" "X-Gorp-Backend-Affinity" in
      Ok [RAffinity (if String.eqb hdr "" then "X-Gorp-Backend-Affinity" else hdr)]
    else Err "unknown response middleware".

Fixpoint build_all {A} (f : MiddlewareConfig → result string (list A)) (mcs : list MiddlewareConfig)
  : result string (list A) :=
  match mcs with
  | [] => Ok []
  | mc :: mcs' =>
      match f mc with
      | Err e => Err e
      | Ok l => match build_all f mcs' with Err e => Err e | Ok ls => Ok (l ++ ls) end
      end
  end.

Definition buildMiddlewareForResponse (mcs : list MiddlewareConfig) : result string (list respSpec) :=
  build_all build_response mcs.

Definition build_rate (c : config_map) : mwSpec :=
  let maxReqs := ParseInt c "max_requests" 100 in
  let window := match ParseDuration (x_ParseDuration x) c "window" (60 * second) with Ok v => v | Err _ => 60 * second end in
  MRateLimit maxReqs window (match ParseStringSlice c "extensions" with Ok l => l | Err _ => [] end).

Definition build_openid (c : config_map) : result string (list mwSpec) :=
  let issuer := ParseStringOrDefault c "issuer" "" in
  let make keys := Ok [MOpenID issuer (ParseStringOrDefault c "audience" "") (ParseStringOrDefault c "header" "Authorization")
                         (ParseStringOrDefault c "prefix" "Bearer ") (ParseStringOrDefault c "algorithm" "RS256") keys
                         (ParseBool c "remove_header" false)] in
  match ParseStringSlice c "keys" with
  | Ok (k :: ks) => make (k :: ks)
  | _ => match x_GetJWKSPEM x issuer with
         | Err e => Err ("auth_openid requires a non-empty key list, " +:+ e)
         | Ok keys => make keys
         end
  end.

Definition build_request (mc : MiddlewareConfig) : result string (list mwSpec) :=
  let c := mc_Config mc in
  let n := ToLower (mc_Name mc) in
  if one_of n ["add_prefix"; "addprefix"] then Ok (if_text (ParseStringOrDefault c "prefix" "") MAddPrefix)
  else if one_of n ["ip_allow_list"; "ipallowlist"; "ip_white_list"; "ipwhitelist"] then
    Ok (if_some (ParseStringSlice c "sources") MIPWhitelist)
  else if String.eqb n "delay" then
    Ok (match ParseDuration (x_ParseDuration x) c "duration" 0 with Ok d => if 0 <? d then [MDelay d] else [] | Err _ => [] end)
  else if String.eqb n "add_request_headers" then Ok (if_some (ParseStringMap c "headers") MAddRequestHeaders)
  else if String.eqb n "set_request_headers" then Ok (if_some (ParseStringMap c "headers") MSetRequestHeader)
  else if String.eqb n "modify_request_headers" then Ok (if_some (ParseStringMap c "headers") MModifyRequestHeaders)
  else if String.eqb n "remove_request_headers" then Ok (if_some (ParseStringSlice c "headers") MRemoveRequestHeaders)
  else if String.eqb n "correlation_id" then Ok [MCorrelationID (ParseStringOrDefault c "type" "")]
  else if one_of n ["distributed_tracing"; "tracing"; "trace_context"] then Ok [MTracing]
  else if String.eqb n "cors" then Ok [MCORS]
  else if one_of n ["log"; "logger"; "logging"] then Ok [MLogging]
  else if one_of n ["rate"; "rate_limit"; "rate_limiter"] then Ok [build_rate c]
  else if one_of n ["basic_auth"; "auth_basic"] then
    match ParseStringMap c "users" with
    | Ok (u :: us) => Ok [MBasicAuth (ParseStringOrDefault c "realm" "Restricted") (u :: us)]
    | _ => Err "basic_auth requires a non-empty users map"
    end
  else if one_of n ["token_auth"; "auth_token"] then
    match ParseStringSlice c "tokens" with
    | Ok (t :: ts) => Ok [MTokenAuth (ParseStringOrDefault c "realm" "Restricted") (t :: ts)
                            (ParseStringOrDefault c "header" "Authorization") (ParseStringOrDefault c "prefix" "Bearer ")]
    | _ => Err "token_auth requires a non-empty tokens list"
    end
  else if one_of n ["auth_openid"; "openid_auth"; "auth_oidc"; "oidc_auth"] then build_openid c
  else if one_of n ["digest_auth"; "auth_digest"] then
    match ParseStringMap c "users" with
    | Ok (u :: us) =>
        let timeout := match ParseDuration (x_ParseDuration x) c "nonce_timeout" (5 * 60 * second) with Ok d => d | Err _ => 0 end in
        Ok [MDigestAuth (ParseStringOrDefault c "realm" "Restricted") (u :: us) timeout]
    | _ => Err "digest_auth requires a non-empty users map"
    end
  else if one_of n ["secure_access"; "secureaccess"; "access_secure"] then
    let path := ParseStringOrDefault c "path" "" in
    if String.eqb path "" then Err "secure_access requires a non-empty path"
    else
      let duration := match ParseDuration (x_ParseDuration x) c "duration" (15 * 60 * second) with
                      | Ok d => d | Err _ => 15 * 60 * second end in
      Ok [MSecure path (ParseStringOrDefault c "key" "this-is-a-very-secure-key") (ParseStringOrDefault c "redirect" "/") duration]
  else if one_of n ["dynamic_request"; "request_dynamic"] then
    let source := ParseStringOrDefault c "code" "" in
    match x_dynamicRequest x source with Err e => Err ("dynamic request middleware: " +:+ e) | Ok _ => Ok [MDynamic source] end
  else if one_of n ["openapi"; "openapi_validate"; "openapi_validation"] then
    let file := ParseStringOrDefault c "file" "" in
    match x_openAPI x file with Err e => Err ("openapi middleware: " +:+ e) | Ok _ => Ok [MOpenAPI file] end
  else if one_of n responseMiddlewares then Ok []
  else Err "unknown middleware".

Definition buildMiddlewareForRoute (mcs : list MiddlewareConfig) : result string (list mwSpec) :=
  build_all build_request mcs.
Definition buildMiddlewareForListener (mcs : list MiddlewareConfig) : result string (list mwSpec) :=
  buildMiddlewareForRoute mcs.

(** ** Backends and routes *)
Definition durationOr (value : string) (fallback : Z) : Z :=
  if String.eqb value "" then fallback
  else match x_ParseDuration x value with Some d => d | None => fallback end.

Definition transportConfig (b : BackendConfig) : TransportConfig :=
  let baseTimeout := durationOr (bc_Timeout b) (30 * second) in
  mkTC baseTimeout (durationOr (bc_ConnectTimeout b) baseTimeout) (durationOr (bc_HeadersTimeout b) baseTimeout)
    (durationOr (bc_IdleTimeout b) (90 * second)) (bc_Retries b)
    (parseDurationOrDefault (x_ParseDuration x) (bc_RetryBackoff b) (second / 10)) (bc_Compression b)
    (match bc_Auth b with
     | Some a => Some (mkAuth (ba_Type a) (ba_Username a) (ba_Password a) (ba_Token a) (ba_Header a) (ba_Prefix a)
                         (ba_AccessKeyID a) (ba_SecretAccessKey a) (ba_Region a) (ba_Service a))
     | None => None
     end)
    (match bc_Proxy b with
     | Some p => if String.eqb (bp_URL p) "" then None else Some (mkProxyConfig (bp_URL p) (bp_Username p) (bp_Password p))
     | None => None
     end).

(** A response modifier of a backend: affinity carries the backend's index. *)
Inductive builtModifier : Type := Affinity (hdr : string) (index : nat) | Plain (r : respSpec).

Record builtBackend : Type := mkBuilt {
  bb_backend : Backend;                    (* the state the selectors and handlers work on *)
  bb_transport : transport;
  bb_connectTimeout : Z; bb_headersTimeout : Z; bb_idleTimeout : Z;
  bb_checkInterval : Z; bb_checkTimeout : Z;
  bb_modifiers : list builtModifier;
}.

Definition build_modifier (index : nat) (r : respSpec) : builtModifier :=
  match r with RAffinity hdr => Affinity hdr index | _ => Plain r end.

Definition set_check (path : string) (b : Backend) : Backend :=
  mkBackend (Name b) (URLHost b) (MaxConnections b) path (ActiveConnections b) (Healthy b) (retryAfter b)
            (failureCount b) (breakerState b).

Definition buildBackend (resp : list respSpec) (index : nat) (b : BackendConfig) : result string builtBackend :=
  let cfg := transportConfig b in
  match NewTransport (x_tlsError x (bc_TLS b)) (x_proxyParse x) cfg with
  | Err e => Err ("backend " +:+ bc_Name b +:+ ": " +:+ e)
  | Ok tr =>
      match x_backendHost x (bc_URL b) with
      | Err e => Err e
      | Ok host =>
          let be := newBackend (bc_Name b) (Some host) in
          let '(be, interval, timeout) :=
            match bc_HealthCheck b with
            | Some h =>
                let path := if String.eqb (hc_Path h) "" then "/health" else hc_Path h in
                (set_healthy false (set_check path be),
                 parseDurationOrDefault (x_ParseDuration x) (hc_Interval h) (10 * second),
                 parseDurationOrDefault (x_ParseDuration x) (hc_Timeout h) (2 * second))
            | None => (be, 0, 0)
            end in
          Ok (mkBuilt be tr (tc_ConnectTimeout cfg) (tc_HeadersTimeout cfg) (tc_IdleTimeout cfg) interval timeout
                (map (build_modifier index) resp))
      end
  end.

Fixpoint buildBackends (resp : list respSpec) (index : nat) (bs : list BackendConfig) : result string (list builtBackend) :=
  match bs with
  | [] => Ok []
  | b :: bs' =>
      match buildBackend resp index b with
      | Err e => Err e
      | Ok be => match buildBackends resp (S index) bs' with Err e => Err e | Ok bes => Ok (be :: bes) end
      end
  end.

Record builtRoute : Type := mkBuiltRoute {
  br_Name : string; br_Prefix : string; br_StripPrefix : bool; br_Hosts : list string; br_Paths : list string;
  br_Endpoints : list string; br_Selector : Selector; br_Backends : list builtBackend; br_Middleware : list mwSpec;
}.

(** [servicesByName] *)
Definition servicesByName (svs : list ServiceConfig) : gmap string (list BackendConfig) :=
  foldl (λ m sv, <[sv_Name sv := sv_Backends sv]> m) ∅ svs.

Definition backendsConfig (services : gmap string (list BackendConfig)) (r : RouteConfig) : list BackendConfig :=
  if is_nil (rc_Backends r) && negb (String.eqb (rc_Service r) "")
  then default [] (services !! rc_Service r) else rc_Backends r.

Definition buildRoute (services : gmap string (list BackendConfig)) (r : RouteConfig) : result string builtRoute :=
  match buildMiddlewareForResponse (rc_Middlewares r) with
  | Err e => Err ("route " +:+ rc_Name r +:+ ": " +:+ e)
  | Ok resp =>
      match backendsConfig services r with
      | [] => Err ("route " +:+ rc_Name r +:+ ": no backends configured and no service found")
      | bs =>
          match buildBackends resp 0 bs with
          | Err e => Err e
          | Ok bes =>
              match buildMiddlewareForRoute (rc_Middlewares r) with
              | Err e => Err ("route " +:+ rc_Name r +:+ ": " +:+ e)
              | Ok mws =>
                  Ok (mkBuiltRoute (rc_Name r) (rc_Prefix r) (rc_StripPrefix r) (rc_Hosts r) (rc_Paths r)
                        (rc_Endpoints r) (New (rc_Selector r) (length bes)) bes mws)
              end
          end
      end
  end.

Fixpoint build_routes (services : gmap string (list BackendConfig)) (rs : list RouteConfig)
  : result string (list builtRoute) :=
  match rs with
  | [] => Ok []
  | r :: rs' =>
      match buildRoute services r with
      | Err e => Err e
      | Ok br => match build_routes services rs' with Err e => Err e | Ok brs => Ok (br :: brs) end
      end
  end.

Definition checked (b : builtBackend) : bool := negb (String.eqb (HealthCheckPath (bb_backend b)) "").

(** The routes, the backends with active health checks, and all backends. *)
Definition buildRoutesWithHealthChecks (cfg : option Config)
  : result string (list builtRoute * list builtBackend * list builtBackend) :=
  match cfg with
  | None => Err "no configuration"
  | Some c =>
      match build_routes (servicesByName (cf_Services c)) (cf_Routes c) with
      | Err e => Err e
      | Ok brs => let all := concat (map br_Backends brs) in Ok (brs, List.filter checked all, all)
      end
  end.

(** [Build] *)
Record builtServer : Type := mkServer {
  bs_config : Config; bs_routes : list builtRoute; bs_directory : string;
  bs_healthCheckBackends : list builtBackend; bs_backends : list builtBackend;
}.

Inductive buildErr : Type := InvalidConfig (ps : list problem) | BuildFailed (e : string).

Definition Build (url_Parse : string → option parsedURL) (ParseIP : string → option (string * bool)) (cfg : Config)
  : result buildErr builtServer :=
  match Validate url_Parse (x_ParseDuration x) ParseIP (Some cfg) with
  | Err ps => Err (InvalidConfig ps)
  | Ok _ =>
      match buildRoutesWithHealthChecks (Some cfg) with
      | Err e => Err (BuildFailed e)
      | Ok (brs, checks, all) => Ok (mkServer cfg brs (cf_Directory cfg) checks all)
      end
  end.
End build.

(** ** The state the server starts in *)
Section built.
  Context (x : externals) (url_Parse : string → option parsedURL) (ParseIP : string → option (string * bool)).

Lemma buildBackend_configured resp i b bb :
  buildBackend x resp i b = Ok bb → configured (bb_backend bb) ∧ MaxConnections (bb_backend bb) = 0.
Proof.
  unfold buildBackend. destruct (NewTransport _ _ _); [|done]. destruct (x_backendHost x _) as [host|]; [|done].
  destruct (bc_HealthCheck b) as [h|]; intros [= <-]; simpl; unfold configured, MaxInt64; simpl; repeat split; try lia.
  destruct (String.eqb_spec (hc_Path h) "") as [|Hp]; [done|]. symmetry. by apply String.eqb_neq.
Qed.

Lemma buildBackends_configured resp i bs bbs :
  buildBackends x resp i bs = Ok bbs →
  Forall (λ bb, configured (bb_backend bb) ∧ MaxConnections (bb_backend bb) = 0) bbs ∧ length bbs = length bs.
Proof.
  revert i bbs; induction bs as [|b bs IH]; intros i bbs; simpl; [by intros [= <-]|].
  destruct (buildBackend x resp i b) as [bb|] eqn:Hb; [|done].
  destruct (buildBackends x resp (S i) bs) as [bbs'|] eqn:Hbs; [|done]. intros [= <-].
  destruct (IH _ _ Hbs) as [H1 H2]. split; [constructor; [by eapply buildBackend_configured|done]|simpl; lia].
Qed.

Definition built_ok (br : builtRoute) : Prop :=
  Forall (λ bb, configured (bb_backend bb) ∧ MaxConnections (bb_backend bb) = 0) (br_Backends br) ∧
  br_Backends br ≠ [] ∧ ∃ c, br_Selector br = New c (length (br_Backends br)).

Lemma buildRoute_ok services r br : buildRoute x services r = Ok br → built_ok br.
Proof.
  unfold buildRoute. destruct (buildMiddlewareForResponse x _) as [resp|]; [|done].
  destruct (backendsConfig services r) as [|b bs]; [done|].
  destruct (buildBackends x resp 0 (b :: bs)) as [bbs|] eqn:Hb; [|done].
  destruct (buildMiddlewareForRoute x _); [|done]. intros [= <-].
  destruct (buildBackends_configured _ _ _ _ Hb) as [H1 H2]. split; [done|]. split; [|simpl; eauto].
  intros He. simpl in He. subst bbs. done.
Qed.

Lemma build_routes_ok services rs brs : build_routes x services rs = Ok brs → Forall built_ok brs.
Proof.
  revert brs; induction rs as [|r rs IH]; intros brs; simpl; [by intros [= <-]|].
  destruct (buildRoute x services r) as [br|] eqn:Hr; [|done].
  destruct (build_routes x services rs) as [brs'|]; [|done]. intros [= <-].
  constructor; [by eapply buildRoute_ok|auto].
Qed.

(** The states of the routes when the server starts. *)
Definition initial_routes (srv : builtServer) : list routeState :=
  map (λ br, mkRouteState (br_Selector br) (map bb_backend (br_Backends br))) (bs_routes srv).

Lemma Build_routes cfg srv : Build x url_Parse ParseIP cfg = Ok srv → Forall built_ok (bs_routes srv).
Proof.
  unfold Build. destruct (Validate _ _ _ _); [|done]. simpl.
  destruct (build_routes x (servicesByName (cf_Services cfg)) (cf_Routes cfg)) as [brs|] eqn:Hb; [|done].
  intros [= <-]. simpl. by eapply build_routes_ok.
Qed.

Lemma built_initial_ok {X : Type} cfg srv (e : env) (s : X) :
  Build x url_Parse ParseIP cfg = Ok srv →
  world_ok (mkWorld (initial_routes srv) no_metrics (EmptyString, EmptyString) e s) ∧
  Forall (λ rs, rs_pool rs ≠ []) (initial_routes srv).
Proof.
  intros Hb%Build_routes. unfold world_ok, initial_routes. simpl. split; apply Forall_map;
    (eapply Forall_impl; [exact Hb|]); intros br (Hc & Hne & (c & Hs)); simpl.
  - split; simpl; rewrite ?length_map.
    + rewrite Hs. apply New_cursor.
    + apply Forall_map. eapply Forall_impl; [exact Hc|]. intros bb [Hbb _]. by apply configured_wf.
  - by destruct (br_Backends br).
Qed.

(** A server that was built starts in a state that satisfies the invariant
    of the request path: every backend is well formed, every selector points
    inside its pool, and no pool is empty. *)
Theorem built_server_invariant {X : Type} (cfg : Config) (srv : builtServer) (e : env) (s : X) :
  Build x url_Parse ParseIP cfg = Ok srv →
  world_ok (mkWorld (initial_routes srv) no_metrics (EmptyString, EmptyString) e s) ∧
  Forall (λ rs, rs_pool rs ≠ []) (initial_routes srv).
Proof. apply built_initial_ok. Qed.

(** The connection limit of a backend is lost between the configuration
    and the backend.  Whatever [max_connections] says, every backend of a built
    server has no limit and never counts a connection, in any state it can
    reach: it accepts every connection, and the selectors that compare loads
    always compare zeros. *)
Theorem backend_limits_ignored (cfg : Config) (srv : builtServer) (br : builtRoute) (bb : builtBackend) (b : Backend) :
  Build x url_Parse ParseIP cfg = Ok srv → br ∈ bs_routes srv → bb ∈ br_Backends br → rtc bstep (bb_backend bb) b →
  MaxConnections b = 0 ∧ ActiveConnections b = 0 ∧ TryAcquire b = (true, b).
Proof.
  intros Hb%Build_routes Hbr Hbb Hstep. rewrite Forall_forall in Hb. destruct (Hb br Hbr) as [Hc _].
  rewrite Forall_forall in Hc. destruct (Hc bb Hbb) as [Hcb Hm].
  pose proof (bsteps_wf _ _ Hstep (configured_wf _ Hcb)) as Hwf. rewrite <- (bsteps_max _ _ Hstep) in Hm.
  destruct Hwf as [_ Ha _ _]. split; [done|]. split; [lia|]. unfold TryAcquire. by rewrite Hm.
Qed.
End built.

Definition sample_externals : externals :=
  mkExternals (λ _, Some second) (λ _, Err "offline") (λ _, Err "none") (λ _, Err "none") (λ _, Err "none") (λ _, None)
    (λ _, Ok "h") (λ u, Some u).

Definition limited_backend : BackendConfig :=
  mkBC "b" "http://h" "" "" "" "" 7 2 "" None false false (mkBT false "" "" "" "" "") None None.
Definition limited_config : Config :=
  mkConfig (mkAdmin "" false no_tls []) [sample_listener "web" "http" ":8080"] []
    [mkRC "root" "/" false false (mkSelectorConfig "" []) [] [] [] "" [limited_backend] []] "".

Definition build_sample (cfg : Config) : result buildErr builtServer :=
  Build sample_externals sample_url (λ _, None) cfg.

Lemma built_server_invariant_witness :
  ∃ srv, build_sample limited_config = Ok srv ∧
    world_ok (mkWorld (initial_routes srv) no_metrics (EmptyString, EmptyString) sample_env tt).
Proof.
  destruct (build_sample limited_config) as [srv|] eqn:E; [|vm_compute in E; discriminate E].
  exists srv. split; [reflexivity|].
  apply (built_server_invariant sample_externals sample_url (λ _, None) limited_config srv sample_env tt E).
Defined.

Lemma backend_limits_ignored_witness :
  ∃ srv br bb, build_sample limited_config = Ok srv ∧ br ∈ bs_routes srv ∧ bb ∈ br_Backends br ∧
    bc_MaxConnections limited_backend = 7 ∧ TryAcquire (bb_backend bb) = (true, bb_backend bb).
Proof.
  destruct (build_sample limited_config) as [[c [|br brs] d h a]|] eqn:E; [vm_compute in E; discriminate E| |vm_compute in E; discriminate E].
  destruct (br_Backends br) as [|bb bbs] eqn:Eb.
  { exfalso. vm_compute in E. injection E as <- <- <- <- <- <-. vm_compute in Eb. discriminate Eb. }
  exists (mkServer c (br :: brs) d h a), br, bb. split; [reflexivity|]. split; [by left|].
  split; [rewrite Eb; by left|]. split; [reflexivity|].
  apply (backend_limits_ignored sample_externals sample_url (λ _, None) limited_config _ br bb (bb_backend bb) E);
    [by left|rewrite Eb; by left|reflexivity].
Defined.
