(* ===== verification/Assembly.v ===== *)
(** * Validation, loading and building fit together

    Theorems that cross [pkg/config/validate.go], [pkg/config/loader.go],
    [pkg/server/builder.go] and [pkg/routing/router.go]: what the validator
    accepts the builder installs, a validated configuration builds, and the
    order the loader gives to the routes makes the router pick the longest
    prefix. *)

From stdpp Require Import sorting.
From S2P Require Import Prelude GoStd GoHttp Parser Backend Transport Selector Routing Config Validate Builder.
Open Scope Z_scope.

(** ** Fields that passed validation *)
Lemma lookup_any_elem k c v : lookup_any k c = Some v → ∃ i : nat, c !! i = Some (k, v).
Proof.
  induction c as [|[k' v'] c IH]; simpl; [done|]. destruct (String.eqb_spec k' k) as [->|].
  - intros [= ->]. by exists 0%nat.
  - intros [i Hi]%IH. by exists (S i).
Qed.

Lemma string_entries_total m :
  (∀ i k v, m !! i = Some (k, v) → is_string v = true) → ∃ r, string_entries m = Some r.
Proof.
  induction m as [|[k v] m IH]; intros H; simpl; [by eexists|].
  pose proof (H 0%nat k v eq_refl) as Hv. destruct v; try done.
  destruct IH as [r Hr]; [intros i; apply (H (S i))|]. rewrite Hr. by eexists.
Qed.

Lemma string_items_total l : (∀ i v, l !! i = Some v → is_string v = true) → ∃ r, string_items l = Some r.
Proof.
  induction l as [|v l IH]; intros H; simpl; [by eexists|].
  pose proof (H 0%nat v eq_refl) as Hv. destruct v; try done.
  destruct IH as [r Hr]; [intros i; apply (H (S i))|]. rewrite Hr. by eexists.
Qed.

(** The three shapes a field may be required to have. *)
Definition text_field (key : string) : bool := one_of key stringFields.
Definition map_field (name key : string) : bool :=
  negb (text_field key) &&
  (String.eqb key "users" ||
   (String.eqb key "headers" && negb (String.eqb name "remove_request_headers") &&
    negb (String.eqb name "remove_response_headers"))).
Definition list_field (name key : string) : bool :=
  negb (text_field key) && negb (map_field name key) &&
  one_of key ["sources"; "tokens"; "keys"; "extensions"; "headers"].

Section fields.
  Context (parseDur : string → option Z).
  Context (path : string) (m : MiddlewareConfig) (allow : bool).
  Notation name := (ToLower (mc_Name m)).
  Notation required := (default [] (table name requiredMiddlewareFields)).
  Context (Hvalid : validateMiddleware parseDur path m allow = []).

Record accepted : Prop := {
  acc_known : name ∈ map fst middlewareFields;
  acc_field : ∀ k v, lookup_any k (mc_Config m) = Some v → validateField name path k v = [];
  acc_required : ∀ k, k ∈ required → emptyValue (lookup_any k (mc_Config m)) = false;
  acc_duration : ∀ k v, k ∈ ["duration"; "window"; "nonce_timeout"] → lookup_any k (mc_Config m) = Some v →
    ∃ s, v = VString s ∧ validateDuration parseDur (path +:+ ".config." +:+ k) s true = [];
}.

Lemma table_known {A} k (t : list (string * A)) v : table k t = Some v → k ∈ map fst t.
Proof.
  induction t as [|[k' v'] t IH]; simpl; [done|]. destruct (String.eqb_spec k' k) as [->|]; [by left|]. right. auto.
Qed.

Lemma validated_accepted : accepted.
Proof.
  revert Hvalid. unfold validateMiddleware. destruct (table name middlewareFields) as [allowed|] eqn:Ht; [|done].
  intros H. apply app_nil in H as [_ H]. apply app_nil in H as [Hf H]. apply app_nil in H as [Hr H].
  do 2 apply app_nil in H as [_ H].
  pose proof (proj1 (each_nil _ _) Hr) as Hr2. pose proof (proj1 (each_nil _ _) Hf) as Hf2.
  pose proof (proj1 (each_nil _ _) H) as Hd. clear H Hf Hr.
  split.
  - by eapply table_known.
  - intros k v [i Hi]%lookup_any_elem. specialize (Hf2 i _ Hi). simpl in Hf2. by apply app_nil in Hf2 as [_ ?].
  - intros k [i Hi]%list_elem_of_lookup. specialize (Hr2 i _ Hi). by apply when_nil in Hr2.
  - intros k v [i Hi]%list_elem_of_lookup Hv. specialize (Hd i _ Hi). simpl in Hd. rewrite Hv in Hd.
    destruct v; try done. eauto.
Qed.

(** A required field of each shape is there, with the right type, and is not
    empty. *)
Lemma required_text k :
  text_field k = true → k ∈ required → ∃ s, ParseStringOrDefault (mc_Config m) k "" = s ∧ s ≠ "".
Proof.
  destruct validated_accepted as [_ Hf Hr _]. intros Ht Hk. specialize (Hr k Hk). unfold ParseStringOrDefault.
  destruct (lookup_any k (mc_Config m)) as [v|] eqn:Hv; [|done]. specialize (Hf k v Hv).
  unfold validateField in Hf. unfold text_field in Ht. rewrite Ht in Hf. apply when_nil in Hf.
  destruct v; try done. eexists. split; [done|]. intros ->. done.
Qed.

Lemma required_map k :
  map_field name k = true → k ∈ required → ∃ a l, ParseStringMap (mc_Config m) k = Ok (a :: l).
Proof.
  destruct validated_accepted as [_ Hf Hr _]. intros Ht Hk. specialize (Hr k Hk). unfold ParseStringMap.
  destruct (lookup_any k (mc_Config m)) as [v|] eqn:Hv; [|done]. specialize (Hf k v Hv).
  unfold validateField in Hf. unfold map_field, text_field in Ht. apply andb_true_iff in Ht as [Hn Hm].
  apply negb_true_iff in Hn. rewrite Hn, Hm in Hf. destruct v as [| | | | | | | |raw]; try done.
  destruct (string_entries_total raw) as [r Hs].
  { intros i k' v' Hi. pose proof (proj1 (each_nil _ _) Hf i _ Hi) as Hw%when_nil. by destruct (is_string v'). }
  rewrite Hs. pose proof (string_entries_length _ _ Hs) as Hl.
  destruct raw as [|v0 raw]; [done|]. destruct r as [|a l]; [done|]. eauto.
Qed.

Lemma list_field_items k v :
  list_field name k = true → lookup_any k (mc_Config m) = Some v →
  ∃ raw r, v = VList raw ∧ string_items raw = Some r.
Proof.
  destruct validated_accepted as [_ Hf _ _]. intros Ht Hv. specialize (Hf k v Hv).
  unfold validateField in Hf. unfold list_field, map_field, text_field in Ht.
  apply andb_true_iff in Ht as [Ht Hl]. apply andb_true_iff in Ht as [Hn Hm]. apply negb_true_iff in Hn, Hm.
  rewrite Hn in Hm. simpl in Hm. rewrite Hn, Hm, Hl in Hf. destruct v as [| | | | | | |raw|]; try done.
  destruct (string_items_total raw) as [r Hs]; [|eauto].
  intros i v' Hi. pose proof (proj1 (each_nil _ _) Hf i _ Hi) as Hw%when_nil. by destruct (is_string v').
Qed.

Lemma required_list k :
  list_field name k = true → k ∈ required → ∃ a l, ParseStringSlice (mc_Config m) k = Ok (a :: l).
Proof.
  destruct validated_accepted as [_ _ Hr _]. intros Ht Hk. specialize (Hr k Hk). unfold ParseStringSlice.
  destruct (lookup_any k (mc_Config m)) as [v|] eqn:Hv; [|done].
  destruct (list_field_items k v Ht Hv) as (raw & r & -> & Hs). rewrite Hs.
  pose proof (string_items_length _ _ Hs) as Hl. destruct raw as [|v0 raw]; [done|]. destruct r as [|a l]; [done|]. eauto.
Qed.

Lemma required_duration k :
  k ∈ ["duration"; "window"; "nonce_timeout"] → k ∈ required →
  ∃ d, ParseDuration parseDur (mc_Config m) k 0 = Ok d ∧ 0 < d.
Proof.
  destruct validated_accepted as [_ _ Hr Hd]. intros Ht Hk. specialize (Hr k Hk). unfold ParseDuration.
  destruct (lookup_any k (mc_Config m)) as [v|] eqn:Hv; [|done].
  destruct (Hd k v Ht Hv) as (s & -> & Hs). unfold validateDuration in Hs. simpl in Hr. rewrite Hr in Hs.
  destruct (parseDur s) as [d|]; [|done]. apply when_nil in Hs. exists d. split; [done|].
  apply orb_false_iff in Hs as [H1%Z.ltb_ge H2]. simpl in H2. apply Z.eqb_neq in H2. lia.
Qed.
End fields.

(** ** What is validated is installed *)

(** A fact about every name of a group holds of a name in it. *)
Lemma one_of_all n l (P : string → bool) : one_of n l = true → forallb P l = true → P n = true.
Proof. intros H%one_of_In Hl. rewrite forallb_forall in Hl. apply Hl. by apply list_elem_of_In. Qed.

Lemma eqb_one_of n s : String.eqb n s = true → one_of n [s] = true.
Proof. intros ->%String.eqb_eq. apply one_of_In. by left. Qed.

(** [by_name H] proves a closed fact about the middleware name from the group
    [H] says it belongs to. *)
Ltac by_name H :=
  try apply eqb_one_of in H;
  match goal with
  | |- map_field ?n ?k = true => apply (one_of_all n _ (λ y, map_field y k) H)
  | |- list_field ?n ?k = true => apply (one_of_all n _ (λ y, list_field y k) H)
  | |- ?k ∈ default [] (table ?n _) =>
      apply one_of_In, (one_of_all n _ (λ y, one_of k (default [] (table y requiredMiddlewareFields))) H)
  end; reflexivity.

Ltac next_branch Hn :=
  match goal with |- context [if ?c then _ else _] => destruct c eqn:Hn end.

(** [every_name H]: each name of the list in [H] contradicts a test that failed. *)
Ltac every_name H :=
  repeat (apply elem_of_cons in H as [H|H];
    [subst; repeat match goal with Hf : _ = false |- _ => vm_compute in Hf; first [discriminate Hf | clear Hf] end|]);
  by apply not_elem_of_nil in H.

(** The resources an entry names load: the keys of the provider, when there are no
    keys in the configuration; the code of a dynamic middleware; the OpenAPI
    contract. *)
Definition openid_names : list string := ["auth_openid"; "openid_auth"; "auth_oidc"; "oidc_auth"].
Definition openapi_names : list string := ["openapi"; "openapi_validate"; "openapi_validation"].
Definition dynamic_request_names : list string := ["dynamic_request"; "request_dynamic"].
Definition dynamic_response_names : list string := ["dynamic_response"; "response_dynamic"].

Definition keys_load (x : externals) (c : config_map) : bool :=
  match ParseStringSlice c "keys" with
  | Ok (_ :: _) => true
  | _ => is_ok (x_GetJWKSPEM x (ParseStringOrDefault c "issuer" ""))
  end.

Record loads (x : externals) (m : MiddlewareConfig) : Prop := {
  load_keys : one_of (ToLower (mc_Name m)) openid_names = true → keys_load x (mc_Config m) = true;
  load_request : one_of (ToLower (mc_Name m)) dynamic_request_names = true →
    is_ok (x_dynamicRequest x (ParseStringOrDefault (mc_Config m) "code" "")) = true;
  load_response : one_of (ToLower (mc_Name m)) dynamic_response_names = true →
    is_ok (x_dynamicResponse x (ParseStringOrDefault (mc_Config m) "code" "")) = true;
  load_openapi : one_of (ToLower (mc_Name m)) openapi_names = true →
    is_ok (x_openAPI x (ParseStringOrDefault (mc_Config m) "file" "")) = true;
}.

Section installed.
  Context (x : externals) (path : string) (m : MiddlewareConfig) (allow : bool).
  Context (Hload : loads x m).
  Context (Hvalid : validateMiddleware (x_ParseDuration x) path m allow = []).
  Notation name := (ToLower (mc_Name m)).

Let rtext := required_text _ path m allow Hvalid.
Let rmap := required_map _ path m allow Hvalid.
Let rlist := required_list _ path m allow Hvalid.
Let rduration := required_duration _ path m allow Hvalid.

Lemma text_installed {B} k (f : string → B) :
  text_field k = true → k ∈ default [] (table name requiredMiddlewareFields) →
  ∃ s, if_text (ParseStringOrDefault (mc_Config m) k "") f = [s].
Proof.
  intros Ht Hk. destruct (rtext k Ht Hk) as (s & -> & Hs). unfold if_text.
  destruct (String.eqb_spec s ""); [done|]. by eexists.
Qed.

Lemma map_installed {B} k (f : list (string * string) → B) :
  map_field name k = true → k ∈ default [] (table name requiredMiddlewareFields) →
  ∃ s, if_some (ParseStringMap (mc_Config m) k) f = [s].
Proof. intros Ht Hk. destruct (rmap k Ht Hk) as (a & l & ->). by eexists. Qed.

Lemma list_installed {B} k (f : list string → B) :
  list_field name k = true → k ∈ default [] (table name requiredMiddlewareFields) →
  ∃ s, if_some (ParseStringSlice (mc_Config m) k) f = [s].
Proof. intros Ht Hk. destruct (rlist k Ht Hk) as (a & l & ->). by eexists. Qed.

Lemma openid_installed : one_of name openid_names = true → ∃ s, build_openid x (mc_Config m) = Ok [s].
Proof.
  intros Hn. pose proof (load_keys x m Hload Hn) as Hk. unfold build_openid, keys_load in *.
  destruct (ParseStringSlice (mc_Config m) "keys") as [[|k ks]|e]; [|by eexists|];
    destruct (x_GetJWKSPEM x _); done || by eexists.
Qed.

Ltac installed_by lem Hn :=
  match goal with |- ∃ s, Ok ?l = Ok [s] =>
    let s := fresh "s" in let E := fresh "E" in
    assert (∃ s, l = [s]) as [s E]; [eapply lem; solve [reflexivity | by_name Hn]|exists s; by rewrite E] end.

Lemma request_installed : one_of name responseMiddlewares = false → ∃ s, build_request x m = Ok [s].
Proof.
  intros Hresp. unfold build_request. cbv zeta.
  next_branch Hn; [installed_by @text_installed Hn|].
  next_branch Hn1; [installed_by @list_installed Hn1|].
  next_branch Hn2.
  { destruct (rduration "duration") as (d & Hd & Hpos); [by left|by_name Hn2|].
    rewrite Hd. apply Z.ltb_lt in Hpos. rewrite Hpos. by eexists. }
  next_branch Hn3; [installed_by @map_installed Hn3|].
  next_branch Hn4; [installed_by @map_installed Hn4|].
  next_branch Hn5; [installed_by @map_installed Hn5|].
  next_branch Hn6; [installed_by @list_installed Hn6|].
  next_branch Hn7; [by eexists|]. next_branch Hn8; [by eexists|]. next_branch Hn9; [by eexists|].
  next_branch Hn10; [by eexists|]. next_branch Hn11; [by eexists|].
  next_branch Hn12.
  { destruct (rmap "users") as (a & l & ->); [by_name Hn12..|]. by eexists. }
  next_branch Hn13.
  { destruct (rlist "tokens") as (a & l & ->); [by_name Hn13..|]. by eexists. }
  next_branch Hn14; [by apply openid_installed|].
  next_branch Hn15.
  { destruct (rmap "users") as (a & l & ->); [by_name Hn15..|]. by eexists. }
  next_branch Hn16.
  { destruct (rtext "path") as (s & -> & Hs); [reflexivity|by_name Hn16|].
    destruct (String.eqb_spec s ""); [done|]. by eexists. }
  next_branch Hn17.
  { pose proof (load_request x m Hload Hn17) as Hr.
    destruct (x_dynamicRequest x _); [by eexists|done]. }
  next_branch Hn18.
  { pose proof (load_openapi x m Hload Hn18) as Hr.
    destruct (x_openAPI x _); [by eexists|done]. }
  exfalso. pose proof (acc_known _ _ _ (validated_accepted _ _ _ _ Hvalid)) as Hk.
  clear -Hk Hn Hn1 Hn2 Hn3 Hn4 Hn5 Hn6 Hn7 Hn8 Hn9 Hn10 Hn11 Hn12 Hn13 Hn14 Hn15 Hn16 Hn17 Hn18 Hresp.
  generalize dependent name. intros n. intros. every_name Hk.
Qed.

Lemma response_installed : one_of name responseMiddlewares = true → ∃ s, build_response x m = Ok [s].
Proof.
  intros Hresp. unfold build_response, IsResponseMiddleware. rewrite Hresp. cbv beta iota zeta delta [negb].
  next_branch Hn; [installed_by @map_installed Hn|].
  next_branch Hn1; [installed_by @map_installed Hn1|].
  next_branch Hn2; [installed_by @map_installed Hn2|].
  next_branch Hn3; [installed_by @list_installed Hn3|].
  next_branch Hn4; [installed_by @text_installed Hn4|].
  next_branch Hn5; [installed_by @text_installed Hn5|].
  next_branch Hn6.
  { pose proof (load_response x m Hload Hn6) as Hr.
    destruct (x_dynamicResponse x _); [by eexists|done]. }
  next_branch Hn7; [by eexists|].
  exfalso. apply one_of_In in Hresp. clear -Hresp Hn Hn1 Hn2 Hn3 Hn4 Hn5 Hn6 Hn7.
  generalize dependent name. intros n. intros. every_name Hresp.
Qed.

(** Request and response middleware have disjoint names. *)
Lemma response_not_request : one_of name responseMiddlewares = true → build_request x m = Ok [].
Proof.
  intros Hresp. unfold build_request. cbv zeta.
  assert (∀ l, forallb (λ y, negb (one_of y l)) responseMiddlewares = true → one_of name l = false) as Hno.
  { intros l Hl. apply negb_true_iff. apply (one_of_all name _ (λ y, negb (one_of y l)) Hresp Hl). }
  assert (∀ s, forallb (λ y, negb (String.eqb y s)) responseMiddlewares = true → String.eqb name s = false) as Hne.
  { intros s Hl. apply negb_true_iff. apply (one_of_all name _ (λ y, negb (String.eqb y s)) Hresp Hl). }
  rewrite !Hno, !Hne by reflexivity. by rewrite Hresp.
Qed.
End installed.

(** An entry that is built has loaded its resources. *)
Lemma built_loads x m rs ms : build_request x m = Ok ms → build_response x m = Ok rs → loads x m.
Proof.
  set (name := ToLower (mc_Name m)).
  assert (∀ g l, one_of name g = true → forallb (λ y, negb (one_of y l)) g = true → one_of name l = false) as Hno.
  { intros g l Hg Hl. apply negb_true_iff. apply (one_of_all name g (λ y, negb (one_of y l)) Hg Hl). }
  assert (∀ g s, one_of name g = true → forallb (λ y, negb (String.eqb y s)) g = true → String.eqb name s = false) as Hne.
  { intros g s Hg Hl. apply negb_true_iff. apply (one_of_all name g (λ y, negb (String.eqb y s)) Hg Hl). }
  intros Hq Hp. split; fold name; intros Hn.
  - revert Hq. unfold build_request. cbv zeta. fold name.
    rewrite !(Hno openid_names _ Hn), !(Hne openid_names _ Hn) by reflexivity.
    change (one_of name ["auth_openid"; "openid_auth"; "auth_oidc"; "oidc_auth"]) with (one_of name openid_names). rewrite Hn.
    unfold build_openid, keys_load. destruct (ParseStringSlice _ _) as [[|]|]; [|done|]; by destruct (x_GetJWKSPEM x _).
  - revert Hq. unfold build_request. cbv zeta. fold name.
    rewrite !(Hno dynamic_request_names _ Hn), !(Hne dynamic_request_names _ Hn) by reflexivity.
    change (one_of name ["dynamic_request"; "request_dynamic"]) with (one_of name dynamic_request_names). rewrite Hn.
    by destruct (x_dynamicRequest x _).
  - revert Hp. unfold build_response, IsResponseMiddleware. cbv zeta. fold name.
    rewrite (one_of_all name dynamic_response_names (λ y, one_of y responseMiddlewares) Hn eq_refl). cbv beta iota delta [negb].
    rewrite !(Hno dynamic_response_names _ Hn), !(Hne dynamic_response_names _ Hn) by reflexivity.
    change (one_of name ["dynamic_response"; "response_dynamic"]) with (one_of name dynamic_response_names). rewrite Hn.
    by destruct (x_dynamicResponse x _).
  - revert Hq. unfold build_request. cbv zeta. fold name.
    rewrite !(Hno openapi_names _ Hn), !(Hne openapi_names _ Hn) by reflexivity.
    change (one_of name ["openapi"; "openapi_validate"; "openapi_validation"]) with (one_of name openapi_names). rewrite Hn.
    by destruct (x_openAPI x _).
Qed.

(** What the validator accepts the builder installs.  Once the resources
    it names load, an accepted middleware entry is never refused and never silently
    dropped: a response middleware becomes exactly one response modifier and no
    request middleware, any other entry exactly one request middleware and no
    response modifier. *)
Theorem validated_middleware_installed (x : externals) (path : string) (m : MiddlewareConfig) (allow : bool) :
  loads x m → validateMiddleware (x_ParseDuration x) path m allow = [] →
  if IsResponseMiddleware (mc_Name m)
  then build_request x m = Ok [] ∧ ∃ s, build_response x m = Ok [s]
  else build_response x m = Ok [] ∧ ∃ s, build_request x m = Ok [s].
Proof.
  intros Hload Hvalid. unfold IsResponseMiddleware. destruct (one_of _ responseMiddlewares) eqn:Hr.
  - split; [by apply response_not_request|by eapply response_installed].
  - split; [|by eapply request_installed]. unfold build_response, IsResponseMiddleware, IsKnownMiddleware.
    rewrite Hr. unfold validateMiddleware in Hvalid. by destruct (table _ middlewareFields).
Qed.

(** ** A validated configuration builds *)

(** [url.Parse] as the builder sees it agrees with the validator's. *)
Record coherent (url_Parse : string → option parsedURL) (x : externals) : Prop := {
  co_host : ∀ u p, url_Parse u = Some p → x_backendHost x u = Ok (vu_Host p);
  co_proxy : ∀ u, is_Some (url_Parse u) → is_Some (x_proxyParse x u);
}.

Definition request_entries (mcs : list MiddlewareConfig) : list MiddlewareConfig :=
  List.filter (λ m, negb (IsResponseMiddleware (mc_Name m))) mcs.
Definition response_entries (mcs : list MiddlewareConfig) : list MiddlewareConfig :=
  List.filter (λ m, IsResponseMiddleware (mc_Name m)) mcs.

(** A built route carries what its configuration lists: one object per
    backend, per request middleware, and on every backend per response
    middleware. *)
Record carries (services : gmap string (list BackendConfig)) (r : RouteConfig) (br : builtRoute) : Prop := {
  ca_name : br_Name br = rc_Name r;
  ca_backends : length (br_Backends br) = length (backendsConfig services r);
  ca_requests : length (br_Middleware br) = length (request_entries (rc_Middlewares r));
  ca_responses : Forall (λ bb, length (bb_modifiers bb) = length (response_entries (rc_Middlewares r))) (br_Backends br);
}.

(** The resources a route uses: those of its middleware, and the TLS files of its
    backends. *)
Definition route_loads (x : externals) (services : gmap string (list BackendConfig)) (r : RouteConfig) : Prop :=
  Forall (loads x) (rc_Middlewares r) ∧ Forall (λ b, x_tlsError x (bc_TLS b) = None) (backendsConfig services r).

Section builds.
  Context (x : externals) (url_Parse : string → option parsedURL) (ParseIP : string → option (string * bool)).
  Context (Hco : coherent url_Parse x).
  Notation parseDur := (x_ParseDuration x).

Definition middleware_valid (m : MiddlewareConfig) : Prop := ∃ path, validateMiddleware parseDur path m true = [].
Definition backend_valid (b : BackendConfig) : Prop := ∃ path, validateBackend url_Parse parseDur path b false = [].

Lemma requests_build mcs :
  Forall middleware_valid mcs → Forall (loads x) mcs →
  ∃ ms, buildMiddlewareForRoute x mcs = Ok ms ∧ length ms = length (request_entries mcs).
Proof.
  unfold buildMiddlewareForRoute, request_entries.
  induction 1 as [|m mcs [path Hm] _ IH]; simpl; [by eexists|]. intros [Hload Hl]%Forall_cons. destruct (IH Hl) as (ms & IH' & Hms).
  destruct (IsResponseMiddleware (mc_Name m)) eqn:Hr; unfold IsResponseMiddleware in Hr; simpl.
  - rewrite response_not_request by done. rewrite IH'. by eexists.
  - destruct (request_installed x path m true Hload Hm Hr) as [s ->]. rewrite IH'. eexists. split; [done|]. simpl. lia.
Qed.

Lemma responses_build mcs :
  Forall middleware_valid mcs → Forall (loads x) mcs →
  ∃ ms, buildMiddlewareForResponse x mcs = Ok ms ∧ length ms = length (response_entries mcs).
Proof.
  unfold buildMiddlewareForResponse, response_entries.
  induction 1 as [|m mcs [path Hm] _ IH]; simpl; [by eexists|]. intros [Hload Hl]%Forall_cons. destruct (IH Hl) as (ms & IH' & Hms).
  destruct (IsResponseMiddleware (mc_Name m)) eqn:Hr; simpl.
  - destruct (response_installed x path m true Hload Hm Hr) as [s ->]. rewrite IH'. eexists. split; [done|]. simpl. lia.
  - assert (build_response x m = Ok []) as ->; [|rewrite IH'; by eexists].
    unfold build_response. rewrite Hr. unfold validateMiddleware in Hm. unfold IsKnownMiddleware.
    by destruct (table _ middlewareFields).
Qed.

Lemma build_all_each {A} (f : MiddlewareConfig → result string (list A)) mcs l :
  build_all f mcs = Ok l → Forall (λ m, ∃ l', f m = Ok l') mcs.
Proof.
  revert l. induction mcs as [|m mcs IH]; intros l; simpl; [constructor|]. destruct (f m) as [l'|] eqn:E; [|done].
  destruct (build_all f mcs) as [ls|]; [|done]. intros _. constructor; eauto.
Qed.

Lemma backend_builds resp i b :
  backend_valid b → x_tlsError x (bc_TLS b) = None →
  ∃ bb, buildBackend x resp i b = Ok bb ∧ length (bb_modifiers bb) = length resp.
Proof.
  intros [path H] Htls. unfold validateBackend in H.
  apply app_nil in H as [_ H]. apply app_nil in H as [Hu H]. apply app_nil in H as [_ H].
  apply app_nil in H as [Hr%when_nil H]. do 8 apply app_nil in H as [_ H]. apply app_nil in H as [Hp _].
  apply orb_false_iff in Hr as [Hr1 Hr2].
  assert (∃ tr, NewTransport (x_tlsError x (bc_TLS b)) (x_proxyParse x) (transportConfig x b) = Ok tr) as [tr Htr].
  { unfold NewTransport. simpl. rewrite Hr1, Hr2. simpl.
    assert (0 ≤ parseDurationOrDefault parseDur (bc_RetryBackoff b) (second / 10)) as Hb.
    { unfold parseDurationOrDefault. destruct (String.eqb _ _); [done|]. destruct (parseDur _); [|done].
      bsplit1; [done|lia]. }
    apply Z.ltb_ge in Hb. rewrite Hb, Htls. destruct (bc_Proxy b) as [p|]; [|by eexists].
    apply app_nil in Hp as [_ Hp]. unfold validateProxy in Hp.
    destruct (String.eqb (bp_URL p) "") eqn:He; [by eexists|]. simpl. rewrite He.
    destruct (url_Parse (bp_URL p)) as [u|] eqn:Hq; [|done].
    destruct (co_proxy _ _ Hco (bp_URL p)) as [v ->]; [by eexists|]. by eexists. }
  unfold buildBackend. rewrite Htr. unfold validateURL in Hu.
  destruct (url_Parse (bc_URL b)) as [u|] eqn:Hq; [|done]. rewrite (co_host _ _ Hco _ _ Hq).
  destruct (bc_HealthCheck b); (eexists; split; [reflexivity|]); simpl; by rewrite length_map.
Qed.

Lemma built_backend_tls resp i b bb : buildBackend x resp i b = Ok bb → x_tlsError x (bc_TLS b) = None.
Proof.
  unfold buildBackend, NewTransport. intros H. destruct (x_tlsError x (bc_TLS b)); [|done]. exfalso. revert H. by repeat case_match.
Qed.

Lemma backends_build resp i bs :
  Forall backend_valid bs → Forall (λ b, x_tlsError x (bc_TLS b) = None) bs →
  ∃ bbs, buildBackends x resp i bs = Ok bbs ∧ length bbs = length bs ∧
    Forall (λ bb, length (bb_modifiers bb) = length resp) bbs.
Proof.
  intros H. revert i. induction H as [|b bs Hb _ IH]; intros i; simpl; [exists []; auto|]. intros [Ht Hts]%Forall_cons.
  destruct (backend_builds resp i b Hb Ht) as (bb & -> & Hm). destruct (IH (S i) Hts) as (bbs & -> & Hl & Hf).
  eexists. split; [done|]. split; [simpl; lia|by constructor].
Qed.

Lemma built_backends_tls resp i bs bbs : buildBackends x resp i bs = Ok bbs → Forall (λ b, x_tlsError x (bc_TLS b) = None) bs.
Proof.
  revert i bbs. induction bs as [|b bs IH]; intros i bbs; simpl; [constructor|].
  destruct (buildBackend x resp i b) as [bb|] eqn:E; [|done]. destruct (buildBackends x resp (S i) bs) as [bbs'|] eqn:E'; [|done].
  intros _. constructor; [by eapply built_backend_tls|by eapply IH].
Qed.

Lemma route_builds services r :
  Forall middleware_valid (rc_Middlewares r) → backendsConfig services r ≠ [] →
  Forall backend_valid (backendsConfig services r) → route_loads x services r →
  ∃ br, buildRoute x services r = Ok br ∧ carries services r br.
Proof.
  intros Hm Hne Hb [Hl Ht]. unfold buildRoute. destruct (responses_build _ Hm Hl) as (resp & -> & Hresp).
  destruct (requests_build _ Hm Hl) as (mws & -> & Hmws).
  destruct (backends_build resp 0 _ Hb Ht) as (bbs & Hbb & Hlen & Hf).
  destruct (backendsConfig services r) as [|b bs] eqn:Hbs; [done|]. rewrite Hbb.
  eexists. split; [done|]. split; simpl; try done; [by rewrite Hbs|by rewrite <- Hresp].
Qed.

Lemma built_route_loads services r br : buildRoute x services r = Ok br → route_loads x services r.
Proof.
  unfold buildRoute, route_loads. destruct (buildMiddlewareForResponse x _) as [resp|] eqn:Hr; [|done].
  destruct (backendsConfig services r) as [|b bs]; [done|].
  destruct (buildBackends x resp 0 (b :: bs)) as [bbs|] eqn:Hb; [|done].
  destruct (buildMiddlewareForRoute x _) as [ms|] eqn:Hq; [|done]. intros _. split; [|by eapply built_backends_tls].
  apply build_all_each in Hr, Hq. rewrite Forall_forall in *. intros m Hm.
  destruct (Hr m Hm), (Hq m Hm). by eapply built_loads.
Qed.

Lemma services_lookup svs n :
  n ∈ map sv_Name svs → ∃ sv, sv ∈ svs ∧ servicesByName svs !! n = Some (sv_Backends sv).
Proof.
  unfold servicesByName. induction svs as [|sv svs IH] using rev_ind; [by intros ?%not_elem_of_nil|].
  rewrite map_app, foldl_app, elem_of_app. simpl. intros Hn.
  destruct (decide (sv_Name sv = n)) as [<-|Hne].
  { exists sv. rewrite lookup_insert_eq. split; [|done]. apply elem_of_app. right. by left. }
  destruct Hn as [Hn|Hn%list_elem_of_singleton]; [|by subst n].
  destruct (IH Hn) as (sv' & Hin & Hl). exists sv'. rewrite lookup_insert_ne by done.
  split; [|done]. apply elem_of_app. by left.
Qed.

Lemma each_Forall {A} (f : nat → A → list problem) l (P : A → Prop) :
  each f l = [] → (∀ i a, f i a = [] → P a) → Forall P l.
Proof. intros H HP. apply Forall_lookup. intros i a Ha. by eapply HP, (proj1 (each_nil _ _) H). Qed.

Lemma services_valid i svs names :
  (validateServices url_Parse parseDur i svs names).1 = [] → Forall (λ sv, Forall backend_valid (sv_Backends sv)) svs.
Proof.
  revert i names; induction svs as [|sv svs IH]; intros i names; simpl; [constructor|].
  specialize (IH (S i) (sv_Name sv :: names)).
  destruct (validateServices _ _ (S i) svs _) as [ps names']. simpl in *. intros [H1 H2]%app_nil.
  constructor; [|by apply IH]. unfold validateService in H1.
  do 2 apply app_nil in H1 as [_ H1]. eapply each_Forall; [exact H1|]. intros j b Hb. eexists. exact Hb.
Qed.

Definition route_valid (r : RouteConfig) : Prop :=
  Forall middleware_valid (rc_Middlewares r) ∧ Forall backend_valid (rc_Backends r).

Lemma routes_valid i rs names lnames snames :
  validateRoutes url_Parse parseDur i rs names lnames snames = [] → Forall route_valid rs.
Proof.
  revert i names; induction rs as [|r rs IH]; intros i names; simpl; [constructor|].
  intros [H1 H2]%app_nil. constructor; [|by eapply IH]. unfold validateRoute in H1.
  do 9 apply app_nil in H1 as [_ H1]. apply app_nil in H1 as [Hm Hb].
  split; (eapply each_Forall; [eassumption|]); intros j a Ha; eexists; exact Ha.
Qed.

Lemma validated_parts cfg :
  Validate url_Parse parseDur ParseIP (Some cfg) = Ok tt →
  Forall (λ sv, Forall backend_valid (sv_Backends sv) ∧ sv_Backends sv ≠ []) (cf_Services cfg) ∧
  Forall (λ r, route_valid r ∧
    (rc_Backends r ≠ [] ∨ rc_Backends r = [] ∧ rc_Service r ≠ "" ∧ rc_Service r ∈ map sv_Name (cf_Services cfg)))
    (cf_Routes cfg).
Proof.
  unfold Validate, problems_of.
  pose proof (service_names url_Parse parseDur ParseIP 0 (cf_Services cfg) []) as HS.
  pose proof (services_valid 0 (cf_Services cfg) []) as HV.
  destruct (validateListeners _ _ _ 0 (cf_Listeners cfg) (mkSeen [] [])) as [p1 s].
  destruct (validateServices _ _ 0 (cf_Services cfg) []) as [p2 services]. simpl in *.
  destruct (p1 ++ p2 ++ _) eqn:Hp; [|done]. intros _.
  apply app_nil in Hp as [-> Hp]. apply app_nil in Hp as [-> Hp]. apply app_nil in Hp as [Hr _].
  destruct (HS eq_refl) as (HS0 & _ & _ & HS2). specialize (HV eq_refl).
  pose proof (routes_valid _ _ _ _ _ Hr) as HR. apply (routes_ok url_Parse parseDur ParseIP) in Hr as (_ & _ & Hres). split.
  - apply Forall_and. split; [done|]. eapply Forall_impl; [exact HS0|]. by intros sv [].
  - apply Forall_and. split; [done|]. eapply Forall_impl; [exact Hres|]. intros r (_ & [[? _]|(Ha & Hb & Hc)] & _); [by left|].
    right. apply HS2 in Hc as [Hc|?%not_elem_of_nil]; done.
Qed.

Lemma sources_valid svs r :
  Forall (λ sv, Forall backend_valid (sv_Backends sv) ∧ sv_Backends sv ≠ []) svs → route_valid r →
  rc_Backends r ≠ [] ∨ rc_Backends r = [] ∧ rc_Service r ≠ "" ∧ rc_Service r ∈ map sv_Name svs →
  backendsConfig (servicesByName svs) r ≠ [] ∧ Forall backend_valid (backendsConfig (servicesByName svs) r).
Proof.
  intros Hsv [_ Hb] Hsrc. unfold backendsConfig. destruct Hsrc as [Hne|(Hnil & Hne & Hin)].
  - destruct (rc_Backends r) eqn:E; [done|]. simpl. done.
  - rewrite Hnil. apply String.eqb_neq in Hne. rewrite Hne. simpl.
    destruct (services_lookup svs _ Hin) as (sv & Hs & ->). rewrite Forall_forall in Hsv. simpl.
    destruct (Hsv sv Hs). done.
Qed.

Lemma routes_build services rs :
  Forall (λ r, ∃ br, buildRoute x services r = Ok br ∧ carries services r br) rs →
  ∃ brs, build_routes x services rs = Ok brs ∧ Forall2 (carries services) rs brs.
Proof.
  induction 1 as [|r rs (br & Hbr & Hc) _ (brs & IH & Hf)]; simpl; [exists []; auto|].
  rewrite Hbr, IH. eexists. split; [done|by constructor].
Qed.

Lemma built_routes_load services rs brs : build_routes x services rs = Ok brs → Forall (route_loads x services) rs.
Proof.
  revert brs. induction rs as [|r rs IH]; intros brs; simpl; [constructor|].
  destruct (buildRoute x services r) as [br|] eqn:E; [|done]. destruct (build_routes x services rs) as [brs'|]; [|done].
  intros _. constructor; [by eapply built_route_loads|by eapply IH].
Qed.

End builds.

(** ** The longest prefix wins *)

(** [buildRouter] over the routes of [buildRoutesWithHealthChecks].  [install]
    gives the middleware of an entry and [mods] the modifiers of a backend. *)
Section router.
  Context {X : Type} (install : mwSpec → Middleware X) (mods : builtRoute → nat → request → list modifier).

Definition route_of (br : builtRoute) : Route X :=
  mkRoute (br_Name br) (br_Prefix br) (br_StripPrefix br) (br_Hosts br) (br_Paths br) (br_Endpoints br)
    (map install (br_Middleware br)) (mods br).

Definition buildRouter (srv : builtServer) : Router X := mkRouter (map route_of (bs_routes srv)) (bs_directory srv).
End router.

(** What the router reads of a route is what its configuration says. *)
Record same_matching (r : RouteConfig) (br : builtRoute) : Prop := {
  sm_prefix : br_Prefix br = rc_Prefix r;
  sm_paths : br_Paths br = rc_Paths r;
  sm_endpoints : br_Endpoints br = rc_Endpoints r;
}.

Lemma build_routes_matching x services rs brs :
  build_routes x services rs = Ok brs → Forall2 same_matching rs brs.
Proof.
  revert brs; induction rs as [|r rs IH]; intros brs; simpl; [by intros [= <-]|].
  destruct (buildRoute x services r) as [br|] eqn:Hr; [|done].
  destruct (build_routes x services rs) as [brs'|]; [|done]. intros [= <-]. constructor; [|by apply IH].
  revert Hr. unfold buildRoute. destruct (buildMiddlewareForResponse x _); [|done].
  destruct (backendsConfig services r); [done|]. destruct (buildBackends x _ 0 _); [|done].
  destruct (buildMiddlewareForRoute x _); [|done]. by intros [= <-].
Qed.

Lemma Build_matching x url_Parse ParseIP cfg srv :
  Build x url_Parse ParseIP cfg = Ok srv → Forall2 same_matching (cf_Routes cfg) (bs_routes srv).
Proof.
  unfold Build. destruct (Validate _ _ _ _); [|done]. simpl.
  destruct (build_routes x (servicesByName (cf_Services cfg)) (cf_Routes cfg)) as [brs|] eqn:Hb; [|done].
  intros [= <-]. simpl. by eapply build_routes_matching.
Qed.

Lemma load_sorted sort_routes json_decode yaml_docs data cfg :
  sorts sort_routes → loadConfigBytes sort_routes json_decode yaml_docs data = Ok cfg →
  StronglySorted longer (cf_Routes cfg).
Proof.
  intros [_ Hs]. unfold loadConfigBytes. destruct (HasPrefix _ _).
  - destruct (json_decode _) as [[c []]|]; try done. intros [= <-]. apply Hs.
  - destruct (merge_docs _ _) as [c|]; [|done]. destruct (empty_result c); [done|]. intros [= <-]. apply Hs.
Qed.

Lemma sorted_lookup {A} (R : relation A) l i j a b :
  StronglySorted R l → (i < j)%nat → l !! i = Some a → l !! j = Some b → R a b.
Proof.
  intros Hs. revert i j. induction Hs as [|c l _ IH Hf]; intros i j Hij; [done|].
  destruct i as [|i], j as [|j]; try lia; simpl.
  - intros [= ->] Hb. rewrite Forall_lookup in Hf. eauto.
  - intros Ha Hb. apply (IH i j); [lia|done..].
Qed.

Definition attached (r : RouteConfig) (endpoint : string) : Prop := rc_Endpoints r = [] ∨ endpoint ∈ rc_Endpoints r.
Definition path_pattern_matches (r : RouteConfig) (req : request) : Prop :=
  ∃ p, p ∈ rc_Paths r ∧ (MatchWildcard p (r_path req) || MatchWildcard p (Base (r_path req))) = true.

Section longest.
  Context {X : Type} (install : mwSpec → Middleware X) (mods : builtRoute → nat → request → list modifier).

Lemma attached_endpoint r br endpoint :
  same_matching r br → MatchEndpoint (route_of install mods br) endpoint = true ↔ attached r endpoint.
Proof.
  intros [_ _ He]. unfold MatchEndpoint, attached. cbn [rt_Endpoints route_of]. rewrite He. destruct (rc_Endpoints r) as [|e es] eqn:E.
  - split; [by left|done].
  - rewrite existsb_exists. split.
    + intros (e' & Hin & ->%String.eqb_eq). right. by apply list_elem_of_In.
    + intros [?|Hin]; [done|]. exists endpoint. split; [by apply list_elem_of_In|apply String.eqb_refl].
Qed.

Lemma pattern_path r br req :
  same_matching r br → MatchPath (route_of install mods br) req = true → path_pattern_matches r req.
Proof.
  intros [_ Hp _]. unfold MatchPath. cbn [rt_Paths route_of]. rewrite Hp, existsb_exists. intros (p & Hin & Hm).
  exists p. split; [by apply list_elem_of_In|done].
Qed.

Lemma routes_pair srv rs i route :
  Forall2 same_matching rs (bs_routes srv) → Routes (buildRouter install mods srv) !! i = Some route →
  ∃ r br, rs !! i = Some r ∧ route = route_of install mods br ∧ same_matching r br.
Proof.
  intros Hf. unfold buildRouter. simpl. rewrite list_lookup_fmap, fmap_Some. intros (br & Hbr & ->).
  destruct (Forall2_lookup_r _ _ _ _ _ Hf Hbr) as (r & Hr & Hm). eauto.
Qed.

(** C8: from the file to the request.  Once a configuration is loaded and built,
    a request whose path has the prefix of some attached route is always routed,
    and unless a path pattern decided, the chosen route has a prefix at least as
    long: no shorter prefix ever shadows a longer one, whatever the order of the
    routes in the files. *)
Theorem longest_prefix_wins (sort_routes : list RouteConfig → list RouteConfig)
    (json_decode : string → result string (Config * jsonTail)) (yaml_docs : string → list (result string Config))
    (x : externals) (url_Parse : string → option parsedURL) (ParseIP : string → option (string * bool))
    (data : string) (cfg : Config) (srv : builtServer) (req : request) (endpoint : string) (rj : RouteConfig) :
  sorts sort_routes → loadConfigBytes sort_routes json_decode yaml_docs data = Ok cfg →
  Build x url_Parse ParseIP cfg = Ok srv →
  rj ∈ cf_Routes cfg → attached rj endpoint → rc_Prefix rj ≠ "" → HasPrefix (r_path req) (rc_Prefix rj) = true →
  ∃ i ri, routeFor (buildRouter install mods srv) req endpoint = Some i ∧ cf_Routes cfg !! i = Some ri ∧
    attached ri endpoint ∧ (path_pattern_matches ri req ∨ (prefix_len rj <= prefix_len ri)%nat).
Proof.
  intros Hsort Hload Hb%Build_matching [j Hj]%list_elem_of_lookup Hatt Hne Hpre.
  pose proof (load_sorted _ _ _ _ _ Hsort Hload) as Hsd.
  destruct (Forall2_lookup_l _ _ _ _ _ Hb Hj) as (brj & Hbrj & Hmj).
  assert (Routes (buildRouter install mods srv) !! j = Some (route_of install mods brj)) as Hrj.
  { unfold buildRouter. simpl. by rewrite list_lookup_fmap, Hbrj. }
  assert (Route_Match (route_of install mods brj) req = true) as Hmatch.
  { unfold Route_Match. destruct (MatchPath _ _); [done|]. simpl. destruct Hmj as [-> _ _].
    apply String.eqb_neq in Hne. by rewrite Hne, Hpre. }
  apply (attached_endpoint _ _ _ Hmj) in Hatt.
  destruct (routeFor_cases (buildRouter install mods srv) req endpoint) as [(i & Hi & Hf)|[(i & Hi & Hf)|[_ Hn]]].
  - destruct Hf as [(route & Hr & He & Hp) _]. destruct (routes_pair _ _ _ _ Hb Hr) as (ri & bri & Hri & -> & Hmi).
    exists i, ri. split; [done|]. split; [done|]. split; [by apply (attached_endpoint _ _ _ Hmi)|].
    left. by apply (pattern_path _ _ _ Hmi).
  - destruct Hf as [(route & Hr & He & Hp) Hfirst]. destruct (routes_pair _ _ _ _ Hb Hr) as (ri & bri & Hri & -> & Hmi).
    exists i, ri. split; [done|]. split; [done|]. split; [by apply (attached_endpoint _ _ _ Hmi)|]. right.
    destruct (Nat.lt_trichotomy i j) as [Hlt|[<-|Hlt]].
    + apply (sorted_lookup longer _ _ _ _ _ Hsd Hlt Hri Hj).
    + rewrite Hri in Hj. by simplify_eq.
    + specialize (Hfirst j _ Hlt Hrj Hatt). simpl in Hfirst. by rewrite Hmatch in Hfirst.
  - specialize (Hn j _ Hrj Hatt). simpl in Hn. by rewrite Hmatch in Hn.
Qed.
End longest.

(** ** Serving requests after the start *)
Section serving.
  Context {X : Type} (install : mwSpec → Middleware X) (mods : builtRoute → nat → request → list modifier).
  Context (x : externals) (url_Parse : string → option parsedURL) (ParseIP : string → option (string * bool)).

(** One arrival: what the outside world does during it, the listener and the
    request. *)
Definition arrival : Type := env * string * request.

Definition with_env (e : env) (wd : world X) : world X :=
  mkWorld (wd_routes wd) (wd_metrics wd) (wd_log wd) e (wd_mw wd).

Definition serve (srv : builtServer) (wd : world X) (a : arrival) : world X :=
  let '(e, endpoint, req) := a in
  (EndpointHandler_ServeHTTP (NewEndpointHandler (buildRouter install mods srv) endpoint)
     (with_env e wd) req new_writer).1.1.

Definition started (srv : builtServer) (s : X) (e : env) : world X :=
  mkWorld (initial_routes srv) no_metrics (EmptyString, EmptyString) e s.

(** A built server stays sound while it serves.  Whatever requests arrive on
    whatever listeners and whatever the backends answer, every backend of every
    route keeps its invariant, every selector stays inside its pool, and after
    the last reply no backend holds a connection it did not hold at the start,
    provided the installed middleware is safe. *)
Theorem built_server_stays_sound (cfg : Config) (srv : builtServer) (s : X) (e : env) (arrivals : list arrival) :
  (∀ spec, SafeMiddleware (install spec)) → Build x url_Parse ParseIP cfg = Ok srv →
  world_ok (foldl (serve srv) (started srv s e) arrivals) ∧
  same_load (started srv s e) (foldl (serve srv) (started srv s e) arrivals).
Proof.
  intros Hsafe Hb.
  assert (world_ok (started srv s e)) as H0 by (by eapply built_initial_ok).
  induction arrivals as [|[[e' ep] req] arrivals IH] using rev_ind; [by split|].
  rewrite foldl_app. simpl. destruct IH as [IH1 IH2].
  set (wd := foldl (serve srv) (started srv s e) arrivals) in *.
  assert (Forall (λ r, Forall SafeMiddleware (rt_Middleware r)) (Routes (buildRouter install mods srv))) as Hm.
  { apply Forall_map, Forall_forall. intros br _. apply Forall_map, Forall_forall. intros spec _. apply Hsafe. }
  destruct (ServeHTTPForEndpoint_keeps _ ep Hm (with_env e' wd) req new_writer IH1) as [H1 H2].
  split; [done|]. by apply (same_load_trans _ wd).
Qed.
End serving.

(** ** Concrete instances *)
Definition good_externals : externals :=
  mkExternals (λ _, Some second) (λ _, Ok ["key"]) (λ _, Ok tt) (λ _, Ok tt) (λ _, Ok tt) (λ _, None)
    (λ _, Ok "h") (λ u, Some u).

Lemma good_load m : loads good_externals m.
Proof. split; try done. intros _. unfold keys_load. by destruct (ParseStringSlice _ _) as [[]|]. Qed.
Lemma good_coherent : coherent sample_url good_externals.
Proof. split; [by intros u p [= <-]|by eexists]. Qed.

Definition basic_entry : MiddlewareConfig := mkMC "Basic_Auth" [("users", VMap [("ann", VString "pw")])].

Lemma validated_middleware_installed_witness :
  validateMiddleware (λ _, Some second) "m" basic_entry false = [] ∧
  ∃ s, build_request good_externals basic_entry = Ok [s].
Proof.
  split; [vm_compute; reflexivity|].
  exact (proj2 (validated_middleware_installed good_externals "m" basic_entry false (good_load _) eq_refl)).
Defined.


(** Two documents, the shorter prefix first. *)
Definition two_documents : list (result string Config) :=
  [Ok (mkConfig (mkAdmin "" false no_tls []) [] [] [sample_route_config "root" "/"] "");
   Ok (mkConfig (mkAdmin "" false no_tls []) [] [] [sample_route_config "api" "/api"] "")].
Definition merged_config : Config :=
  mkConfig (mkAdmin "" false no_tls []) [] [] [sample_route_config "api" "/api"; sample_route_config "root" "/"] "".

Definition pass_through (spec : mwSpec) : Middleware unit := λ next, next.

Lemma longest_prefix_wins_witness :
  ∃ srv i ri, Build good_externals sample_url (λ _, None) merged_config = Ok srv ∧
    routeFor (buildRouter pass_through (λ _ _ _, []) srv) sample_request "web" = Some i ∧
    cf_Routes merged_config !! i = Some ri ∧ attached ri "web" ∧
    (path_pattern_matches ri sample_request ∨ (4 <= prefix_len ri)%nat).
Proof.
  destruct (Build good_externals sample_url (λ _, None) merged_config) as [srv|] eqn:E; [|vm_compute in E; discriminate E].
  exists srv.
  destruct (longest_prefix_wins pass_through (λ _ _ _, []) (merge_sort longer) (λ _, Err "") (λ _, two_documents)
    good_externals sample_url (λ _, None) "x" merged_config srv sample_request "web" (sample_route_config "api" "/api")
    merge_sort_sorts) as (i & ri & H);
    [vm_compute; reflexivity|exact E|by left|by left|discriminate|vm_compute; reflexivity|].
  exists i, ri. split; [reflexivity|exact H].
Defined.

Lemma built_server_stays_sound_witness :
  ∃ srv, Build good_externals sample_url (λ _, None) sample_config = Ok srv ∧
    world_ok (foldl (serve pass_through (λ _ _ _, []) srv) (started srv tt sample_env) [(sample_env, "web", sample_request)]).
Proof.
  destruct (Build good_externals sample_url (λ _, None) sample_config) as [srv|] eqn:E; [|vm_compute in E; discriminate E].
  exists srv. split; [reflexivity|].
  apply (built_server_stays_sound pass_through (λ _ _ _, []) good_externals sample_url (λ _, None) sample_config srv tt
    sample_env [(sample_env, "web", sample_request)]); [by intros spec h Hh|exact E].
Defined.
