(* ===== verification/Lifecycle.v ===== *)
(** * Server lifecycle, shutdown and reload

    Models the concurrent life of [pkg/server/server.go] and the reload loop of
    [pkg/gorp/main.go].  A goroutine that starts a listener is a [thread], a call
    of [Server.Run] a [runner]; every step of the relation [pstep] is one atomic
    action of one of them (the critical sections of [Server.mu] and the body of
    [shutdownOnce] are atomic with respect to each other).  The listening object
    a thread creates (an [http.Server] or a [net.Listener]) has the thread's
    index as its identity; an address is in use while an object that bound it is
    not closed. *)

From S2P Require Import Prelude GoStd GoHttp Config Validate Builder.
Open Scope nat_scope.

(** ** The server *)
Inductive lkind : Type := KHttp | KHttp3 | KMulti | KTcp.

Record Server : Type := mkSrv {
  httpServers : list nat;
  http3Servers : list nat;
  httpmultiServers : list nat;
  tcpListeners : list nat;
  stopped : bool;
  shutdownOnce : bool;                (* the once has run *)
  cancelled : bool;                   (* the context is cancelled *)
  done : nat;                         (* how often the channel was closed *)
  errch : option string;              (* the buffered channel of capacity one *)
}.

Definition newServer : Server := mkSrv [] [] [] [] false false false 0 None.

Definition registered (s : Server) : list nat :=
  httpServers s ++ httpmultiServers s ++ http3Servers s ++ tcpListeners s.

(** What the goroutines share: a server, the closed objects and
    [helper.Ready]. *)
Record shared : Type := mkShared { sh_srv : Server; sh_closed : gset nat; sh_ready : bool }.

Definition close_one (id : nat) (sh : shared) : shared :=
  mkShared (sh_srv sh) ({[id]} ∪ sh_closed sh) (sh_ready sh).

Definition registerHTTPServer (id : nat) (sh : shared) : bool * shared :=
  let s := sh_srv sh in
  if stopped s then (false, close_one id sh)
  else (true, mkShared (mkSrv (httpServers s ++ [id]) (http3Servers s) (httpmultiServers s) (tcpListeners s)
                          (stopped s) (shutdownOnce s) (cancelled s) (done s) (errch s)) (sh_closed sh) (sh_ready sh)).

Definition registerHTTP3Server (id : nat) (sh : shared) : bool * shared :=
  let s := sh_srv sh in
  if stopped s then (false, close_one id sh)
  else (true, mkShared (mkSrv (httpServers s) (http3Servers s ++ [id]) (httpmultiServers s) (tcpListeners s)
                          (stopped s) (shutdownOnce s) (cancelled s) (done s) (errch s)) (sh_closed sh) (sh_ready sh)).

Definition registerHTTPMultiServer (id : nat) (sh : shared) : bool * shared :=
  let s := sh_srv sh in
  if stopped s then (false, close_one id sh)
  else (true, mkShared (mkSrv (httpServers s) (http3Servers s) (httpmultiServers s ++ [id]) (tcpListeners s)
                          (stopped s) (shutdownOnce s) (cancelled s) (done s) (errch s)) (sh_closed sh) (sh_ready sh)).

Definition registerTCPListener (id : nat) (sh : shared) : bool * shared :=
  let s := sh_srv sh in
  if stopped s then (false, close_one id sh)
  else (true, mkShared (mkSrv (httpServers s) (http3Servers s) (httpmultiServers s) (tcpListeners s ++ [id])
                          (stopped s) (shutdownOnce s) (cancelled s) (done s) (errch s)) (sh_closed sh) (sh_ready sh)).

Definition register (k : lkind) : nat → shared → bool * shared :=
  match k with
  | KHttp => registerHTTPServer
  | KHttp3 => registerHTTP3Server
  | KMulti => registerHTTPMultiServer
  | KTcp => registerTCPListener
  end.

Definition cancel (sh : shared) : shared :=
  let s := sh_srv sh in
  mkShared (mkSrv (httpServers s) (http3Servers s) (httpmultiServers s) (tcpListeners s) (stopped s) (shutdownOnce s)
              true (done s) (errch s)) (sh_closed sh) (sh_ready sh).

(** [Shutdown]: everything registered is closed, then [done]; only once. *)
Definition Shutdown (sh : shared) : shared :=
  let s := sh_srv sh in
  if shutdownOnce s then sh
  else mkShared (mkSrv (httpServers s) (http3Servers s) (httpmultiServers s) (tcpListeners s) true true true
                   (S (done s)) (errch s))
         (list_to_set (registered s) ∪ sh_closed sh) false.

Definition initiateCriticalShutdown (sh : shared) : shared := Shutdown (cancel sh).

Definition set_errch (e : option string) (sh : shared) : shared :=
  let s := sh_srv sh in
  mkShared (mkSrv (httpServers s) (http3Servers s) (httpmultiServers s) (tcpListeners s) (stopped s) (shutdownOnce s)
              (cancelled s) (done s) e) (sh_closed sh) (sh_ready sh).

(** [select { case s.errch <- err: default: }] *)
Definition offer (e : string) (sh : shared) : shared :=
  match errch (sh_srv sh) with None => set_errch (Some e) sh | Some _ => sh end.

(** How the function of a listener goroutine ends. *)
Inductive ending : Type := Returned (err : option string) | Panicked (v : string).

Definition runWithRecovery (name : string) (e : ending) (sh : shared) : shared :=
  match e with
  | Returned None => sh
  | Returned (Some err) => initiateCriticalShutdown (offer (name +:+ " listener error: " +:+ err) sh)
  | Panicked v => initiateCriticalShutdown (offer (name +:+ " listener panic: " +:+ v) sh)
  end.

Definition SetReady (ready : bool) (sh : shared) : shared := mkShared (sh_srv sh) (sh_closed sh) ready.

(** [waitForShutdown], once a signal has arrived. *)
Definition waitForShutdown (sh : shared) : shared := Shutdown (cancel sh).

(** ** Goroutines *)

(** What [startListeners] starts for a listener: how it registers, whether it
    binds its address before registering, and the address with its network. *)
Record startSpec : Type := mkStart { ss_kind : lkind; ss_early : bool; ss_addr : string * string }.

Definition listener_start (l : Listener) : startSpec :=
  let t := ln_Type l in
  if String.eqb t "unix" then mkStart KHttp true ("unix", ln_Address l)
  else if String.eqb t "unix_tcp" then mkStart KTcp true ("unix", ln_Address l)
  else if String.eqb t "socks5" || String.eqb t "tcp" then mkStart KTcp true ("tcp", ln_Address l)
  else if String.eqb t "http3" then mkStart KHttp3 false ("udp", ln_Address l)
  else if String.eqb t "httpmulti" || String.eqb t "multi" then mkStart KMulti false ("tcp", ln_Address l)
  else mkStart KHttp false ("tcp", ln_Address l).

(** [Run] starts the administration listener, then [startListeners]. *)
Definition starts (cfg : Config) : list startSpec :=
  (if ad_Enabled (cf_Admin cfg) then [mkStart KHttp false ("tcp", ad_Address (cf_Admin cfg))] else []) ++
  map listener_start (cf_Listeners cfg).

Inductive tpc : Type := TStart | TReady | TServing | TFailed (e : ending) | TEnded.

Record thread : Type := mkThread { th_srv : nat; th_run : nat; th_spec : startSpec; th_pc : tpc }.

Definition set_pc (p : tpc) (t : thread) : thread := mkThread (th_srv t) (th_run t) (th_spec t) p.

(** The thread holds its address: from binding it on. *)
Definition holds_address (t : thread) : bool :=
  match th_pc t with
  | TServing => true
  | TReady => ss_early (th_spec t)
  | _ => false
  end.

Inductive rpc : Type := RStart | RStarted | RWait | RDone (err : option string).
Record runner : Type := mkRunner { rn_srv : nat; rn_pc : rpc }.

Inductive mpc : Type := MSelect (r : nat) | MAwait (r : nat) (next : Config) | MExit (err : option string).

Record process : Type := mkProcess {
  p_configs : list Config;            (* of each server *)
  p_servers : list Server;
  p_threads : list thread;
  p_runners : list runner;
  p_main : mpc;
  p_closed : gset nat;
  p_ready : bool;
}.

Definition share (k : nat) (p : process) : option shared :=
  match p_servers p !! k with Some s => Some (mkShared s (p_closed p) (p_ready p)) | None => None end.

Definition put (k : nat) (sh : shared) (p : process) : process :=
  mkProcess (p_configs p) (<[k := sh_srv sh]> (p_servers p)) (p_threads p) (p_runners p) (p_main p) (sh_closed sh) (sh_ready sh).

Definition set_thread (i : nat) (t : thread) (p : process) : process :=
  mkProcess (p_configs p) (p_servers p) (<[i := t]> (p_threads p)) (p_runners p) (p_main p) (p_closed p) (p_ready p).
Definition set_runner (r : nat) (n : runner) (p : process) : process :=
  mkProcess (p_configs p) (p_servers p) (p_threads p) (<[r := n]> (p_runners p)) (p_main p) (p_closed p) (p_ready p).
Definition set_main (m : mpc) (p : process) : process :=
  mkProcess (p_configs p) (p_servers p) (p_threads p) (p_runners p) m (p_closed p) (p_ready p).
Definition spawn (ts : list thread) (p : process) : process :=
  mkProcess (p_configs p) (p_servers p) (p_threads p ++ ts) (p_runners p) (p_main p) (p_closed p) (p_ready p).
Definition add_runner (n : runner) (p : process) : process :=
  mkProcess (p_configs p) (p_servers p) (p_threads p) (p_runners p ++ [n]) (p_main p) (p_closed p) (p_ready p).
Definition add_server (cfg : Config) (p : process) : process :=
  mkProcess (p_configs p ++ [cfg]) (p_servers p ++ [newServer]) (p_threads p) (p_runners p) (p_main p) (p_closed p) (p_ready p).

(** The port of a network address is zero: the system then chooses a free one each
    time (an empty port means zero). *)
Definition port_zero (port : string) : bool :=
  all_bytes (Ascii.eqb "0") (match port with String ("+" | "-") s => s | _ => port end).
Definition ephemeral (addr : string * string) : bool :=
  negb (String.eqb addr.1 "unix") && match SplitHostPort addr.2 with Some (_, port) => port_zero port | None => false end.

(** The operating system refuses to bind an address another open object holds,
    unless it chooses the port. *)
Definition in_use (addr : string * string) (p : process) : Prop :=
  ephemeral addr = false ∧
  ∃ j t, p_threads p !! j = Some t ∧ holds_address t = true ∧ ss_addr (th_spec t) = addr ∧ j ∉ p_closed p.

(** ** Reloading

    [load] is the outcome of [Load] or [LoadDir].  Its error is assigned to the
    variable of the inner [if] and lost: [Build] is then called on a nil
    configuration, which [Validate] refuses. *)
Section process.
  Context (x : externals) (url_Parse : string → option parsedURL) (ParseIP : string → option (string * bool)).

Definition reload_config (load : result string Config) : option Config :=
  match load with
  | Ok c => if is_ok (Build x url_Parse ParseIP c) then Some c else None
  | Err _ => if is_ok (Validate url_Parse (x_ParseDuration x) ParseIP None) then Some empty_config else None
  end.

Inductive pstep : process → process → Prop :=
  (* a listener goroutine *)
  | step_start_fails p i t e :
      p_threads p !! i = Some t → th_pc t = TStart → e ≠ Returned None →
      pstep p (set_thread i (set_pc (TFailed e) t) p)
  | step_bind_early p i t :
      p_threads p !! i = Some t → th_pc t = TStart → ss_early (th_spec t) = true → ¬ in_use (ss_addr (th_spec t)) p →
      pstep p (set_thread i (set_pc TReady t) p)
  | step_bind_fails p i t e :
      p_threads p !! i = Some t → th_pc t = (if ss_early (th_spec t) then TStart else TReady) →
      in_use (ss_addr (th_spec t)) p → i ∉ p_closed p →
      pstep p (set_thread i (set_pc (TFailed (Returned (Some e))) t) p)
  | step_register p i t sh ok sh' :
      p_threads p !! i = Some t → th_pc t = (if ss_early (th_spec t) then TReady else TStart) →
      share (th_srv t) p = Some sh → register (ss_kind (th_spec t)) i sh = (ok, sh') →
      pstep p (set_thread i (set_pc (if ok then if ss_early (th_spec t) then TServing else TReady else TEnded) t)
                 (put (th_srv t) sh' p))
  | step_bind_late p i t :
      p_threads p !! i = Some t → th_pc t = TReady → ss_early (th_spec t) = false → i ∉ p_closed p →
      ¬ in_use (ss_addr (th_spec t)) p →
      pstep p (set_thread i (set_pc TServing t) p)
  | step_closed p i t :
      p_threads p !! i = Some t → (th_pc t = TServing ∨ th_pc t = TReady ∧ ss_early (th_spec t) = false) →
      i ∈ p_closed p →
      pstep p (set_thread i (set_pc TEnded t) p)
  | step_serve_fails p i t e :
      p_threads p !! i = Some t → th_pc t = TServing → i ∉ p_closed p → e ≠ Returned None →
      pstep p (set_thread i (set_pc (TFailed e) t) p)
  | step_recover p i t name e sh :
      p_threads p !! i = Some t → th_pc t = TFailed e → e ≠ Returned None → share (th_srv t) p = Some sh →
      pstep p (set_thread i (set_pc TEnded t) (put (th_srv t) (runWithRecovery name e sh) p))
  (* a call of [Run] *)
  | step_run_starts p r n cfg :
      p_runners p !! r = Some n → rn_pc n = RStart → p_configs p !! rn_srv n = Some cfg →
      pstep p (set_runner r (mkRunner (rn_srv n) RStarted)
                 (spawn (map (λ sp, mkThread (rn_srv n) r sp TStart) (starts cfg)) p))
  | step_run_ready p r n sh :
      p_runners p !! r = Some n → rn_pc n = RStarted → share (rn_srv n) p = Some sh →
      pstep p (set_runner r (mkRunner (rn_srv n) RWait) (put (rn_srv n) (SetReady true sh) p))
  | step_run_done p r n sh :
      p_runners p !! r = Some n → rn_pc n = RWait → share (rn_srv n) p = Some sh → 0 < done (sh_srv sh) →
      pstep p (set_runner r (mkRunner (rn_srv n) (RDone None)) p)
  | step_run_error p r n sh e :
      p_runners p !! r = Some n → rn_pc n = RWait → share (rn_srv n) p = Some sh → errch (sh_srv sh) = Some e →
      pstep p (set_runner r (mkRunner (rn_srv n) (RDone (Some e)))
                 (put (rn_srv n) (initiateCriticalShutdown (set_errch None sh)) p))
  | step_signal p r n sh :
      p_runners p !! r = Some n → rn_pc n = RWait → share (rn_srv n) p = Some sh →
      pstep p (put (rn_srv n) (waitForShutdown sh) p)
  (* the main loop *)
  | step_exit p r n res :
      p_main p = MSelect r → p_runners p !! r = Some n → rn_pc n = RDone res →
      pstep p (set_main (MExit res) p)
  | step_reload_fails p r n load :
      p_main p = MSelect r → p_runners p !! r = Some n → reload_config load = None →
      pstep p (set_main (MSelect (length (p_runners p))) (add_runner (mkRunner (rn_srv n) RStart) p))
  | step_reload p r n load cfg sh :
      p_main p = MSelect r → p_runners p !! r = Some n → reload_config load = Some cfg →
      share (rn_srv n) p = Some sh →
      pstep p (set_main (MAwait r cfg) (put (rn_srv n) (Shutdown sh) p))
  | step_restart p r n cfg res :
      p_main p = MAwait r cfg → p_runners p !! r = Some n → rn_pc n = RDone res →
      pstep p (set_main (MSelect (length (p_runners p)))
                 (add_runner (mkRunner (length (p_servers p)) RStart) (add_server cfg p))).

Definition initial (cfg : Config) : process :=
  mkProcess [cfg] [newServer] [] [mkRunner 0 RStart] (MSelect 0) ∅ false.
End process.

(** ** The invariant *)

(** The object is registered: from registration until the thread gives up. *)
Definition is_registered (t : thread) : bool :=
  match th_pc t with
  | TServing => true
  | TReady => negb (ss_early (th_spec t))
  | _ => false
  end.

Record inv (p : process) : Prop := {
  inv_lengths : length (p_configs p) = length (p_servers p);
  inv_once : ∀ k s, p_servers p !! k = Some s →
    stopped s = shutdownOnce s ∧ done s = if shutdownOnce s then 1 else 0;
  inv_owner : ∀ k s i, p_servers p !! k = Some s → i ∈ registered s → ∃ t, p_threads p !! i = Some t ∧ th_srv t = k;
  inv_shut : ∀ k s i, p_servers p !! k = Some s → shutdownOnce s = true → i ∈ registered s → i ∈ p_closed p;
  inv_open : ∀ i t s, p_threads p !! i = Some t → p_servers p !! th_srv t = Some s → shutdownOnce s = false →
    th_pc t ≠ TEnded ∧ i ∉ p_closed p;
  inv_reg : ∀ i t s, p_threads p !! i = Some t → p_servers p !! th_srv t = Some s → is_registered t = true →
    i ∈ registered s;
  inv_exclusive : ∀ i j t u, p_threads p !! i = Some t → p_threads p !! j = Some u → i ≠ j →
    holds_address t = true → holds_address u = true → ss_addr (th_spec t) = ss_addr (th_spec u) →
    ephemeral (ss_addr (th_spec t)) = false → i ∈ p_closed p ∨ j ∈ p_closed p;
  inv_closed_dom : ∀ i, i ∈ p_closed p → i < length (p_threads p);
  inv_thread_dom : ∀ i t, p_threads p !! i = Some t → th_srv t < length (p_servers p);
  inv_runner_dom : ∀ r n, p_runners p !! r = Some n → rn_srv n < length (p_servers p);
  inv_started : ∀ r n cfg sp, p_runners p !! r = Some n → rn_pc n ≠ RStart → p_configs p !! rn_srv n = Some cfg →
    sp ∈ starts cfg → ∃ i t, p_threads p !! i = Some t ∧ th_srv t = rn_srv n ∧ th_run t = r ∧ th_spec t = sp;
}.

Lemma share_Some k p sh :
  share k p = Some sh → p_servers p !! k = Some (sh_srv sh) ∧ sh_closed sh = p_closed p ∧ sh_ready sh = p_ready p.
Proof. unfold share. destruct (p_servers p !! k); [|done]. by intros [= <-]. Qed.

Lemma share_put k p sh sh' : share k p = Some sh → share k (put k sh' p) = Some sh'.
Proof.
  intros [Hk _]%share_Some. unfold share. simpl. rewrite list_lookup_insert_eq by by eapply lookup_lt_Some.
  by destruct sh'.
Qed.

Lemma put_put k sh sh' p : put k sh' (put k sh p) = put k sh' p.
Proof. unfold put. simpl. by rewrite list_insert_insert_eq. Qed.

Lemma lookup_put (l : list Server) k j v s :
  <[k := v]> l !! j = Some s → (j = k ∧ s = v ∧ k < length l) ∨ (j ≠ k ∧ l !! j = Some s).
Proof. intros H. apply list_lookup_insert_Some in H as [(-> & <- & ?)|[? ?]]; [by left|right; auto]. Qed.

(** A change of the fields no other thread depends on. *)
Record soft (sh sh' : shared) : Prop := {
  soft_reg : registered (sh_srv sh') = registered (sh_srv sh);
  soft_stopped : stopped (sh_srv sh') = stopped (sh_srv sh);
  soft_once : shutdownOnce (sh_srv sh') = shutdownOnce (sh_srv sh);
  soft_done : done (sh_srv sh') = done (sh_srv sh);
  soft_closed : sh_closed sh' = sh_closed sh;
}.

Lemma cancel_soft sh : soft sh (cancel sh).
Proof. by split. Qed.
Lemma errch_soft e sh : soft sh (set_errch e sh).
Proof. by split. Qed.
Lemma ready_soft b sh : soft sh (SetReady b sh).
Proof. by split. Qed.
Lemma offer_soft e sh : soft sh (offer e sh).
Proof. unfold offer. destruct (errch _); [by split|apply errch_soft]. Qed.
Lemma soft_trans a b c : soft a b → soft b c → soft a c.
Proof. intros [] []. split; congruence. Qed.

Lemma inv_soft k p sh sh' : inv p → share k p = Some sh → soft sh sh' → inv (put k sh' p).
Proof.
  intros [I1 I2 I3 I4 I5 I6 I7 I8 I9 I10 I11] [Hk [Hc _]]%share_Some [S1 S2 S3 S4 S5].
  assert (sh_closed sh' = p_closed p) as Hcl by congruence.
  split; simpl; rewrite ?length_insert, ?Hcl; try done.
  - intros j s [(-> & -> & _)|[_ Hj]]%lookup_put; [|by eapply I2]. rewrite S2, S3, S4. by eapply I2.
  - intros j s i [(-> & -> & _)|[_ Hj]]%lookup_put; [|by eapply I3]. rewrite S1. by eapply I3.
  - intros j s i [(-> & -> & _)|[_ Hj]]%lookup_put; [|by eapply I4]. rewrite S1, S3. by eapply I4.
  - intros i t s Ht [(He & -> & _)|[_ Hj]]%lookup_put; [|by eapply I5]. rewrite S3. eapply I5; [done|by rewrite He].
  - intros i t s Ht [(He & -> & _)|[_ Hj]]%lookup_put; [|by eapply I6]. rewrite S1. eapply I6; [done|by rewrite He].
Qed.

Lemma inv_shutdown k p sh :
  inv p → share k p = Some sh → inv (put k (Shutdown sh) p) ∧ shutdownOnce (sh_srv (Shutdown sh)) = true.
Proof.
  intros Hinv Hsh. unfold Shutdown. destruct (shutdownOnce (sh_srv sh)) eqn:Ho.
  { split; [|done]. by apply (inv_soft k p sh). }
  split; [|done]. destruct Hinv as [I1 I2 I3 I4 I5 I6 I7 I8 I9 I10 I11]. apply share_Some in Hsh as [Hk [Hc _]].
  split; simpl; rewrite ?length_insert, ?Hc; try done.
  - intros j s [(-> & -> & _)|[_ Hj]]%lookup_put; [simpl|by eapply I2]. by destruct (I2 _ _ Hk) as [_ ->]; rewrite Ho.
  - intros j s i [(-> & -> & _)|[_ Hj]]%lookup_put; [|by eapply I3]. unfold registered. simpl. by eapply I3.
  - intros j s i [(-> & -> & _)|[_ Hj]]%lookup_put Hos Hi; [unfold registered in Hi; simpl in Hi; set_solver|].
    apply elem_of_union_r. by eapply I4.
  - intros i t s Ht [(He & -> & _)|[Hne Hj]]%lookup_put Hos; [done|]. destruct (I5 _ _ _ Ht Hj Hos) as [Hp Hi].
    split; [done|]. rewrite not_elem_of_union, elem_of_list_to_set. split; [|done].
    intros Hr. destruct (I3 _ _ _ Hk Hr) as (t' & Ht' & Hs'). by simplify_eq.
  - intros i t s Ht [(He & -> & _)|[_ Hj]]%lookup_put Hr; [|by eapply I6]. unfold registered. simpl.
    eapply I6; [done|by rewrite He|done].
  - intros i j t u Ht Hu Hij H1 H2 H3 H4. destruct (I7 i j t u Ht Hu Hij H1 H2 H3 H4); [left|right]; by apply elem_of_union_r.
  - intros i [Hi|Hi]%elem_of_union; [|by apply I8]. apply elem_of_list_to_set in Hi.
    destruct (I3 _ _ _ Hk Hi) as (t & Ht & _). by eapply lookup_lt_Some.
Qed.

Lemma inv_critical k p sh :
  inv p → share k p = Some sh →
  inv (put k (initiateCriticalShutdown sh) p) ∧ shutdownOnce (sh_srv (initiateCriticalShutdown sh)) = true.
Proof.
  intros Hinv Hsh. unfold initiateCriticalShutdown.
  pose proof (inv_soft _ _ _ _ Hinv Hsh (cancel_soft sh)) as H1.
  pose proof (inv_shutdown k _ (cancel sh) H1 (share_put _ _ _ _ Hsh)) as [H2 H3]. by rewrite put_put in H2.
Qed.

Lemma inv_recovery k p sh name e :
  inv p → share k p = Some sh → e ≠ Returned None →
  inv (put k (runWithRecovery name e sh) p) ∧ shutdownOnce (sh_srv (runWithRecovery name e sh)) = true.
Proof.
  intros Hinv Hsh He.
  assert (∃ m, runWithRecovery name e sh = initiateCriticalShutdown (offer m sh)) as [m ->].
  { destruct e as [[err|]|v]; [by eexists|done|by eexists]. }
  pose proof (inv_soft _ _ _ _ Hinv Hsh (offer_soft m sh)) as H1.
  pose proof (inv_critical k _ (offer m sh) H1 (share_put _ _ _ _ Hsh)) as [H2 H3]. by rewrite put_put in H2.
Qed.

(** Registration adds the object, or closes it when the server has stopped. *)
Lemma register_cases k i sh ok sh' :
  register k i sh = (ok, sh') →
  (ok = true ∧ stopped (sh_srv sh) = false ∧ (∀ j, j ∈ registered (sh_srv sh') ↔ j = i ∨ j ∈ registered (sh_srv sh)) ∧
   stopped (sh_srv sh') = stopped (sh_srv sh) ∧ shutdownOnce (sh_srv sh') = shutdownOnce (sh_srv sh) ∧
   done (sh_srv sh') = done (sh_srv sh) ∧ sh_closed sh' = sh_closed sh) ∨
  (ok = false ∧ stopped (sh_srv sh) = true ∧ sh' = close_one i sh).
Proof.
  destruct k; simpl; unfold registerHTTPServer, registerHTTP3Server, registerHTTPMultiServer, registerTCPListener;
    destruct (stopped (sh_srv sh)) eqn:Hs; intros [= <- <-]; [right; auto|left| right; auto|left|right; auto|left|right; auto|left];
    (split; [done|]); (split; [done|]); (split; [|repeat split; done]); intros j; unfold registered; simpl; set_solver.
Qed.

Lemma inv_register k p i t sh ok sh' :
  inv p → p_threads p !! i = Some t → share (th_srv t) p = Some sh → register k i sh = (ok, sh') →
  inv (put (th_srv t) sh' p) ∧ (if ok then i ∈ registered (sh_srv sh') else shutdownOnce (sh_srv sh') = true).
Proof.
  intros [I1 I2 I3 I4 I5 I6 I7 I8 I9 I10 I11] Hi [Hk [Hc _]]%share_Some Hreg.
  destruct (I2 _ _ Hk) as [Hso Hdo].
  apply register_cases in Hreg as [(-> & Hst & Hr & S1 & S2 & S3 & S4)|(-> & Hst & ->)].
  - split; [|apply Hr; by left]. assert (shutdownOnce (sh_srv sh) = false) as Ho by congruence.
    split; simpl; rewrite ?length_insert, ?S4, ?Hc; try done.
    + intros j s [(-> & -> & _)|[_ Hj]]%lookup_put; [|by eapply I2]. by rewrite S1, S2, S3.
    + intros j s a [(-> & -> & _)|[_ Hj]]%lookup_put; [|by eapply I3]. intros [->|Ha]%Hr; [by eauto|by eapply I3].
    + intros j s a [(-> & -> & _)|[_ Hj]]%lookup_put; [|by eapply I4]. by rewrite S2, Ho.
    + intros a u s Hu [(He & -> & _)|[_ Hj]]%lookup_put; [|by eapply I5]. rewrite S2. eapply I5; [done|by rewrite He].
    + intros a u s Hu [(He & -> & _)|[_ Hj]]%lookup_put; [|by eapply I6]. intros Hl. apply Hr. right.
      eapply I6; [done|by rewrite He|done].
  - assert (shutdownOnce (sh_srv sh) = true) as Ho by congruence. split; [|done].
    split; simpl; rewrite ?length_insert, ?Hc; try done.
    + intros j s [(-> & -> & _)|[_ Hj]]%lookup_put; [done|by eapply I2].
    + intros j s a [(-> & -> & _)|[_ Hj]]%lookup_put; by eapply I3.
    + intros j s a [(-> & -> & _)|[_ Hj]]%lookup_put Hs Ha; apply elem_of_union_r; by eapply I4.
    + intros a u s Hu [(He & -> & _)|[Hne Hj]]%lookup_put Hs; [by rewrite Ho in Hs|].
      destruct (I5 _ _ _ Hu Hj Hs). split; [done|]. apply not_elem_of_union. split; [|done].
      intros ->%elem_of_singleton. by simplify_eq.
    + intros a u s Hu [(He & -> & _)|[_ Hj]]%lookup_put; [|by eapply I6]. intros Hl. eapply I6; [done|by rewrite He|done].
    + intros a b u v Hu Hv Hab H1 H2 H3 H4. destruct (I7 a b u v Hu Hv Hab H1 H2 H3 H4); [left|right]; by apply elem_of_union_r.
    + intros a [->%elem_of_singleton|Ha]%elem_of_union; [by eapply lookup_lt_Some|by apply I8].
Qed.

Lemma inv_set_thread p i t c :
  inv p → p_threads p !! i = Some t →
  (∀ s, p_servers p !! th_srv t = Some s → shutdownOnce s = false → c ≠ TEnded) →
  (∀ s, p_servers p !! th_srv t = Some s → is_registered (set_pc c t) = true → i ∈ registered s) →
  (holds_address (set_pc c t) = true → holds_address t = true ∨ ¬ in_use (ss_addr (th_spec t)) p) →
  inv (set_thread i (set_pc c t) p).
Proof.
  intros [I1 I2 I3 I4 I5 I6 I7 I8 I9 I10 I11] Hi Hend Hreg Haddr.
  assert (∀ a u, <[i := set_pc c t]> (p_threads p) !! a = Some u →
            (a = i ∧ u = set_pc c t) ∨ (a ≠ i ∧ p_threads p !! a = Some u)) as Hlook.
  { intros a u H. apply list_lookup_insert_Some in H as [(-> & <- & _)|[? ?]]; [by left|right; auto]. }
  assert (∀ a u, p_threads p !! a = Some u → ∃ u', <[i := set_pc c t]> (p_threads p) !! a = Some u' ∧
            th_srv u' = th_srv u ∧ th_run u' = th_run u ∧ th_spec u' = th_spec u) as Hkeep.
  { intros a u Hu. destruct (decide (a = i)) as [->|Hne]; simplify_eq.
    - exists (set_pc c t). split; [|done]. apply list_lookup_insert_eq. by eapply lookup_lt_Some.
    - exists u. by rewrite list_lookup_insert_ne. }
  assert (∀ j u, j ≠ i → p_threads p !! j = Some u → holds_address (set_pc c t) = true → holds_address u = true →
            ss_addr (th_spec t) = ss_addr (th_spec u) → ephemeral (ss_addr (th_spec t)) = false →
            i ∈ p_closed p ∨ j ∈ p_closed p) as Hexcl.
  { intros j u Hne Hu H1 H2 H3 H4. destruct (Haddr H1) as [Hold|Hfree].
    - by apply (I7 i j t u).
    - destruct (decide (j ∈ p_closed p)); [by right|]. exfalso. apply Hfree. split; [done|]. by exists j, u. }
  split; simpl; rewrite ?length_insert; try done.
  - intros k s a Hk Ha. destruct (I3 _ _ _ Hk Ha) as (u & Hu & Hs). destruct (Hkeep _ _ Hu) as (u' & ? & He & _).
    exists u'. by rewrite He.
  - intros a u s [[-> ->]|[Hne Hu]]%Hlook; [|by eapply I5]. simpl. intros Hs Ho. split; [by eapply Hend|].
    by eapply (I5 i t s).
  - intros a u s [[-> ->]|[Hne Hu]]%Hlook; [|by eapply I6]. simpl. intros Hs Hl. by eapply Hreg.
  - intros a b u v [[-> ->]|[Ha Hu]]%Hlook [[-> ->]|[Hb Hv]]%Hlook Hab H1 H2 H3 H4; [done|by eapply Hexcl| |by apply (I7 a b u v)].
    simpl in H3. rewrite H3 in H4. destruct (Hexcl a u Ha Hu H2 H1 (eq_sym H3) H4); auto.
  - intros a u [[-> ->]|[Hne Hu]]%Hlook; [|by eapply I9]. simpl. by eapply I9.
  - intros r n cfg sp H1 H2 H3 H4. destruct (I11 _ _ _ _ H1 H2 H3 H4) as (a & u & Hu & E1 & E2 & E3).
    destruct (Hkeep _ _ Hu) as (u' & Hu' & F1 & F2 & F3). exists a, u'. by rewrite F1, F2, F3.
Qed.

Lemma inv_set_runner p r n c :
  inv p → p_runners p !! r = Some n →
  (c ≠ RStart → ∀ cfg sp, p_configs p !! rn_srv n = Some cfg → sp ∈ starts cfg →
     ∃ i t, p_threads p !! i = Some t ∧ th_srv t = rn_srv n ∧ th_run t = r ∧ th_spec t = sp) →
  inv (set_runner r (mkRunner (rn_srv n) c) p).
Proof.
  intros [I1 I2 I3 I4 I5 I6 I7 I8 I9 I10 I11] Hr Hst. split; simpl; try done.
  - intros r' n' H. apply list_lookup_insert_Some in H as [(-> & <- & _)|[_ H]]; [simpl|]; by eapply I10.
  - intros r' n' cfg sp H. apply list_lookup_insert_Some in H as [(-> & <- & _)|[_ H]]; [simpl; eauto|by eapply I11].
Qed.

Lemma inv_advance p r n c :
  inv p → p_runners p !! r = Some n → rn_pc n ≠ RStart → inv (set_runner r (mkRunner (rn_srv n) c) p).
Proof.
  intros Hinv Hr Hpc. apply inv_set_runner; [done..|]. intros _ cfg sp. by apply (inv_started _ Hinv r n cfg sp).
Qed.

Lemma inv_spawn p ts :
  inv p → Forall (λ t, th_pc t = TStart ∧ th_srv t < length (p_servers p)) ts → inv (spawn ts p).
Proof.
  intros [I1 I2 I3 I4 I5 I6 I7 I8 I9 I10 I11] Hts.
  assert (∀ i t, (p_threads p ++ ts) !! i = Some t →
            p_threads p !! i = Some t ∨ (length (p_threads p) <= i ∧ th_pc t = TStart ∧ th_srv t < length (p_servers p))) as Hlook.
  { intros i t H. apply lookup_app_Some in H as [H|[Hl H]]; [by left|right]. split; [done|].
    by apply (proj1 (Forall_lookup _ _) Hts _ _ H). }
  assert (∀ i t, p_threads p !! i = Some t → (p_threads p ++ ts) !! i = Some t) as Hkeep by (intros; by apply lookup_app_l_Some).
  split; simpl; rewrite ?length_app; try done.
  - intros k s i Hk Hi. destruct (I3 _ _ _ Hk Hi) as (t & ? & ?). eauto.
  - intros i t s [H|(Hl & Hp & _)]%Hlook; [by eapply I5|]. intros _ _. split; [by rewrite Hp|].
    intros Hc%I8. lia.
  - intros i t s [H|(Hl & Hp & _)]%Hlook; [by eapply I6|]. unfold is_registered. by rewrite Hp.
  - intros i j t u Ht Hu Hij H1 H2. destruct (Hlook _ _ Ht) as [Ht'|(_ & Hp & _)]; [|unfold holds_address in H1; by rewrite Hp in H1].
    destruct (Hlook _ _ Hu) as [Hu'|(_ & Hp & _)]; [|unfold holds_address in H2; by rewrite Hp in H2]. by apply (I7 i j t u).
  - intros i Hi%I8. lia.
  - intros i t [H|(_ & _ & ?)]%Hlook; [by eapply I9|done].
  - intros r n cfg sp H1 H2 H3 H4. destruct (I11 _ _ _ _ H1 H2 H3 H4) as (i & t & ? & ?). eauto 10.
Qed.

Lemma inv_run_starts p r n cfg :
  inv p → p_runners p !! r = Some n → p_configs p !! rn_srv n = Some cfg →
  inv (set_runner r (mkRunner (rn_srv n) RStarted) (spawn (map (λ sp, mkThread (rn_srv n) r sp TStart) (starts cfg)) p)).
Proof.
  intros Hinv Hr Hc. apply (inv_set_runner (spawn _ p)); [|done|].
  - apply inv_spawn; [done|]. apply Forall_map, Forall_forall. intros sp _. split; [done|]. by eapply inv_runner_dom.
  - simpl. intros _ cfg' sp Hc' [k Hk]%list_elem_of_lookup. assert (cfg' = cfg) as -> by congruence.
    exists (length (p_threads p) + k), (mkThread (rn_srv n) r sp TStart). split; [|done].
    rewrite lookup_app_r by lia. replace (length (p_threads p) + k - length (p_threads p)) with k by lia.
    by rewrite list_lookup_fmap, Hk.
Qed.

Lemma inv_add_runner p k : inv p → k < length (p_servers p) → inv (add_runner (mkRunner k RStart) p).
Proof.
  intros [I1 I2 I3 I4 I5 I6 I7 I8 I9 I10 I11] Hk. split; simpl; try done.
  - intros r n H. apply lookup_app_Some in H as [H|[_ H]]; [by eapply I10|]. apply list_lookup_singleton_Some in H as [_ <-]. done.
  - intros r n cfg sp H. apply lookup_app_Some in H as [H|[_ H]]; [by eapply I11|].
    apply list_lookup_singleton_Some in H as [_ <-]. done.
Qed.

Lemma inv_add_server p cfg : inv p → inv (add_server cfg p).
Proof.
  intros [I1 I2 I3 I4 I5 I6 I7 I8 I9 I10 I11].
  assert (∀ k s, (p_servers p ++ [newServer]) !! k = Some s →
            p_servers p !! k = Some s ∨ (k = length (p_servers p) ∧ s = newServer)) as Hlook.
  { intros k s H. apply lookup_app_Some in H as [H|[Hl H]]; [by left|right].
    apply list_lookup_singleton_Some in H as [He <-]. split; [lia|done]. }
  split; simpl; rewrite ?length_app; simpl; try done.
  - lia.
  - intros k s [H|[_ ->]]%Hlook; [by eapply I2|done].
  - intros k s i [H|[_ ->]]%Hlook; [by eapply I3|]. by intros ?%not_elem_of_nil.
  - intros k s i [H|[_ ->]]%Hlook; [by eapply I4|done].
  - intros i t s Ht [H|[He ->]]%Hlook; [by eapply I5|]. pose proof (I9 _ _ Ht). lia.
  - intros i t s Ht [H|[He ->]]%Hlook; [by eapply I6|]. pose proof (I9 _ _ Ht). lia.
  - intros i t Ht. pose proof (I9 _ _ Ht). lia.
  - intros r n Hr. pose proof (I10 _ _ Hr). lia.
  - intros r n c sp H1 H2 H3 H4. pose proof (I10 _ _ H1) as Hd. rewrite lookup_app_l in H3 by lia. by eapply I11.
Qed.

Lemma inv_set_main p m : inv p → inv (set_main m p).
Proof. intros []. by split. Qed.

Lemma inv_initial cfg : inv (initial cfg).
Proof.
  split; simpl; try done.
  - intros [|k] s [= <-]; done.
  - intros [|k] s i [= <-]. by intros ?%not_elem_of_nil.
  - intros [|k] s i [= <-]. done.
  - intros [|r] n [= <-]. simpl. lia.
  - intros [|r] n c sp [= <-]. done.
Qed.

Section runs.
  Context (x : externals) (url_Parse : string → option parsedURL) (ParseIP : string → option (string * bool)).
  Notation step := (pstep x url_Parse ParseIP).

Lemma closed_stopped p i t s :
  inv p → p_threads p !! i = Some t → p_servers p !! th_srv t = Some s → i ∈ p_closed p → shutdownOnce s = true.
Proof.
  intros Hinv Ht Hs Hc. destruct (shutdownOnce s) eqn:Ho; [done|].
  by destruct (inv_open _ Hinv _ _ _ Ht Hs Ho) as [_ ?].
Qed.

Lemma pstep_inv p q : step p q → inv p → inv q.
Proof.
  destruct 1 as [p i t e Ht Hpc He|p i t Ht Hpc Hearly Hfree|p i t e Ht Hpc Huse Hnc|p i t sh ok sh' Ht Hpc Hsh Hreg
    |p i t Ht Hpc Hearly Hnc Hfree|p i t Ht Hpc Hc|p i t e Ht Hpc Hnc He|p i t name e sh Ht Hpc He Hsh
    |p r n cfg Hr Hpc Hc|p r n sh Hr Hpc Hsh|p r n sh Hr Hpc Hsh Hd|p r n sh e Hr Hpc Hsh He|p r n sh Hr Hpc Hsh
    |p r n res Hm Hr Hpc|p r n load Hm Hr Hl|p r n load cfg sh Hm Hr Hl Hsh|p r n cfg res Hm Hr Hpc]; intros Hinv.
  - by apply inv_set_thread.
  - apply inv_set_thread; [done..| |by right]. unfold is_registered. simpl. by rewrite Hearly.
  - by apply inv_set_thread.
  - destruct (inv_register _ _ _ _ _ _ _ Hinv Ht Hsh Hreg) as [H1 H2].
    pose proof (share_put _ _ _ sh' Hsh) as [Hs _]%share_Some.
    apply (inv_set_thread (put (th_srv t) sh' p)); [done..| | |].
    + rewrite Hs. intros s [= <-] Ho. destruct ok; [by destruct (ss_early _)|congruence].
    + rewrite Hs. intros s [= <-]. destruct ok; [done|]. done.
    + unfold holds_address. simpl. destruct ok; [|done]. rewrite Hpc. by destruct (ss_early (th_spec t)); [left|].
  - apply inv_set_thread; [done..| |by right]. intros s Hs _. eapply (inv_reg _ Hinv i t s); [done..|].
    unfold is_registered. by rewrite Hpc, Hearly.
  - apply inv_set_thread; [done..| |done|done]. intros s Hs Ho _.
    pose proof (closed_stopped _ _ _ _ Hinv Ht Hs Hc). congruence.
  - by apply inv_set_thread.
  - destruct (inv_recovery _ _ _ name _ Hinv Hsh He) as [H1 H2].
    pose proof (share_put _ _ _ (runWithRecovery name e sh) Hsh) as [Hs _]%share_Some.
    apply (inv_set_thread (put (th_srv t) _ p)); [done..| |done|done]. rewrite Hs. intros s [= <-]. congruence.
  - by apply inv_run_starts.
  - apply (inv_advance (put _ _ p)); [|done|by rewrite Hpc]. eapply inv_soft; [done..|apply ready_soft].
  - apply inv_advance; [done..|by rewrite Hpc].
  - apply (inv_advance (put _ _ p)); [|done|by rewrite Hpc].
    pose proof (inv_soft _ _ _ _ Hinv Hsh (errch_soft None sh)) as H1.
    pose proof (inv_critical _ _ _ H1 (share_put _ _ _ _ Hsh)) as [H2 _]. by rewrite put_put in H2.
  - by apply inv_critical.
  - by apply inv_set_main.
  - apply inv_set_main, inv_add_runner; [done|]. by eapply inv_runner_dom.
  - apply inv_set_main. by apply inv_shutdown.
  - apply inv_set_main, inv_add_runner; [by apply inv_add_server|]. simpl. rewrite length_app. simpl. lia.
Qed.

Lemma reachable_inv cfg p : rtc step (initial cfg) p → inv p.
Proof.
  intros H. apply (rtc_ind_r inv (initial cfg)) in H; [done|apply inv_initial|].
  intros p1 p2 _ Hs IH. by eapply pstep_inv.
Qed.

(** ** Nothing is undone *)
Record grows (p q : process) : Prop := {
  gr_servers : ∀ k s, p_servers p !! k = Some s →
    ∃ s', p_servers q !! k = Some s' ∧ (shutdownOnce s = true → shutdownOnce s' = true);
  gr_runners : ∀ r n, p_runners p !! r = Some n →
    ∃ n', p_runners q !! r = Some n' ∧ rn_srv n' = rn_srv n ∧ (rn_pc n ≠ RStart → rn_pc n' ≠ RStart);
  gr_configs : ∀ k c, p_configs p !! k = Some c → p_configs q !! k = Some c;
}.

#[local] Instance grows_refl : Reflexive grows.
Proof. intros p. split; eauto. Qed.
#[local] Instance grows_trans : Transitive grows.
Proof.
  intros a b c [A1 A2 A3] [B1 B2 B3]. split.
  - intros k s Hs. destruct (A1 _ _ Hs) as (s1 & H1 & F1). destruct (B1 _ _ H1) as (s2 & H2 & F2). eauto.
  - intros r n Hn. destruct (A2 _ _ Hn) as (n1 & H1 & E1 & F1). destruct (B2 _ _ H1) as (n2 & H2 & E2 & F2).
    exists n2. split; [done|]. split; [congruence|auto].
  - eauto.
Qed.

Lemma grows_put k sh sh' p :
  share k p = Some sh → (shutdownOnce (sh_srv sh) = true → shutdownOnce (sh_srv sh') = true) → grows p (put k sh' p).
Proof.
  intros [Hk _]%share_Some Hm. split; simpl; [|eauto|done]. intros j s Hj. destruct (decide (j = k)) as [->|Hne].
  - exists (sh_srv sh'). simplify_eq. split; [|done]. apply list_lookup_insert_eq. by eapply lookup_lt_Some.
  - exists s. by rewrite list_lookup_insert_ne.
Qed.

Lemma grows_runner r n c p :
  p_runners p !! r = Some n → (rn_pc n ≠ RStart → c ≠ RStart) → grows p (set_runner r (mkRunner (rn_srv n) c) p).
Proof.
  intros Hr Hc. split; simpl; [eauto| |done]. intros r' n' Hn. destruct (decide (r' = r)) as [->|Hne].
  - simplify_eq. eexists. split; [apply list_lookup_insert_eq; by eapply lookup_lt_Some|]. done.
  - exists n'. by rewrite list_lookup_insert_ne.
Qed.

Lemma Shutdown_once sh : shutdownOnce (sh_srv (Shutdown sh)) = true.
Proof. unfold Shutdown. by destruct (shutdownOnce (sh_srv sh)) eqn:H. Qed.

Lemma recovery_once name e sh : e ≠ Returned None → shutdownOnce (sh_srv (runWithRecovery name e sh)) = true.
Proof. destruct e as [[]|]; [|done|]; intros _; apply Shutdown_once. Qed.

Lemma register_once k i sh ok sh' :
  register k i sh = (ok, sh') → shutdownOnce (sh_srv sh') = shutdownOnce (sh_srv sh).
Proof. intros [(_ & _ & _ & _ & -> & _)|(_ & _ & ->)]%register_cases; done. Qed.

Lemma grows_set_thread i t p : grows p (set_thread i t p).
Proof. split; simpl; eauto. Qed.
Lemma grows_set_main m p : grows p (set_main m p).
Proof. split; simpl; eauto. Qed.
Lemma grows_spawn ts p : grows p (spawn ts p).
Proof. split; simpl; eauto. Qed.
Lemma grows_add_runner n p : grows p (add_runner n p).
Proof. split; simpl; [eauto| |done]. intros r n' H. exists n'. split; [by apply lookup_app_l_Some|done]. Qed.
Lemma grows_add_server c p : grows p (add_server c p).
Proof.
  split; simpl; [| |by intros; apply lookup_app_l_Some]; [|eauto].
  intros k s H. exists s. split; [by apply lookup_app_l_Some|done].
Qed.

Lemma pstep_grows p q : step p q → grows p q.
Proof.
  destruct 1 as [| | |p i t sh ok sh' Ht Hpc Hsh Hreg| | | |p i t name e sh Ht Hpc He Hsh
    |p r n cfg Hr Hpc Hc|p r n sh Hr Hpc Hsh|p r n sh Hr Hpc Hsh Hd|p r n sh e Hr Hpc Hsh He|p r n sh Hr Hpc Hsh
    |p r n res Hm Hr Hpc|p r n load Hm Hr Hl|p r n load cfg sh Hm Hr Hl Hsh|p r n cfg res Hm Hr Hpc];
    try apply grows_set_thread.
  - transitivity (put (th_srv t) sh' p); [|apply grows_set_thread]. eapply grows_put; [done|].
    by rewrite (register_once _ _ _ _ _ Hreg).
  - transitivity (put (th_srv t) (runWithRecovery name e sh) p); [|apply grows_set_thread]. eapply grows_put; [done|].
    intros _. by apply recovery_once.
  - transitivity (spawn (map (λ sp, mkThread (rn_srv n) r sp TStart) (starts cfg)) p); [apply grows_spawn|].
    by apply (grows_runner r n).
  - transitivity (put (rn_srv n) (SetReady true sh) p); [by eapply grows_put|]. by apply (grows_runner r n).
  - by apply (grows_runner r n).
  - transitivity (put (rn_srv n) (initiateCriticalShutdown (set_errch None sh)) p); [|by apply (grows_runner r n)].
    eapply grows_put; [done|]. intros _. apply Shutdown_once.
  - eapply grows_put; [done|]. intros _. apply Shutdown_once.
  - apply grows_set_main.
  - etransitivity; [apply grows_add_runner|apply grows_set_main].
  - etransitivity; [|apply grows_set_main]. eapply grows_put; [done|]. intros _. apply Shutdown_once.
  - etransitivity; [|apply grows_set_main]. etransitivity; [apply grows_add_server|apply grows_add_runner].
Qed.

Lemma steps_grow p q : rtc step p q → grows p q.
Proof. induction 1; [done|]. etransitivity; [by apply pstep_grows|done]. Qed.

(** ** Shutdown *)

(** C10: shutdown is final and complete.  In every reachable state of the process,
    a server that was shut down closed its [done] channel exactly once, has every
    listener that ever registered closed, and refuses and closes every listener
    that comes later, however its start raced with the shutdown. *)
Theorem shutdown_is_final (cfg : Config) (p : process) (k : nat) (s : Server) :
  rtc step (initial cfg) p → p_servers p !! k = Some s → shutdownOnce s = true →
  done s = 1 ∧
  (∀ i t, p_threads p !! i = Some t → th_srv t = k → is_registered t = true → i ∈ p_closed p) ∧
  (∀ kind i sh, share k p = Some sh → ∃ sh', register kind i sh = (false, sh') ∧ i ∈ sh_closed sh' ∧
     registered (sh_srv sh') = registered s).
Proof.
  intros Hinv%reachable_inv Hs Ho. destruct (inv_once _ Hinv _ _ Hs) as [Hst Hd]. rewrite Ho in Hst, Hd.
  split; [done|]. split.
  - intros i t Ht He Hr. eapply inv_shut; [done..|]. eapply (inv_reg _ Hinv i t s); [done|by rewrite He|done].
  - intros kind i sh [Hk _]%share_Some. exists (close_one i sh). assert (sh_srv sh = s) as He by congruence. split.
    + destruct kind; simpl; unfold registerHTTPServer, registerHTTP3Server, registerHTTPMultiServer, registerTCPListener;
        by rewrite He, Hst.
    + simpl. split; [set_solver|by rewrite He].
Qed.

(** No address is served twice: in every reachable state, two listeners that
    hold the same address with a fixed port and are both open are the same listener, even across a
    reload. *)
Lemma addresses_exclusive (cfg : Config) (p : process) (i j : nat) (t u : thread) :
  rtc step (initial cfg) p → p_threads p !! i = Some t → p_threads p !! j = Some u →
  holds_address t = true → holds_address u = true → i ∉ p_closed p → j ∉ p_closed p →
  ss_addr (th_spec t) = ss_addr (th_spec u) → ephemeral (ss_addr (th_spec t)) = false → i = j.
Proof.
  intros Hinv%reachable_inv Ht Hu H1 H2 Hi Hj Ha He. destruct (decide (i = j)) as [|Hne]; [done|].
  by destruct (inv_exclusive _ Hinv i j t u Ht Hu Hne H1 H2 Ha He).
Qed.

(** ** Reload *)

Definition once_at (k : nat) (p : process) : Prop := ∃ s, p_servers p !! k = Some s ∧ shutdownOnce s = true.

Lemma once_grows k p q : grows p q → once_at k p → once_at k q.
Proof. intros [H _ _] (s & Hs & Ho). destruct (H _ _ Hs) as (s' & ? & ?). exists s'. auto. Qed.

(** The main loop runs the newest server; all older ones are shut down. *)
Definition main_ok (p : process) : Prop :=
  (∀ k, S k < length (p_servers p) → once_at k p) ∧
  match p_main p with
  | MSelect r => ∃ n, p_runners p !! r = Some n ∧ S (rn_srv n) = length (p_servers p)
  | MAwait r _ => ∃ n, p_runners p !! r = Some n ∧ S (rn_srv n) = length (p_servers p) ∧ once_at (rn_srv n) p
  | MExit _ => True
  end.

(** A step that neither moves the main loop nor adds a server. *)
Lemma main_ok_grows p q :
  grows p q → length (p_servers q) = length (p_servers p) → p_main q = p_main p → main_ok p → main_ok q.
Proof.
  intros Hg Hl Hm [H1 H2]. unfold main_ok. rewrite Hl, Hm. split.
  - intros k Hk. eapply once_grows; [done|auto].
  - destruct (p_main p) as [r|r c|e]; [| |done].
    + destruct H2 as (n & Hn & He). destruct (gr_runners _ _ Hg _ _ Hn) as (n' & Hn' & Hs & _).
      exists n'. by rewrite Hs.
    + destruct H2 as (n & Hn & He & Ho). destruct (gr_runners _ _ Hg _ _ Hn) as (n' & Hn' & Hs & _).
      exists n'. rewrite Hs. split; [done|]. split; [done|]. by eapply once_grows.
Qed.

Lemma pstep_main p q : step p q → main_ok p → main_ok q.
Proof.
  intros Hstep Hok. pose proof (pstep_grows _ _ Hstep) as Hg.
  destruct Hstep as [| | | | | | | | | | | | |p r n res Hm Hr Hpc|p r n load Hm Hr Hl|p r n load cfg sh Hm Hr Hl Hsh|p r n cfg res Hm Hr Hpc];
    try (eapply main_ok_grows; [exact Hg|simpl; by rewrite ?length_insert|reflexivity|exact Hok]);
    destruct Hok as [H1 H2]; rewrite Hm in H2.
  - by split.
  - destruct H2 as (n' & Hn & He). split; simpl; [done|]. exists (mkRunner (rn_srv n) RStart).
    rewrite lookup_app_r, Nat.sub_diag by lia. by simplify_eq.
  - destruct H2 as (n' & Hn & He). simplify_eq. split; simpl; rewrite length_insert.
    + intros j Hj. eapply once_grows; [exact Hg|auto].
    + exists n. split; [done|]. split; [done|]. apply share_Some in Hsh as [Hk _]. eexists.
      split; [apply list_lookup_insert_eq; by eapply lookup_lt_Some|apply Shutdown_once].
  - destruct H2 as (n' & Hn & He & Ho). simplify_eq. split; simpl; rewrite length_app; simpl.
    + intros j Hj. eapply once_grows; [exact Hg|].
      destruct (decide (S j < length (p_servers p))); [by apply H1|]. replace j with (rn_srv n) by lia. done.
    + exists (mkRunner (length (p_servers p)) RStart). rewrite lookup_app_r, Nat.sub_diag by lia. simpl. split; [done|lia].
Qed.

(** After a successful reload the old instance is gone.  In every reachable
    state, every server but the newest has been shut down, so all of its
    registered listeners are closed. *)
Theorem reload_closes_old_servers (cfg : Config) (p : process) (k i : nat) (t : thread) :
  rtc step (initial cfg) p → S k < length (p_servers p) →
  p_threads p !! i = Some t → th_srv t = k → is_registered t = true → i ∈ p_closed p.
Proof.
  intros Hr Hk Ht He Hreg. assert (main_ok p) as [Hold _].
  { apply (rtc_ind_r main_ok (initial cfg)) in Hr; [done| |].
    - split; simpl; [lia|]. by eexists.
    - intros p1 p2 _ Hs IH. by eapply pstep_main. }
  destruct (Hold k Hk) as (s & Hs & Ho). apply reachable_inv in Hr.
  eapply (inv_shut _ Hr k s i Hs Ho), (inv_reg _ Hr i t s); [done|by rewrite He|done].
Qed.

(** Two calls of [Run] on one server cannot both bring up its listeners. *)
Lemma two_runs_stop p r r' n n' c sp :
  inv p → r ≠ r' → p_runners p !! r = Some n → p_runners p !! r' = Some n' → rn_srv n = rn_srv n' →
  rn_pc n ≠ RStart → rn_pc n' ≠ RStart → p_configs p !! rn_srv n = Some c →
  sp ∈ starts c → ephemeral (ss_addr sp) = false →
  (∀ i t, p_threads p !! i = Some t → th_srv t = rn_srv n → th_pc t = TServing ∨ th_pc t = TEnded) →
  once_at (rn_srv n) p.
Proof.
  intros Hinv Hne Hr Hr' He Hp Hp' Hc Hst Hfix Hset.
  destruct (inv_started _ Hinv r n c sp Hr Hp Hc) as (i & t & Ht & T1 & T2 & T3); [done|].
  destruct (inv_started _ Hinv r' n' c sp Hr' Hp') as (j & u & Hu & U1 & U2 & U3); [by rewrite <- He|done|].
  assert (i ≠ j) as Hij by (intros ->; congruence).
  destruct (lookup_lt_is_Some_2 (p_servers p) (rn_srv n)) as [s Hsv]; [by eapply inv_runner_dom|].
  exists s. split; [done|]. destruct (shutdownOnce s) eqn:Ho; [done|].
  rewrite <- T1 in Hsv. destruct (inv_open _ Hinv i t s Ht Hsv Ho) as [P1 P2].
  assert (p_servers p !! th_srv u = Some s) as Hsv' by (rewrite U1, <- He, <- T1; exact Hsv).
  destruct (inv_open _ Hinv j u s Hu Hsv' Ho) as [Q1 Q2].
  destruct (Hset i t Ht T1) as [Ht'|?]; [|done]. destruct (Hset j u Hu (eq_trans U1 (eq_sym He))) as [Hu'|?]; [|done].
  destruct (inv_exclusive _ Hinv i j t u Ht Hu Hij); try done; unfold holds_address; by rewrite ?Ht', ?Hu', ?T3, ?U3.
Qed.

(** C12: a failed reload takes the server down.  When the new configuration cannot
    be loaded or built while a server runs that has a listener with a fixed port or
    a Unix socket, the loop calls [Run] on the running server again; as soon as the
    listeners of both calls have settled, serving or ended, the server has been shut
    down. *)
Theorem failed_reload_stops_server (cfg : Config) (p q : process) (r : nat) (n n' : runner) (load : result string Config)
    (c : Config) (sp : startSpec) :
  rtc step (initial cfg) p → p_main p = MSelect r → p_runners p !! r = Some n → rn_pc n ≠ RStart →
  reload_config x url_Parse ParseIP load = None → p_configs p !! rn_srv n = Some c →
  sp ∈ starts c → ephemeral (ss_addr sp) = false →
  rtc step (set_main (MSelect (length (p_runners p))) (add_runner (mkRunner (rn_srv n) RStart) p)) q →
  p_runners q !! length (p_runners p) = Some n' → rn_pc n' ≠ RStart →
  (∀ i t, p_threads q !! i = Some t → th_srv t = rn_srv n → th_pc t = TServing ∨ th_pc t = TEnded) →
  ∃ s, p_servers q !! rn_srv n = Some s ∧ shutdownOnce s = true.
Proof.
  intros Hp Hm Hr Hpc Hload Hc Hst Hfix Hq Hn' Hpc' Hset.
  set (p1 := set_main (MSelect (length (p_runners p))) (add_runner (mkRunner (rn_srv n) RStart) p)) in *.
  assert (step p p1) as Hstep by by eapply step_reload_fails.
  assert (inv q) as Hinv by (eapply reachable_inv, rtc_trans; [exact Hp|eapply rtc_l; [exact Hstep|exact Hq]]).
  pose proof (steps_grow _ _ Hq) as Hg.
  destruct (gr_runners _ _ Hg (length (p_runners p)) (mkRunner (rn_srv n) RStart)) as (n1 & Hn1 & Hs1 & _).
  { unfold p1. simpl. by rewrite lookup_app_r, Nat.sub_diag by lia. }
  assert (n1 = n') as -> by congruence.
  destruct (gr_runners _ _ Hg r n) as (n2 & Hn2 & Hs2 & Hpc2); [by apply lookup_app_l_Some|].
  rewrite <- Hs2. eapply (two_runs_stop q r (length (p_runners p)) n2 n' c sp); try done.
  - apply lookup_lt_Some in Hr. lia.
  - by rewrite Hs1, Hs2.
  - by apply Hpc2.
  - rewrite Hs2. by apply (gr_configs _ _ Hg).
  - by rewrite Hs2.
Qed.
End runs.

(** ** A concrete life *)
Definition one_config : Config :=
  mkConfig (mkAdmin "" false no_tls []) [sample_listener "web" "http" ":8080"] [] [sample_route_config "root" "/"] "".
Definition web : startSpec := mkStart KHttp false ("tcp", ":8080").

Definition srv_with (ids : list nat) (shut : bool) (err : option string) : Server :=
  mkSrv ids [] [] [] shut shut shut (if shut then 1 else 0) err.

(** The server is up: the listener serves and [Run] waits. *)
Definition up : process :=
  mkProcess [one_config] [srv_with [0] false None] [mkThread 0 0 web TServing] [mkRunner 0 RWait] (MSelect 0) ∅ true.

Section concrete.
  Context (x : externals) (url_Parse : string → option parsedURL) (ParseIP : string → option (string * bool)).
  Notation step := (pstep x url_Parse ParseIP).

Lemma comes_up : rtc step (initial one_config) up.
Proof.
  eapply rtc_l; [by eapply (step_run_starts _ _ _ (initial one_config) 0 (mkRunner 0 RStart) one_config)|].
  eapply rtc_l; [by eapply (step_register _ _ _ _ 0 (mkThread 0 0 web TStart))|].
  eapply rtc_l.
  { eapply (step_bind_late _ _ _ _ 0 (mkThread 0 0 web TReady)); [done..|by apply not_elem_of_empty|].
    intros (_ & [|j] & t & Ht & Hh & _); simplify_eq/=. }
  eapply rtc_l; [by eapply (step_run_ready _ _ _ _ 0 (mkRunner 0 RStarted))|]. apply rtc_refl.
Qed.

(** A signal shuts it down. *)
Lemma goes_down : rtc step up (put 0 (waitForShutdown (mkShared (srv_with [0] false None) ∅ true)) up).
Proof. apply rtc_once. by eapply (step_signal _ _ _ up 0 (mkRunner 0 RWait)). Qed.

(** The state a failed reload leads to once the second start has failed. *)
Definition after_failed_reload : process :=
  set_main (MSelect 1) (add_runner (mkRunner 0 RStart) up).
Definition after_second_start : process :=
  set_thread 1 (mkThread 0 1 web TEnded)
    (put 0 (runWithRecovery "web" (Returned (Some "address already in use")) (mkShared (srv_with [0; 1] false None) ∅ true))
       (mkProcess [one_config] [srv_with [0; 1] false None] [mkThread 0 0 web TServing; mkThread 0 1 web TEnded]
          [mkRunner 0 RWait; mkRunner 0 RStarted] (MSelect 1) ∅ true)).

Lemma second_start_fails : rtc step after_failed_reload after_second_start.
Proof.
  eapply rtc_l; [by eapply (step_run_starts _ _ _ after_failed_reload 1 (mkRunner 0 RStart) one_config)|].
  eapply rtc_l; [by eapply (step_register _ _ _ _ 1 (mkThread 0 1 web TStart))|].
  eapply rtc_l.
  { eapply (step_bind_fails _ _ _ _ 1 (mkThread 0 1 web TReady)); [done..| |by apply not_elem_of_empty].
    split; [done|]. exists 0, (mkThread 0 0 web TServing). by repeat split; try apply not_elem_of_empty. }
  eapply rtc_l; [by eapply (step_recover _ _ _ _ 1 (mkThread 0 1 web (TFailed (Returned (Some "address already in use")))) "web")|].
  apply rtc_refl.
Qed.
End concrete.

Definition shut_down : process := put 0 (waitForShutdown (mkShared (srv_with [0] false None) ∅ true)) up.

Lemma shutdown_is_final_witness :
  rtc (pstep sample_externals sample_url (λ _, None)) (initial one_config) shut_down ∧ done (srv_with [0] true None) = 1.
Proof.
  assert (rtc (pstep sample_externals sample_url (λ _, None)) (initial one_config) shut_down) as Hr
    by (eapply rtc_trans; [apply comes_up|apply goes_down]).
  split; [exact Hr|].
  apply (shutdown_is_final sample_externals sample_url (λ _, None) one_config _ 0 (srv_with [0] true None) Hr); reflexivity.
Defined.

Lemma failed_reload_stops_server_witness :
  rtc (pstep sample_externals sample_url (λ _, None)) (initial one_config) up ∧
  ∃ s, p_servers after_second_start !! 0 = Some s ∧ shutdownOnce s = true.
Proof.
  split; [apply comes_up|].
  apply (failed_reload_stops_server sample_externals sample_url (λ _, None) one_config up after_second_start 0
           (mkRunner 0 RWait) (mkRunner 0 RStarted) (Err "bad file") one_config web);
    try reflexivity; try discriminate; [apply comes_up|by left|apply second_start_fails|].
  intros [|[|i]] t Ht; simplify_eq/=; auto.
Defined.

(** A successful reload: shutdown, the old [Run] returns, a second server starts. *)
Definition reloaded : process :=
  set_main (MSelect 1) (add_runner (mkRunner 1 RStart) (add_server one_config
    (set_runner 0 (mkRunner 0 (RDone None))
       (set_main (MAwait 0 one_config) (put 0 (Shutdown (mkShared (srv_with [0] false None) ∅ true)) up))))).

Lemma reload_succeeds : rtc (pstep sample_externals sample_url (λ _, None)) up reloaded.
Proof.
  eapply rtc_l.
  { eapply (step_reload _ _ _ up 0 (mkRunner 0 RWait) (Ok one_config) one_config); [done|done|vm_compute; reflexivity|done]. }
  eapply rtc_l; [eapply (step_run_done _ _ _ _ 0 (mkRunner 0 RWait)); [done..|simpl; lia]|].
  eapply rtc_l; [by eapply (step_restart _ _ _ _ 0 (mkRunner 0 (RDone None)) one_config None)|]. apply rtc_refl.
Qed.

Lemma reload_closes_old_servers_witness :
  rtc (pstep sample_externals sample_url (λ _, None)) (initial one_config) reloaded ∧ 0 ∈ p_closed reloaded.
Proof.
  assert (rtc (pstep sample_externals sample_url (λ _, None)) (initial one_config) reloaded) as Hr
    by (eapply rtc_trans; [apply comes_up|apply reload_succeeds]).
  split; [exact Hr|].
  apply (reload_closes_old_servers sample_externals sample_url (λ _, None) one_config reloaded 0 0
           (mkThread 0 0 web TServing) Hr); [simpl; lia|reflexivity..].
Defined.
