(* ===== verification/Writers.v ===== *)
(** * Response writers that keep the status

    Models the response writers of [pkg/routing/builtin_logging.go],
    [pkg/metrics/metrics.go] and, beyond [Backend.v], of
    [pkg/backend/backend.go]: the optional interfaces they pass on (flushing,
    hijacking, pushing, copying), what status they record, and when the client
    sees the same answer as without them. *)

From S2P Require Import Prelude GoStd GoHttp Backend.
Open Scope Z_scope.

(** ** The writer of the server

    With the optional interfaces it has, and what was done through them. *)
Record conn : Type := mkConn {
  cn_writer : writer;
  cn_flusher : bool; cn_hijacker : bool; cn_pusher : bool; cn_readerFrom : bool;
  cn_pushed : list string;
  cn_hijacked : bool;
}.
Definition set_writer (w : writer) (c : conn) : conn :=
  mkConn w (cn_flusher c) (cn_hijacker c) (cn_pusher c) (cn_readerFrom c) (cn_pushed c) (cn_hijacked c).

(** What is written after the connection was hijacked is lost. *)
Definition on_writer (f : writer → writer) (c : conn) : conn :=
  if cn_hijacked c then c else set_writer (f (cn_writer c)) c.

(** The first flush sends the headers. *)
Definition flush_header (w : writer) : writer :=
  match w_reply w with Some _ => w | None => WriteHeader 200 w end.
Definition net_Flush : conn → conn := on_writer flush_header.
Definition net_Hijack (c : conn) : conn :=
  mkConn (cn_writer c) (cn_flusher c) (cn_hijacker c) (cn_pusher c) (cn_readerFrom c) (cn_pushed c) true.
Definition net_Push (target : string) (c : conn) : conn :=
  mkConn (cn_writer c) (cn_flusher c) (cn_hijacker c) (cn_pusher c) (cn_readerFrom c) (cn_pushed c ++ [target]) (cn_hijacked c).
Definition net_Write (body : string) : conn → conn := on_writer (Write body).

(** [io.Copy] and the server's own [ReadFrom] write what there is to copy: for
    an empty body they write nothing, not even a header. *)
Definition net_ReadFrom (body : string) (c : conn) : conn :=
  if String.eqb body "" then c else net_Write body c.

(** The calls of a handler: [CHeader] is a change of the header map, [CReadFrom]
    the copy of a body. *)
Inductive call : Type :=
  | CHeader (f : header → header) | CWriteHeader (status : Z) | CWrite (body : string)
  | CFlush | CHijack | CPush (target : string) | CReadFrom (body : string).

(** The calls on the writer of the server itself. *)
Definition net_call (k : call) (c : conn) : conn :=
  match k with
  | CHeader f => on_writer (map_header f) c
  | CWriteHeader s => on_writer (WriteHeader s) c
  | CWrite b => net_Write b c
  | CFlush => if cn_flusher c then net_Flush c else c
  | CHijack => if cn_hijacker c then net_Hijack c else c
  | CPush t => if cn_pusher c then net_Push t c else c
  | CReadFrom b => net_ReadFrom b c
  end.
Definition net_calls (ks : list call) (c : conn) : conn := fold_left (λ c k, net_call k c) ks c.

(** ** The wrappers *)
Record wrapped : Type := mkWrapped { wr_inner : conn; wr_status : Z }.
Definition on_inner (f : conn → conn) (w : wrapped) : wrapped := mkWrapped (f (wr_inner w)) (wr_status w).

(** [loggingResponseWriter] *)
Definition lrw_WriteHeader (status : Z) (w : wrapped) : wrapped :=
  if negb (wr_status w =? 0) then w
  else if (100 <=? status) && (status <? 200) && negb (status =? 101) then on_inner (net_call (CWriteHeader status)) w
  else mkWrapped (net_call (CWriteHeader status) (wr_inner w)) status.

Definition lrw_first (w : wrapped) : wrapped := if wr_status w =? 0 then lrw_WriteHeader 200 w else w.

Definition lrw_Write (body : string) (w : wrapped) : wrapped := on_inner (net_Write body) (lrw_first w).

Definition lrw_Flush (w : wrapped) : wrapped :=
  let w := lrw_first w in if cn_flusher (wr_inner w) then on_inner net_Flush w else w.

Definition lrw_Hijack (w : wrapped) : result string unit * wrapped :=
  if negb (cn_hijacker (wr_inner w)) then (Err "response writer does not support hijacking", w)
  else (Ok tt, on_inner net_Hijack w).

Definition lrw_Push (target : string) (w : wrapped) : result string unit * wrapped :=
  if negb (cn_pusher (wr_inner w)) then (Err "feature not supported", w) else (Ok tt, on_inner (net_Push target) w).

(** Through the writer's [ReadFrom] where it has one, else [io.Copy]. *)
Definition copy_to (body : string) (c : conn) : conn :=
  if cn_readerFrom c then net_ReadFrom body c
  else if String.eqb body "" then c else net_Write body c.

Definition lrw_ReadFrom (body : string) (w : wrapped) : wrapped := on_inner (copy_to body) (lrw_first w).

Definition lrw_call (k : call) (w : wrapped) : wrapped :=
  match k with
  | CHeader f => on_inner (net_call (CHeader f)) w
  | CWriteHeader s => lrw_WriteHeader s w
  | CWrite b => lrw_Write b w
  | CFlush => lrw_Flush w
  | CHijack => (lrw_Hijack w).2
  | CPush t => (lrw_Push t w).2
  | CReadFrom b => lrw_ReadFrom b w
  end.
Definition lrw_calls (ks : list call) (w : wrapped) : wrapped := fold_left (λ w k, lrw_call k w) ks w.

(** ** The response writer of the metrics package *)
Record responseWriter : Type := mkIRW { irw_inner : writer; irw_status : Z }.

Definition irw_WriteHeader (status : Z) (w : responseWriter) : responseWriter :=
  if negb (irw_status w =? 0) then w else mkIRW (WriteHeader status (irw_inner w)) status.

Definition irw_Write (body : string) (w : responseWriter) : responseWriter :=
  let w := if irw_status w =? 0 then irw_WriteHeader 200 w else w in
  mkIRW (Write body (irw_inner w)) (irw_status w).

(** The same two calls on the server's writer, and the optional interfaces. *)
Definition on_irw (f : responseWriter → responseWriter) (w : wrapped) : wrapped :=
  let i := f (mkIRW (cn_writer (wr_inner w)) (wr_status w)) in
  mkWrapped (on_writer (λ _, irw_inner i) (wr_inner w)) (irw_status i).

Definition irw_Flush (w : wrapped) : wrapped := if cn_flusher (wr_inner w) then on_inner net_Flush w else w.

Definition irw_Hijack (w : wrapped) : result string unit * wrapped :=
  if negb (cn_hijacker (wr_inner w)) then (Err "response writer does not support hijacking", w)
  else (Ok tt, on_inner net_Hijack w).

Definition irw_Push (target : string) (w : wrapped) : result string unit * wrapped :=
  if negb (cn_pusher (wr_inner w)) then (Err "feature not supported", w) else (Ok tt, on_inner (net_Push target) w).

Definition irw_ReadFrom (body : string) (w : wrapped) : wrapped :=
  let w := if wr_status w =? 0 then on_irw (irw_WriteHeader 200) w else w in on_inner (copy_to body) w.

Definition irw_call (k : call) (w : wrapped) : wrapped :=
  match k with
  | CHeader f => on_inner (net_call (CHeader f)) w
  | CWriteHeader s => on_irw (irw_WriteHeader s) w
  | CWrite b => on_irw (irw_Write b) w
  | CFlush => irw_Flush w
  | CHijack => (irw_Hijack w).2
  | CPush t => (irw_Push t w).2
  | CReadFrom b => irw_ReadFrom b w
  end.
Definition irw_calls (ks : list call) (w : wrapped) : wrapped := fold_left (λ w k, irw_call k w) ks w.

(** [backend.metricsResponseWriter]: its WriteHeader and Write are those of [Backend]. *)
Definition on_mrw (f : metricsResponseWriter → metricsResponseWriter) (w : wrapped) : wrapped :=
  let i := f (mkMRW (cn_writer (wr_inner w)) (wr_status w)) in
  mkWrapped (on_writer (λ _, mrw_inner i) (wr_inner w)) (mrw_status i).

Definition mrw_Flush (w : wrapped) : wrapped := if cn_flusher (wr_inner w) then on_inner net_Flush w else w.

Definition mrw_Hijack (w : wrapped) : result string unit * wrapped :=
  if negb (cn_hijacker (wr_inner w)) then (Err "response writer does not support hijacking", w)
  else (Ok tt, on_inner net_Hijack w).

Definition mrw_Push (target : string) (w : wrapped) : result string unit * wrapped :=
  if negb (cn_pusher (wr_inner w)) then (Err "feature not supported", w) else (Ok tt, on_inner (net_Push target) w).

Definition mrw_ReadFrom (body : string) (w : wrapped) : wrapped :=
  let w := if wr_status w =? 0 then on_mrw (mrw_WriteHeader 200) w else w in on_inner (copy_to body) w.

Definition mrw_call (k : call) (w : wrapped) : wrapped :=
  match k with
  | CHeader f => on_inner (net_call (CHeader f)) w
  | CWriteHeader s => on_mrw (mrw_WriteHeader s) w
  | CWrite b => on_mrw (mrw_Write b) w
  | CFlush => mrw_Flush w
  | CHijack => (mrw_Hijack w).2
  | CPush t => (mrw_Push t w).2
  | CReadFrom b => mrw_ReadFrom b w
  end.
Definition mrw_calls (ks : list call) (w : wrapped) : wrapped := fold_left (λ w k, mrw_call k w) ks w.

(** ** When a wrapper changes nothing *)

(** The statuses after which another one may follow. *)
Definition informational (s : Z) : bool := (100 <=? s) && (s <? 200) && negb (s =? 101).

(** The first call that sends a header copies an empty body. *)
Fixpoint empty_copy_first (ks : list call) : bool :=
  match ks with
  | [] | CWrite _ :: _ | CFlush :: _ => false
  | CReadFrom b :: _ => String.eqb b ""
  | CWriteHeader s :: ks' => informational s && empty_copy_first ks'
  | _ :: ks' => empty_copy_first ks'
  end.

(** The answer starts with a final status or with bytes of the body: no
    informational status, flush or empty copy comes before. *)
Fixpoint plain_start (ks : list call) : bool :=
  match ks with
  | [] | CWrite _ :: _ => true
  | CFlush :: _ => false
  | CReadFrom b :: _ => negb (String.eqb b "")
  | CWriteHeader s :: _ => negb (informational s)
  | _ :: ks' => plain_start ks'
  end.

(** The recorded status is the one that was sent, 0 before that. *)
Definition records (w : wrapped) : Prop :=
  wr_status w = match status_of (cn_writer (wr_inner w)) with Some s => s | None => 0 end ∧
  match status_of (cn_writer (wr_inner w)) with Some s => s ≠ 0 | None => True end.

Definition valid_call (k : call) : Prop := match k with CWriteHeader s => 100 ≤ s ≤ 999 | _ => True end.

Definition sent (c : conn) : Prop := w_reply (cn_writer c) ≠ None.

#[local] Arguments WriteHeader : simpl never.

Lemma on_writer_open f c : cn_hijacked c = false → on_writer f c = set_writer (f (cn_writer c)) c.
Proof. unfold on_writer. by intros ->. Qed.
Lemma on_writer_hijacked f c : cn_hijacked c = true → on_writer f c = c.
Proof. unfold on_writer. by intros ->. Qed.
Lemma set_writer_id c : set_writer (cn_writer c) c = c.
Proof. by destruct c. Qed.
Lemma set_writer_twice w w' c : set_writer w (set_writer w' c) = set_writer w c.
Proof. done. Qed.

Lemma informational_le s : (100 <=? s) && (s <=? 199) && negb (s =? 101) = informational s.
Proof. unfold informational. f_equal. f_equal. destruct (Z.ltb_spec s 200), (Z.leb_spec s 199); lia. Qed.

Lemma WriteHeader_final s w :
  informational s = false → w_reply w = None → WriteHeader s w = mkWriter (w_header w) (Some (s, w_header w)) (w_body w).
Proof. intros Hs Hw. unfold WriteHeader. by rewrite informational_le, Hs, Hw. Qed.

Lemma WriteHeader_informational s w : informational s = true → WriteHeader s w = w.
Proof. intros Hs. unfold WriteHeader. by rewrite informational_le, Hs. Qed.

Lemma WriteHeader_again s w : w_reply w ≠ None → WriteHeader s w = w.
Proof. unfold WriteHeader. intros H. destruct (_ && _); [done|]. by destruct (w_reply w). Qed.

Lemma flush_header_sent w : w_reply w ≠ None → flush_header w = w.
Proof. unfold flush_header. by destruct (w_reply w). Qed.

Lemma Write_flushed b w : Write b (flush_header w) = Write b w.
Proof. unfold Write, flush_header. destruct (w_reply w) eqn:Hw; rewrite ?Hw; [done|]. by rewrite WriteHeader_final. Qed.

Lemma Write_reply b w : w_reply (Write b w) = w_reply (flush_header w).
Proof. unfold Write, flush_header. by destruct (w_reply w). Qed.

Lemma Write_empty w : w_reply w ≠ None → Write "" w = w.
Proof. unfold Write. destruct w as [h [r|] b]; cbn; [|done]. by rewrite string_app_nil_r. Qed.

(** The two ways in which a wrapper and the writer of the server agree. *)
Lemma records_cases w : records w →
  (wr_status w = 0 ∧ w_reply (cn_writer (wr_inner w)) = None) ∨
  (wr_status w ≠ 0 ∧ sent (wr_inner w) ∧ status_of (cn_writer (wr_inner w)) = Some (wr_status w)).
Proof.
  unfold records, status_of, sent. destruct (w_reply (cn_writer (wr_inner w))) as [[s h]|]; cbn; [|naive_solver].
  intros [-> H]. right. done.
Qed.

Lemma copy_to_ReadFrom b c : copy_to b c = net_ReadFrom b c.
Proof. unfold copy_to, net_ReadFrom. by destruct (cn_readerFrom c). Qed.

(** A change of the server's writer that keeps what was sent keeps the record. *)
Lemma records_on_writer f w :
  w_reply (f (cn_writer (wr_inner w))) = w_reply (cn_writer (wr_inner w)) → records w → records (on_inner (on_writer f) w).
Proof.
  unfold records, on_inner, on_writer, status_of. cbn. intros Hf Hr. destruct (cn_hijacked _); [done|]. cbn. by rewrite Hf.
Qed.

(** The first byte sends 200, through the logging writer and without it. *)
Lemma lrw_first_spec w : records w → cn_hijacked (wr_inner w) = false →
  wr_inner (lrw_first w) = net_Flush (wr_inner w) ∧ records (lrw_first w) ∧ sent (wr_inner (lrw_first w)).
Proof.
  intros Hr Hh. unfold lrw_first, net_Flush. rewrite on_writer_open by done.
  destruct (records_cases w Hr) as [[Hs Hw]|(Hs & Hw & _)].
  - rewrite Hs. cbn [Z.eqb]. unfold lrw_WriteHeader, records, sent, status_of. rewrite Hs. cbn. rewrite on_writer_open by done.
    unfold flush_header. rewrite Hw. cbn. rewrite WriteHeader_final by done. done.
  - destruct (Z.eqb_spec (wr_status w) 0); [done|]. rewrite flush_header_sent by done. by rewrite set_writer_id.
Qed.

Lemma net_Write_flushed b c : net_Write b (net_Flush c) = net_Write b c.
Proof.
  unfold net_Write, net_Flush, on_writer. destruct (cn_hijacked c) eqn:H; [by rewrite H|]. cbn. rewrite H.
  by rewrite Write_flushed.
Qed.
Lemma net_Flush_sent c : sent c → net_Flush c = c.
Proof. intros H. unfold net_Flush, on_writer. rewrite flush_header_sent by done. rewrite set_writer_id. by destruct (cn_hijacked c). Qed.
Lemma net_ReadFrom_sent b c : sent c → net_ReadFrom b c = net_Write b c.
Proof.
  intros H. unfold net_ReadFrom, net_Write, on_writer. destruct (String.eqb_spec b "") as [->|]; [|done].
  rewrite Write_empty by done. rewrite set_writer_id. by destruct (cn_hijacked c).
Qed.
Lemma net_Flush_hijacked c : cn_hijacked (net_Flush c) = cn_hijacked c.
Proof. unfold net_Flush, on_writer. by destruct (cn_hijacked c) eqn:?. Qed.
Lemma net_Flush_flusher c : cn_flusher (net_Flush c) = cn_flusher c.
Proof. unfold net_Flush, on_writer. by destruct (cn_hijacked c). Qed.

(** Writing through the logging writer. *)
Lemma lrw_Write_spec b w : records w → cn_hijacked (wr_inner w) = false →
  wr_inner (lrw_Write b w) = net_Write b (wr_inner w) ∧ records (lrw_Write b w).
Proof.
  intros Hr Hh. destruct (lrw_first_spec w Hr Hh) as (Hi & Hr' & Hn). unfold lrw_Write. split.
  - cbn. by rewrite Hi, net_Write_flushed.
  - apply records_on_writer; [|done]. by rewrite Write_reply, flush_header_sent.
Qed.

Lemma lrw_WriteHeader_spec s w : 100 ≤ s ≤ 999 → records w → cn_hijacked (wr_inner w) = false →
  wr_inner (lrw_WriteHeader s w) = net_call (CWriteHeader s) (wr_inner w) ∧ records (lrw_WriteHeader s w).
Proof.
  intros Hv Hr Hh. unfold lrw_WriteHeader. cbn [net_call]. fold (informational s).
  destruct (records_cases w Hr) as [[Hs Hw]|(Hs & Hw & _)].
  - rewrite Hs. cbn [Z.eqb negb]. destruct (informational s) eqn:Hinfo; (split; [done|]).
    + apply records_on_writer; [|done]. by rewrite WriteHeader_informational.
    + unfold records, status_of. cbn. rewrite on_writer_open by done. cbn. rewrite WriteHeader_final by done. cbn. split; [done|lia].
  - destruct (Z.eqb_spec (wr_status w) 0); [done|]. cbn [negb]. split; [|done].
    rewrite on_writer_open by done. rewrite WriteHeader_again by done. by rewrite set_writer_id.
Qed.

(** One call, before the connection is hijacked. *)
Lemma lrw_call_open k w :
  valid_call k → cn_flusher (wr_inner w) = true → cn_hijacked (wr_inner w) = false → records w →
  sent (wr_inner w) ∨ k ≠ CReadFrom "" →
  wr_inner (lrw_call k w) = net_call k (wr_inner w) ∧ records (lrw_call k w).
Proof.
  intros Hv Hf Hh Hr Hc. pose proof (lrw_first_spec w Hr Hh) as (Hi & Hr' & Hn).
  destruct k as [f|s|b| | |t|b]; cbn [lrw_call].
  - split; [done|]. by apply records_on_writer.
  - by apply lrw_WriteHeader_spec.
  - by apply lrw_Write_spec.
  - cbn [net_call]. unfold lrw_Flush. rewrite Hi, net_Flush_flusher, Hf. unfold on_inner. cbn. rewrite net_Flush_sent by done.
    split; [done|]. by destruct (lrw_first w).
  - unfold lrw_Hijack. cbn [net_call]. by destruct (cn_hijacker (wr_inner w)).
  - unfold lrw_Push. cbn [net_call]. by destruct (cn_pusher (wr_inner w)).
  - destruct (lrw_Write_spec b w Hr Hh) as [Hw Hrw]. cbn [net_call].
    assert (lrw_ReadFrom b w = lrw_Write b w) as ->.
    { unfold lrw_ReadFrom, lrw_Write, on_inner. by rewrite copy_to_ReadFrom, net_ReadFrom_sent. }
    split; [|done]. rewrite Hw. destruct Hc as [Hc|Hc]; [by rewrite net_ReadFrom_sent|].
    unfold net_ReadFrom. destruct (String.eqb_spec b "") as [->|]; done.
Qed.

(** After a hijack nothing reaches the client, with and without the wrapper. *)
Lemma lrw_first_hijacked w : cn_hijacked (wr_inner w) = true → wr_inner (lrw_first w) = wr_inner w.
Proof.
  intros Hh. unfold lrw_first, lrw_WriteHeader, on_inner. cbn [net_call]. rewrite on_writer_hijacked by done.
  by destruct (wr_status w =? 0).
Qed.

Lemma lrw_call_hijacked k w : cn_hijacked (wr_inner w) = true → wr_inner (lrw_call k w) = net_call k (wr_inner w).
Proof.
  intros Hh. pose proof (lrw_first_hijacked w Hh) as Hi.
  destruct k as [f|s|b| | |t|b]; cbn [lrw_call net_call].
  - done.
  - unfold lrw_WriteHeader. fold (informational s). cbn [net_call]. rewrite on_writer_hijacked by done.
    destruct (negb _); [done|]. destruct (informational s); cbn; by rewrite ?on_writer_hijacked.
  - cbn. by rewrite Hi.
  - unfold lrw_Flush. rewrite Hi. destruct (cn_flusher (wr_inner w)); cbn; by rewrite Hi.
  - unfold lrw_Hijack. by destruct (cn_hijacker (wr_inner w)).
  - unfold lrw_Push. by destruct (cn_pusher (wr_inner w)).
  - cbn. by rewrite Hi, copy_to_ReadFrom.
Qed.

(** What a call keeps of the server's writer. *)
Definition kept_by (c c' : conn) : Prop :=
  cn_flusher c' = cn_flusher c ∧ (cn_hijacked c = true → cn_hijacked c' = true) ∧ (sent c → sent c').

Lemma on_writer_keeps f c : (sent c → w_reply (f (cn_writer c)) ≠ None) → kept_by c (on_writer f c).
Proof. intros Hf. unfold kept_by, on_writer, sent. by destruct (cn_hijacked c) eqn:?. Qed.

Lemma net_call_keeps k c : kept_by c (net_call k c).
Proof.
  assert (∀ b, kept_by c (net_Write b c)) as Hw.
  { intros b. apply on_writer_keeps. intros Hs. rewrite Write_reply. by rewrite flush_header_sent. }
  destruct k as [f|s|b| | |t|b]; cbn [net_call].
  - by apply on_writer_keeps.
  - apply on_writer_keeps. intros Hs. by rewrite WriteHeader_again.
  - apply Hw.
  - destruct (cn_flusher c); [|done]. apply on_writer_keeps. intros Hs. by rewrite flush_header_sent.
  - by destruct (cn_hijacker c).
  - by destruct (cn_pusher c).
  - unfold net_ReadFrom. by destruct (String.eqb b EmptyString).
Qed.

(** Either a header is out, or the remaining calls do not start with an empty copy. *)
Definition copies_late (ks : list call) (c : conn) : Prop := sent c ∨ empty_copy_first ks = false.

Lemma open_sends f c : cn_hijacked c = false → w_reply (f (cn_writer c)) ≠ None → sent (on_writer f c).
Proof. intros Hh Hf. by rewrite on_writer_open. Qed.

Lemma WriteHeader_sends s w : informational s = false → w_reply (WriteHeader s w) ≠ None.
Proof.
  intros Hi. destruct (w_reply w) eqn:Hw; [rewrite WriteHeader_again; congruence|]. by rewrite WriteHeader_final.
Qed.
Lemma flush_header_sends w : w_reply (flush_header w) ≠ None.
Proof. unfold flush_header. destruct (w_reply w) eqn:Hw; [congruence|by apply WriteHeader_sends]. Qed.

Lemma copies_late_step k ks c : cn_flusher c = true → cn_hijacked c = false →
  copies_late (k :: ks) c → copies_late ks (net_call k c).
Proof.
  intros Hf Hh [Hs|He]; [left; by apply net_call_keeps|].
  assert (∀ b, sent (net_Write b c)) as Hw by (intros b; apply open_sends; [done|rewrite Write_reply; apply flush_header_sends]).
  destruct k as [f|s|b| | |t|b]; cbn [net_call empty_copy_first] in He |- *; rewrite ?Hf; try by right.
  - destruct (informational s) eqn:Hi; [by right|left]. by apply open_sends, WriteHeader_sends.
  - left. apply Hw.
  - left. apply open_sends; [done|apply flush_header_sends].
  - left. unfold net_ReadFrom. rewrite He. apply Hw.
Qed.

Lemma lrw_calls_from (ks : list call) (w : wrapped) :
  Forall valid_call ks → cn_flusher (wr_inner w) = true →
  cn_hijacked (wr_inner w) = true ∨ (records w ∧ copies_late ks (wr_inner w)) →
  wr_inner (lrw_calls ks w) = net_calls ks (wr_inner w) ∧
  (cn_hijacked (wr_inner (lrw_calls ks w)) = false → records (lrw_calls ks w)).
Proof.
  intros Hv. revert w. induction Hv as [|k ks Hk _ IH]; intros w Hf Hi.
  - split; [done|]. cbn. intros Hh. destruct Hi as [Hi|[Hi _]]; [congruence|done].
  - cbn [lrw_calls net_calls fold_left]. fold (lrw_calls ks (lrw_call k w)). fold (net_calls ks (net_call k (wr_inner w))).
    destruct (net_call_keeps k (wr_inner w)) as (H1 & H2 & _).
    destruct (cn_hijacked (wr_inner w)) eqn:Hh.
    + rewrite <- (lrw_call_hijacked k w Hh) in *. apply IH; [congruence|]. left. auto.
    + destruct Hi as [Hi|[Hr Hc]]; [done|].
      destruct (lrw_call_open k w Hk Hf Hh Hr) as [E Hr'].
      { destruct Hc as [Hc|Hc]; [by left|right]. intros ->. done. }
      pose proof (copies_late_step k ks (wr_inner w) Hf Hh Hc) as Hc'. rewrite <- E in *. apply IH; [congruence|]. by right.
Qed.

Lemma fresh_records c : w_reply (cn_writer c) = None → records (mkWrapped c 0).
Proof. unfold records, status_of. cbn. by intros ->. Qed.

(** C34: the writer of the logging middleware is transparent.  Whatever calls a
    handler makes, in whatever order, as long as it does not start its answer by
    copying an empty body, the server's writer ends up exactly as if the handler
    had used it directly; and unless the connection was hijacked, the status that
    is kept for the log is the one the client received (none when the handler
    sent nothing). *)
Theorem logging_writer_transparent (calls : list call) (c : conn) :
  Forall valid_call calls → cn_flusher c = true → w_reply (cn_writer c) = None → empty_copy_first calls = false →
  let w := lrw_calls calls (mkWrapped c 0) in
  wr_inner w = net_calls calls c ∧
  (cn_hijacked (wr_inner w) = false →
   wr_status w = match status_of (cn_writer (wr_inner w)) with Some s => s | None => 0 end).
Proof.
  intros Hv Hf Hw He. destruct (lrw_calls_from calls (mkWrapped c 0) Hv Hf) as [H1 H2].
  { right. split; [by apply fresh_records|by right]. }
  split; [exact H1|]. intros Hh. by apply H2.
Qed.

(** On every call but a flush, the backend's writer does what the logging writer
    does; a flush sends the headers without recording their status. *)
Lemma mrw_is_lrw k w : k ≠ CFlush → mrw_call k w = lrw_call k w.
Proof.
  assert (∀ s w, on_mrw (mrw_WriteHeader s) w = lrw_WriteHeader s w) as Hh.
  { intros s [c st]. unfold on_mrw, mrw_WriteHeader, lrw_WriteHeader, on_inner. cbn. unfold on_writer.
    destruct (negb _); [by destruct c as [? ? ? ? ? ? []]|]. by destruct (_ && _), (cn_hijacked c). }
  intros Hk. destruct k as [f|s|b| | |t|b]; try done; cbn [mrw_call lrw_call]; [apply Hh| |].
  - unfold lrw_Write, lrw_first, lrw_WriteHeader, on_mrw, mrw_Write, mrw_WriteHeader.
    destruct w as [[? ? ? ? ? ? []] st]; cbn; destruct (st =? 0) eqn:Hs; cbn; by rewrite ?Hs.
  - unfold mrw_ReadFrom, lrw_ReadFrom, lrw_first. by rewrite Hh.
Qed.

(** Through the backend's writer, too, the server's writer ends up as after direct
    calls, and without flushes the recorded status is the one the client received. *)
Theorem backend_writer_transparent (calls : list call) (c : conn) :
  Forall valid_call calls → Forall (λ k, k ≠ CFlush) calls → cn_flusher c = true → w_reply (cn_writer c) = None →
  empty_copy_first calls = false →
  let w := mrw_calls calls (mkWrapped c 0) in
  wr_inner w = net_calls calls c ∧
  (cn_hijacked (wr_inner w) = false →
   wr_status w = match status_of (cn_writer (wr_inner w)) with Some s => s | None => 0 end).
Proof.
  intros Hv Hk Hf Hc He. assert (∀ w, mrw_calls calls w = lrw_calls calls w) as ->.
  { clear Hv He. induction Hk as [|k calls Hk _ IH]; intros w; [done|]. cbn. rewrite mrw_is_lrw by done. apply IH. }
  destruct (lrw_calls_from calls (mkWrapped c 0) Hv Hf) as [H1 H2]; [right; split; [by apply fresh_records|by right]|].
  split; [exact H1|]. intros Hh. by apply H2.
Qed.

(** Once it has a status, and on calls that send a final one, the writer of the
    metrics does what the logging writer does. *)
Lemma irw_is_lrw k ks w :
  valid_call k → wr_status w ≠ 0 ∨ plain_start (k :: ks) = true →
  irw_call k w = lrw_call k w ∧ (wr_status (irw_call k w) ≠ 0 ∨ plain_start ks = true).
Proof.
  intros Hv Hw.
  assert (∀ s, wr_status w ≠ 0 ∨ informational s = false → 100 ≤ s → on_irw (irw_WriteHeader s) w = lrw_WriteHeader s w ∧
            wr_status (lrw_WriteHeader s w) ≠ 0) as Hh.
  { intros s Hs Hge. destruct w as [c st]. unfold on_irw, irw_WriteHeader, lrw_WriteHeader, on_inner, on_writer. cbn in *.
    fold (informational s). destruct (Z.eqb_spec st 0); cbn.
    - destruct Hs as [Hs| ->]; [done|]. split; [done|cbn; lia].
    - split; [by destruct c as [? ? ? ? ? ? []]|done]. }
  assert (lrw_first w = (if wr_status w =? 0 then on_irw (irw_WriteHeader 200) w else w) ∧ wr_status (lrw_first w) ≠ 0) as [H1 H2].
  { destruct (Hh 200 ltac:(by right) ltac:(lia)) as [Ha Hb]. unfold lrw_first. destruct (Z.eqb_spec (wr_status w) 0); [by rewrite Ha|done]. }
  destruct k as [f|s|b| | |t|b]; cbn [irw_call lrw_call valid_call plain_start] in *; try done.
  - destruct (Hh s) as [Ha Hb]; [destruct Hw as [?|Hw]; [by left|right; by destruct (informational s)]|lia|]. rewrite Ha. auto.
  - assert (on_irw (irw_Write b) w = lrw_Write b w) as ->; [|by auto].
    unfold lrw_Write. rewrite H1. unfold on_irw, irw_Write, irw_WriteHeader.
    destruct w as [[? ? ? ? ? ? []] st]; cbn; destruct (st =? 0) eqn:Hs; cbn; by rewrite ?Hs.
  - destruct Hw as [Hw|]; [|done]. unfold irw_Flush, lrw_Flush, lrw_first. destruct (Z.eqb_spec (wr_status w) 0); [done|].
    split; [done|]. left. by destruct (cn_flusher (wr_inner w)).
  - unfold irw_Hijack, lrw_Hijack. by destruct (negb _).
  - unfold irw_Push, lrw_Push. by destruct (negb _).
  - unfold irw_ReadFrom, lrw_ReadFrom. rewrite <- H1. auto.
Qed.

Lemma irw_calls_lrw (ks : list call) (w : wrapped) :
  Forall valid_call ks → wr_status w ≠ 0 ∨ plain_start ks = true → irw_calls ks w = lrw_calls ks w.
Proof.
  intros Hv. revert w. induction Hv as [|k ks Hk _ IH]; intros w Hw; [done|]. cbn.
  destruct (irw_is_lrw k ks w Hk Hw) as [H1 H2]. rewrite <- H1. by apply IH.
Qed.

Lemma plain_no_empty_copy ks : plain_start ks = true → empty_copy_first ks = false.
Proof.
  induction ks as [|[f|s|b| | |t|b] ks IH]; cbn; auto; [by destruct (informational s)|by destruct (String.eqb b EmptyString)].
Qed.

(** A handler whose answer starts with its final status or its body is seen
    through the writer of the metrics as it is without it, and its status is
    recorded. *)
Lemma irw_calls_plain (ks : list call) (c : conn) :
  Forall valid_call ks → plain_start ks = true → cn_flusher c = true → w_reply (cn_writer c) = None →
  let w := irw_calls ks (mkWrapped c 0) in
  wr_inner w = net_calls ks c ∧ (cn_hijacked (wr_inner w) = false → records w).
Proof.
  intros Hv Hp Hf Hw. rewrite irw_calls_lrw by auto.
  apply (lrw_calls_from ks (mkWrapped c 0) Hv Hf).
  right. split; [by apply fresh_records|right; by apply plain_no_empty_copy].
Qed.

(** The writer of the metrics records a status the client did not receive.
    When a handler flushes before it sets a status, the flush sends 200 to the
    client, but a status set afterwards is recorded; the logging writer, given the
    same calls, records 200. *)
Theorem metrics_misreport_after_flush (status : Z) (c : conn) :
  200 ≤ status ≤ 999 → cn_flusher c = true → cn_hijacked c = false → w_reply (cn_writer c) = None →
  let calls := [CFlush; CWriteHeader status] in
  let m := irw_calls calls (mkWrapped c 0) in
  let l := lrw_calls calls (mkWrapped c 0) in
  status_of (cn_writer (wr_inner m)) = Some 200 ∧ wr_status m = status ∧
  status_of (cn_writer (wr_inner l)) = Some 200 ∧ wr_status l = 200.
Proof.
  intros Hs Hf Hh Hc. cbv zeta. cbn [lrw_calls irw_calls fold_left irw_call lrw_call].
  unfold irw_Flush, lrw_Flush, lrw_first, on_irw, irw_WriteHeader, lrw_WriteHeader, net_Flush, net_call, on_inner, on_writer, flush_header, status_of.
  cbn. rewrite Hh. cbn. rewrite Hf, Hc, Hh. cbn. rewrite (WriteHeader_final 200 (cn_writer c)) by done. cbn. rewrite Hh.
  cbn. rewrite ?WriteHeader_again by done. done.
Qed.

(** An empty copy swallows the status.  A handler that copies an empty body before
    it sets its status is answered with that status when it uses the server's writer
    directly; the writers of the log, of the metrics and of the backend send 200 at
    the copy and drop the status. *)
Theorem empty_copy_swallows_status (status : Z) (c : conn) :
  200 ≤ status ≤ 999 → cn_hijacked c = false → w_reply (cn_writer c) = None →
  let calls := [CReadFrom ""; CWriteHeader status] in
  status_of (cn_writer (net_calls calls c)) = Some status ∧
  status_of (cn_writer (wr_inner (lrw_calls calls (mkWrapped c 0)))) = Some 200 ∧
  status_of (cn_writer (wr_inner (irw_calls calls (mkWrapped c 0)))) = Some 200 ∧
  status_of (cn_writer (wr_inner (mrw_calls calls (mkWrapped c 0)))) = Some 200.
Proof.
  intros Hs Hh Hc. cbv zeta.
  assert (informational status = false) as Hi by (unfold informational; destruct (Z.ltb_spec status 200); [lia|by rewrite andb_false_r]).
  assert (status_of (cn_writer (wr_inner (lrw_calls [CReadFrom ""; CWriteHeader status] (mkWrapped c 0)))) = Some 200) as Hl.
  { cbn. unfold lrw_ReadFrom, lrw_first, lrw_WriteHeader, on_inner, copy_to, net_ReadFrom. cbn. rewrite on_writer_open by done. cbn.
    unfold status_of. rewrite WriteHeader_final by done. by destruct (cn_readerFrom c). }
  split; [|split; [done|split]].
  - cbn. rewrite on_writer_open by done. cbn. unfold status_of. by rewrite WriteHeader_final.
  - destruct c as [w ? ? ? rf ? h]. cbn in Hh, Hc. subst h. cbn. rewrite WriteHeader_final by done. by destruct rf.
  - cbn [mrw_calls fold_left]. by rewrite !mrw_is_lrw.
Qed.

(** An informational status swallows the final one.  When the upstream sends
    a 1xx status (other than 101) before its answer, the instrumented writer
    keeps the first status as final: the real status of the answer is dropped,
    the client receives 200, and the metrics record the informational one; the
    writer of the backend, given the same calls, delivers the real status. *)
Theorem informational_status_swallows_final (info final : Z) (body : string) (w : writer) :
  100 ≤ info ≤ 199 → info ≠ 101 → 200 ≤ final → w_reply w = None →
  let answer := irw_Write body (irw_WriteHeader final (irw_WriteHeader info (mkIRW w 0))) in
  status_of (irw_inner answer) = Some 200 ∧ irw_status answer = info ∧
  status_of (mrw_inner (mrw_Write body (mrw_WriteHeader final (mrw_WriteHeader info (mkMRW w 0))))) = Some final.
Proof.
  intros Hi Hi1 Hf Hw.
  assert (WriteHeader info w = w) as Hinfo.
  { unfold WriteHeader. bsplit; simpl; done. }
  assert (∀ c, 200 ≤ c → WriteHeader c w = mkWriter (w_header w) (Some (c, w_header w)) (w_body w)) as Hfin.
  { intros c Hc. unfold WriteHeader. rewrite Hw. bsplit; simpl; done. }
  unfold irw_Write, irw_WriteHeader. cbn [irw_status irw_inner]. rewrite Hinfo. simpl negb. cbv iota.
  cbn [irw_status irw_inner].
  destruct (Z.eqb_spec info 0); [lia|]. cbn [negb irw_status irw_inner].
  destruct (Z.eqb_spec info 0); [lia|]. cbn [irw_status irw_inner]. split; [|split; [done|]].
  - unfold Write. rewrite Hw, Hfin by lia. done.
  - unfold mrw_Write, mrw_WriteHeader. cbn [mrw_status mrw_inner].
    replace ((100 <=? info) && (info <? 200) && negb (info =? 101)) with true by (bsplit; simpl; done).
    simpl. rewrite Hinfo. replace ((100 <=? final) && (final <? 200) && negb (final =? 101)) with false by (bsplit; simpl; done).
    simpl. rewrite Hfin by done. destruct (Z.eqb_spec final 0); [lia|]. simpl. done.
Qed.

(** ** Witnesses *)
Definition plain_conn : conn := mkConn new_writer true true false true [] false.

Lemma logging_writer_transparent_witness :
  wr_status (lrw_calls [CWriteHeader 103; CFlush; CWriteHeader 500; CReadFrom "x"] (mkWrapped plain_conn 0)) = 200.
Proof.
  destruct (logging_writer_transparent [CWriteHeader 103; CFlush; CWriteHeader 500; CReadFrom "x"] plain_conn) as [_ H].
  - repeat (apply Forall_cons_2; [cbn; first [lia | exact I]|]). apply Forall_nil_2.
  - reflexivity.
  - reflexivity.
  - reflexivity.
  - exact (H eq_refl).
Defined.

Lemma backend_writer_transparent_witness :
  wr_status (mrw_calls [CWriteHeader 103; CWriteHeader 404; CReadFrom "x"] (mkWrapped plain_conn 0)) = 404.
Proof.
  destruct (backend_writer_transparent [CWriteHeader 103; CWriteHeader 404; CReadFrom "x"] plain_conn) as [_ H].
  - repeat (apply Forall_cons_2; [cbn; first [lia | exact I]|]). apply Forall_nil_2.
  - repeat (apply Forall_cons_2; [discriminate|]). apply Forall_nil_2.
  - reflexivity.
  - reflexivity.
  - reflexivity.
  - exact (H eq_refl).
Defined.

Lemma metrics_misreport_after_flush_witness :
  wr_status (irw_calls [CFlush; CWriteHeader 500] (mkWrapped plain_conn 0)) = 500.
Proof. apply (metrics_misreport_after_flush 500 plain_conn); [lia|reflexivity..]. Defined.

Lemma informational_status_swallows_final_witness :
  status_of (irw_inner (irw_Write "gone" (irw_WriteHeader 404 (irw_WriteHeader 103 (mkIRW new_writer 0))))) = Some 200.
Proof. apply (informational_status_swallows_final 103 404 "gone" new_writer); [lia|lia|lia|reflexivity]. Defined.


Lemma empty_copy_swallows_status_witness :
  status_of (cn_writer (wr_inner (lrw_calls [CReadFrom EmptyString; CWriteHeader 404] (mkWrapped plain_conn 0)))) = Some 200.
Proof. apply (empty_copy_swallows_status 404 plain_conn); [lia|reflexivity..]. Defined.
