(* ===== verification/Listeners.v ===== *)
(** * HTTP listeners: limits, instrumentation and what each type is started with

    Models the handlers [pkg/server/server.go] puts around the router
    ([connectionLimiter], [requestBodyLimiter]), the instrumented handler of
    [pkg/metrics/metrics.go], the accept limit of TCP listeners, and the
    [start...Listener] functions up to the point where the server object is
    registered and serves ([Lifecycle] has the rest). *)

From S2P Require Import Prelude GoStd GoHttp Parser Backend Selector Routing Config Validate Builder ForwardProxy Lifecycle Writers.
Open Scope Z_scope.

(** ** The state of one listener

    [ls_active] is the counter of its limiter, [ls_inflight] the gauge and
    [ls_requests] the counter of the metrics package. *)
Record listenerState : Type := mkLS {
  ls_active : Z;
  ls_inflight : Z;
  ls_requests : list (string * string * string * Z);           (* listener, type, method, status *)
}.

Section handlers.
  Context {X : Type} (get : X → listenerState) (put : listenerState → X → X).

Definition set_ls (f : listenerState → listenerState) (wd : world X) : world X :=
  set_mw (put (f (get (wd_mw wd))) (wd_mw wd)) wd.
Definition add_active (d : Z) (s : listenerState) : listenerState :=
  mkLS (int64 (ls_active s + d)) (ls_inflight s) (ls_requests s).
Definition add_inflight (d : Z) (s : listenerState) : listenerState :=
  mkLS (ls_active s) (ls_inflight s + d) (ls_requests s).
Definition add_request (e : string * string * string * Z) (s : listenerState) : listenerState :=
  mkLS (ls_active s) (ls_inflight s) (ls_requests s ++ [e]).

(** Handlers that are handed a wrapped writer are modelled by the calls they
    make on the writer they are given. *)
Definition call_handler : Type := world X → request → world X * request * list call.

(** [http.Error], as calls. *)
Definition Error_calls (msg : string) (code : Z) : list call :=
  [CHeader (λ h, header_Set "X-Content-Type-Options" "nosniff"
     (header_Set "Content-Type" "text/plain; charset=utf-8" (header_Del "Content-Length" h)));
   CWriteHeader code; CWrite (msg +:+ newline)].

(** [connectionLimiter.ServeHTTP]; the compare-and-swap loop is in
    [CasCounter], here it runs undisturbed. *)
Definition connectionLimiter_ServeHTTP (limit : Z) (next : call_handler) : call_handler := λ wd req,
  if limit <=? 0 then next wd req
  else if limit <=? ls_active (get (wd_mw wd)) then (wd, req, Error_calls "listener is at capacity" 503)
  else
    let '(wd', req', calls) := next (set_ls (add_active 1) wd) req in
    (set_ls (add_active (-1)) wd', req', calls).

Definition requestBodyLimiter_ServeHTTP (limit : Z) (next : call_handler) : call_handler := λ wd req,
  if (limit <=? 0) || negb (r_has_body req) then next wd req
  else if limit <? r_length req then (wd, req, Error_calls "request body too large" 413)
  else next wd req.

Definition newRequestBodyLimiter (next : call_handler) (limit : Z) : call_handler :=
  if limit <=? 0 then next else requestBodyLimiter_ServeHTTP limit next.

(** [InstrumentHandler]: [next] makes its calls on a new [responseWriter]
    around the server's writer [c]; the status that writer kept is counted, 200
    if it kept none. *)
Definition InstrumentHandler (listener listenerType : string) (next : call_handler)
    (wd : world X) (req : request) (c : conn) : world X * request * conn :=
  let '(wd', req', calls) := next (set_ls (add_inflight 1) wd) req in
  let w := irw_calls calls (mkWrapped c 0) in
  let status := if wr_status w =? 0 then 200 else wr_status w in
  (set_ls (λ s, add_request (listener, listenerType, r_method req', status) (add_inflight (-1) s)) wd', req', wr_inner w).

(** The end of [buildListenerHandler]; [inner] is the endpoint handler behind
    the listener's middleware, as the calls it makes. *)
Definition listener_handler (l : Listener) (inner : call_handler) : world X → request → conn → world X * request * conn :=
  let h := newRequestBodyLimiter inner (ln_MaxRequestBodySize l) in
  let h := connectionLimiter_ServeHTTP (ln_MaxConnections l) h in
  InstrumentHandler (ln_Name l) (ln_Type l) h.

(** [buildListenerHandler]; [install] gives the calls of the endpoint handler
    behind the middleware it is handed. *)
Definition buildListenerHandler (x : externals) (install : list mwSpec → call_handler) (l : Listener)
  : result string (world X → request → conn → world X * request * conn) :=
  match ln_Middlewares l with
  | [] => Ok (listener_handler l (install []))
  | _ => match buildMiddlewareForListener x (ln_Middlewares l) with
         | Err e => Err ("listener '" +:+ ln_Name l +:+ "': " +:+ e)
         | Ok specs => Ok (listener_handler l (install specs))
         end
  end.

(** ** What passes the limits *)

(** The endpoint handler behind the middleware, as [Routing] models it: what it
    does to the writer of a server. *)
Definition inner_handler (rtr : Router X) (l : Listener) (mws : list (Middleware X)) : handler (world X) :=
  let h := EndpointHandler_ServeHTTP (NewEndpointHandler rtr (ln_Name l)) in
  match ln_Middlewares l with [] => h | _ => ChainMiddleware h mws end.

(** [t] lists the calls with which [h] has its effect. *)
Definition emits (h : handler (world X)) (t : call_handler) : Prop := ∀ wd req c,
  w_reply (cn_writer c) = None → cn_hijacked c = false →
  let '(wd', req', calls) := t wd req in
  Forall valid_call calls ∧ h wd req (cn_writer c) = (wd', req', cn_writer (net_calls calls c)).

Definition full (l : Listener) (s : listenerState) : bool :=
  (0 <? ln_MaxConnections l) && (ln_MaxConnections l <=? ls_active s).
Definition oversized (l : Listener) (req : request) : bool :=
  (0 <? ln_MaxRequestBodySize l) && r_has_body req && (ln_MaxRequestBodySize l <? r_length req).

Definition sent_status (w : writer) : Z := match status_of w with Some s => s | None => 200 end.

Context (get_put : ∀ s y, get (put s y) = s).

Lemma get_set f wd : get (wd_mw (set_ls f wd)) = f (get (wd_mw wd)).
Proof. unfold set_ls. simpl. apply get_put. Qed.

Lemma body_limited l inner wd req :
  newRequestBodyLimiter inner (ln_MaxRequestBodySize l) wd req
  = if oversized l req then (wd, req, Error_calls "request body too large" 413) else inner wd req.
Proof.
  unfold newRequestBodyLimiter, oversized, requestBodyLimiter_ServeHTTP.
  destruct (Z.leb_spec (ln_MaxRequestBodySize l) 0), (Z.ltb_spec 0 (ln_MaxRequestBodySize l)); try lia; [done|].
  by destruct (r_has_body req).
Qed.

Lemma back_inflight s e : add_request e (add_inflight (-1) (add_inflight 1 s)) = add_request e s.
Proof. destruct s. unfold add_request, add_inflight. simpl. f_equal. lia. Qed.

Lemma back_active s :
  0 ≤ ls_active s → ls_active s < MaxInt64 → add_active (-1) (add_active 1 s) = s.
Proof.
  destruct s as [a i q]. unfold add_active. simpl. intros H1 H2.
  rewrite (int64_id (a + 1)) by (unfold MaxInt64 in *; lia). rewrite int64_id by (unfold MaxInt64 in *; lia). f_equal. lia.
Qed.

(** A rejection reaches the client and the metrics as it was written. *)
Lemma Error_calls_spec msg code c :
  200 ≤ code ≤ 999 → cn_flusher c = true → cn_hijacked c = false → w_reply (cn_writer c) = None →
  let w := irw_calls (Error_calls msg code) (mkWrapped c 0) in
  wr_status w = code ∧ cn_writer (wr_inner w) = http_Error msg code (cn_writer c).
Proof.
  intros Hc Hf Hh Hw.
  assert (informational code = false) as Hi by (unfold informational; destruct (Z.ltb_spec code 200); [lia|by rewrite andb_false_r]).
  destruct c as [w ? ? ? ? ? h]. cbn in Hh, Hw. subst h. cbn. destruct (Z.eqb_spec code 0); [lia|]. done.
Qed.

(** The limits around [inner]: what they answer themselves, and what they hand on. *)
Lemma limited l inner wd req :
  (∀ wd req, get (wd_mw (inner wd req).1.1) = get (wd_mw wd)) →
  0 ≤ ls_active (get (wd_mw wd)) → ln_MaxConnections l ≤ MaxInt64 →
  let '(wd', req', calls) :=
    connectionLimiter_ServeHTTP (ln_MaxConnections l) (newRequestBodyLimiter inner (ln_MaxRequestBodySize l)) wd req in
  get (wd_mw wd') = get (wd_mw wd) ∧
  (if full l (get (wd_mw wd)) then wd' = wd ∧ req' = req ∧ calls = Error_calls "listener is at capacity" 503
   else if oversized l req then
     req' = req ∧ wd_routes wd' = wd_routes wd ∧ calls = Error_calls "request body too large" 413
   else ∃ wd0, get (wd_mw wd0) = mkLS (ls_active (get (wd_mw wd)) + (if 0 <? ln_MaxConnections l then 1 else 0))
                                   (ls_inflight (get (wd_mw wd))) (ls_requests (get (wd_mw wd))) ∧
        wd_routes wd0 = wd_routes wd ∧ (inner wd0 req).2 = calls ∧ (inner wd0 req).1.2 = req' ∧
        wd_routes (inner wd0 req).1.1 = wd_routes wd').
Proof using get_put.
  intros Hinner Ha Hmax. unfold connectionLimiter_ServeHTTP, full.
  destruct (Z.leb_spec (ln_MaxConnections l) 0), (Z.ltb_spec 0 (ln_MaxConnections l)); try lia; cbn [andb].
  - rewrite body_limited. destruct (oversized l req); [done|]. specialize (Hinner wd req).
    destruct (inner wd req) as [[wd1 req1] calls] eqn:E. split; [done|]. exists wd. rewrite E. split; [|done].
    destruct (get (wd_mw wd)). cbn. f_equal. lia.
  - destruct (Z.leb_spec (ln_MaxConnections l) (ls_active (get (wd_mw wd)))); [done|].
    pose proof (get_set (add_active 1) wd) as H2. assert (wd_routes (set_ls (add_active 1) wd) = wd_routes wd) as R2 by done.
    generalize dependent (set_ls (add_active 1) wd). intros wd2 H2 R2. rewrite body_limited. destruct (oversized l req).
    + rewrite get_set, H2, back_active by lia. done.
    + specialize (Hinner wd2 req). destruct (inner wd2 req) as [[wd1 req1] calls] eqn:E. cbn in Hinner.
      rewrite get_set, Hinner, H2, back_active by lia. split; [done|]. exists wd2. rewrite E, H2. split; [|done].
      unfold add_active. cbn. by rewrite int64_id by (unfold MaxInt64 in *; lia).
Qed.

End handlers.

(** ** The accept limit of TCP listeners

    [inner] is what the wrapped listener's [Accept] returns. *)
Definition limited_Accept (limit : Z) (inner : result string unit) (active : Z) : result string unit * Z :=
  if limit <=? active then (Err "listener max_connections reached", active)
  else match inner with
       | Err e => (Err e, int64 (int64 (active + 1) + -1))
       | Ok _ => (Ok tt, int64 (active + 1))
       end.

(** [limitedConn.Close] runs [onClose] each time it is called. *)
Definition limited_Close (active : Z) : Z := int64 (active + -1).

(** ** What each type of listener is started with *)
Record httpTimeouts : Type := mkTimeouts { ht_readHeader : Z; ht_write : Z; ht_idle : Z }.

(** What answers on the listener. *)
Inductive served : Type :=
  | ServeRoutes (l : Listener) (mws : list mwSpec)            (* [buildListenerHandler] *)
  | ServeProxy (p : forwardProxy)
  | ServeSocks5 (timeout : Z) (users : gmap string string)
  | ServeTCP (limit : Z) (backends : list BackendConfig) (checks : list TCPByteCheck) (routes : list TCPRoute).

(** The object a start function hands to the server: how it is registered and
    bound, its TLS settings (the downstream configuration, or the signing
    authority of a dynamic listener) and what it serves. *)
Record plan : Type := mkPlan {
  pl_start : startSpec;
  pl_tls : option TLSConfig;
  pl_timeouts : httpTimeouts;
  pl_served : served;
}.

Section plans.
  Context (x : externals) (proxy_Parse : string → option proxyURL).
  (* [BuildTLSConfigForDownstreamWithMinVersion] and [BuildDynamicTLSConfigWithClientCA]:
     the error, if the files cannot be used *)
  Context (tlsError dynamicError : TLSConfig → option string).

(** [if d, err := time.ParseDuration(s); err == nil && d > 0 { field = d }] *)
Definition positive_or_zero (s : string) : Z :=
  match x_ParseDuration x s with Some d => if 0 <? d then d else 0 | None => 0 end.

Definition all_timeouts (l : Listener) : httpTimeouts :=
  mkTimeouts (positive_or_zero (ln_ReadHeaderTimeout l)) (positive_or_zero (ln_WriteTimeout l))
             (positive_or_zero (ln_IdleTimeout l)).
Definition header_timeout (l : Listener) : httpTimeouts :=
  mkTimeouts (positive_or_zero (ln_ReadHeaderTimeout l)) 0 0.
Definition no_timeouts : httpTimeouts := mkTimeouts 0 0 0.

Definition routes_handler (l : Listener) : result string served :=
  match ln_Middlewares l with
  | [] => Ok (ServeRoutes l [])
  | _ => match buildMiddlewareForListener x (ln_Middlewares l) with
         | Err e => Err ("listener '" +:+ ln_Name l +:+ "': " +:+ e)
         | Ok specs => Ok (ServeRoutes l specs)
         end
  end.

Definition with_tls (what : string) (l : Listener) (t : TLSConfig) (p : plan) : result string plan :=
  match tlsError t with
  | Some e => Err ("failed to create " +:+ what +:+ " '" +:+ ln_Name l +:+ "': failed to build TLS config: " +:+ e)
  | None => Ok p
  end.

Definition startHTTPListener (l : Listener) : result string plan :=
  match routes_handler l with
  | Err e => Err e
  | Ok h => Ok (mkPlan (mkStart KHttp false ("tcp", ln_Address l)) None (all_timeouts l) h)
  end.

Definition startUnixListener (l : Listener) : result string plan :=
  match routes_handler l with
  | Err e => Err e
  | Ok h => Ok (mkPlan (mkStart KHttp true ("unix", ln_Address l)) None (all_timeouts l) h)
  end.

Definition startHTTPSListener (l : Listener) : result string plan :=
  match routes_handler l with
  | Err e => Err e
  | Ok h => with_tls "HTTPS server" l (ln_TLS l)
              (mkPlan (mkStart KHttp false ("tcp", ln_Address l)) (Some (ln_TLS l)) (all_timeouts l) h)
  end.

(** The signing certificate and key, the client authority and the minimum
    version; revocation settings are not passed. *)
Definition dynamic_tls (t : TLSConfig) : TLSConfig :=
  mkTLS (CertFile t) (KeyFile t) (KeyPassphrase t) (MinVersion t) (CAFile t) "" "".

Definition startDynamicHTTPSListener (l : Listener) : result string plan :=
  match routes_handler l with
  | Err e => Err e
  | Ok h =>
      match dynamicError (dynamic_tls (ln_TLS l)) with
      | Some e => Err ("failed to create dynamic HTTPS server '" +:+ ln_Name l +:+ "': failed to build dynamic TLS config: " +:+ e)
      | None => Ok (mkPlan (mkStart KHttp false ("tcp", ln_Address l)) (Some (dynamic_tls (ln_TLS l))) (all_timeouts l) h)
      end
  end.

Definition cascade_of (l : Listener) : option CascadeProxy :=
  match ln_Proxy l with
  | Some p => Some (mkCascadeProxy (bp_URL p) (bp_Username p) (bp_Password p) (bp_Hosts p) (bp_NoProxy p))
  | None => None
  end.

Definition startProxyListener (l : Listener) : result string plan :=
  match NewProxyHandlerWithProxy proxy_Parse (30 * second) (ln_Users l) (cascade_of l) with
  | Err _ => Err ("failed to configure proxy cascade for '" +:+ ln_Name l +:+ "'")
  | Ok p => Ok (mkPlan (mkStart KHttp false ("tcp", ln_Address l)) None (header_timeout l) (ServeProxy p))
  end.

(** Only the certificate, its key and the minimum version are passed.  (Here and
    above the message of an unusable cascade proxy is left out of the error.) *)
Definition proxy_tls (t : TLSConfig) : TLSConfig :=
  mkTLS (CertFile t) (KeyFile t) (KeyPassphrase t) (MinVersion t) "" "" "".

Definition startProxyTLSListener (l : Listener) : result string plan :=
  match tlsError (proxy_tls (ln_TLS l)) with
  | Some e => Err ("failed to create TLS proxy server '" +:+ ln_Name l +:+ "': failed to build proxy TLS config: " +:+ e)
  | None =>
      match NewProxyHandlerWithProxy proxy_Parse (30 * second) (ln_Users l) (cascade_of l) with
      | Err _ => Err ("failed to create TLS proxy server '" +:+ ln_Name l +:+ "'")
      | Ok p => Ok (mkPlan (mkStart KHttp false ("tcp", ln_Address l)) (Some (proxy_tls (ln_TLS l))) (header_timeout l) (ServeProxy p))
      end
  end.

Definition startSOCKS5Listener (l : Listener) : result string plan :=
  Ok (mkPlan (mkStart KTcp true ("tcp", ln_Address l)) None no_timeouts (ServeSocks5 (30 * second) (ln_Users l))).

Definition startHTTP3Listener (l : Listener) : result string plan :=
  match routes_handler l with
  | Err e => Err e
  | Ok h => with_tls "HTTP/3 server" l (ln_TLS l)
              (mkPlan (mkStart KHttp3 false ("udp", ln_Address l)) (Some (ln_TLS l)) no_timeouts h)
  end.

(** The variadic minimum version is left out of the call. *)
Definition multi_tls (t : TLSConfig) : TLSConfig :=
  mkTLS (CertFile t) (KeyFile t) (KeyPassphrase t) "" (CAFile t) (CRLFile t) (OCSPURL t).

Definition startHTTPMultiListener (l : Listener) : result string plan :=
  match routes_handler l with
  | Err e => Err e
  | Ok h => with_tls "HTTP multi server" l (multi_tls (ln_TLS l))
              (mkPlan (mkStart KMulti false ("tcp", ln_Address l)) (Some (multi_tls (ln_TLS l))) no_timeouts h)
  end.

(** [wrapTCPListenerTLS]: TLS only with both a certificate and a key. *)
Definition tcp_tls (t : TLSConfig) : option TLSConfig :=
  if String.eqb (CertFile t) "" || String.eqb (KeyFile t) "" then None else Some t.

Definition tcp_plan (what network : string) (l : Listener) : result string plan :=
  let p := mkPlan (mkStart KTcp true (network, ln_Address l)) (tcp_tls (ln_TLS l)) no_timeouts
             (ServeTCP (ln_MaxConnections l) (ln_Backends l) (ln_InitialBytes l) (ln_Routes l)) in
  match tcp_tls (ln_TLS l) with Some t => with_tls what l t p | None => Ok p end.

Definition startTCPListener (l : Listener) : result string plan := tcp_plan "TCP listener" "tcp" l.
Definition startUnixTCPListener (l : Listener) : result string plan := tcp_plan "Unix TCP listener" "unix" l.

(** The switch of [startListeners]. *)
Definition startListener (l : Listener) : result string plan :=
  let t := ln_Type l in
  if String.eqb t "https" then startHTTPSListener l
  else if String.eqb t "unix" then startUnixListener l
  else if String.eqb t "unix_tcp" then startUnixTCPListener l
  else if String.eqb t "dynamic" then startDynamicHTTPSListener l
  else if String.eqb t "proxy" then startProxyListener l
  else if String.eqb t "proxy_tls" then startProxyTLSListener l
  else if String.eqb t "socks5" then startSOCKS5Listener l
  else if String.eqb t "http3" then startHTTP3Listener l
  else if String.eqb t "httpmulti" || String.eqb t "multi" then startHTTPMultiListener l
  else if String.eqb t "tcp" then startTCPListener l
  else startHTTPListener l.

Definition is_multi (l : Listener) : bool := one_of (ln_Type l) ["httpmulti"; "multi"].
Definition requires_tls (l : Listener) : bool :=
  one_of (ln_Type l) ["https"; "dynamic"; "proxy_tls"; "http3"; "httpmulti"; "multi"].
Definition http_family (l : Listener) : bool :=
  negb (one_of (ln_Type l) ["proxy"; "proxy_tls"; "socks5"; "tcp"; "unix_tcp"]).
Definition timed (l : Listener) : bool := http_family l && negb (one_of (ln_Type l) ["http3"; "httpmulti"; "multi"]).

(** The kinds of listeners, by the branch that starts them. *)
Lemma startListener_cases (P : Listener → result string plan → Prop) l :
  (ln_Type l = "https" → P l (startHTTPSListener l)) → (ln_Type l = "unix" → P l (startUnixListener l)) →
  (ln_Type l = "unix_tcp" → P l (startUnixTCPListener l)) → (ln_Type l = "dynamic" → P l (startDynamicHTTPSListener l)) →
  (ln_Type l = "proxy" → P l (startProxyListener l)) → (ln_Type l = "proxy_tls" → P l (startProxyTLSListener l)) →
  (ln_Type l = "socks5" → P l (startSOCKS5Listener l)) → (ln_Type l = "http3" → P l (startHTTP3Listener l)) →
  (ln_Type l = "httpmulti" ∨ ln_Type l = "multi" → P l (startHTTPMultiListener l)) →
  (ln_Type l = "tcp" → P l (startTCPListener l)) →
  (Forall (λ t, String.eqb (ln_Type l) t = false)
     ["https"; "unix"; "unix_tcp"; "dynamic"; "proxy"; "proxy_tls"; "socks5"; "http3"; "httpmulti"; "multi"; "tcp"] →
   P l (startHTTPListener l)) →
  P l (startListener l).
Proof.
  intros H1 H2 H3 H4 H5 H6 H7 H8 H9 H10 H11. unfold startListener. cbv zeta.
  repeat match goal with
  | |- context [if String.eqb (ln_Type l) ?t then _ else _] => destruct (String.eqb (ln_Type l) t) eqn:?E
  | |- context [String.eqb (ln_Type l) ?t || _] => destruct (String.eqb (ln_Type l) t) eqn:?E; cbn [orb]
  | E : String.eqb (ln_Type l) _ = true |- _ => apply String.eqb_eq in E; auto
  end. apply H11. by repeat constructor.
Qed.

(** What the start of a listener promises. *)
Record settings_reach (l : Listener) (p : plan) : Prop := {
  sr_start : pl_start p = listener_start l;
  sr_tls : requires_tls l = true → ∃ t, pl_tls p = Some t ∧ CertFile t = CertFile (ln_TLS l) ∧ KeyFile t = KeyFile (ln_TLS l) ∧
    (is_multi l = false → MinVersion t = MinVersion (ln_TLS l));
  sr_plain : requires_tls l = false → http_family l = true → pl_tls p = None;
  sr_timeouts : timed l = true → pl_timeouts p = all_timeouts l;
  sr_routes : http_family l = true →
    ∃ mws, pl_served p = ServeRoutes l mws ∧ buildMiddlewareForListener x (ln_Middlewares l) = Ok mws;
}.

Lemma routes_handler_Ok l h :
  routes_handler l = Ok h → ∃ mws, h = ServeRoutes l mws ∧ buildMiddlewareForListener x (ln_Middlewares l) = Ok mws.
Proof.
  unfold routes_handler. destruct (ln_Middlewares l) eqn:E; [intros [= <-]; by eexists|].
  destruct (buildMiddlewareForListener x _); [|done]. intros [= <-]. by eexists.
Qed.

(** Splits [settings_reach] for a listener of a known type. *)
Ltac by_type Ht :=
  split; unfold requires_tls, is_multi, timed, http_family, listener_start; rewrite ?Ht;
  try (let H := fresh in intros H; vm_compute in H; discriminate H);
  [reflexivity|..]; intros; simpl; try done; try (eexists; split; [reflexivity|]; repeat split; done); eauto.

Ltac by_start Hr :=
  unfold with_tls; repeat case_match; try done; intros [= <-];
  repeat match goal with H : routes_handler _ = Ok _ |- _ => apply routes_handler_Ok in H as Hr end.

(** What is configured reaches the server object.  Whatever its type, a
    listener that starts binds and registers as its type says, on its address;
    a type that needs TLS gets the configured certificate, key and minimum
    version (multi-protocol listeners excepted), plain HTTP types get none; the
    configured timeouts are applied to HTTP, HTTPS, Unix and dynamic listeners;
    and every HTTP listener serves the routes behind all its middleware. *)
Theorem listener_settings (l : Listener) (p : plan) : startListener l = Ok p → settings_reach l p.
Proof.
  apply (startListener_cases (λ l r, r = Ok p → settings_reach l p)); [intros Ht..|intros Hf].
  - unfold startHTTPSListener. by_start Hr. by_type Ht.
  - unfold startUnixListener. by_start Hr. by_type Ht.
  - unfold startUnixTCPListener, tcp_plan. by_start Hr; by_type Ht.
  - unfold startDynamicHTTPSListener. by_start Hr. by_type Ht.
  - unfold startProxyListener. by_start Hr. by_type Ht.
  - unfold startProxyTLSListener. by_start Hr. by_type Ht.
  - unfold startSOCKS5Listener. by_start Hr. by_type Ht.
  - unfold startHTTP3Listener. by_start Hr. by_type Ht.
  - unfold startHTTPMultiListener. destruct Ht as [Ht|Ht]; by_start Hr; by_type Ht.
  - unfold startTCPListener, tcp_plan. by_start Hr; by_type Ht.
  - unfold startHTTPListener. by_start Hr.
    repeat (apply Forall_cons in Hf as [? Hf]).
    split; unfold requires_tls, is_multi, timed, http_family, listener_start, one_of; cbn [existsb];
      repeat match goal with H : String.eqb _ _ = false |- _ => rewrite ?H; clear H end; simpl; try done; eauto.
Qed.

(** What is configured but does not reach the server object.  The minimum
    TLS version and the timeouts of a multi-protocol listener are dropped, and
    a proxy, SOCKS5 or TCP listener starts the same with and without its
    middleware: an access restriction configured there is not applied. *)
Theorem listener_settings_dropped (l : Listener) (p : plan) :
  startListener l = Ok p →
  (is_multi l = true → pl_timeouts p = no_timeouts ∧ ∃ t, pl_tls p = Some t ∧ MinVersion t = "") ∧
  (http_family l = false → ∀ mws, startListener (mkListener (ln_Name l) (ln_Type l) (ln_Address l) (ln_ReadHeaderTimeout l)
     (ln_WriteTimeout l) (ln_IdleTimeout l) (ln_MaxConnections l) (ln_MaxRequestBodySize l) (ln_TLS l) (ln_Users l) (ln_Log l)
     (ln_Proxy l) (ln_Backends l) (ln_Routes l) (ln_InitialBytes l) mws) = Ok p).
Proof.
  intros Hs. split.
  - revert Hs. unfold is_multi. intros Hs Hm. apply one_of_In in Hm. unfold startListener in Hs.
    assert (startHTTPMultiListener l = Ok p) as H.
    { apply elem_of_cons in Hm as [Hm|Hm]; [|apply elem_of_cons in Hm as [Hm|Hm]; [|by apply not_elem_of_nil in Hm]];
        rewrite Hm in Hs; exact Hs. }
    clear Hs Hm. revert H. unfold startHTTPMultiListener. by_start Hr. simpl. split; [done|by eexists].
  - unfold http_family. rewrite negb_false_iff, one_of_In. intros Ht mws. revert Hs. unfold startListener. simpl.
    repeat (apply elem_of_cons in Ht as [Ht|Ht]; [by rewrite Ht|]). by apply not_elem_of_nil in Ht.
Qed.
End plans.

Lemma listener_settings_witness :
  ∃ p, startListener sample_externals (λ _, None) (λ _, None) (λ _, None) (sample_listener "web" "http" ":8080") = Ok p ∧
       pl_start p = web.
Proof.
  eexists. split; [reflexivity|].
  apply (listener_settings sample_externals (λ _, None) (λ _, None) (λ _, None) (sample_listener "web" "http" ":8080")). reflexivity.
Defined.

(** A multi-protocol listener that asks for TLS 1.3. *)
Definition multi_listener : Listener :=
  mkListener "m" "httpmulti" ":443" "" "" "" 0 0 (mkTLS "c" "k" "" "TLS1.3" "" "" "") ∅ false None [] [] [] [].

Lemma listener_settings_dropped_witness :
  ∃ p, startListener sample_externals (λ _, None) (λ _, None) (λ _, None) multi_listener = Ok p ∧
       ∃ t, pl_tls p = Some t ∧ MinVersion t = "".
Proof.
  eexists. split; [reflexivity|].
  apply (listener_settings_dropped sample_externals (λ _, None) (λ _, None) (λ _, None) multi_listener); reflexivity.
Defined.

(** A listener with one slot and a router without routes, which answers 404. *)
Definition gate_listener : Listener :=
  mkListener "web" "http" ":8080" "" "" "" 1 0 no_tls ∅ false None [] [] [] [].
Definition gate_world (active : Z) : world listenerState :=
  mkWorld [] no_metrics (EmptyString, EmptyString) sample_env (mkLS active 0 []).
Definition not_found : call_handler := λ (wd : world listenerState) req, (wd, req, Error_calls "404 page not found" 404).

Lemma not_found_emitted : emits (inner_handler (mkRouter [] EmptyString) gate_listener []) not_found.
Proof.
  intros wd req [w ? ? ? ? ? h] Hw Hh. cbn in Hh. subst h. split; [|reflexivity].
  repeat (apply Forall_cons_2; [cbn; first [lia | exact I]|]). apply Forall_nil_2.
Qed.

(** What the listener sends and counts with its slot free. *)
Definition gate_result : world listenerState * request * conn :=
  listener_handler (λ s, s) (λ s _, s) gate_listener not_found (gate_world 0) sample_request plain_conn.

