(* ===== verification/Tcp.v ===== *)
(** * The TCP listener

    Models [pkg/listener/tcp.go]: SNI routing, the checks on the first bytes of a
    stream, the decisions of a connection up to the tunnel, and the accept loop.
    A client is the record of what it does: its TLS hello, the outcome of the
    handshake under a given certificate, and the bytes it sends (in clear, or
    decrypted).  [MatchWildcard], the configuration records and the byte checks
    are those of [Routing] and [Config]. *)

From S2P Require Import Prelude GoStd GoHttp Backend Routing Config Validate Builder.
Open Scope Z_scope.

(** ** SNI routing *)
Definition sni_matches (serverName : string) (r : TCPRoute) : bool :=
  existsb (λ host, MatchWildcard (ToLower host) (ToLower serverName)) (tr_Hosts r).

Fixpoint selectTCPRoute (serverName : string) (routes : list TCPRoute) : option TCPRoute :=
  match routes with
  | [] => None
  | r :: rs => if sni_matches serverName r then Some r else selectTCPRoute serverName rs
  end.

Fixpoint selectTCPBackends (serverName : string) (fallback : list BackendConfig) (routes : list TCPRoute)
  : list BackendConfig :=
  match routes with
  | [] => fallback
  | r :: rs => if sni_matches serverName r then tr_Backends r else selectTCPBackends serverName fallback rs
  end.

(** ** The first bytes of the stream *)
Definition byte_matches (c : TCPByteCheck) (b : Ascii.ascii) : bool :=
  ck_Any c || existsb (λ v, ord b =? v) (ck_Values c).

(** The loop over the checks; [initial] holds the bytes read. *)
Fixpoint check_bytes (checks : list TCPByteCheck) (initial : string) (index : nat) : result string unit :=
  match checks, initial with
  | c :: cs, String b rest =>
      if byte_matches c b then check_bytes cs rest (S index)
      else Err ("byte " +:+ Itoa (Z.of_nat index + 1) +:+ " has value " +:+ Itoa (ord b))
  | _, _ => Ok tt
  end.

(** [validateInitialBytes]: the stream the tunnel reads afterwards is the bytes
    read, followed by the rest. *)
Definition validateInitialBytes (checks : list TCPByteCheck) (stream : string) : result string string :=
  let n := length checks in
  if (String.length stream <? n)%nat
  then Err ("read initial bytes: " +:+ if String.eqb stream "" then "EOF" else "unexpected EOF")
  else match check_bytes checks (take n stream) 0 with
       | Err e => Err e
       | Ok _ => Ok (take n stream +:+ drop n stream)
       end.

(** ** Connections *)
Record client : Type := mkClient {
  cl_hello : result string string;                          (* the server name of its TLS hello *)
  cl_handshake : TLSConfig → result string string;          (* the decrypted bytes, under a certificate *)
  cl_plain : string;                                        (* what it sends without TLS *)
}.

(** A connection ends with the message it logs (names left out), or reaches the
    tunnel with a backend, the address dialled, whether over TLS, the dial timeout
    (0 for none) and the bytes the backend will read. *)
Inductive tcpOutcome : Type :=
  | Dropped (why : string)
  | Tunnel (b : BackendConfig) (addr : string) (tls : bool) (timeout : Z) (stream : string).

Section connection.
  Context (parseDur : string → option Z) (downstreamTLS : TLSConfig → option string) (upstreamTLS : BackendTLS → option string).
  Context (dial : string → bool → result string unit).

(** The certificate of a route replaces the listener's when it is complete. *)
Definition route_certificate (sel : option TCPRoute) : option TLSConfig :=
  match sel with
  | Some r => match tr_TLS r with
              | Some t => if negb (String.eqb (CertFile t) "") && negb (String.eqb (KeyFile t) "") then Some t else None
              | None => None
              end
  | None => None
  end.

(** The TLS part: the backends and the stream that remain. *)
Definition terminate (tls : option TLSConfig) (backends : list BackendConfig) (routes : list TCPRoute) (c : client)
  : result string (list BackendConfig * string) :=
  match tls with
  | None => Ok (backends, cl_plain c)
  | Some t =>
      match cl_hello c with
      | Err e => Err ("Error reading TLS ClientHello: " +:+ e)
      | Ok serverName =>
          let selected := selectTCPRoute serverName routes in
          let backends := selectTCPBackends serverName backends routes in
          match backends with
          | [] => Err "No backend configured for SNI"
          | _ =>
              let shake serverTLS :=
                match cl_handshake c serverTLS with
                | Err e => Err ("Error completing TLS handshake: " +:+ e)
                | Ok stream => Ok (backends, stream)
                end in
              match route_certificate selected with
              | None => shake t
              | Some rt => match downstreamTLS rt with
                           | Some e => Err ("Error building TLS config for route: " +:+ e)
                           | None => shake rt
                           end
              end
          end
      end
  end.

Definition dial_timeout (b : BackendConfig) : Z :=
  if String.eqb (bc_Timeout b) "" then 30 * second
  else match parseDur (bc_Timeout b) with Some d => d | None => 30 * second end.

(** [handleTCPConnection]; [r] is the random draw of the backend. *)
Definition handleTCPConnection (c : client) (backends : list BackendConfig) (routes : list TCPRoute) (tls : option TLSConfig)
    (checks : list TCPByteCheck) (r : nat) : tcpOutcome :=
  match terminate tls backends routes c with
  | Err e => Dropped e
  | Ok (backends, stream) =>
      match (match checks with [] => Ok stream | _ => validateInitialBytes checks stream end) with
      | Err e => Dropped ("Initial TCP byte check failed: " +:+ e)
      | Ok stream =>
          match backends !! (r mod length backends)%nat with
          | None => Dropped "No available backends"
          | Some b =>
              let addr := TrimPrefix (bc_URL b) "tcp://" in
              if String.eqb addr "" then Dropped "Backend has empty URL"
              else match (if bc_ForceTLS b then upstreamTLS (bc_TLS b) else None) with
                   | Some e => Dropped ("Error building TLS config for backend: " +:+ e)
                   | None =>
                       match dial addr (bc_ForceTLS b) with
                       | Err e => Dropped ("Error connecting to backend" +:+ (if bc_ForceTLS b then " with TLS: " else ": ") +:+ e)
                       | Ok _ => Tunnel b addr (bc_ForceTLS b) (if bc_ForceTLS b then 0 else dial_timeout b) stream
                       end
                   end
          end
      end
  end.
End connection.

(** ** The accept loop

    One turn of [handleTCPListener]: the loop ends, goes on, or hands a
    connection to a goroutine.  [cancelled] is the context before and after
    [Accept]. *)
Inductive acceptResult : Type := Accepted (c : client) | AcceptTimeout | AcceptError (e : string).
Inductive turn : Type := Stop | Again | Spawn (c : client).

Definition accept_turn (cancelled_before : bool) (a : acceptResult) (cancelled_after : bool) : turn :=
  if cancelled_before then Stop
  else match a with
       | Accepted c => Spawn c
       | AcceptTimeout => Again
       | AcceptError _ => if cancelled_after then Stop else Again
       end.

(** The check before the loop. *)
Definition tcp_configured (backends : list BackendConfig) (routes : list TCPRoute) : result string unit :=
  match backends, routes with [], [] => Err "no backends configured for TCP listener" | _, _ => Ok tt end.

(** ** Lemmas *)

(** The two selections make the same choice. *)
Lemma selectTCPBackends_route serverName fallback routes :
  selectTCPBackends serverName fallback routes =
  match selectTCPRoute serverName routes with Some r => tr_Backends r | None => fallback end.
Proof. induction routes as [|r rs IH]; simpl; [done|]. by destruct (sni_matches serverName r). Qed.

(** The first route whose patterns match, or none. *)
Definition first_match (serverName : string) (routes : list TCPRoute) (sel : option TCPRoute) : Prop :=
  match sel with
  | Some r => ∃ before after, routes = before ++ r :: after ∧ sni_matches serverName r = true ∧
                Forall (λ q, sni_matches serverName q = false) before
  | None => Forall (λ q, sni_matches serverName q = false) routes
  end.

Lemma selectTCPRoute_first serverName routes : first_match serverName routes (selectTCPRoute serverName routes).
Proof.
  induction routes as [|r rs IH]; simpl; [by constructor|].
  destruct (sni_matches serverName r) eqn:Hr; [by exists [], rs|].
  destruct (selectTCPRoute serverName rs) as [q|]; simpl in *; [|by constructor].
  destruct IH as (before & after & -> & Hq & Hb). exists (r :: before), after. by repeat constructor.
Qed.

(** A stream passes the checks when it is long enough and each checked byte matches. *)
Definition passes (checks : list TCPByteCheck) (stream : string) : Prop :=
  ∀ i c, checks !! i = Some c → ∃ b, String.get i stream = Some b ∧ (ck_Any c = true ∨ ord b ∈ ck_Values c).

Lemma byte_matches_spec c b : byte_matches c b = true ↔ ck_Any c = true ∨ ord b ∈ ck_Values c.
Proof.
  unfold byte_matches. rewrite orb_true_iff, existsb_exists. apply or_iff_compat_l. split.
  - intros (v & Hv & E). apply Z.eqb_eq in E as ->. by apply list_elem_of_In.
  - intros Hv. exists (ord b). split; [by apply list_elem_of_In|apply Z.eqb_refl].
Qed.

Lemma passes_cons c cs b s :
  passes (c :: cs) (String b s) ↔ byte_matches c b = true ∧ passes cs s.
Proof.
  rewrite byte_matches_spec. split.
  - intros H. split; [|intros i d Hd; apply (H (S i) d Hd)].
    destruct (H 0%nat c eq_refl) as (b' & Hb & Hm). simpl in Hb. by injection Hb as ->.
  - intros [Hm H] [|i] d Hd; [|apply (H i d Hd)]. injection Hd as <-. by exists b.
Qed.

Lemma check_bytes_passes checks stream k :
  (length checks <= String.length stream)%nat →
  is_ok (check_bytes checks (take (length checks) stream) k) = true ↔ passes checks stream.
Proof.
  revert stream k; induction checks as [|c cs IH]; intros stream k Hl.
  { split; [|by destruct stream]. intros _ i d Hd. done. }
  destruct stream as [|b s]; simpl in Hl; [lia|]. rewrite passes_cons. simpl.
  destruct (byte_matches c b).
  - rewrite IH by lia. intuition.
  - split; [done|by intros [? _]].
Qed.

Lemma passes_long checks stream : passes checks stream → (length checks <= String.length stream)%nat.
Proof.
  revert stream; induction checks as [|c cs IH]; intros stream H; simpl; [lia|].
  destruct stream as [|b s]; [destruct (H 0%nat c eq_refl) as (? & ? & _); done|].
  apply passes_cons in H as [_ H]. apply IH in H. simpl. lia.
Qed.

Lemma validateInitialBytes_spec checks stream out :
  validateInitialBytes checks stream = Ok out ↔ out = stream ∧ passes checks stream.
Proof.
  unfold validateInitialBytes. destruct (Nat.ltb_spec (String.length stream) (length checks)) as [Hl|Hl].
  { split; [done|]. intros [_ H%passes_long]. lia. }
  rewrite <- (check_bytes_passes _ _ 0 Hl), take_drop_app.
  destruct (check_bytes checks _ 0); simpl; [|split; [done|by intros [_ ?]]].
  split; [by intros [= <-]|by intros [-> _]].
Qed.

Lemma checked_stream checks stream out :
  match checks with [] => Ok stream | _ => validateInitialBytes checks stream end = Ok out ↔
  out = stream ∧ passes checks stream.
Proof.
  destruct checks as [|c cs]; [|apply validateInitialBytes_spec].
  split; [|by intros [-> _]]. intros [= <-]. split; [done|]. intros i d Hd. done.
Qed.

Section theorems.
  Context (parseDur : string → option Z) (downstreamTLS : TLSConfig → option string) (upstreamTLS : BackendTLS → option string).
  Context (dial : string → bool → result string unit).
  Notation handle := (handleTCPConnection parseDur downstreamTLS upstreamTLS dial).

(** The upstream half of a connection: the backend can be reached. *)
Definition reachable (b : BackendConfig) : Prop :=
  TrimPrefix (bc_URL b) "tcp://" ≠ "" ∧
  (bc_ForceTLS b = true → upstreamTLS (bc_TLS b) = None) ∧
  dial (TrimPrefix (bc_URL b) "tcp://") (bc_ForceTLS b) = Ok tt.

Lemma handle_tunnel c backends routes tls checks r b addr over timeout stream :
  handle c backends routes tls checks r = Tunnel b addr over timeout stream ↔
  addr = TrimPrefix (bc_URL b) "tcp://" ∧ over = bc_ForceTLS b ∧
  timeout = (if bc_ForceTLS b then 0 else dial_timeout parseDur b) ∧ reachable b ∧
  ∃ candidates, terminate downstreamTLS tls backends routes c = Ok (candidates, stream) ∧
    passes checks stream ∧ candidates !! (r mod length candidates)%nat = Some b.
Proof.
  unfold handleTCPConnection, reachable.
  destruct (terminate _ _ _ _ _) as [[cands s]|e]; [|split; [done|by intros (_ & _ & _ & _ & ? & ? & _)]].
  pose proof (checked_stream checks s) as Hs.
  destruct (match checks with [] => _ | _ => _ end) as [s'|e].
  2:{ split; [done|]. intros (_ & _ & _ & _ & cs & [= <- <-] & Hp & _).
      by specialize (proj2 (Hs s) (conj eq_refl Hp)). }
  destruct (proj1 (Hs s') eq_refl) as [-> Hp]. clear Hs.
  destruct (cands !! _) as [b'|] eqn:Hb.
  2:{ split; [done|]. intros (_ & _ & _ & _ & cs & [= <- <-] & _ & ?). congruence. }
  destruct (String.eqb_spec (TrimPrefix (bc_URL b') "tcp://") "") as [He|He].
  { split; [done|]. intros (_ & _ & _ & (? & _) & cs & [= <- <-] & _ & ?). congruence. }
  split.
  - destruct (bc_ForceTLS b') eqn:Hf; [destruct (upstreamTLS (bc_TLS b')) eqn:Hu; [done|]|];
      (destruct (dial _ _) as [[]|e] eqn:Hd; [|done]); intros [= <- <- <- <- <-]; rewrite Hf;
      repeat split; try done; eauto.
  - intros (-> & -> & -> & (_ & Hu & Hd) & cs & [= <- <-] & _ & Hb'). rewrite Hb in Hb'. injection Hb' as ->.
    rewrite Hd. destruct (bc_ForceTLS b); [by rewrite Hu|done].
Qed.

(** C29: on a TLS listener the client reaches only a backend of the first route whose
    host patterns match the name of its hello, compared without case, or of the
    listener itself when no route matches; the handshake ran under the complete
    certificate of that route if it has one and under the listener's otherwise,
    and the backend reads exactly the bytes the client sent over it. *)
Theorem tcp_sni_isolation c t backends routes checks r b addr over timeout stream :
  handle c backends routes (Some t) checks r = Tunnel b addr over timeout stream →
  ∃ serverName sel, cl_hello c = Ok serverName ∧ first_match serverName routes sel ∧
    b ∈ match sel with Some route => tr_Backends route | None => backends end ∧
    cl_handshake c (default t (route_certificate sel)) = Ok stream ∧
    (∀ rt, route_certificate sel = Some rt → downstreamTLS rt = None).
Proof.
  rewrite handle_tunnel. intros (_ & _ & _ & _ & cands & Ht & _ & Hb).
  unfold terminate in Ht. destruct (cl_hello c) as [name|]; [|done].
  exists name, (selectTCPRoute name routes). rewrite selectTCPBackends_route in Ht.
  split; [done|]. split; [apply selectTCPRoute_first|]. apply list_elem_of_lookup_2 in Hb.
  destruct (match selectTCPRoute name routes with Some _ => _ | None => _ end) as [|b1 bs]; [done|].
  destruct (route_certificate _) as [rt|]; simpl; [destruct (downstreamTLS rt) eqn:Hd; [done|]|];
    (destruct (cl_handshake c _) as [s|] eqn:Hh; [|done]); injection Ht as <- <-; [|done].
  repeat split; try done. intros ? [= <-]. done.
Qed.

(** A listener without TLS opens a tunnel exactly when its first bytes pass every
    check and the drawn backend can be reached; the backend then reads the whole
    stream, the checked bytes included. *)
Theorem initial_bytes_gate c backends routes checks r b :
  backends !! (r mod length backends)%nat = Some b → reachable b →
  (passes checks (cl_plain c) →
     handle c backends routes None checks r =
     Tunnel b (TrimPrefix (bc_URL b) "tcp://") (bc_ForceTLS b) (if bc_ForceTLS b then 0 else dial_timeout parseDur b) (cl_plain c)) ∧
  (¬ passes checks (cl_plain c) → ∃ why, handle c backends routes None checks r = Dropped why).
Proof.
  intros Hb Hr. split.
  - intros Hp. apply handle_tunnel. split_and!; try done. by exists backends.
  - intros Hp. destruct (handle c backends routes None checks r) as [why|b' a o tm s] eqn:Hh; [by exists why|].
    apply handle_tunnel in Hh as (_ & _ & _ & _ & cs & [= <- <-] & Hp' & _). done.
Qed.

(** Without TLS the routes of a listener are never looked at: one that has routes
    and no backends of its own starts and then drops every connection. *)
Theorem plain_routes_unreachable c routes checks r :
  routes ≠ [] →
  tcp_configured [] routes = Ok tt ∧ ∃ why, handle c [] routes None checks r = Dropped why.
Proof.
  intros Hr. split; [by destruct routes|].
  destruct (handle c [] routes None checks r) as [why|b a o tm s] eqn:Hh; [by exists why|].
  by apply handle_tunnel in Hh as (_ & _ & _ & _ & cs & [= <- <-] & _ & ?).
Qed.
End theorems.

(** ** Witnesses *)
Definition sample_backend (name url : string) : BackendConfig :=
  mkBC name url "" "" "" "" 0 0 "" None false false (mkBT false "" "" "" "" "") None None.
Definition sample_route : TCPRoute :=
  mkTCPRoute "mail" ["*.Example.org"] (Some (mkTLS "m.pem" "m.key" "" "" "" "" "")) [sample_backend "m" "tcp://m:25"].
Definition sample_client (name : string) : client :=
  mkClient (Ok name) (λ t, Ok ("over " +:+ CertFile t)) "HELO".
Definition listener_tls : TLSConfig := mkTLS "l.pem" "l.key" "" "" "" "" "".
Definition first_h : list TCPByteCheck := [mkCheck false [72; 104]; mkCheck true []].

Lemma tcp_sni_isolation_witness :
  handleTCPConnection (λ _, None) (λ _, None) (λ _, None) (λ _ _, Ok tt) (sample_client "SMTP.example.ORG")
    [sample_backend "d" "tcp://d:1"] [sample_route] (Some listener_tls) [] 7
    = Tunnel (sample_backend "m" "tcp://m:25") "m:25" false (30 * second) "over m.pem" ∧
  ∃ serverName sel, Ok (E := string) "SMTP.example.ORG" = Ok serverName ∧ first_match serverName [sample_route] sel ∧
    sample_backend "m" "tcp://m:25" ∈ match sel with Some route => tr_Backends route | None => [sample_backend "d" "tcp://d:1"] end ∧
    Ok (E := string) ("over " +:+ CertFile (default listener_tls (route_certificate sel))) = Ok "over m.pem" ∧
    (∀ rt, route_certificate sel = Some rt → @None string = None).
Proof.
  split; [reflexivity|].
  apply (tcp_sni_isolation (λ _, None) (λ _, None) (λ _, None) (λ _ _, Ok tt) (sample_client "SMTP.example.ORG")
    listener_tls [sample_backend "d" "tcp://d:1"] [sample_route] [] 7 _ "m:25" false (30 * second)). reflexivity.
Defined.

Lemma sample_passes : passes first_h "HELO".
Proof. apply (check_bytes_passes first_h "HELO" 0); [simpl; lia|reflexivity]. Qed.

Lemma sample_refused : ¬ passes first_h "EHLO".
Proof. rewrite <- (check_bytes_passes first_h "EHLO" 0) by (simpl; lia). discriminate. Qed.

Lemma initial_bytes_gate_witness :
  handleTCPConnection (λ _, None) (λ _, None) (λ _, None) (λ _ _, Ok tt) (sample_client "")
    [sample_backend "d" "tcp://d:1"] [] None first_h 3 =
    Tunnel (sample_backend "d" "tcp://d:1") "d:1" false (30 * second) "HELO" ∧
  ∃ why, handleTCPConnection (λ _, None) (λ _, None) (λ _, None) (λ _ _, Ok tt) (mkClient (Err "") (λ _, Err "") "EHLO")
    [sample_backend "d" "tcp://d:1"] [] None first_h 3 = Dropped why.
Proof.
  assert (∀ d, reachable (λ _, None) (λ _ _, Ok tt) (sample_backend d "tcp://d:1")) as Hr
    by (intros d; split; [discriminate|split; [discriminate|reflexivity]]).
  split.
  - apply (initial_bytes_gate (λ _, None) (λ _, None) (λ _, None) (λ _ _, Ok tt) (sample_client "")
      [sample_backend "d" "tcp://d:1"] [] first_h 3 (sample_backend "d" "tcp://d:1") eq_refl (Hr _)). apply sample_passes.
  - apply (initial_bytes_gate (λ _, None) (λ _, None) (λ _, None) (λ _ _, Ok tt) (mkClient (Err "") (λ _, Err "") "EHLO")
      [sample_backend "d" "tcp://d:1"] [] first_h 3 (sample_backend "d" "tcp://d:1") eq_refl (Hr _)). apply sample_refused.
Defined.

Lemma plain_routes_unreachable_witness :
  tcp_configured [] [sample_route] = Ok tt ∧ ∃ why,
    handleTCPConnection (λ _, None) (λ _, None) (λ _, None) (λ _ _, Ok tt) (sample_client "a.example.org") []
      [sample_route] None [] 0 = Dropped why.
Proof.
  apply (plain_routes_unreachable (λ _, None) (λ _, None) (λ _, None) (λ _ _, Ok tt) (sample_client "a.example.org") [sample_route]).
  discriminate.
Defined.
