(* ===== verification/Aws.v ===== *)
(** * AWS Signature Version 4

    Models [pkg/backend/auth_aws.go]: the canonical request (query string,
    headers, signed header names), the string to sign and the header the signer
    adds.  SHA-256 and HMAC are parameters.  A Go map is ranged over in any
    order: [visit n h] is the order of the [n]-th range statement over the header
    map [h].  White space and letter case are those of ASCII. *)

From stdpp Require Import sorting.
From S2P Require Import Prelude GoStd GoHttp Base64 Backend Selector Routing Middleware Transport.
Open Scope Z_scope.

(** ** Percent encoding *)

(** [url.QueryUnescape] *)
Definition unhex (c : Ascii.ascii) : option Z :=
  let z := ord c in
  if (48 <=? z) && (z <=? 57) then Some (z - 48)
  else if (97 <=? z) && (z <=? 102) then Some (z - 87)
  else if (65 <=? z) && (z <=? 70) then Some (z - 55)
  else None.

Fixpoint QueryUnescape (s : string) : option string :=
  match s with
  | EmptyString => Some ""
  | String c s' =>
      if Ascii.eqb c "%" then
        match s' with
        | String a (String b s'') =>
            match unhex a, unhex b with
            | Some x, Some y => String (chr (Z.lor (Z.shiftl x 4) y)) <$> QueryUnescape s''
            | _, _ => None
            end
        | _ => None
        end
      else String (if Ascii.eqb c "+" then " "%char else c) <$> QueryUnescape s'
  end.

Definition hexDigits (n : Z) : Ascii.ascii := if n <? 10 then chr (48 + n) else chr (55 + n).

Definition unreserved (c : Ascii.ascii) : bool :=
  let b := ord c in
  ((65 <=? b) && (b <=? 90)) || ((97 <=? b) && (b <=? 122)) || ((48 <=? b) && (b <=? 57)) || contains_byte c "-_.~".

Fixpoint awsURLEncode (value : string) : string :=
  match value with
  | EmptyString => ""
  | String c rest =>
      if unreserved c then String c (awsURLEncode rest)
      else String "%" (String (hexDigits (Z.shiftr (ord c) 4)) (String (hexDigits (Z.land (ord c) 15)) (awsURLEncode rest)))
  end.

(** ** The canonical query string *)
Record queryParameter : Type := mkQP { qp_name : string; qp_value : string }.

#[global] Instance queryParameter_eq_dec : EqDecision queryParameter.
Proof. solve_decision. Defined.

(** [params[j]] may stand before [params[i]] unless the comparison function of
    [sort.Slice] puts [i] strictly before [j]. *)
Definition qp_less (p q : queryParameter) : bool :=
  if String.eqb (qp_name p) (qp_name q) then String.ltb (qp_value p) (qp_value q) else String.ltb (qp_name p) (qp_name q).
Definition qp_le (p q : queryParameter) : Prop := qp_less q p = false.
#[global] Instance qp_le_dec p q : Decision (qp_le p q).
Proof. unfold qp_le. apply _. Defined.

(** The pairs of a query, decoded, in order. *)
Fixpoint decode_pairs (parts : list string) : option (list (string * string)) :=
  match parts with
  | [] => Some []
  | part :: rest =>
      if String.eqb part "" then decode_pairs rest
      else
        let '(name, value, _) := Cut "=" part in
        match QueryUnescape name, QueryUnescape value with
        | Some n, Some v => cons (n, v) <$> decode_pairs rest
        | _, _ => None
        end
  end.

Definition encode_pair (p : string * string) : queryParameter := mkQP (awsURLEncode p.1) (awsURLEncode p.2).

Definition parseQueryString (query : string) : result string string :=
  match decode_pairs (Split "&" query) with
  | None => Err "invalid URL escape"
  | Some ps =>
      let params := merge_sort qp_le (map encode_pair ps) in
      Ok (Join "&" (map (λ p, qp_name p +:+ "=" +:+ qp_value p) params))
  end.

(** ** Canonical headers *)
Definition isSignedHeader (name : string) : bool :=
  negb (String.eqb name "authorization") && negb (String.eqb name "host") && negb (String.eqb name "forwarded") &&
  negb (HasPrefix name "x-forwarded-").

(** [strings.Fields] *)
Fixpoint Fields_go (s word : string) : list string :=
  match s with
  | EmptyString => if String.eqb word "" then [] else [word]
  | String c s' =>
      if is_space c then (if String.eqb word "" then [] else [word]) ++ Fields_go s' ""
      else Fields_go s' (word +:+ String c "")
  end.
Definition Fields (s : string) : list string := Fields_go s "".

Definition normalizeHeaderValue (value : string) : string := Join " " (Fields value).

Definition string_le (s t : string) : Prop := String.leb s t = true.
#[global] Instance string_le_dec s t : Decision (string_le s t).
Proof. unfold string_le. apply _. Defined.

(** [sort.Strings] of the keys of a map. *)
Definition sorted_keys {A} (m : gmap string A) : list string := merge_sort string_le (map fst (map_to_list m)).

Record awsRequest : Type := mkAR {
  ar_Method : string;
  ar_EscapedPath : string;                   (* URL.EscapedPath() *)
  ar_RawQuery : string;
  ar_Host : string;
  ar_URLHost : string;                       (* URL.Host, empty without a URL *)
  ar_Header : header;
  ar_Body : option (result string string);   (* nil, or what reading it gives *)
}.

Definition requestHost (req : awsRequest) : string :=
  if negb (String.eqb (ar_Host req) "") then ar_Host req else ar_URLHost req.

(** The loop of [getCanonicalHeaders] over the header map. *)
Fixpoint collect_headers (entries : list (string * list string)) (headers : gmap string string) : gmap string string :=
  match entries with
  | [] => headers
  | (key, values) :: rest =>
      let name := ToLower key in
      if isSignedHeader name
      then collect_headers rest (<[name := normalizeHeaderValue (Join "," values)]> headers)
      else collect_headers rest headers
  end.

Definition header_line (headers : gmap string string) (key : string) : string :=
  key +:+ ":" +:+ default "" (headers !! key) +:+ newline.

Definition getCanonicalHeaders (entries : list (string * list string)) (host : string) : string :=
  let headers := collect_headers entries {["host" := host]} in
  String.concat "" (map (header_line headers) (sorted_keys headers)).

Fixpoint collect_names (entries : list (string * list string)) (headers : gmap string bool) : gmap string bool :=
  match entries with
  | [] => headers
  | (key, _) :: rest =>
      let name := ToLower key in
      collect_names rest (if isSignedHeader name then <[name := true]> headers else headers)
  end.

Definition getSignedHeaders (entries : list (string * list string)) : string :=
  Join ";" (sorted_keys (<["host" := true]> (collect_names entries ∅))).

(** ** Dates

    [time.Time.Format] of a UTC time, from the seconds since 1970: the civil date
    of a day number counts years from the first of March, so that a leap day ends
    its year. *)
Definition civil (days : Z) : Z * Z * Z :=
  let z := days + 719468 in
  let era := z / 146097 in
  let doe := z mod 146097 in
  let yoe := (doe - doe / 1460 + doe / 36524 - doe / 146096) / 365 in
  let doy := doe - (365 * yoe + yoe / 4 - yoe / 100) in
  let mp := (5 * doy + 2) / 153 in
  let month := if mp <? 10 then mp + 3 else mp - 9 in
  (yoe + era * 400 + (if month <=? 2 then 1 else 0), month, doy - (153 * mp + 2) / 5 + 1).

Definition pad2 (n : Z) : string := String (digit (n / 10)) (String (digit (n mod 10)) "").
Definition pad4 (n : Z) : string := pad2 (n / 100) +:+ pad2 (n mod 100).

(** [Format("20060102")] and [Format("20060102T150405Z")] of a time in seconds *)
Definition format_date (now : Z) : string :=
  let '(y, m, d) := civil (now / 86400) in pad4 y +:+ pad2 m +:+ pad2 d.
Definition format_amz (now : Z) : string :=
  let s := now mod 86400 in
  format_date now +:+ "T" +:+ pad2 (s / 3600) +:+ pad2 (s / 60 mod 60) +:+ pad2 (s mod 60) +:+ "Z".

Example format_amz_documented : format_amz 1369353600 = "20130524T000000Z".
Proof. reflexivity. Qed.
Example format_amz_leap_day : format_amz 1709251199 = "20240229T235959Z".
Proof. reflexivity. Qed.

(** ** Signing *)
Record AWSSignerV4 : Type := mkSigner { AccessKeyID : string; SecretAccessKey : string; Region : string; Service : string }.

Section signer.
  Context (sha256 : string → string) (hmacSha256 : string → string → string).
  Context (visit : nat → header → list (string * list string)).

Definition hashString (s : string) : string := hex_Encode (sha256 s).
Definition hashPayload (payload : string) : string := hashString payload.

Definition buildCanonicalRequest (req : awsRequest) (hashedPayload : string) : result string string :=
  match parseQueryString (ar_RawQuery req) with
  | Err e => Err ("canonicalize AWS query string: " +:+ e)
  | Ok query =>
      Ok (ar_Method req +:+ newline +:+ ar_EscapedPath req +:+ newline +:+ query +:+ newline +:+
          getCanonicalHeaders (visit 0 (ar_Header req)) (requestHost req) +:+ newline +:+
          getSignedHeaders (visit 1 (ar_Header req)) +:+ newline +:+ hashedPayload)
  end.

Definition with_header (f : header → header) (req : awsRequest) : awsRequest :=
  mkAR (ar_Method req) (ar_EscapedPath req) (ar_RawQuery req) (ar_Host req) (ar_URLHost req) (f (ar_Header req)) (ar_Body req).

Definition credentialScope (signer : AWSSignerV4) (now : Z) : string :=
  format_date now +:+ "/" +:+ Region signer +:+ "/" +:+ Service signer +:+ "/aws4_request".

Definition stringToSign (signer : AWSSignerV4) (now : Z) (canonicalRequest : string) : string :=
  "AWS4-HMAC-SHA256" +:+ newline +:+ format_amz now +:+ newline +:+ credentialScope signer now +:+ newline +:+
  hashString canonicalRequest.

Definition signature (signer : AWSSignerV4) (now : Z) (canonicalRequest : string) : string :=
  let kDate := hmacSha256 ("AWS4" +:+ SecretAccessKey signer) (format_date now) in
  let kRegion := hmacSha256 kDate (Region signer) in
  let kService := hmacSha256 kRegion (Service signer) in
  let kSigning := hmacSha256 kService "aws4_request" in
  hex_Encode (hmacSha256 kSigning (stringToSign signer now canonicalRequest)).

(** [SignRequest]: the outcome, and the request as it was changed; [clock] is what
    [time.Now] answers, in nanoseconds. *)
Definition SignRequest (signer : AWSSignerV4) (clock : Z) (req : awsRequest) : result string unit * awsRequest :=
  let now := clock / second in
  let req := with_header (header_Set "X-Amz-Date" (format_amz now)) req in
  match ar_Body req with
  | Some (Err e) => (Err e, req)
  | body =>
      let bodyBytes := match body with Some (Ok b) => b | _ => "" end in
      let hashedPayload := hashPayload bodyBytes in
      let req := with_header (header_Set "X-Amz-Content-Sha256" hashedPayload) req in
      match buildCanonicalRequest req hashedPayload with
      | Err e => (Err e, req)
      | Ok canonicalRequest =>
          let signedHeaders := getSignedHeaders (visit 2 (ar_Header req)) in
          let authHeader := "AWS4-HMAC-SHA256 Credential=" +:+ AccessKeyID signer +:+ "/" +:+ credentialScope signer now +:+
            ", SignedHeaders=" +:+ signedHeaders +:+ ", Signature=" +:+ signature signer now canonicalRequest in
          (Ok tt, with_header (header_Set "Authorization" authHeader) req)
      end
  end.
End signer.

(** ** Percent encoding is undone by [url.QueryUnescape] *)
Ltac each_byte c := destruct c as [[] [] [] [] [] [] [] []]; vm_compute.

Lemma encoded_byte c :
  unreserved c = false →
  unhex (hexDigits (Z.shiftr (ord c) 4)) = Some (Z.shiftr (ord c) 4) ∧
  unhex (hexDigits (Z.land (ord c) 15)) = Some (Z.land (ord c) 15) ∧
  chr (Z.lor (Z.shiftl (Z.shiftr (ord c) 4) 4) (Z.land (ord c) 15)) = c.
Proof. each_byte c; try done; split_and!; done. Qed.

Lemma unreserved_plain c : unreserved c = true → Ascii.eqb c "%" = false ∧ Ascii.eqb c "+" = false.
Proof. each_byte c; try done. Qed.

Lemma QueryUnescape_encode s : QueryUnescape (awsURLEncode s) = Some s.
Proof.
  induction s as [|c s IH]; [done|]. cbn [awsURLEncode]. destruct (unreserved c) eqn:Hc.
  - apply unreserved_plain in Hc as [H1 H2]. cbn [QueryUnescape]. by rewrite H1, H2, IH.
  - apply encoded_byte in Hc as (H1 & H2 & H3). cbn [QueryUnescape Ascii.eqb].
    change (Ascii.eqb "%" "%") with true. cbv iota. by rewrite H1, H2, IH; cbn [fmap option_fmap option_map]; rewrite H3.
Qed.

Definition encoded (c : Ascii.ascii) : bool := unreserved c || Ascii.eqb c "%".

Lemma hexDigits_unreserved c :
  unreserved (hexDigits (Z.shiftr (ord c) 4)) = true ∧ unreserved (hexDigits (Z.land (ord c) 15)) = true.
Proof. each_byte c; done. Qed.

Lemma awsURLEncode_encoded s : all_bytes encoded (awsURLEncode s) = true.
Proof.
  induction s as [|c s IH]; [done|]. cbn [awsURLEncode]. destruct (unreserved c) eqn:Hc; cbn [all_bytes].
  - by rewrite IH; unfold encoded; rewrite Hc.
  - destruct (hexDigits_unreserved c) as [H1 H2]. unfold encoded at 1 2 3. by rewrite H1, H2, IH.
Qed.

Lemma awsURLEncode_inj s t : awsURLEncode s = awsURLEncode t → s = t.
Proof. intros H. apply (f_equal QueryUnescape) in H. rewrite !QueryUnescape_encode in H. by injection H. Qed.

(** ** The order of the canonical query *)
Lemma compare_refl s : String.compare s s = Eq.
Proof. pose proof (String.compare_antisym s s) as H. by destruct (String.compare s s). Qed.

Lemma Ascii_compare_ord c d : Ascii.compare c d = Z.compare (ord c) (ord d).
Proof. unfold Ascii.compare, ord. by rewrite N2Z.inj_compare. Qed.

Lemma ltb_trans s t u : String.ltb s t = true → String.ltb t u = true → String.ltb s u = true.
Proof.
  unfold String.ltb. revert t u; induction s as [|c s IH]; intros [|d t] [|e u]; try done. cbn [String.compare].
  rewrite !Ascii_compare_ord.
  destruct (Z.compare_spec (ord c) (ord d)) as [H1|H1|H1], (Z.compare_spec (ord d) (ord e)) as [H2|H2|H2],
    (Z.compare_spec (ord c) (ord e)) as [H3|H3|H3]; try done; try lia. apply IH.
Qed.

Lemma ltb_irrefl s : String.ltb s s = false.
Proof. unfold String.ltb. by rewrite compare_refl. Qed.

Lemma ltb_antisym s t : String.ltb s t = false → String.ltb t s = false → s = t.
Proof.
  unfold String.ltb. rewrite (String.compare_antisym t s). destruct (String.compare s t) eqn:E; try done.
  intros _ _. by apply String.compare_eq_iff.
Qed.

Lemma leb_ltb s t : String.leb s t = negb (String.ltb t s).
Proof. unfold String.leb, String.ltb. rewrite (String.compare_antisym t s). by destruct (String.compare s t). Qed.

(** A strict order whose incomparable elements are equal is a total order. *)
Section strict.
  Context {A : Type} (less : A → A → bool).
  Context (less_trans : ∀ x y z, less x y = true → less y z = true → less x z = true).
  Context (less_irrefl : ∀ x, less x x = false) (less_total : ∀ x y, less x y = false → less y x = false → x = y).

Lemma strict_trans x y z : less y x = false → less z y = false → less z x = false.
Proof using less_trans less_total.
  intros H1 H2. apply not_true_iff_false. intros H3. destruct (less x y) eqn:E1.
  - rewrite (less_trans z x y H3 E1) in H2. done.
  - rewrite (less_total x y E1 H1) in H3. congruence.
Qed.

Lemma strict_asym x y : less x y = true → less y x = false.
Proof using less_trans less_irrefl.
  intros H. apply not_true_iff_false. intros H'. pose proof (less_trans _ _ _ H H') as E. by rewrite less_irrefl in E.
Qed.
End strict.

Lemma qp_less_trans p q r : qp_less p q = true → qp_less q r = true → qp_less p r = true.
Proof.
  unfold qp_less.
  destruct (String.eqb_spec (qp_name p) (qp_name q)) as [H1|H1], (String.eqb_spec (qp_name q) (qp_name r)) as [H2|H2],
    (String.eqb_spec (qp_name p) (qp_name r)) as [H3|H3]; try congruence; try apply ltb_trans.
  intros Ha Hb. rewrite <- H3 in Hb. pose proof (ltb_trans _ _ _ Ha Hb) as E. by rewrite ltb_irrefl in E.
Qed.

Lemma qp_less_irrefl p : qp_less p p = false.
Proof. unfold qp_less. by rewrite String.eqb_refl, ltb_irrefl. Qed.

Lemma qp_less_total p q : qp_less p q = false → qp_less q p = false → p = q.
Proof.
  unfold qp_less. rewrite (String.eqb_sym (qp_name q)). destruct (String.eqb_spec (qp_name p) (qp_name q)) as [H|H].
  - intros H1 H2. destruct p, q; simpl in *. f_equal; [done|by apply ltb_antisym].
  - intros H1 H2. by destruct H; apply ltb_antisym.
Qed.

#[global] Instance qp_le_trans : Transitive qp_le.
Proof. intros p q r. apply strict_trans; [apply qp_less_trans|apply qp_less_total]. Qed.
#[global] Instance qp_le_total : Total qp_le.
Proof. intros p q. unfold qp_le. destruct (qp_less q p) eqn:E; [right|by left]. exact (strict_asym qp_less qp_less_trans qp_less_irrefl _ _ E). Qed.
#[global] Instance qp_le_antisym : AntiSymm (=) qp_le.
Proof. intros p q H1 H2. by apply qp_less_total. Qed.

#[global] Instance string_le_trans : Transitive string_le.
Proof.
  intros s t u. unfold string_le. rewrite !leb_ltb, !negb_true_iff.
  apply strict_trans; [apply ltb_trans|apply ltb_antisym].
Qed.
#[global] Instance string_le_total : Total string_le.
Proof. intros s t. apply String.leb_total. Qed.
#[global] Instance string_le_antisym : AntiSymm (=) string_le.
Proof. intros s t. apply String.leb_antisym. Qed.

(** ** The canonical query string *)
Definition show_param (p : queryParameter) : string := qp_name p +:+ "=" +:+ qp_value p.

(** The pairs a query means. *)
Definition query_pairs (query : string) : option (list (string * string)) := decode_pairs (Split "&" query).

Lemma show_param_cut x : Cut "=" (show_param (encode_pair x)) = (awsURLEncode x.1, awsURLEncode x.2, true).
Proof.
  apply (Cut_app "="). apply (all_bytes_contains encoded); [done|apply awsURLEncode_encoded].
Qed.

Lemma show_param_no_amp x : contains_byte "&" (show_param (encode_pair x)) = false.
Proof.
  unfold show_param. rewrite !contains_byte_app. simpl.
  by rewrite !(all_bytes_contains encoded "&") by (done || apply awsURLEncode_encoded).
Qed.

Lemma decode_shown l : decode_pairs (map (λ x, show_param (encode_pair x)) l) = Some l.
Proof.
  induction l as [|x l IH]; [done|]. cbn [map decode_pairs].
  rewrite (proj2 (String.eqb_neq (show_param (encode_pair x)) "")).
  2:{ unfold show_param. destruct (qp_name (encode_pair x)); discriminate. }
  rewrite show_param_cut, !QueryUnescape_encode, IH. by destruct x.
Qed.

Lemma query_pairs_shown l : query_pairs (Join "&" (map (λ x, show_param (encode_pair x)) l)) = Some l.
Proof.
  destruct l as [|x l]; [done|]. unfold query_pairs. rewrite (Split_Join "&"); [apply decode_shown|done|].
  apply Forall_map, Forall_forall. intros y _. apply show_param_no_amp.
Qed.

Lemma parseQueryString_pairs query l :
  query_pairs query = Some l →
  ∃ l', l' ≡ₚ l ∧ StronglySorted qp_le (map encode_pair l') ∧
        parseQueryString query = Ok (Join "&" (map (λ x, show_param (encode_pair x)) l')).
Proof.
  intros Hl. pose proof (merge_sort_Permutation qp_le (map encode_pair l)) as Hp.
  destruct (Permutation_map_inv _ _ Hp) as (l' & Heq & Hl'). exists l'. split; [by symmetry|].
  split; [rewrite <- Heq; by apply (StronglySorted_merge_sort qp_le)|].
  unfold parseQueryString. unfold query_pairs in Hl. rewrite Hl, Heq, map_map. done.
Qed.

(** C22: the canonical query string stands for the query's parameters, and for
    nothing else.  It exists when every escape of the query is valid; it denotes the same parameters and is its own canonical form; and two queries
    have the same canonical string exactly when they have the same parameters, in
    whatever order and with whatever spelling of their escapes. *)
Theorem canonical_query (q1 q2 : string) (l1 l2 : list (string * string)) :
  query_pairs q1 = Some l1 → query_pairs q2 = Some l2 →
  ∃ c1 c2, parseQueryString q1 = Ok c1 ∧ parseQueryString q2 = Ok c2 ∧
    (∃ l, query_pairs c1 = Some l ∧ l ≡ₚ l1) ∧ parseQueryString c1 = Ok c1 ∧
    (c1 = c2 ↔ l1 ≡ₚ l2).
Proof.
  intros H1 H2. destruct (parseQueryString_pairs _ _ H1) as (m1 & P1 & S1 & E1).
  destruct (parseQueryString_pairs _ _ H2) as (m2 & P2 & S2 & E2). do 2 eexists. split; [exact E1|]. split; [exact E2|].
  split; [exists m1; split; [apply query_pairs_shown|done]|]. split.
  - destruct (parseQueryString_pairs _ _ (query_pairs_shown m1)) as (m & P & S & ->). do 2 f_equal.
    assert (map encode_pair m = map encode_pair m1) as He by (apply (StronglySorted_unique qp_le); [done..|by rewrite P]).
    by rewrite <- !(map_map encode_pair show_param), He.
  - split.
    + intros He. apply (f_equal query_pairs) in He. rewrite !query_pairs_shown in He. injection He as He.
      by rewrite <- P1, <- P2, He.
    + intros Hp. assert (map encode_pair m1 = map encode_pair m2) as He.
      { apply (StronglySorted_unique qp_le); [done..|]. by rewrite P1, P2, Hp. }
      by rewrite <- !(map_map encode_pair show_param), He.
Qed.

Lemma canonical_query_witness :
  ∃ c1 c2, parseQueryString "b=1&a=%7e+x" = Ok c1 ∧ parseQueryString "a=~%20x&&b=1" = Ok c2 ∧
    (∃ l, query_pairs c1 = Some l ∧ l ≡ₚ [("b", "1"); ("a", "~ x")]) ∧ parseQueryString c1 = Ok c1 ∧
    (c1 = c2 ↔ [("b", "1"); ("a", "~ x")] ≡ₚ [("a", "~ x"); ("b", "1")]).
Proof. apply (canonical_query "b=1&a=%7e+x" "a=~%20x&&b=1"); reflexivity. Defined.

(** ** Canonical headers *)
Definition signed_entry (k : string) (e : string * list string) : Prop := ToLower e.1 = k ∧ isSignedHeader k = true.
#[local] Instance signed_entry_dec k e : Decision (signed_entry k e).
Proof. unfold signed_entry. apply _. Defined.

(** No two keys differ by letter case only. *)
Definition case_distinct (es : list (string * list string)) : Prop :=
  ∀ e1 e2, e1 ∈ es → e2 ∈ es → ToLower e1.1 = ToLower e2.1 → e1 = e2.

Lemma collect_None es m k : ¬ Exists (signed_entry k) es → collect_headers es m !! k = m !! k.
Proof.
  revert m; induction es as [|[key vs] es IH]; intros m Hn; simpl; [done|].
  rewrite Exists_cons in Hn. apply Decidable.not_or in Hn as [H1 H2].
  destruct (isSignedHeader (ToLower key)) eqn:Hs; rewrite IH by done; [|done].
  rewrite lookup_insert_ne; [done|]. intros He. apply H1. by rewrite <- He.
Qed.

Lemma collect_Some es m key vs :
  case_distinct es → (key, vs) ∈ es → isSignedHeader (ToLower key) = true →
  collect_headers es m !! ToLower key = Some (normalizeHeaderValue (Join "," vs)).
Proof.
  revert m; induction es as [|[key' vs'] es IH]; intros m Hd Hin Hs; [by apply not_elem_of_nil in Hin|]. simpl.
  assert (case_distinct es) as Hd' by (intros e1 e2 H1 H2; apply Hd; by right).
  destruct (decide (Exists (signed_entry (ToLower key)) es)) as [He|Hn].
  - apply Exists_exists in He as ([k2 v2] & Hin2 & Hk2 & _). simpl in Hk2.
    assert ((k2, v2) = (key, vs)) as [= -> ->] by (apply Hd; [by right|done|done]).
    destruct (isSignedHeader (ToLower key')); by apply IH.
  - apply elem_of_cons in Hin as [[= <- <-]|Hin].
    + by rewrite Hs, collect_None, lookup_insert_eq.
    + destruct Hn. apply Exists_exists. by exists (key, vs).
Qed.

Lemma collect_names_lookup es m k :
  collect_names es m !! k = if decide (Exists (signed_entry k) es) then Some true else m !! k.
Proof.
  revert m; induction es as [|[key vs] es IH]; intros m; cbn [collect_names].
  { case_decide as H; [by apply Exists_nil in H|done]. }
  rewrite IH. case_decide as H1; case_decide as H2; try done.
  - by destruct H2; right.
  - apply Exists_cons in H2 as [[Hk Hs]|H2]; [|done]. simpl in Hk. subst k. by rewrite Hs, lookup_insert_eq.
  - destruct (isSignedHeader (ToLower key)) eqn:Hs; [|done].
    rewrite lookup_insert_ne; [done|]. intros <-. apply H2. by left.
Qed.

Lemma sorted_keys_spec {A} (m : gmap string A) :
  StronglySorted string_le (sorted_keys m) ∧ NoDup (sorted_keys m) ∧ ∀ k, k ∈ sorted_keys m ↔ is_Some (m !! k).
Proof.
  pose proof (merge_sort_Permutation string_le (map fst (map_to_list m))) as Hp. fold (sorted_keys m) in Hp.
  split; [by apply (StronglySorted_merge_sort string_le)|]. split; [rewrite Hp; apply NoDup_fst_map_to_list|].
  intros k. rewrite Hp, list_elem_of_fmap. split.
  - intros ([k' v] & -> & Hin%elem_of_map_to_list). by exists v.
  - intros [v Hv]. exists (k, v). by rewrite elem_of_map_to_list.
Qed.

Lemma sorted_keys_dom {A B} (m1 : gmap string A) (m2 : gmap string B) :
  (∀ k, is_Some (m1 !! k) ↔ is_Some (m2 !! k)) → sorted_keys m1 = sorted_keys m2.
Proof.
  intros H. destruct (sorted_keys_spec m1) as (S1 & N1 & E1), (sorted_keys_spec m2) as (S2 & N2 & E2).
  apply (StronglySorted_unique string_le); [done..|]. apply NoDup_Permutation; [done..|].
  intros k. by rewrite E1, E2.
Qed.

Lemma canonical_names es1 es2 host :
  es1 ≡ₚ es2 → case_distinct es1 →
  sorted_keys (<["host" := true]> (collect_names es2 ∅)) = sorted_keys (collect_headers es1 {["host" := host]}).
Proof.
  intros Hp Hd. apply sorted_keys_dom. intros k. destruct (decide (k = "host")) as [->|Hk].
  - rewrite lookup_insert_eq, collect_None, lookup_singleton_eq; [done|].
    rewrite Exists_exists. intros (e & _ & _ & Hs). vm_compute in Hs. done.
  - rewrite lookup_insert_ne, collect_names_lookup by done.
    rewrite (decide_ext (Exists (signed_entry k) es2) (Exists (signed_entry k) es1)) by by rewrite Hp.
    case_decide as He; [|by rewrite collect_None, lookup_singleton_ne, lookup_empty].
    apply Exists_exists in He as ([key vs] & Hin & Hlow & Hs). simpl in Hlow. subst k.
    by rewrite (collect_Some es1 _ key vs).
Qed.

(** The signed header names and the canonical headers agree.  Whatever the
    orders in which the header map is visited, both list the same names, sorted
    and without duplicates: the host and every header that is not about
    authorization or forwarding, each with its values joined by commas and its
    white space normalised. *)
Theorem signed_headers_agree (es1 es2 : list (string * list string)) (host : string) :
  es1 ≡ₚ es2 → case_distinct es1 →
  ∃ keys (value : string → string),
    StronglySorted string_le keys ∧ NoDup keys ∧
    getSignedHeaders es2 = Join ";" keys ∧
    getCanonicalHeaders es1 host = String.concat "" (map (λ k, k +:+ ":" +:+ value k +:+ newline) keys) ∧
    (∀ k, k ∈ keys ↔ k = "host" ∨ ∃ key vs, (key, vs) ∈ es1 ∧ ToLower key = k ∧ isSignedHeader k = true) ∧
    value "host" = host ∧
    (∀ key vs, (key, vs) ∈ es1 → isSignedHeader (ToLower key) = true →
       value (ToLower key) = normalizeHeaderValue (Join "," vs)).
Proof.
  intros Hp Hd. set (hs := collect_headers es1 {["host" := host]}).
  assert (hs !! "host" = Some host) as Hhost.
  { unfold hs. rewrite collect_None; [apply lookup_singleton_eq|].
    rewrite Exists_exists. intros (e & _ & _ & Hs). vm_compute in Hs. done. }
  destruct (sorted_keys_spec hs) as (S & N & E).
  exists (sorted_keys hs), (λ k, default "" (hs !! k)). split; [done|]. split; [done|].
  split; [unfold getSignedHeaders; by rewrite (canonical_names es1 es2 host)|]. split; [done|].
  split; [|split; [by rewrite Hhost|]].
  - intros k. rewrite E. split.
    + intros Hk. destruct (decide (Exists (signed_entry k) es1)) as [He|Hn].
      * right. apply Exists_exists in He as ([key vs] & Hin & Hl & Hs). by exists key, vs.
      * left. unfold hs in Hk. rewrite collect_None in Hk by done.
        destruct (decide (k = "host")); [done|]. rewrite lookup_singleton_ne in Hk by done. by destruct Hk.
    + intros [->|(key & vs & Hin & <- & Hs)]; [by exists host|]. unfold hs. by rewrite (collect_Some es1 _ key vs).
  - intros key vs Hin Hs. unfold hs. by rewrite (collect_Some es1 _ key vs).
Qed.

Lemma signed_headers_agree_witness :
  ∃ keys (value : string → string),
    StronglySorted string_le keys ∧ NoDup keys ∧
    getSignedHeaders [("X-Amz-Date", ["d"]); ("Authorization", ["a"])] = Join ";" keys ∧
    getCanonicalHeaders [("Authorization", ["a"]); ("X-Amz-Date", ["d"])] "h"
      = String.concat "" (map (λ k, k +:+ ":" +:+ value k +:+ newline) keys) ∧
    (∀ k, k ∈ keys ↔ k = "host" ∨ ∃ key vs, (key, vs) ∈ [("Authorization", ["a"]); ("X-Amz-Date", ["d"])] ∧
       ToLower key = k ∧ isSignedHeader k = true) ∧
    value "host" = "h" ∧
    (∀ key vs, (key, vs) ∈ [("Authorization", ["a"]); ("X-Amz-Date", ["d"])] → isSignedHeader (ToLower key) = true →
       value (ToLower key) = normalizeHeaderValue (Join "," vs)).
Proof.
  apply (signed_headers_agree [("Authorization", ["a"]); ("X-Amz-Date", ["d"])] [("X-Amz-Date", ["d"]); ("Authorization", ["a"])] "h").
  - apply Permutation_swap.
  - intros e1 e2 H1 H2 He. rewrite !elem_of_cons in H1, H2.
    destruct H1 as [->|[->|H1]], H2 as [->|[->|H2]]; try reflexivity; try (vm_compute in He; discriminate He);
      by apply not_elem_of_nil in H1 || apply not_elem_of_nil in H2.
Defined.

(** ** The signature does not depend on what is not signed *)

(** The keys of a header map as [net/http] keeps them. *)
Definition canonical_keys (h : header) : Prop :=
  ∀ k, is_Some (h !! k) → all_bytes is_token k = true ∧ CanonicalHeaderKey k = k.

Lemma case_byte c : upper_byte (lower_byte c) = upper_byte c ∧ lower_byte (lower_byte c) = lower_byte c.
Proof. each_byte c; done. Qed.

Lemma canonical_go_lower u s : canonical_go u (ToLower s) = canonical_go u s.
Proof.
  revert u; induction s as [|c s IH]; intros u; [done|]. unfold ToLower in *. cbn [smap canonical_go]. rewrite IH.
  destruct (case_byte c) as [-> ->]. done.
Qed.

Lemma canonical_distinct h es : canonical_keys h → es ≡ₚ map_to_list h → case_distinct es.
Proof.
  intros Hh Hes [k1 v1] [k2 v2] H1 H2 He. simpl in He. rewrite Hes, elem_of_map_to_list in H1, H2.
  destruct (Hh k1) as [T1 C1]; [by eexists|]. destruct (Hh k2) as [T2 C2]; [by eexists|].
  unfold CanonicalHeaderKey in C1, C2. rewrite T1 in C1. rewrite T2 in C2.
  assert (k1 = k2) as -> by (rewrite <- C1, <- C2, <- (canonical_go_lower _ k1), <- (canonical_go_lower _ k2); by rewrite He).
  by simplify_eq.
Qed.

Lemma canonical_Set k v h :
  CanonicalHeaderKey k = k → all_bytes is_token k = true → canonical_keys h → canonical_keys (header_Set k v h).
Proof.
  intros Hk Ht Hh k' Hs. unfold header_Set in Hs. rewrite Hk in Hs.
  destruct (decide (k = k')) as [<-|Hne]; [done|]. rewrite lookup_insert_ne in Hs by done. by apply Hh.
Qed.

(** Two header maps with the same signed entries. *)
Definition agree_signed (h1 h2 : header) : Prop := ∀ k, isSignedHeader (ToLower k) = true → h1 !! k = h2 !! k.

Lemma agree_Exists h1 h2 es1 es2 k :
  agree_signed h1 h2 → es1 ≡ₚ map_to_list h1 → es2 ≡ₚ map_to_list h2 →
  Exists (signed_entry k) es1 → Exists (signed_entry k) es2.
Proof.
  intros Ha H1 H2 ([key vs] & Hin & Hl & Hs)%Exists_exists. simpl in Hl. subst k. apply Exists_exists. exists (key, vs).
  split; [|done]. rewrite H1, elem_of_map_to_list in Hin. by rewrite H2, elem_of_map_to_list, <- Ha.
Qed.

Lemma agree_sym h1 h2 : agree_signed h1 h2 → agree_signed h2 h1.
Proof. intros H k Hk. symmetry. by apply H. Qed.

Lemma agree_collect h1 h2 es1 es2 m :
  agree_signed h1 h2 → canonical_keys h1 → canonical_keys h2 → es1 ≡ₚ map_to_list h1 → es2 ≡ₚ map_to_list h2 →
  collect_headers es1 m = collect_headers es2 m.
Proof.
  intros Ha K1 K2 H1 H2. apply map_eq. intros k. destruct (decide (Exists (signed_entry k) es1)) as [He|Hn].
  - apply Exists_exists in He as ([key vs] & Hin & Hl & Hs). simpl in Hl. subst k.
    assert ((key, vs) ∈ es2) as Hin2.
    { rewrite H1, elem_of_map_to_list in Hin. by rewrite H2, elem_of_map_to_list, <- Ha. }
    by rewrite (collect_Some es1 _ key vs), (collect_Some es2 _ key vs) by eauto using canonical_distinct.
  - rewrite !collect_None; [done| |done]. intros He. apply Hn. by eapply (agree_Exists h2 h1); [apply agree_sym|..].
Qed.

Lemma agree_names h1 h2 es1 es2 :
  agree_signed h1 h2 → es1 ≡ₚ map_to_list h1 → es2 ≡ₚ map_to_list h2 → getSignedHeaders es1 = getSignedHeaders es2.
Proof.
  intros Ha H1 H2. unfold getSignedHeaders. do 3 f_equal. apply map_eq. intros k. rewrite !collect_names_lookup.
  case_decide as E1; case_decide as E2; try done; exfalso.
  - apply E2. by eapply (agree_Exists h1 h2).
  - apply E1. by eapply (agree_Exists h2 h1); [apply agree_sym|..].
Qed.

Section signing.
  Context (sha256 : string → string) (hmacSha256 : string → string → string).
  Notation visits := (nat → header → list (string * list string)).

(** Every visit of a map gives all its entries, in some order. *)
Definition visits_all (visit : visits) : Prop := ∀ n h, visit n h ≡ₚ map_to_list h.

Lemma agree_canonical (visit visit' : visits) req h1 h2 payload :
  visits_all visit → visits_all visit' → agree_signed h1 h2 → canonical_keys h1 → canonical_keys h2 →
  buildCanonicalRequest visit (with_header (λ _, h1) req) payload = buildCanonicalRequest visit' (with_header (λ _, h2) req) payload.
Proof.
  intros Hv Hv' Ha K1 K2. unfold buildCanonicalRequest. simpl. destruct (parseQueryString (ar_RawQuery req)) as [q|]; [|done].
  unfold getCanonicalHeaders. rewrite (agree_collect h1 h2 _ (visit' 0%nat h2) _ Ha K1 K2) by auto.
  by rewrite (agree_names h1 h2 _ (visit' 1%nat h2) Ha) by auto.
Qed.

(** The header map the signature is computed on. *)
Definition amz_headers (now : Z) (payload : string) (h : header) : header :=
  header_Set "X-Amz-Content-Sha256" (hashPayload sha256 payload) (header_Set "X-Amz-Date" (format_amz now) h).

Definition payload_of (req : awsRequest) : string := match ar_Body req with Some (Ok b) => b | _ => "" end.

Lemma SignRequest_Ok (visit : visits) signer clock req req' :
  SignRequest sha256 hmacSha256 visit signer clock req = (Ok tt, req') →
  ∃ canonicalRequest,
    let h := amz_headers (clock / second) (payload_of req) (ar_Header req) in
    buildCanonicalRequest visit (with_header (λ _, h) req) (hashPayload sha256 (payload_of req)) = Ok canonicalRequest ∧
    (∀ e, ar_Body req ≠ Some (Err e)) ∧
    req' = with_header (λ _, header_Set "Authorization"
      ("AWS4-HMAC-SHA256 Credential=" +:+ AccessKeyID signer +:+ "/" +:+ credentialScope signer (clock / second) +:+
       ", SignedHeaders=" +:+ getSignedHeaders (visit 2%nat h) +:+
       ", Signature=" +:+ signature sha256 hmacSha256 signer (clock / second) canonicalRequest) h) req.
Proof.
  unfold SignRequest, payload_of. cbn [ar_Body with_header].
  destruct (ar_Body req) as [[b|e]|] eqn:Hb; [|done|];
    (destruct (buildCanonicalRequest visit _ _) as [c|] eqn:Hc; [|done]); intros [= <-]; exists c; cbv zeta;
    (split; [done|]); (split; [done|reflexivity]).
Qed.

Lemma SignRequest_intro (visit : visits) signer clock req canonicalRequest :
  let h := amz_headers (clock / second) (payload_of req) (ar_Header req) in
  buildCanonicalRequest visit (with_header (λ _, h) req) (hashPayload sha256 (payload_of req)) = Ok canonicalRequest →
  (∀ e, ar_Body req ≠ Some (Err e)) →
  SignRequest sha256 hmacSha256 visit signer clock req = (Ok tt, with_header (λ _, header_Set "Authorization"
      ("AWS4-HMAC-SHA256 Credential=" +:+ AccessKeyID signer +:+ "/" +:+ credentialScope signer (clock / second) +:+
       ", SignedHeaders=" +:+ getSignedHeaders (visit 2%nat h) +:+
       ", Signature=" +:+ signature sha256 hmacSha256 signer (clock / second) canonicalRequest) h) req).
Proof.
  cbv zeta. unfold payload_of. intros Hc Hb. unfold SignRequest. cbn [ar_Body with_header].
  destruct (ar_Body req) as [[b|e]|] eqn:E; [|by destruct (Hb e)|];
    match type of Hc with ?a = _ =>
      match goal with |- context [buildCanonicalRequest visit ?r ?p] => change (buildCanonicalRequest visit r p) with a end
    end; rewrite Hc; reflexivity.
Qed.

(** C23: a signature stays valid when the request passes through proxies, and
    signing is repeatable within a second.  Take a signed request and change any
    headers that are not signed (forwarding headers, or its own Authorization):
    signing it again in the same second succeeds and gives the same Authorization,
    whatever the orders in which the maps are visited each time. *)
Theorem signature_stable (visit visit' : visits) (signer : AWSSignerV4) (clock clock' : Z) (req req' : awsRequest) (h' : header) :
  visits_all visit → visits_all visit' → clock / second = clock' / second →
  SignRequest sha256 hmacSha256 visit signer clock req = (Ok tt, req') →
  canonical_keys (ar_Header req) → canonical_keys h' → agree_signed h' (ar_Header req') →
  ∃ req'', SignRequest sha256 hmacSha256 visit' signer clock' (with_header (λ _, h') req') = (Ok tt, req'') ∧
    header_Get (ar_Header req'') "Authorization" = header_Get (ar_Header req') "Authorization".
Proof.
  intros Hv Hv' Hclock (c & Hc & Hb & ->)%SignRequest_Ok K K' Ha. cbv zeta in *. set (now := clock / second) in *.
  set (h := amz_headers now (payload_of req) (ar_Header req)) in *.
  assert (canonical_keys h) as Kh by (by repeat apply canonical_Set).
  set (r := with_header (λ _, h') _). assert (payload_of r = payload_of req) as Hp by done.
  set (h2 := amz_headers now (payload_of req) h').
  assert (canonical_keys h2) as K2 by (by repeat apply canonical_Set).
  assert (agree_signed h h2) as Hag.
  { intros k Hk. unfold h, h2, amz_headers, header_Set.
    change (CanonicalHeaderKey "X-Amz-Content-Sha256") with "X-Amz-Content-Sha256".
    change (CanonicalHeaderKey "X-Amz-Date") with "X-Amz-Date".
    destruct (decide (k = "X-Amz-Content-Sha256")) as [->|N1]; [by rewrite !lookup_insert_eq|].
    destruct (decide (k = "X-Amz-Date")) as [->|N2];
      [by rewrite !(lookup_insert_ne _ "X-Amz-Content-Sha256"), !lookup_insert_eq by done|].
    rewrite !lookup_insert_ne by done. rewrite (Ha k Hk). cbn [ar_Header with_header]. unfold header_Set.
    change (CanonicalHeaderKey "Authorization") with "Authorization".
    rewrite lookup_insert_ne; [unfold h, amz_headers, header_Set; by rewrite !lookup_insert_ne|].
    intros <-. vm_compute in Hk. done. }
  eexists. split.
  - apply (SignRequest_intro visit' signer clock' r c); rewrite ?Hp, <- ?Hclock.
    + rewrite <- Hc. symmetry. apply (agree_canonical visit visit' req h h2); done.
    + exact Hb.
  - rewrite Hp, <- Hclock. cbn [ar_Header with_header]. rewrite !header_Get_Set.
    by rewrite (agree_names h2 h _ (visit 2%nat h)) by auto using agree_sym.
Qed.
End signing.

(** A signer with trivial hash functions, and a request without a body. *)
Definition sample_signer : AWSSignerV4 := mkSigner "AKID" "secret" "eu-west-1" "s3".
Definition sample_aws : awsRequest := mkAR "GET" "/bucket/key" "b=2&a=1" "s3.example" "" ∅ None.
Definition visit_back (n : nat) (h : header) : list (string * list string) := reverse (map_to_list h).
Definition visit_list (n : nat) (h : header) : list (string * list string) := map_to_list h.
Definition sample_signed : awsRequest := (SignRequest (λ s, s) (λ k m, k +:+ m) visit_list sample_signer 1369353600000000000 sample_aws).2.

Lemma canonical_keys_check h :
  forallb (λ e, all_bytes is_token e.1 && String.eqb (CanonicalHeaderKey e.1) e.1) (map_to_list h) = true → canonical_keys h.
Proof.
  intros H k [v Hv]. rewrite forallb_forall in H. specialize (H (k, v)). simpl in H.
  rewrite andb_true_iff, String.eqb_eq in H. apply H. apply list_elem_of_In. by apply elem_of_map_to_list.
Qed.

Lemma signature_stable_witness :
  ∃ req'', SignRequest (λ s, s) (λ k m, k +:+ m) visit_back sample_signer 1369353600999999999
      (with_header (λ _, header_Set "X-Forwarded-For" "10.0.0.1" (ar_Header sample_signed)) sample_signed) = (Ok tt, req'') ∧
    header_Get (ar_Header req'') "Authorization" = header_Get (ar_Header sample_signed) "Authorization".
Proof.
  apply (signature_stable (λ s, s) (λ k m, k +:+ m) visit_list visit_back sample_signer 1369353600000000000 1369353600999999999
           sample_aws sample_signed).
  - intros n h. reflexivity.
  - intros n h. apply reverse_Permutation.
  - reflexivity.
  - vm_compute. reflexivity.
  - apply canonical_keys_check. vm_compute. reflexivity.
  - apply canonical_keys_check. vm_compute. reflexivity.
  - intros k Hk. unfold header_Set. change (CanonicalHeaderKey "X-Forwarded-For") with "X-Forwarded-For".
    destruct (decide (k = "X-Forwarded-For")) as [->|Hne]; [vm_compute in Hk; discriminate|].
    by rewrite lookup_insert_ne.
Defined.
