(* ===== verification/Multi.v ===== *)
(** * The multi-protocol server

    Models [pkg/httpmulti]: the listener that peeks at the first byte of a
    connection to tell TLS from clear text ([main.go]), its block list
    ([cidr.go]) and its address check ([helpers.go]), with the configuration of
    the server.  Parsing of addresses and prefixes, files, certificates and the
    network are parameters; log output is left out. *)

From S2P Require Import Prelude GoStd GoHttp Backend Selector Routing Config Validate Lifecycle.
Open Scope Z_scope.

(** ** Connections

    The peer's side of a connection: the bytes still to come, then an error
    (["EOF"] when the peer closed).  A read into a buffer of [n] bytes gets at
    most [n] of them, as many as have arrived ([avail], at least one when the
    read returns data). *)
Record netConn : Type := mkNC { nc_data : string; nc_end : string; nc_closed : bool }.

Definition nc_Read (n avail : nat) (c : netConn) : string * option string * netConn :=
  if nc_closed c then ("", Some "use of closed network connection", c)
  else if Nat.eqb n 0 then ("", None, c)
  else if String.eqb (nc_data c) "" then ("", Some (nc_end c), c)
  else
    let k := Nat.min n (Nat.max 1 avail) in
    (take k (nc_data c), None, mkNC (drop k (nc_data c)) (nc_end c) (nc_closed c)).

Definition nc_Close (c : netConn) : netConn := mkNC (nc_data c) (nc_end c) true.

(** [httpmulti.Conn] *)
Record Conn : Type := mkMConn { mc_Conn : netConn; mc_b : Ascii.ascii; mc_e : option string; mc_f : bool }.

(** What a read returns: the bytes put in the buffer and the error, or a run-time
    panic (index out of range on an empty buffer). *)
Inductive readResult : Type := Got (bytes : string) (err : option string) | ReadPanic.

Definition Conn_Read (n avail : nat) (c : Conn) : readResult * Conn :=
  if mc_f c then
    match n with
    | O => (ReadPanic, mkMConn (mc_Conn c) (mc_b c) (mc_e c) false)
    | S n' =>
        if (1 <? n)%nat && match mc_e c with None => true | Some _ => false end then
          let '(data, err, nc) := nc_Read n' avail (mc_Conn c) in
          let nc := match err with Some _ => nc_Close nc | None => nc end in
          (Got (String (mc_b c) data) err, mkMConn nc (mc_b c) (mc_e c) false)
        else (Got (String (mc_b c) "") (mc_e c), mkMConn (mc_Conn c) (mc_b c) (mc_e c) false)
    end
  else
    let '(data, err, nc) := nc_Read n avail (mc_Conn c) in
    (Got data err, mkMConn nc (mc_b c) (mc_e c) false).

(** ** The block list *)
Section cidr.
  Context {prefix addr : Type} (ParsePrefix : string → option prefix) (ParseAddr : string → option addr).
  Context (prefix_Contains : prefix → addr → bool).

Definition CIDRMatcher : Type := list prefix.

Fixpoint NewCIDRMatcher (cidrs : list string) : result string CIDRMatcher :=
  match cidrs with
  | [] => Ok []
  | c :: rest =>
      match ParsePrefix c with
      | None => Err ("CIDR invalide " +:+ c)
      | Some p => match NewCIDRMatcher rest with Err e => Err e | Ok m => Ok (p :: m) end
      end
  end.

Definition MatchAddr (m : CIDRMatcher) (a : addr) : bool := existsb (λ p, prefix_Contains p a) m.

Definition MatchConn (m : CIDRMatcher) (remoteAddr : string) : bool :=
  match SplitHostPort remoteAddr with
  | None => false
  | Some (host, _) => match ParseAddr host with None => false | Some a => MatchAddr m a end
  end.

(** ** The listener *)
Record SplitListener : Type := mkSL {
  sl_ReadTimeout : Z;
  sl_tls : bool;                          (* [tlsConfig] is not nil *)
  sl_matcher : option CIDRMatcher;
  sl_server : option bool;                (* the server's [ForceSecureFlag]; [None] once closed *)
}.

(** What the system's [Accept] gives, in order: an error (temporary or not), or a
    client with its address, its bytes, the error that follows them, and whether
    [Close] runs before the connection is looked at. *)
Inductive arrival : Type :=
  | ArriveError (temporary : bool) (msg : string)
  | Arrive (remote : string) (stream : netConn) (closing : bool).

Inductive acceptOutcome : Type :=
  | PlainConn (c : Conn)
  | TLSConn (c : Conn)
  | AcceptFailed (e : string)
  | AcceptPanic                           (* a nil server is dereferenced *)
  | StillWaiting.                         (* no arrival is left *)

Definition ErrClosedListener : string := "closed listener".

Definition ignorable (e : string) : bool :=
  String.eqb e "EOF" || Contains e "i/o timeout" || Contains e "reset by peer" || Contains e "connection aborted".

Definition tls_handshake : Ascii.ascii := ascii_of_nat 22.

(** The loop of [Accept]; [closed] collects the connections it closed itself. *)
Fixpoint accept_loop (l : SplitListener) (force : bool) (arrivals : list arrival) (closed : list string)
  : acceptOutcome * list string * list arrival :=
  match arrivals with
  | [] => (StillWaiting, closed, [])
  | ArriveError temporary msg :: rest =>
      if temporary then accept_loop l force rest closed
      else if Contains msg "use of closed network connection" then (AcceptFailed ErrClosedListener, closed, rest)
      else accept_loop l force rest closed
  | Arrive remote c closing :: rest =>
      if match sl_matcher l with Some m => MatchConn m remote | None => false end
      then if (closing : bool) then (AcceptPanic, closed, rest) else accept_loop l force rest (closed ++ [remote])
      else if (closing : bool) then (AcceptPanic, closed, rest)
      else
        match nc_Read 1 1 c with
        | (_, Some e, _) =>
            if ignorable e then accept_loop l force rest (closed ++ [remote])
            else (AcceptFailed ("read error: " +:+ e), closed ++ [remote], rest)
        | (data, None, c') =>
            let b := match data with String b _ => b | EmptyString => ascii_of_nat 0 end in
            let con := mkMConn c' b None true in
            if Ascii.eqb b tls_handshake && sl_tls l then (TLSConn con, closed, rest)
            else if force then accept_loop l force rest (closed ++ [remote])
            else (PlainConn con, closed, rest)
        end
  end.

Definition Accept (l : SplitListener) (arrivals : list arrival) : acceptOutcome * list string * list arrival :=
  match sl_server l with
  | None => (AcceptPanic, [], arrivals)
  | Some force => accept_loop l force arrivals []
  end.

(** [SplitListener.Close]; whether the system's listener is closed by it. *)
Definition SplitListener_Close (l : SplitListener) : bool * SplitListener :=
  (match sl_server l with Some _ => true | None => false end,
   mkSL (sl_ReadTimeout l) false (sl_matcher l) None).
End cidr.

(** ** Addresses *)

(** [^([a-zA-Z0-9.-]+)?:([0-9]+)$] *)
Definition host_byte (c : Ascii.ascii) : bool :=
  let z := ord c in
  ((97 <=? z) && (z <=? 122)) || ((65 <=? z) && (z <=? 90)) || ((48 <=? z) && (z <=? 57)) || (z =? 46) || (z =? 45).

Definition isValidAddr (a : string) : bool :=
  match Cut colon a with
  | (host, port, true) => all_bytes host_byte host && negb (String.eqb port "") && all_bytes is_digit port
  | (_, _, false) => false
  end.

(** ** The server *)

(** The parts of a [tls.Config] this package reads or writes; versions are the
    numbers of [crypto/tls]. *)
Record tlsSettings : Type := mkTS {
  ts_MinVersion : Z;
  ts_NextProtos : list string;
  ts_TicketsDisabled : bool;
  ts_Certificates : list string;
  ts_ClientCAs : option string;
  ts_RequireClientCert : bool;
  ts_Revoked : option (list Z);           (* the serial numbers [VerifyConnection] refuses *)
}.
Definition no_settings : tlsSettings := mkTS 0 [] false [] None false None.
Definition VersionTLS12 : Z := 771.

Record mServer : Type := mkMS {
  ms_Addr : string; ms_Proto : string; ms_CIDRBlockList : list string; ms_ReadTimeout : Z;
  ms_ServerKeyFile : string; ms_ServerCertFile : string; ms_CACertFile : string; ms_CRL : option (list Z);
  ms_ForceSecure : bool; ms_TLSConfig : option tlsSettings;
  ms_HTTP1 : bool; ms_HTTP2 : bool; ms_UnencryptedHTTP2 : bool;
}.

Definition millisecond : Z := 1000000.

Definition New (a : string) : mServer :=
  let a := if String.eqb a "" then ":80" else a in
  let a := if negb (Contains a ":") then ":" +:+ a else a in
  mkMS a "tcp" [] (500 * millisecond) "" "" "" None false None false false false.

Definition AddCIDRBlockList (cidr : string) (s : mServer) : mServer :=
  mkMS (ms_Addr s) (ms_Proto s) (ms_CIDRBlockList s ++ [cidr]) (ms_ReadTimeout s) (ms_ServerKeyFile s) (ms_ServerCertFile s)
    (ms_CACertFile s) (ms_CRL s) (ms_ForceSecure s) (ms_TLSConfig s) (ms_HTTP1 s) (ms_HTTP2 s) (ms_UnencryptedHTTP2 s).
Definition SetReadTimeout (d : Z) (s : mServer) : mServer :=
  mkMS (ms_Addr s) (ms_Proto s) (ms_CIDRBlockList s) d (ms_ServerKeyFile s) (ms_ServerCertFile s)
    (ms_CACertFile s) (ms_CRL s) (ms_ForceSecure s) (ms_TLSConfig s) (ms_HTTP1 s) (ms_HTTP2 s) (ms_UnencryptedHTTP2 s).
Definition ForceSecure (s : mServer) : mServer :=
  mkMS (ms_Addr s) (ms_Proto s) (ms_CIDRBlockList s) (ms_ReadTimeout s) (ms_ServerKeyFile s) (ms_ServerCertFile s)
    (ms_CACertFile s) (ms_CRL s) true (ms_TLSConfig s) (ms_HTTP1 s) (ms_HTTP2 s) (ms_UnencryptedHTTP2 s).
Definition SetTLS (certFile keyFile : string) (s : mServer) : mServer :=
  mkMS (ms_Addr s) (ms_Proto s) (ms_CIDRBlockList s) (ms_ReadTimeout s) keyFile certFile
    (ms_CACertFile s) (ms_CRL s) (ms_ForceSecure s) (ms_TLSConfig s) (ms_HTTP1 s) (ms_HTTP2 s) (ms_UnencryptedHTTP2 s).
Definition SetProtocol (proto : string) (s : mServer) : mServer :=
  mkMS (ms_Addr s) proto (ms_CIDRBlockList s) (ms_ReadTimeout s) (ms_ServerKeyFile s) (ms_ServerCertFile s)
    (ms_CACertFile s) (ms_CRL s) (ms_ForceSecure s) (ms_TLSConfig s) (ms_HTTP1 s) (ms_HTTP2 s) (ms_UnencryptedHTTP2 s).
Definition SetHTTP1 (b : bool) (s : mServer) : mServer :=
  mkMS (ms_Addr s) (ms_Proto s) (ms_CIDRBlockList s) (ms_ReadTimeout s) (ms_ServerKeyFile s) (ms_ServerCertFile s)
    (ms_CACertFile s) (ms_CRL s) (ms_ForceSecure s) (ms_TLSConfig s) b (ms_HTTP2 s) (ms_UnencryptedHTTP2 s).
Definition SetHTTP2 (b : bool) (s : mServer) : mServer :=
  mkMS (ms_Addr s) (ms_Proto s) (ms_CIDRBlockList s) (ms_ReadTimeout s) (ms_ServerKeyFile s) (ms_ServerCertFile s)
    (ms_CACertFile s) (ms_CRL s) (ms_ForceSecure s) (ms_TLSConfig s) (ms_HTTP1 s) b (ms_UnencryptedHTTP2 s).
Definition SetUnencryptedHTTP2 (b : bool) (s : mServer) : mServer :=
  mkMS (ms_Addr s) (ms_Proto s) (ms_CIDRBlockList s) (ms_ReadTimeout s) (ms_ServerKeyFile s) (ms_ServerCertFile s)
    (ms_CACertFile s) (ms_CRL s) (ms_ForceSecure s) (ms_TLSConfig s) (ms_HTTP1 s) (ms_HTTP2 s) b.
Definition SetCACertFile (f : string) (s : mServer) : mServer :=
  mkMS (ms_Addr s) (ms_Proto s) (ms_CIDRBlockList s) (ms_ReadTimeout s) (ms_ServerKeyFile s) (ms_ServerCertFile s)
    f (ms_CRL s) (ms_ForceSecure s) (ms_TLSConfig s) (ms_HTTP1 s) (ms_HTTP2 s) (ms_UnencryptedHTTP2 s).

Section serve.
  Context {prefix : Type} (ParsePrefix : string → option prefix).
  Context (os_ReadFile : string → result string string) (load_pair : string → string → option string).
  Context (pem_Decode : string → option (string * string)) (parseCRL : string → result string (list Z)).
  Context (systemPool : result string unit) (appendCerts : string → bool).

(** [SetCRL]: the error, and the server. *)
Definition SetCRL (f : string) (s : mServer) : option string * mServer :=
  match os_ReadFile f with
  | Err e => (Some e, s)
  | Ok data =>
      match pem_Decode data with
      | Some (type, der) =>
          if negb (String.eqb type "X509 CRL") then (Some "CRL PEM invalide", s)
          else match parseCRL der with
               | Err e => (Some e, s)
               | Ok c => (None, mkMS (ms_Addr s) (ms_Proto s) (ms_CIDRBlockList s) (ms_ReadTimeout s) (ms_ServerKeyFile s)
                                  (ms_ServerCertFile s) (ms_CACertFile s) (Some c) (ms_ForceSecure s) (ms_TLSConfig s)
                                  (ms_HTTP1 s) (ms_HTTP2 s) (ms_UnencryptedHTTP2 s))
               end
      | None => (Some "CRL PEM invalide", s)
      end
  end.

(** The client authorities of [Serve]. *)
Definition client_auth (s : mServer) (t : tlsSettings) : result string tlsSettings :=
  if String.eqb (ms_CACertFile s) "" then Ok t
  else match os_ReadFile (ms_CACertFile s) with
       | Err e => Err ("failed to read CA certificate file: " +:+ e)
       | Ok pem =>
           match systemPool with
           | Err e => Err ("failed to create system certificate pool: " +:+ e)
           | Ok _ =>
               if negb (appendCerts pem) then Err "failed to append CA certificate"
               else Ok (mkTS (ts_MinVersion t) (ts_NextProtos t) (ts_TicketsDisabled t) (ts_Certificates t) (Some pem) true
                          (match ms_CRL s with Some revoked => Some revoked | None => ts_Revoked t end))
           end
       end.

(** The TLS part of [Serve]. *)
Definition serve_tls (certFile keyFile : string) (s : mServer) : result string (option tlsSettings) :=
  if negb (String.eqb certFile "") && negb (String.eqb keyFile "") then
    let t := default no_settings (ms_TLSConfig s) in
    let minVersion := if ts_MinVersion t =? 0 then VersionTLS12 else ts_MinVersion t in
    match load_pair certFile keyFile with
    | None => Err "Can not load X509 key pair"
    | Some cert =>
        match client_auth s (mkTS minVersion ["h2"; "h3"; "http/1.1"] true [cert] (ts_ClientCAs t) (ts_RequireClientCert t)
                               (ts_Revoked t)) with
        | Err e => Err e
        | Ok t => Ok (Some t)
        end
    end
  else Ok (ms_TLSConfig s).

(** [Serve], up to the loop of the HTTP server: the listener it accepts on and
    the TLS settings in force. *)
Definition Serve (certFile keyFile : string) (s : mServer) : result string (SplitListener (prefix := prefix) * option tlsSettings) :=
  let timeout := if ms_ReadTimeout s =? 0 then 500 * millisecond else ms_ReadTimeout s in
  let matcher := match NewCIDRMatcher ParsePrefix (ms_CIDRBlockList s) with Ok m => Some m | Err _ => None end in
  match serve_tls certFile keyFile s with
  | Err e => Err e
  | Ok t => Ok (mkSL timeout (match t with Some _ => true | None => false end) matcher (Some (ms_ForceSecure s)), t)
  end.

(** [ListenAndServe]; [listen] is [net.Listen]. *)
Definition ListenAndServe (listen : string → string → bool) (certFile keyFile : string) (s : mServer)
  : result string (SplitListener (prefix := prefix) * option tlsSettings) :=
  if negb (isValidAddr (ms_Addr s)) then Err ("invalid server address: " +:+ ms_Addr s)
  else
    let proto := if String.eqb (ms_Proto s) "" then "tcp" else ms_Proto s in
    if negb (listen proto (ms_Addr s)) then Err ("Can not start listener on " +:+ ms_Addr s)
    else Serve certFile keyFile s.

Definition ListenAndServeMulti (listen : string → string → bool) (s : mServer) := ListenAndServe listen "" "" s.
End serve.

(** [NewHTTPMultiServerWithKeyPassphrase] (pkg/listener/httpmulti.go); [tls] is what
    [BuildTLSConfigForDownstreamWithMinVersion] returned.  The error of [SetCRL]
    is dropped. *)
Definition NewHTTPMultiServer os_ReadFile pem_Decode parseCRL (tls : result string tlsSettings) (address ca crl : string)
  : result string mServer :=
  match tls with
  | Err e => Err ("failed to build TLS config: " +:+ e)
  | Ok t =>
      let srv := mkMS address "tcp" [] (500 * millisecond) "" "" "" None false (Some t) false false false in
      let srv := SetCACertFile ca (SetUnencryptedHTTP2 true (SetHTTP2 true (SetHTTP1 true srv))) in
      Ok (SetCRL os_ReadFile pem_Decode parseCRL crl srv).2
  end.

(** ** Peeking loses nothing *)

(** What the reader of the connection has still to see. *)
Definition pending (c : Conn) : string := (if mc_f c then String (mc_b c) "" else "") +:+ nc_data (mc_Conn c).

Definition fresh_conn (c : Conn) : Prop := mc_e c = None ∧ nc_closed (mc_Conn c) = false.

Lemma nc_Read_data n avail c data err c' :
  nc_Read n avail c = (data, err, c') → nc_closed c = false → (1 <= n)%nat →
  data +:+ nc_data c' = nc_data c ∧ nc_end c' = nc_end c ∧ nc_closed c' = false ∧
  match err with None => data ≠ "" | Some e => nc_data c = "" ∧ e = nc_end c end.
Proof.
  unfold nc_Read. intros H Hc Hn. rewrite Hc in H. destruct (Nat.eqb_spec n 0); [lia|].
  destruct (String.eqb_spec (nc_data c) "") as [He|He]; injection H as <- <- <-; [by rewrite He|]. simpl.
  split; [apply take_drop_app|]. split; [done|]. split; [done|].
  destruct (nc_data c) as [|b s]; [done|]. destruct n as [|n]; [lia|]. by destruct avail.
Qed.

Lemma Conn_Read_data n avail c r c' :
  Conn_Read n avail c = (r, c') → fresh_conn c → (1 <= n)%nat →
  ∃ data err, r = Got data err ∧ data +:+ pending c' = pending c ∧
    nc_end (mc_Conn c') = nc_end (mc_Conn c) ∧
    match err with
    | None => fresh_conn c' ∧ data ≠ ""
    | Some e => pending c' = "" ∧ e = nc_end (mc_Conn c)
    end.
Proof.
  unfold Conn_Read, fresh_conn, pending. intros H [He Hc] Hn. destruct (mc_f c) eqn:Hf.
  - destruct n as [|n]; [lia|]. rewrite He in H. destruct (Nat.ltb_spec 1 (S n)); simpl in H.
    + destruct (nc_Read n avail (mc_Conn c)) as [[data err] nc] eqn:Hr.
      apply nc_Read_data in Hr as (H1 & H2 & H3 & H4); [|done|lia]. injection H as <- <-.
      exists (String (mc_b c) data), err. split; [done|]. simpl. destruct err as [e|]; simpl.
      * destruct H4 as [H4 ->]. rewrite H4 in H1. apply (f_equal String.length) in H1 as Hl.
        rewrite string_length_app in Hl. simpl in Hl. destruct data; [|done]. simpl in *. by rewrite H1, H4.
      * by rewrite H1, ?He, H3.
    + injection H as <- <-. exists (String (mc_b c) ""), None. by rewrite ?He.
  - destruct (nc_Read n avail (mc_Conn c)) as [[data err] nc] eqn:Hr.
    apply nc_Read_data in Hr as (H1 & H2 & H3 & H4); [|done|lia]. injection H as <- <-.
    exists data, err. split; [done|]. simpl. split; [done|]. split; [done|]. destruct err as [e|]; [|by rewrite He, H3].
    destruct H4 as [H4 ->]. rewrite H4 in H1. destruct data; [|done]. by split.
Qed.

(** Reading with one buffer after the other, up to the first error. *)
Fixpoint read_all (bufs : list (nat * nat)) (c : Conn) : string * option string :=
  match bufs with
  | [] => ("", None)
  | (n, avail) :: rest =>
      match Conn_Read n avail c with
      | (ReadPanic, _) => ("", Some "panic")
      | (Got data (Some e), _) => (data, Some e)
      | (Got data None, c') => let '(more, err) := read_all rest c' in (data +:+ more, err)
      end
  end.

Lemma read_all_data bufs c out err :
  read_all bufs c = (out, err) → fresh_conn c → Forall (λ b, (1 <= b.1)%nat) bufs →
  (∃ rest, pending c = out +:+ rest ∧ (∀ e, err = Some e → rest = "" ∧ e = nc_end (mc_Conn c))) ∧
  ((String.length (pending c) < length bufs)%nat → err = Some (nc_end (mc_Conn c)) ∧ out = pending c).
Proof.
  revert c out err; induction bufs as [|[n avail] bufs IH]; intros c out err H Hc Hb.
  { injection H as <- <-. split; [by exists (pending c)|]. simpl. lia. }
  apply Forall_cons in Hb as [Hn Hb]. simpl in H, Hn. destruct (Conn_Read n avail c) as [r c'] eqn:Hr.
  destruct (Conn_Read_data _ _ _ _ _ Hr Hc Hn) as (data & e & -> & Hd & Hend & He). destruct e as [e|].
  - injection H as <- <-. destruct He as [Hp ->]. rewrite Hp, string_app_nil_r in Hd.
    split; [exists ""; rewrite string_app_nil_r; split; [done|by intros ? [= <-]]|done].
  - destruct (read_all bufs c') as [more err'] eqn:Hm. injection H as <- <-. destruct He as [Hf Hne].
    destruct (IH _ _ _ Hm Hf Hb) as [(rest & Hrest & Herr) Hlen]. rewrite <- Hd. split.
    + exists rest. rewrite Hrest, <- string_app_assoc. split; [done|]. by rewrite <- Hend.
    + intros Hl. rewrite string_length_app in Hl. simpl in Hl. destruct data as [|b data]; [done|]. simpl in Hl.
      destruct Hlen as [-> ->]; [lia|]. by rewrite Hend.
Qed.

(** ** Which connections are accepted *)
Section accepting.
  Context {prefix addr : Type} (ParseAddr : string → option addr) (prefix_Contains : prefix → addr → bool).
  Notation listener := (SplitListener (prefix := prefix)).
  Notation accept := (Accept ParseAddr prefix_Contains).

Definition blocked (l : listener) (remote : string) : bool :=
  match sl_matcher l with Some m => MatchConn ParseAddr prefix_Contains m remote | None => false end.

(** The connection starts with a TLS handshake and the listener has TLS. *)
Definition starts_tls (l : listener) (c : netConn) : bool :=
  match nc_data c with String b _ => Ascii.eqb b tls_handshake && sl_tls l | EmptyString => false end.

(** Arrivals the loop passes over; a connection among them is closed. *)
Inductive skips (l : listener) (force : bool) : arrival → Prop :=
  | skip_error temporary msg :
      temporary = true ∨ Contains msg "use of closed network connection" = false → skips l force (ArriveError temporary msg)
  | skip_blocked r c : blocked l r = true → skips l force (Arrive r c false)
  | skip_silent r c : blocked l r = false → nc_data c = "" → ignorable (nc_end c) = true → skips l force (Arrive r c false)
  | skip_clear r c : blocked l r = false → nc_data c ≠ "" → starts_tls l c = false → force = true →
      skips l force (Arrive r c false).

(** Arrivals that end the loop, and how. *)
Inductive decides (l : listener) (force : bool) : arrival → acceptOutcome → Prop :=
  | decide_tls r c con : blocked l r = false → starts_tls l c = true → fresh_conn con → pending con = nc_data c →
      nc_end (mc_Conn con) = nc_end c → decides l force (Arrive r c false) (TLSConn con)
  | decide_plain r c con : blocked l r = false → nc_data c ≠ "" → starts_tls l c = false → force = false → fresh_conn con →
      pending con = nc_data c → nc_end (mc_Conn con) = nc_end c → decides l force (Arrive r c false) (PlainConn con)
  | decide_closed msg : Contains msg "use of closed network connection" = true →
      decides l force (ArriveError false msg) (AcceptFailed ErrClosedListener)
  | decide_fatal r c : blocked l r = false → nc_data c = "" → ignorable (nc_end c) = false →
      decides l force (Arrive r c false) (AcceptFailed ("read error: " +:+ nc_end c))
  | decide_panic r c : decides l force (Arrive r c true) AcceptPanic.

Definition open_arrival (a : arrival) : Prop := match a with Arrive _ c _ => nc_closed c = false | ArriveError _ _ => True end.

(** An open arrival is skipped, with its connection closed, or decides. *)
Lemma accept_one l force a rest closed :
  open_arrival a →
  (skips l force a ∧ accept_loop ParseAddr prefix_Contains l force (a :: rest) closed =
     accept_loop ParseAddr prefix_Contains l force rest
       (closed ++ match a with Arrive r _ _ => [r] | ArriveError _ _ => [] end)) ∨
  (∃ out closed', decides l force a out ∧ (∀ r, r ∈ closed → r ∈ closed') ∧
     accept_loop ParseAddr prefix_Contains l force (a :: rest) closed = (out, closed', rest)).
Proof.
  destruct a as [tmp msg|r c closing]; simpl; intros Ho.
  - rewrite app_nil_r. destruct tmp; [left; split; [by constructor; left|done]|].
    destruct (Contains msg _) eqn:Hm; [right; do 2 eexists; split; [by apply decide_closed|by split]|].
    left. split; [constructor; by right|done].
  - fold (blocked l r). destruct (blocked l r) eqn:Hb.
    + destruct closing; [right; do 2 eexists; split; [apply decide_panic|by split]|].
      left. split; [by apply skip_blocked|done].
    + destruct closing; [right; do 2 eexists; split; [apply decide_panic|by split]|].
      unfold nc_Read. rewrite Ho. destruct (nc_data c) as [|b s] eqn:Hd; simpl.
      { destruct (ignorable (nc_end c)) eqn:Hi; [left; split; [by apply skip_silent|done]|].
        right. do 2 eexists. split; [by apply decide_fatal|]. split; [|done]. set_solver. }
      assert (starts_tls l c = Ascii.eqb b tls_handshake && sl_tls l) as Ht by (unfold starts_tls; by rewrite Hd).
      set (con := mkMConn (mkNC (drop 0 s) (nc_end c) false) b None true).
      assert (fresh_conn con ∧ pending con = nc_data c ∧ nc_end (mc_Conn con) = nc_end c) as (F1 & F2 & F3) by by rewrite Hd.
      destruct (Ascii.eqb b tls_handshake && sl_tls l) eqn:Hs.
      { right. do 2 eexists. split; [by apply (decide_tls _ _ r c con)|by split]. }
      destruct force.
      * left. split; [|done]. apply skip_clear; [done|by rewrite Hd|done|done].
      * right. do 2 eexists. split; [apply (decide_plain _ _ r c con); try done; by rewrite Hd|by split].
Qed.

Lemma accept_spec (l : listener) (force : bool) (arrivals rest : list arrival) (out : acceptOutcome)
    (closed : list string) :
  sl_server l = Some force → Forall open_arrival arrivals → accept l arrivals = (out, closed, rest) →
  (out = StillWaiting ∧ Forall (skips l force) arrivals) ∨
  ∃ before a, arrivals = before ++ a :: rest ∧ Forall (skips l force) before ∧ decides l force a out ∧
    ∀ r c k, before !! k = Some (Arrive r c false) → r ∈ closed.
Proof.
  intros Hs Ho. unfold Accept. rewrite Hs.
  assert (∀ closed0, accept_loop ParseAddr prefix_Contains l force arrivals closed0 = (out, closed, rest) →
    ((out = StillWaiting ∧ Forall (skips l force) arrivals) ∨
     ∃ before a, arrivals = before ++ a :: rest ∧ Forall (skips l force) before ∧ decides l force a out ∧
      ∀ r c k, before !! k = Some (Arrive r c false) → r ∈ closed) ∧ ∀ r, r ∈ closed0 → r ∈ closed); [|naive_solver].
  induction Ho as [|a as' Ha Has IH]; intros closed0 H.
  { injection H as <- <- <-. split; [by left|done]. }
  destruct (accept_one l force a as' closed0 Ha) as [[Hskip He]|(out' & closed' & Hdec & Hincl & He)]; rewrite He in H.
  - destruct (IH _ H) as [[[-> Hall]|(before & d & -> & Hb & Hd & Hcl)] Hin];
      (split; [|intros r Hr; apply Hin, elem_of_app; by left]); [left; by repeat constructor|right].
    exists (a :: before), d. split; [done|]. split; [by constructor|]. split; [done|].
    intros r c [|k] Hk; simpl in Hk; [|by eapply Hcl]. injection Hk as ->. apply Hin, elem_of_app. right. by left.
  - injection H as <- <- <-. clear IH. split; [right; exists [], a; repeat split; try done; by intros|done].
Qed.

(** C20: [Accept] hands over exactly the first acceptable connection.  It passes
    over blocked addresses, connections that close or stay silent, and clear text
    when TLS is required, closing each of them; the first other arrival decides:
    a connection whose first byte opens a TLS handshake is wrapped in TLS when the
    listener has TLS, any other is handed over in clear, and its reader will see
    all of its bytes, the peeked one included. *)
Theorem accept_first_acceptable (l : listener) (force : bool) (arrivals rest : list arrival) (out : acceptOutcome)
    (closed : list string) :
  sl_server l = Some force → Forall open_arrival arrivals → accept l arrivals = (out, closed, rest) →
  (out = StillWaiting ∧ Forall (skips l force) arrivals) ∨
  ∃ before a, arrivals = before ++ a :: rest ∧ Forall (skips l force) before ∧ decides l force a out ∧
    ∀ r c k, before !! k = Some (Arrive r c false) → r ∈ closed.
Proof. apply accept_spec. Qed.

(** C21: peeking is invisible.  Whoever reads an accepted connection, with any
    buffers that are not empty, gets a prefix of what that client sent; an error is
    only reported once everything was read; and as many reads as there are bytes,
    plus one, always reach the end of the stream. *)
Theorem peeked_stream_complete (l : listener) (force : bool) (arrivals rest : list arrival) (out : acceptOutcome) (con : Conn)
    (closed : list string) (bufs : list (nat * nat)) :
  sl_server l = Some force → Forall open_arrival arrivals → accept l arrivals = (out, closed, rest) →
  out = PlainConn con ∨ out = TLSConn con → Forall (λ b, (1 <= b.1)%nat) bufs →
  ∃ before r c, arrivals = before ++ Arrive r c false :: rest ∧
    let '(got, err) := read_all bufs con in
    (∃ tail, nc_data c = got +:+ tail ∧ (∀ e, err = Some e → tail = "" ∧ e = nc_end c)) ∧
    ((String.length (nc_data c) < length bufs)%nat → err = Some (nc_end c) ∧ got = nc_data c).
Proof.
  intros Hs Ho Ha Hout Hb. destruct (accept_spec _ _ _ _ _ _ Hs Ho Ha) as [[-> _]|(before & a & -> & _ & Hd & _)];
    [by destruct Hout|].
  assert (∃ r c, a = Arrive r c false ∧ fresh_conn con ∧ pending con = nc_data c ∧ nc_end (mc_Conn con) = nc_end c)
    as (r & c & -> & F1 & F2 & F3).
  { destruct Hout as [-> | ->]; inversion Hd; subst; eauto 10. }
  exists before, r, c. split; [done|]. destruct (read_all bufs con) as [got err] eqn:Hr.
  destruct (read_all_data _ _ _ _ Hr F1 Hb) as [H1 H2]. rewrite <- F2, <- F3. by split.
Qed.

(** Closing races with accepting.  An [Accept] that is waiting when the
    listener is closed reports the closed listener; one that starts after the
    close, or is looking at a connection while it happens, dereferences the nil
    server and panics, and the recovery of the listener then reports a critical
    error of a server that was only asked to stop. *)
Theorem close_race_panics (l : listener) (force : bool) (arrivals : list arrival) (name v r : string) (c : netConn)
    (sh : shared) :
  sl_server l = Some force → errch (sh_srv sh) = None →
  let l' := (SplitListener_Close l).2 in
  (∃ closed, accept l (ArriveError false "use of closed network connection" :: arrivals)
     = (AcceptFailed ErrClosedListener, closed, arrivals)) ∧
  (accept l' arrivals).1.1 = AcceptPanic ∧
  (accept l (Arrive r c true :: arrivals)).1.1 = AcceptPanic ∧
  errch (sh_srv (runWithRecovery name (Panicked v) (Shutdown sh))) = Some (name +:+ " listener panic: " +:+ v).
Proof.
  intros Hs He l'. unfold Accept. rewrite Hs. split; [by eexists|]. split; [done|]. split.
  - simpl. by destruct (match sl_matcher l with Some _ => _ | None => _ end).
  - unfold runWithRecovery, initiateCriticalShutdown, offer.
    assert (errch (sh_srv (Shutdown sh)) = None) as -> by (unfold Shutdown; destruct (shutdownOnce (sh_srv sh)); done).
    unfold Shutdown at 1. by destruct (shutdownOnce _).
Qed.
End accepting.

(** ** Addresses the validator accepts and the server refuses *)

(** A multi-protocol listener cannot listen on an IPv6 address.  The
    validator accepts a bracketed address with a valid port, but the server
    refuses to start on any such address, so the whole program stops. *)
Theorem multi_refuses_ipv6 {prefix : Type} (ParseIP : string → option (string * bool)) (ParsePrefix : string → option prefix)
    os_ReadFile load_pair systemPool appendCerts (listen : string → string → bool) (s : mServer)
    (path host port : string) (number : Z) :
  contains_byte colon host = true → contains_byte "[" host = false → contains_byte "]" host = false →
  contains_byte colon port = false → contains_byte "[" port = false → contains_byte "]" port = false →
  Atoi port = Some number → 0 ≤ number ≤ 65535 →
  ms_Addr s = JoinHostPort host port →
  (validateNetworkAddress ParseIP path (ms_Addr s)).1 = [] ∧
  ListenAndServeMulti ParsePrefix os_ReadFile load_pair systemPool appendCerts listen s
    = Err ("invalid server address: " +:+ JoinHostPort host port).
Proof.
  intros Hc Ho Hb P1 P2 P3 Hn Hr Hs. rewrite Hs. split.
  - unfold validateNetworkAddress. rewrite SplitHostPort_Join, Hn by done. bsplit. done.
  - unfold ListenAndServeMulti, ListenAndServe. rewrite Hs.
    assert (isValidAddr (JoinHostPort host port) = false) as ->; [|done].
    unfold JoinHostPort. rewrite Hc. unfold isValidAddr, Cut. cbn [String.append index_byte].
    change (Ascii.eqb "[" colon) with false. cbv iota. by destruct (index_byte colon _).
Qed.

(** ** Witnesses *)
Definition clear_listener : SplitListener (prefix := string) := mkSL (500 * millisecond) true (Some ["10.0.0.9"]) (Some false).
Definition http_client : netConn := mkNC "GET / HTTP/1.1" "EOF" false.
Definition some_arrivals : list arrival :=
  [ArriveError true "too many open files"; Arrive "10.0.0.9:1234" http_client false; Arrive "10.0.0.1:99" http_client false].

Definition accepted_conn : Conn := mkMConn (mkNC "ET / HTTP/1.1" "EOF" false) "G" None true.

Lemma open_some : Forall open_arrival some_arrivals.
Proof. by repeat constructor. Qed.

Lemma accept_first_acceptable_witness :
  (PlainConn accepted_conn = StillWaiting ∧ Forall (skips Some String.eqb clear_listener false) some_arrivals) ∨
  ∃ before a, some_arrivals = before ++ a :: [] ∧ Forall (skips Some String.eqb clear_listener false) before ∧
    decides Some String.eqb clear_listener false a (PlainConn accepted_conn) ∧
    ∀ r c k, before !! k = Some (Arrive r c false) → r ∈ ["10.0.0.9:1234"].
Proof. apply (accept_first_acceptable Some String.eqb); [reflexivity|apply open_some|vm_compute; reflexivity]. Defined.

Lemma peeked_stream_complete_witness :
  ∃ before r c, some_arrivals = before ++ Arrive r c false :: [] ∧
    (∃ tail, nc_data c = "GET / HT" +:+ tail ∧ (∀ e, @None string = Some e → tail = "" ∧ e = nc_end c)) ∧
    ((String.length (nc_data c) < 2)%nat → None = Some (nc_end c) ∧ "GET / HT" = nc_data c).
Proof.
  apply (peeked_stream_complete Some String.eqb clear_listener false some_arrivals [] (PlainConn accepted_conn) accepted_conn
           ["10.0.0.9:1234"] [(4, 9); (4, 9)]%nat); [reflexivity|apply open_some|vm_compute; reflexivity|by left|].
  repeat constructor.
Defined.

Lemma close_race_panics_witness :
  (Accept Some String.eqb (SplitListener_Close clear_listener).2 some_arrivals).1.1 = AcceptPanic.
Proof.
  apply (close_race_panics Some String.eqb clear_listener false some_arrivals "multi" "nil" "" http_client
           (mkShared newServer ∅ true)); reflexivity.
Defined.

Lemma multi_refuses_ipv6_witness :
  ListenAndServeMulti Some (λ _, Err "") (λ _ _, None) (Ok tt) (λ _, true) (λ _ _, true) (New "[::1]:8443")
    = Err "invalid server address: [::1]:8443".
Proof.
  apply (multi_refuses_ipv6 (λ _, None) Some (λ _, Err "") (λ _ _, None) (Ok tt) (λ _, true) (λ _ _, true) (New "[::1]:8443")
           "listeners[0].address" "::1" "8443" 8443); try reflexivity. lia.
Defined.
