(* ===== verification/Tls.v ===== *)
(** * TLS configuration

    Models [pkg/helper/readfile.go] and [pkg/helper/tls.go]: where certificate data
    comes from, the TLS configurations of listeners and backends with their
    client-certificate and revocation checks, and the certificates a dynamic
    listener makes and caches.  PEM and X.509 parsing, key decryption, OCSP
    messages, files, the environment and HTTP are parameters. *)

From S2P Require Import Prelude GoStd GoHttp Backend Selector Config Validate.
Open Scope Z_scope.

(** ** Reading certificate data *)

(** The outside world of [ReadFile]: an HTTP GET (an error, or the status with the
    bytes read and the error that ended the reading, if any), files, and the
    environment. *)
Record world : Type := mkWorld {
  w_Get : string → result string (Z * string * option string);
  w_ReadFile : string → result string string;
  w_LookupEnv : string → option string;
  w_StatusText : Z → string;
}.

Definition is_url (f : string) : bool := HasPrefix f "http://" || HasPrefix f "https://".

Definition dash_to_underscore (c : Ascii.ascii) : Ascii.ascii := if Ascii.eqb c "-" then "_"%char else c.

Definition ReadFile (w : world) (filename : string) : result string string :=
  if String.eqb filename "" then Err "no file provided"
  else if is_url filename then
    match w_Get w filename with
    | Err e => Err e
    | Ok (status, body, readErr) =>
        let '(data, err) := if status =? 204 then ("", None) else (body, readErr) in
        match err with
        | None => if negb (status =? 200) && negb (status =? 204) then Err (w_StatusText w status) else Ok data
        | Some _ => Ok data
        end
    end
  else
    let filename := TrimPrefix filename "file://" in
    match w_ReadFile w filename with
    | Ok data => Ok data
    | Err _ =>
        match w_LookupEnv w filename with
        | Some txt => Ok txt
        | None =>
            match w_LookupEnv w (ToUpper (smap dash_to_underscore filename)) with
            | Some txt => Ok txt
            | None => Ok filename
            end
        end
    end.

(** ** TLS versions *)
Definition VersionTLS10 : Z := 769.
Definition VersionTLS11 : Z := 770.
Definition VersionTLS12 : Z := 771.
Definition VersionTLS13 : Z := 772.

Definition underscore_to_dot (c : Ascii.ascii) : Ascii.ascii := if Ascii.eqb c "_" then "."%char else c.

Definition ParseTLSVersion (value : string) : result string Z :=
  let v := ToUpper (smap underscore_to_dot (TrimSpace value)) in
  if one_of v ["TLS1.0"; "TLSV1.0"; "1.0"] then Ok VersionTLS10
  else if one_of v ["TLS1.1"; "TLSV1.1"; "1.1"] then Ok VersionTLS11
  else if one_of v ["TLS1.2"; "TLSV1.2"; "1.2"] then Ok VersionTLS12
  else if one_of v ["TLS1.3"; "TLSV1.3"; "1.3"] then Ok VersionTLS13
  else Err "unsupported minimum TLS version".

(** ** X.509

    What the code reads of a certificate, and the parsers. *)
Record certificate : Type := mkCert {
  ce_Raw : string; ce_IsCA : bool; ce_Subject : string; ce_Issuer : string; ce_Serial : Z; ce_OCSPServer : list string;
}.

Inductive ocspStatus : Type := OCSPGood | OCSPRevoked | OCSPOther.

Record x509 : Type := mkX509 {
  pem_Decode : string → option (string * string * string);            (* type, bytes, rest *)
  pem_Headers : string → gmap string string;                          (* the headers of the block that is decoded *)
  x_ParseCertificate : string → option certificate;
  x_ParseRevocationList : string → option (list Z);
  x_AppendCerts : string → bool;
  x_KeyPair : string → string → result string string;                 (* tls.X509KeyPair *)
  x_Decrypt : gmap string string → string → string → result string string;   (* x509.DecryptPEMBlock: headers, bytes, passphrase *)
  pem_Encode : string → string → string;                              (* type, bytes *)
  x_ParsePKCS8 : string → option string;
  x_ParsePKCS1 : string → option string;
  x_ParseEC : string → result string string;
  ocsp_CreateRequest : certificate → certificate → result string string;
  ocsp_Post : string → string → result string (Z * result string string);   (* URL, request: status, body *)
  ocsp_Parse : string → certificate → certificate → result string ocspStatus;
}.

(** [Certificates] is the loaded pair, [ClientCAs] and [RootCAs] the PEM data put
    in the pool. *)
Inductive verifier : Type :=
  | NoVerify
  | VerifyCRL (revoked : option (list Z))       (* [None]: the list did not parse *)
  | VerifyOCSP (ca ocspURL : string).

Record tlsConfig : Type := mkTC {
  t_MinVersion : Z; t_Certificates : option string; t_ClientCAs : option string; t_RequireClientCert : bool;
  t_Verify : verifier; t_RootCAs : option string; t_Insecure : bool; t_ServerName : string;
}.
Definition empty_tls : tlsConfig := mkTC 0 None None false NoVerify None false "".

Section helper.
  Context (w : world) (x : x509).

(** [x509.IsEncryptedPEMBlock]: the block has a DEK-Info header. *)
Definition IsEncryptedPEMBlock (headers : gmap string string) : bool := bool_decide (is_Some (headers !! "DEK-Info")).

(** [decryptPEMBlock], on the headers and the bytes of a block; the block that is
    returned has no headers. *)
Definition decryptPEMBlock (headers : gmap string string) (block passphrase : string) : result string string :=
  if negb (IsEncryptedPEMBlock headers) then Err "private key is not an encrypted PEM block"
  else match x_Decrypt x headers block passphrase with
       | Err e => Err ("decrypt private key: " +:+ e)
       | Ok decrypted => Ok decrypted
       end.

Definition loadX509KeyPair (certPEM keyPEM passphrase : string) : result string string :=
  if negb (String.eqb passphrase "") then
    match pem_Decode x keyPEM with
    | None => Err "private key file does not contain a PEM block"
    | Some (type, block, rest) =>
        match decryptPEMBlock (pem_Headers x keyPEM) block passphrase with
        | Err e => Err e
        | Ok decrypted => x_KeyPair x certPEM (pem_Encode x type decrypted +:+ rest)
        end
    end
  else x_KeyPair x certPEM keyPEM.

Definition parsePrivateKey (data : string) : result string string :=
  match x_ParsePKCS8 x data with
  | Some k => Ok k
  | None => match x_ParsePKCS1 x data with Some k => Ok k | None => x_ParseEC x data end
  end.

(** The certificate and key of both directions. *)
Definition load_pair (cert key passphrase : string) (t : tlsConfig) : result string tlsConfig :=
  if negb (String.eqb cert "") && negb (String.eqb key "") then
    match ReadFile w cert with
    | Err e => Err e
    | Ok certPEM =>
        match ReadFile w key with
        | Err e => Err e
        | Ok keyPEM =>
            match loadX509KeyPair certPEM keyPEM passphrase with
            | Err e => Err ("failed to load certificates: " +:+ e)
            | Ok kp => Ok (mkTC (t_MinVersion t) (Some kp) (t_ClientCAs t) (t_RequireClientCert t) (t_Verify t)
                               (t_RootCAs t) (t_Insecure t) (t_ServerName t))
            end
        end
    end
  else Ok t.

Definition BuildTLSConfigForUpstream (insecure : bool) (servername ca cert key passphrase : string) : result string tlsConfig :=
  let roots := if negb (String.eqb ca "") then match ReadFile w ca with Ok data => Some data | Err _ => None end else None in
  load_pair cert key passphrase (mkTC 0 None None false NoVerify roots insecure servername).

(** The loop over the PEM blocks of the authorities file. *)
Fixpoint find_issuer (fuel : nat) (data : string) (cert : certificate) : option certificate :=
  match fuel with
  | O => None
  | S fuel' =>
      if String.eqb data "" then None
      else match pem_Decode x data with
           | None => None
           | Some (type, block, rest) =>
               if negb (String.eqb type "CERTIFICATE") then find_issuer fuel' rest cert
               else match x_ParseCertificate x block with
                    | None => find_issuer fuel' rest cert
                    | Some issuer =>
                        if ce_IsCA issuer && String.eqb (ce_Subject issuer) (ce_Issuer cert) then Some issuer
                        else find_issuer fuel' rest cert
                    end
           end
  end.

Definition parseIssuerCertificateFromCAFile (caFile : string) (cert : certificate) : result string certificate :=
  if String.eqb caFile "" then Err "no CA file configured"
  else match ReadFile w caFile with
       | Err e => Err e
       | Ok data => match find_issuer (S (String.length data)) data cert with
                    | Some issuer => Ok issuer
                    | None => Err "issuer certificate not found"
                    end
       end.

Definition fetchOCSPResponse (cert issuer : certificate) (responderURL : string) : result string string :=
  match (if String.eqb responderURL "" then head (ce_OCSPServer cert) else Some responderURL) with
  | None => Err "no OCSP responder URL available"
  | Some url =>
      if String.eqb url "" then Err "no OCSP responder URL configured"
      else match ocsp_CreateRequest x cert issuer with
           | Err e => Err ("create OCSP request: " +:+ e)
           | Ok req =>
               match ocsp_Post x url req with
               | Err e => Err ("query OCSP responder: " +:+ e)
               | Ok (status, body) =>
                   if (status <? 200) || (300 <=? status) then Err "OCSP responder returned status"
                   else match body with
                        | Err e => Err ("read OCSP response: " +:+ e)
                        | Ok "" => Err "empty OCSP response"
                        | Ok b => Ok b
                        end
               end
           end
  end.

(** [VerifyConnection] on the peer's certificates. *)
Inductive verdict : Type := Accepted | Refused (why : string) | VerifyPanic.

Definition verify_ocsp (ca ocspURL : string) (cert : certificate) : verdict :=
  match parseIssuerCertificateFromCAFile ca cert with
  | Err e => Refused ("resolve issuer certificate: " +:+ e)
  | Ok issuer =>
      let effectiveURL := if String.eqb ocspURL "" then default "" (head (ce_OCSPServer cert)) else ocspURL in
      if String.eqb effectiveURL "" then Accepted
      else match fetchOCSPResponse cert issuer effectiveURL with
           | Err e => Refused ("OCSP check failed: " +:+ e)
           | Ok bytes =>
               match ocsp_Parse x bytes cert issuer with
               | Err e => Refused ("parse OCSP response: " +:+ e)
               | Ok OCSPGood => Accepted
               | Ok OCSPRevoked => Refused "revoked certificat by OCSP"
               | Ok OCSPOther => Refused "certificate is not valid according to OCSP status"
               end
           end
  end.

Definition verify_connection (v : verifier) (peers : list certificate) : verdict :=
  match v, peers with
  | NoVerify, _ => Accepted
  | _, [] => Refused "no client certificat"
  | VerifyCRL None, _ => VerifyPanic
  | VerifyCRL (Some revoked), cert :: _ =>
      if existsb (Z.eqb (ce_Serial cert)) revoked then Refused "revoked certificat" else Accepted
  | VerifyOCSP ca url, cert :: _ => verify_ocsp ca url cert
  end.

(** The revocation check a listener installs. *)
Definition revocation (ca crl ocspURL : string) : verifier :=
  if negb (String.eqb crl "") then
    match ReadFile w crl with
    | Err _ => NoVerify
    | Ok data =>
        match pem_Decode x data with
        | Some (type, block, _) =>
            if String.eqb type "X509 CRL" then VerifyCRL (x_ParseRevocationList x block) else NoVerify
        | None => NoVerify
        end
    end
  else VerifyOCSP ca ocspURL.

Definition client_auth (ca crl ocspURL : string) (t : tlsConfig) : tlsConfig :=
  if String.eqb ca "" then t
  else
    let '(pool, required) := match ReadFile w ca with Ok data => (Some data, true) | Err _ => (t_ClientCAs t, t_RequireClientCert t) end in
    mkTC (t_MinVersion t) (t_Certificates t) pool required (revocation ca crl ocspURL) (t_RootCAs t) (t_Insecure t) (t_ServerName t).

Definition BuildTLSConfigForDownstreamWithMinVersion (cert key ca crl ocspURL minVersion passphrase : string)
  : result string tlsConfig :=
  match (if String.eqb minVersion "" then Ok 0 else ParseTLSVersion minVersion) with
  | Err e => Err e
  | Ok version =>
      match load_pair cert key passphrase (mkTC version None None false NoVerify None false "") with
      | Err e => Err e
      | Ok t => Ok (client_auth ca crl ocspURL t)
      end
  end.

(** ** Dynamic certificates: the authority *)
Record authority : Type := mkAuthority { au_Certificate : certificate; au_Key : string; au_MinVersion : Z }.

Definition BuildDynamicTLSConfig (caCertFile caKeyFile passphrase minVersion : string) : result string authority :=
  match ReadFile w caCertFile with
  | Err e => Err ("read CA certificate: " +:+ e)
  | Ok caCertPEM =>
      match pem_Decode x caCertPEM with
      | Some (type, block, _) =>
          if negb (String.eqb type "CERTIFICATE") then Err "CA certificate file does not contain a certificate"
          else match x_ParseCertificate x block with
          | None => Err "parse CA certificate"
          | Some ca =>
              if negb (ce_IsCA ca) then Err "certificate is not a CA"
              else match ReadFile w caKeyFile with
              | Err e => Err ("read CA key: " +:+ e)
              | Ok caKeyPEM =>
                  match pem_Decode x caKeyPEM with
                  | None => Err "CA key file does not contain a PEM block"
                  | Some (_, keyBlock, _) =>
                      match (if negb (String.eqb passphrase "") then decryptPEMBlock (pem_Headers x caKeyPEM) keyBlock passphrase else Ok keyBlock) with
                      | Err e => Err ("decrypt CA key: " +:+ e)
                      | Ok keyBytes =>
                          match parsePrivateKey keyBytes with
                          | Err e => Err ("parse CA key: " +:+ e)
                          | Ok key =>
                              match (if String.eqb minVersion "" then Ok VersionTLS12 else ParseTLSVersion minVersion) with
                              | Err e => Err e
                              | Ok version => Ok (mkAuthority ca key version)
                              end
                          end
                      end
                  end
              end
          end
      | None => Err "CA certificate file does not contain a certificate"
      end
  end.

(** With a client authority: the PEM data of its pool. *)
Definition BuildDynamicTLSConfigWithClientCA (caCertFile caKeyFile passphrase clientCAFile minVersion : string)
  : result string (authority * option string) :=
  match BuildDynamicTLSConfig caCertFile caKeyFile passphrase minVersion with
  | Err e => Err e
  | Ok a =>
      if String.eqb clientCAFile "" then Ok (a, None)
      else match ReadFile w clientCAFile with
           | Err e => Err ("read client CA certificate: " +:+ e)
           | Ok clientCA => if negb (x_AppendCerts x clientCA) then Err "client CA file does not contain a certificate"
                            else Ok (a, Some clientCA)
           end
  end.
End helper.

(** ** Dynamic certificates: the cache

    A certificate made for a host; [lf_id] is the identity of the pointer. *)
Record leafCert : Type := mkLeaf { lf_id : nat; lf_host : string; lf_isIP : bool; lf_NotBefore : Z; lf_NotAfter : Z }.
Record cachedCertificate : Type := mkCached { cc_certificate : leafCert; cc_createdAt : Z; cc_expiresAt : Z }.
Notation certCache := (gmap string cachedCertificate).

Definition maxCachedCertificates : nat := 1024.
Definition minute : Z := 60 * second.
Definition hour : Z := 60 * minute.

Definition sni_host (serverName : string) : string := TrimSuffix (ToLower serverName) ".".

(** The read section: a certificate that is still good, or what was found. *)
Definition lookup_section (host : string) (cache : certCache) : option cachedCertificate := cache !! host.
Definition still_good (now : Z) (c : cachedCertificate) : bool := now <? cc_expiresAt c.

(** The section that deletes the stale entry it saw, unless it was replaced. *)
Definition delete_section (host : string) (seen : cachedCertificate) (cache : certCache) : certCache :=
  match cache !! host with
  | Some current =>
      if Nat.eqb (lf_id (cc_certificate current)) (lf_id (cc_certificate seen)) && (cc_expiresAt current =? cc_expiresAt seen)
      then delete host cache else cache
  | None => cache
  end.

(** The oldest entry, over the entries in the order of the range statement. *)
Fixpoint oldest (entries : list (string * cachedCertificate)) (best : string * Z) : string * Z :=
  match entries with
  | [] => best
  | (h, c) :: rest =>
      oldest rest (if String.eqb (fst best) "" || (cc_createdAt c <? snd best) then (h, cc_createdAt c) else best)
  end.

(** The section that makes room and stores; [entries] is the order of the range. *)
Definition store_section (entries : list (string * cachedCertificate)) (host : string) (leaf : leafCert) (now : Z)
    (cache : certCache) : certCache :=
  let cache := if (maxCachedCertificates <=? size cache)%nat then delete (fst (oldest entries ("", 0))) cache else cache in
  <[host := mkCached leaf now (lf_NotAfter leaf)]> cache.

(** The certificate for a host, made at [now].  The times are those of the
    template, to the nanosecond, which is also what the cache keeps; the encoded
    certificate has them cut to whole seconds, so that a client may see it end up to
    a second earlier. *)
Definition make_leaf (id : nat) (isIP : bool) (host : string) (now : Z) : leafCert :=
  mkLeaf id host isIP (now - minute) (now + 24 * hour).

(** Goroutines that run [GetCertificate]: the steps are its critical sections,
    under any interleaving, with a clock that does not go back. *)
Inductive dpc : Type :=
  | DStart (serverName : string)
  | DFound (host : string) (seen : cachedCertificate)
  | DStale (host : string) (seen : cachedCertificate)
  | DMake (host : string)
  | DStore (host : string) (leaf : leafCert) (made : Z)
  | DDone (leaf : leafCert) (at_time : Z)      (* returned; when it was found good or made *)
  | DFailed.

Record dstate : Type := mkD { d_cache : certCache; d_threads : list (string * dpc); d_clock : Z; d_next : nat }.

Definition d_set (i : nat) (n : string) (p : dpc) (s : dstate) : list (string * dpc) := <[i := (n, p)]> (d_threads s).

Inductive dstep (isIP : string → bool) : dstate → dstate → Prop :=
  | d_tick s t : d_clock s ≤ t → dstep isIP s (mkD (d_cache s) (d_threads s) t (d_next s))
  | d_arrive s n : dstep isIP s (mkD (d_cache s) (d_threads s ++ [(n, DStart n)]) (d_clock s) (d_next s))
  | d_no_sni s i n : d_threads s !! i = Some (n, DStart n) → sni_host n = "" →
      dstep isIP s (mkD (d_cache s) (d_set i n DFailed s) (d_clock s) (d_next s))
  | d_lookup s i n c : d_threads s !! i = Some (n, DStart n) → sni_host n ≠ "" → lookup_section (sni_host n) (d_cache s) = Some c →
      dstep isIP s (mkD (d_cache s) (d_set i n (DFound (sni_host n) c) s) (d_clock s) (d_next s))
  | d_hit s i n h c : d_threads s !! i = Some (n, DFound h c) → still_good (d_clock s) c = true →
      dstep isIP s (mkD (d_cache s) (d_set i n (DDone (cc_certificate c) (d_clock s)) s) (d_clock s) (d_next s))
  | d_stale s i n h c : d_threads s !! i = Some (n, DFound h c) → still_good (d_clock s) c = false →
      dstep isIP s (mkD (d_cache s) (d_set i n (DStale h c) s) (d_clock s) (d_next s))
  | d_miss s i n : d_threads s !! i = Some (n, DStart n) → sni_host n ≠ "" → lookup_section (sni_host n) (d_cache s) = None →
      dstep isIP s (mkD (d_cache s) (d_set i n (DMake (sni_host n)) s) (d_clock s) (d_next s))
  | d_delete s i n h c : d_threads s !! i = Some (n, DStale h c) →
      dstep isIP s (mkD (delete_section h c (d_cache s)) (d_set i n (DMake h) s) (d_clock s) (d_next s))
  | d_make s i n h : d_threads s !! i = Some (n, DMake h) →
      dstep isIP s (mkD (d_cache s) (d_set i n (DStore h (make_leaf (d_next s) (isIP h) h (d_clock s)) (d_clock s)) s) (d_clock s) (S (d_next s)))
  | d_make_fails s i n h : d_threads s !! i = Some (n, DMake h) →
      dstep isIP s (mkD (d_cache s) (d_set i n DFailed s) (d_clock s) (d_next s))
  | d_store s i n h leaf made entries : d_threads s !! i = Some (n, DStore h leaf made) → entries ≡ₚ map_to_list (d_cache s) →
      dstep isIP s (mkD (store_section entries h leaf (d_clock s) (d_cache s)) (d_set i n (DDone leaf made) s)
                      (d_clock s) (d_next s)).

Definition dinitial (now : Z) : dstate := mkD ∅ [] now 0.

(** ** The cache of dynamic certificates *)
Section cache.
  Context (isIP : string → bool).

(** A certificate for a host, good at a time. *)
Definition good_for (host : string) (leaf : leafCert) (t : Z) : Prop :=
  lf_host leaf = host ∧ lf_isIP leaf = isIP host ∧ lf_NotBefore leaf ≤ t < lf_NotAfter leaf.

Definition entry_ok (clock : Z) (host : string) (c : cachedCertificate) : Prop :=
  host ≠ "" ∧ lf_host (cc_certificate c) = host ∧ lf_isIP (cc_certificate c) = isIP host ∧
  cc_expiresAt c = lf_NotAfter (cc_certificate c) ∧ lf_NotBefore (cc_certificate c) ≤ clock.

Definition pc_ok (clock : Z) (n : string) (p : dpc) : Prop :=
  match p with
  | DStart m => m = n
  | DFound h c | DStale h c => h = sni_host n ∧ entry_ok clock h c
  | DMake h => h = sni_host n ∧ h ≠ ""
  | DStore h leaf made => h = sni_host n ∧ h ≠ "" ∧ good_for h leaf made ∧ lf_NotBefore leaf ≤ clock
  | DDone leaf t => sni_host n ≠ "" ∧ good_for (sni_host n) leaf t
  | DFailed => True
  end.

Record dinv (s : dstate) : Prop := {
  di_size : (size (d_cache s) <= maxCachedCertificates)%nat;
  di_cache : ∀ h c, d_cache s !! h = Some c → entry_ok (d_clock s) h c;
  di_threads : ∀ i n p, d_threads s !! i = Some (n, p) → pc_ok (d_clock s) n p;
}.

Lemma oldest_cases entries best : fst (oldest entries best) = fst best ∨ fst (oldest entries best) ∈ map fst entries.
Proof.
  revert best; induction entries as [|[h c] es IH]; intros best; simpl; [by left|].
  destruct (String.eqb (fst best) "" || (cc_createdAt c <? snd best)).
  - destruct (IH (h, cc_createdAt c)) as [->|Hin]; right; [by left|by right].
  - destruct (IH best) as [->|Hin]; [by left|right; by right].
Qed.

Lemma oldest_in entries : entries ≠ [] → fst (oldest entries ("", 0)) ∈ map fst entries.
Proof.
  destruct entries as [|[h c] es]; [done|]. intros _. simpl.
  destruct (oldest_cases es (h, cc_createdAt c)) as [->|Hin]; [by left|by right].
Qed.

Lemma size_insert_le {A} (m : gmap string A) k v : (size (<[k := v]> m) <= S (size m))%nat.
Proof. rewrite map_size_insert. destruct (m !! k); simpl; lia. Qed.

Lemma size_delete_le {A} (m : gmap string A) k : (size (delete k m) <= size m)%nat.
Proof. rewrite map_size_delete. destruct (m !! k); simpl; lia. Qed.

Lemma store_size entries host leaf now cache :
  entries ≡ₚ map_to_list cache → (size cache <= maxCachedCertificates)%nat →
  (size (store_section entries host leaf now cache) <= maxCachedCertificates)%nat.
Proof.
  intros He Hs. unfold store_section. destruct (Nat.leb_spec maxCachedCertificates (size cache)) as [Hfull|Hroom].
  - assert (fst (oldest entries ("", 0)) ∈ map fst entries) as Hin.
    { apply oldest_in. intros ->. apply Permutation_nil in He. apply map_to_list_empty_iff in He. subst cache.
      rewrite map_size_empty in Hfull. unfold maxCachedCertificates in Hfull. lia. }
    apply list_elem_of_fmap in Hin as ([h c] & -> & Hc). rewrite He, elem_of_map_to_list in Hc. simpl.
    etransitivity; [apply size_insert_le|]. rewrite map_size_delete_Some by by eexists.
    unfold maxCachedCertificates in *. lia.
  - etransitivity; [apply size_insert_le|]. lia.
Qed.

Lemma entry_later t t' h c : t ≤ t' → entry_ok t h c → entry_ok t' h c.
Proof. intros Ht (? & ? & ? & ? & ?). repeat split; try done. lia. Qed.

Lemma pc_later t t' n p : t ≤ t' → pc_ok t n p → pc_ok t' n p.
Proof.
  intros Ht. destruct p; simpl; try done; try (intros [? H]; split; [done|by eapply entry_later]).
  intros (H1 & H2 & H3 & H4). split_and!; try done. lia.
Qed.

Lemma dinv_set s i n p cache next :
  dinv s → (size cache <= maxCachedCertificates)%nat → (∀ h c, cache !! h = Some c → entry_ok (d_clock s) h c) →
  pc_ok (d_clock s) n p → dinv (mkD cache (d_set i n p s) (d_clock s) next).
Proof.
  intros [I1 I2 I3] Hs Hc Hp. split; simpl; [done|done|]. intros j m q Hj. unfold d_set in Hj.
  apply list_lookup_insert_Some in Hj as [(-> & [= <- <-] & _)|[_ Hj]]; [done|by eapply I3].
Qed.

Lemma dstep_inv s s' : dstep isIP s s' → dinv s → dinv s'.
Proof.
  intros Hstep Hinv. destruct Hstep as [s t Ht|s n|s i n Hi Hn|s i n c Hi Hn Hl|s i n h c Hi Hg|s i n h c Hi Hg|s i n Hi Hn Hl
    |s i n h c Hi|s i n h Hi|s i n h Hi|s i n h leaf made entries Hi He].
  - destruct Hinv as [I1 I2 I3]. split; simpl; [done| |]; intros; [eapply entry_later|eapply pc_later]; eauto.
  - destruct Hinv as [I1 I2 I3]. split; simpl; [done|done|]. intros j m p Hj.
    apply lookup_app_Some in Hj as [Hj|[_ Hj]]; [by eapply I3|]. destruct (j - _)%nat; [|done]. by injection Hj as <- <-.
  - by apply dinv_set; try apply Hinv.
  - apply dinv_set; try apply Hinv. split; [done|]. by apply (di_cache _ Hinv).
  - pose proof (di_threads _ Hinv _ _ _ Hi) as [-> (H1 & H2 & H3 & H4 & H5)]. apply dinv_set; try apply Hinv.
    split; [done|]. repeat split; try done. unfold still_good in Hg. apply Z.ltb_lt in Hg. by rewrite <- H4.
  - pose proof (di_threads _ Hinv _ _ _ Hi) as H. by apply dinv_set; try apply Hinv.
  - by apply dinv_set; try apply Hinv.
  - pose proof (di_threads _ Hinv _ _ _ Hi) as [-> (H1 & _)]. apply dinv_set; [done| | |done].
    + unfold delete_section. repeat case_match; try apply Hinv. etransitivity; [apply size_delete_le|apply Hinv].
    + unfold delete_section. intros h' c' H'. apply (di_cache _ Hinv).
      repeat case_match; try done. by apply lookup_delete_Some in H' as [_ ?].
  - pose proof (di_threads _ Hinv _ _ _ Hi) as [-> H1]. apply dinv_set; try apply Hinv.
    unfold make_leaf, hour, minute, second. simpl. repeat split; simpl; try done; lia.
  - by apply dinv_set; try apply Hinv.
  - pose proof (di_threads _ Hinv _ _ _ Hi) as (-> & H1 & Hg & Hnb). apply dinv_set; [done| | |done].
    + apply store_size; [done|apply Hinv].
    + intros h' c' H'. unfold store_section in H'. apply lookup_insert_Some in H' as [[<- <-]|[_ H']].
      * destruct Hg as (G1 & G2 & _). repeat split; done.
      * apply (di_cache _ Hinv). case_match; [by apply lookup_delete_Some in H' as [_ ?]|done].
Qed.

(** C19: dynamic certificates.  Under every interleaving of handshakes, the
    certificate a handshake gets is for exactly the name it asked for (lower case,
    without a final dot), of the right kind, and within its validity (to the second,
    in which the encoded certificate has it) when it was found or made; and the
    cache never holds more than its maximum. *)
Theorem dynamic_certificates (now : Z) (s : dstate) :
  rtc (dstep isIP) (dinitial now) s →
  (size (d_cache s) <= maxCachedCertificates)%nat ∧
  ∀ i n leaf t, d_threads s !! i = Some (n, DDone leaf t) →
    sni_host n ≠ "" ∧ lf_host leaf = sni_host n ∧ lf_isIP leaf = isIP (sni_host n) ∧ lf_NotBefore leaf ≤ t < lf_NotAfter leaf.
Proof.
  intros Hr. assert (dinv s) as Hinv.
  { apply (rtc_ind_r dinv (dinitial now)) in Hr; [done| |by intros; eapply dstep_inv].
    split; simpl; [rewrite map_size_empty; lia|done|done]. }
  split; [apply Hinv|]. intros i n leaf t Hi. apply (di_threads _ Hinv _ _ _ Hi).
Qed.
End cache.

(** ** TLS versions: what the validator accepts, the server accepts *)
Lemma upper_marks c :
  is_space (upper_byte c) = is_space c ∧ Ascii.eqb (upper_byte c) "_" = Ascii.eqb c "_" ∧
  (Ascii.eqb (upper_byte c) "T" = false → Ascii.eqb c "T" = false).
Proof. destruct c as [[] [] [] [] [] [] [] []]; vm_compute; done. Qed.

Lemma replace_tlsv_cons c s :
  replace_tlsv (String c s) = String c (replace_tlsv s) ∨
  ∃ s', String c s = "TLSV" +:+ s' ∧ replace_tlsv (String c s) = "TLS" +:+ replace_tlsv s'.
Proof.
  destruct (HasPrefix (String c s) "TLSV") eqn:Hp.
  - right. apply HasPrefix_spec in Hp as [s' Hs]. exists s'. split; [done|]. by rewrite Hs.
  - left. destruct c as [[] [] [] [] [] [] [] []]; try done.
    destruct s as [|d s]; try done. destruct d as [[] [] [] [] [] [] [] []]; try done.
    destruct s as [|e s]; try done. destruct e as [[] [] [] [] [] [] [] []]; try done.
    destruct s as [|f s]; try done. destruct f as [[] [] [] [] [] [] [] []]; try done.
Qed.

Lemma upper_replace_plain s u :
  ToUpper (replace_tlsv s) = u → contains_byte "T" u = false → ToUpper s = u.
Proof.
  revert u; induction s as [|c s IH]; intros u Hu Ht; [done|]. subst u.
  destruct (replace_tlsv_cons c s) as [He|(s' & _ & He)]; rewrite He in *; [|by apply orb_false_iff in Ht as [? _]].
  unfold ToUpper in *. cbn [smap contains_byte] in *. apply orb_false_iff in Ht as [_ Ht]. by rewrite (IH _ eq_refl Ht).
Qed.

(** The spellings the validator accepts, in upper case. *)
Lemma upper_replace_cases s a u :
  ToUpper (replace_tlsv s) = String a u → contains_byte "T" u = false →
  ToUpper s = String a u ∨ (∃ u', String a u = "TLS" +:+ u' ∧ ToUpper s = "TLSV" +:+ u').
Proof.
  intros Hu Ht. destruct s as [|c s]; [done|].
  destruct (replace_tlsv_cons c s) as [He|(s' & Hs & He)]; rewrite He in Hu.
  - left. unfold ToUpper in *. cbn [smap] in *. injection Hu as Hc Hu.
    f_equal; [exact Hc|exact (upper_replace_plain s u Hu Ht)].
  - right. rewrite Hs. exists (ToUpper (replace_tlsv s')). split; [by rewrite <- Hu|].
    change (ToUpper ("TLSV" +:+ s')) with ("TLSV" +:+ ToUpper s'). f_equal. apply upper_replace_plain; [done|].
    change (ToUpper ("TLS" +:+ replace_tlsv s')) with ("TLS" +:+ ToUpper (replace_tlsv s')) in Hu. injection Hu as _ Hu.
    rewrite <- Hu in Ht. by apply orb_false_iff in Ht as [_ [_ Ht]%orb_false_iff].
Qed.

Lemma upper_normal s :
  all_bytes (λ c, negb (is_space c) && negb (Ascii.eqb c "_")) (ToUpper s) = true →
  ToUpper (smap underscore_to_dot (TrimSpace s)) = ToUpper s.
Proof.
  intros H. assert (all_bytes (λ c, negb (is_space c)) s = true ∧ smap underscore_to_dot s = s) as [H1 H2].
  { revert H. unfold ToUpper. induction s as [|c s IH]; [done|]. cbn [smap all_bytes].
    destruct (upper_marks c) as (-> & -> & _). intros [[Hs Hu]%andb_true_iff Hr]%andb_true_iff.
    destruct (IH Hr) as [-> ->]. rewrite Hs. unfold underscore_to_dot. apply negb_true_iff in Hu. by rewrite Hu. }
  by rewrite TrimSpace_id, H2.
Qed.

Lemma validated_version (path : string) (t : TLSConfig) (required : bool) :
  validateTLS path t required = [] → MinVersion t ≠ "" →
  ∃ version, ParseTLSVersion (MinVersion t) = Ok version ∧ VersionTLS10 ≤ version ≤ VersionTLS13.
Proof.
  unfold validateTLS. intros [_ H]%app_eq_nil Hne. apply String.eqb_neq in Hne. rewrite Hne in H.
  destruct (one_of _ _) eqn:Ho; [|done]. clear H Hne. apply one_of_In in Ho. revert Ho. generalize (MinVersion t). intros v Hv.
  assert (∃ u, ToUpper v = u ∧ u ∈ ["TLS1.0"; "TLS1.1"; "TLS1.2"; "TLS1.3"; "1.0"; "1.1"; "1.2"; "1.3";
                                    "TLSV1.0"; "TLSV1.1"; "TLSV1.2"; "TLSV1.3"]) as (u & Hu & Hin).
  { remember (ToUpper (replace_tlsv v)) as r eqn:Hr. symmetry in Hr. unfold tls_versions in Hv.
    repeat (apply elem_of_cons in Hv as [->|Hv]; [apply upper_replace_cases in Hr as [Hr|(u' & Hu & Hr)];
      [| |reflexivity]; [exists (ToUpper v); rewrite Hr; split; [done|set_solver]|
        first [injection Hu as <-; exists (ToUpper v); rewrite Hr; split; [done|set_solver]|cbn in Hu; discriminate Hu]]|]).
    by apply not_elem_of_nil in Hv. }
  unfold ParseTLSVersion. rewrite upper_normal, Hu.
  - clear Hu Hv. repeat (apply elem_of_cons in Hin as [->|Hin]; [eexists; split; [reflexivity|by vm_compute]|]).
    by apply not_elem_of_nil in Hin.
  - rewrite Hu. clear Hu Hv. repeat (apply elem_of_cons in Hin as [->|Hin]; [reflexivity|]). by apply not_elem_of_nil in Hin.
Qed.

(** The validator and the TLS helper agree on versions.  Every minimum
    version that passes validation is understood by every listener that starts
    with it, as a version between TLS 1.0 and TLS 1.3. *)
Theorem validated_version_parses (path : string) (t : TLSConfig) (required : bool) :
  validateTLS path t required = [] → MinVersion t ≠ "" →
  ∃ version, ParseTLSVersion (MinVersion t) = Ok version ∧ VersionTLS10 ≤ version ≤ VersionTLS13.
Proof. apply validated_version. Qed.

Lemma validated_version_parses_witness :
  ∃ version, ParseTLSVersion "tls1.3" = Ok version ∧ VersionTLS10 ≤ version ≤ VersionTLS13.
Proof. apply (validated_version_parses "tls" (mkTLS "c" "k" "" "tls1.3" "" "" "") true); [reflexivity|discriminate]. Defined.

(** ** Where certificate data comes from *)

(** When reading certificate data fails.  Only an empty name, or a URL that
    cannot be fetched or answers with an error status, is an error: a file name
    never is (the name itself is taken as the data when there is no such file or
    variable), and a download that breaks off is taken as far as it came. *)
Theorem ReadFile_fails_iff (w : world) (f : string) :
  (∃ e, ReadFile w f = Err e) ↔
  f = "" ∨ (is_url f = true ∧
    ((∃ e, w_Get w f = Err e) ∨
     (∃ status body, w_Get w f = Ok (status, body, None) ∧ status ≠ 200 ∧ status ≠ 204))).
Proof.
  unfold ReadFile. destruct (String.eqb_spec f "") as [->|Hf]; [split; [by left|by eexists]|].
  destruct (is_url f) eqn:Hu.
  - destruct (w_Get w f) as [[[status body] err]|e] eqn:Hg; [|split; [right; eauto|by eexists]].
    split.
    + intros [e He]. right. split; [done|]. right. destruct (Z.eqb_spec status 204) as [->|H4]; [done|].
      destruct err; [done|]. destruct (Z.eqb_spec status 200) as [->|H2]; [done|]. by exists status, body.
    + intros [?|(_ & [[e ?]|(st & b & [= -> -> ->] & H2 & H4)])]; [done|done|].
      destruct (Z.eqb_spec st 204); [done|]. destruct (Z.eqb_spec st 200); [done|]. by eexists.
  - split; [|by intros [?|[? _]]]. intros [e He]. by repeat case_match.
Qed.

Lemma ReadFile_local w f : f ≠ "" → is_url f = false → ∃ data, ReadFile w f = Ok data.
Proof.
  intros Hf Hu. unfold ReadFile. apply String.eqb_neq in Hf. rewrite Hf, Hu. repeat case_match; by eexists.
Qed.

Section verification.
  Context (w : world) (x : x509).
  Notation build := (BuildTLSConfigForDownstreamWithMinVersion w x).

Lemma build_client cert key ca crl url min pass t :
  build cert key ca crl url min pass = Ok t → ca ≠ "" →
  t_Verify t = revocation w x ca crl url ∧ t_RequireClientCert t = is_ok (ReadFile w ca) ∧
  t_ClientCAs t = match ReadFile w ca with Ok data => Some data | Err _ => None end.
Proof.
  unfold BuildTLSConfigForDownstreamWithMinVersion. intros H Hca.
  destruct (if String.eqb min "" then _ else _) as [version|]; [|done].
  destruct (load_pair w x cert key pass _) as [t0|] eqn:Hl; [|done]. injection H as <-.
  assert (t_ClientCAs t0 = None ∧ t_RequireClientCert t0 = false) as [H1 H2].
  { unfold load_pair in Hl. repeat case_match; try done; injection Hl as <-; done. }
  unfold client_auth. apply String.eqb_neq in Hca. rewrite Hca, H1, H2. by destruct (ReadFile w ca).
Qed.

(** What the handshake asks of the client, and the check that follows; a server
    that does not ask for certificates sees none.  (That the chain leads to an
    authority of the pool is the part of [crypto/tls].) *)
Definition admitted (t : tlsConfig) (peers : list certificate) : Prop :=
  (if t_RequireClientCert t then peers ≠ [] else peers = []) ∧ verify_connection w x (t_Verify t) peers = Accepted.

(** Client certificates are enforced.  A listener with a client authority
    admits a client without a certificate only when the authority is a URL that
    could not be read and, moreover, a revocation list is configured that cannot
    be used; with an authority in a file it never does. *)
Theorem anonymous_clients_refused (cert key ca crl url min pass : string) (t : tlsConfig) :
  build cert key ca crl url min pass = Ok t → ca ≠ "" →
  (admitted t [] ↔ (∃ e, ReadFile w ca = Err e) ∧ crl ≠ "" ∧ revocation w x ca crl url = NoVerify) ∧
  (is_url ca = false → ¬ admitted t []).
Proof.
  intros Hb Hca. destruct (build_client _ _ _ _ _ _ _ _ Hb Hca) as (Hv & Hr & _).
  assert (admitted t [] ↔ (∃ e, ReadFile w ca = Err e) ∧ crl ≠ "" ∧ revocation w x ca crl url = NoVerify) as Hiff.
  { unfold admitted. rewrite Hv, Hr. destruct (ReadFile w ca) as [data|e]; simpl.
    - split; [by intros [? _]|by intros [[e He] _]].
    - split.
      + intros [_ Ha]. split; [by eexists|]. destruct (revocation w x ca crl url) as [|[]|] eqn:E; try done.
        split; [|done]. intros ->. unfold revocation in E. done.
      + intros (_ & _ & ->). done. }
  split; [done|]. intros Hu Ha. apply Hiff in Ha as ([e He] & _). destruct (ReadFile_local w ca Hca Hu) as [d Hd]. congruence.
Qed.

(** C35: what a revocation list does.  A list that parses refuses exactly the
    clients whose serial number it holds; PEM data of the right type that does not
    parse makes the check of every client panic; anything else (no PEM data, another type, a URL
    that fails) switches revocation off without a word. *)
Theorem revocation_list_effect (cert key ca crl url min pass : string) (t : tlsConfig) (client : certificate)
    (chain : list certificate) :
  build cert key ca crl url min pass = Ok t → ca ≠ "" → crl ≠ "" → (∃ data, ReadFile w ca = Ok data) →
  match ReadFile w crl with
  | Ok data =>
      match pem_Decode x data with
      | Some ("X509 CRL", block, _) =>
          match x_ParseRevocationList x block with
          | Some revoked => admitted t (client :: chain) ↔ ce_Serial client ∉ revoked
          | None => verify_connection w x (t_Verify t) (client :: chain) = VerifyPanic
          end
      | _ => admitted t (client :: chain)
      end
  | Err _ => admitted t (client :: chain)
  end.
Proof.
  intros Hb Hca Hcrl [d Hd]. destruct (build_client _ _ _ _ _ _ _ _ Hb Hca) as (Hv & Hr & _). unfold admitted.
  rewrite Hr, Hd, Hv. cbn [is_ok]. unfold revocation. apply String.eqb_neq in Hcrl. rewrite Hcrl. cbn [negb].
  destruct (ReadFile w crl) as [data|e]; [|by split].
  destruct (pem_Decode x data) as [[[type block] rest]|]; [|by split].
  destruct (String.eqb_spec type "X509 CRL") as [->|Hne].
  - destruct (x_ParseRevocationList x block) as [revoked|]; [|done]. simpl.
    destruct (existsb (Z.eqb (ce_Serial client)) revoked) eqn:He.
    + split; [by intros [_ ?]|]. intros Hn. destruct Hn. apply existsb_exists in He as (z & Hz & ->%Z.eqb_eq).
      by apply list_elem_of_In.
    + split; [|by intros _]. intros _ Hin. apply not_true_iff_false in He. apply He, existsb_exists.
      exists (ce_Serial client). split; [by apply list_elem_of_In|apply Z.eqb_refl].
  - repeat case_match; try done; by destruct Hne.
Qed.

(** ** Finding the issuer *)

(** The PEM blocks of some data, in order. *)
Inductive pem_blocks : string → list (string * string) → Prop :=
  | pem_end data : data = "" ∨ pem_Decode x data = None → pem_blocks data []
  | pem_next data type block rest bs : data ≠ "" → pem_Decode x data = Some (type, block, rest) → pem_blocks rest bs →
      pem_blocks data ((type, block) :: bs).

Definition issues (cert : certificate) (b : string * string) : option certificate :=
  if String.eqb b.1 "CERTIFICATE" then
    match x_ParseCertificate x b.2 with
    | Some issuer => if ce_IsCA issuer && String.eqb (ce_Subject issuer) (ce_Issuer cert) then Some issuer else None
    | None => None
    end
  else None.

Fixpoint first_issuer (cert : certificate) (bs : list (string * string)) : option certificate :=
  match bs with
  | [] => None
  | b :: bs' => match issues cert b with Some i => Some i | None => first_issuer cert bs' end
  end.

Context (pem_progress : ∀ data type block rest, pem_Decode x data = Some (type, block, rest) →
  (String.length rest < String.length data)%nat).

Lemma find_issuer_blocks fuel data cert :
  (String.length data < fuel)%nat → ∃ bs, pem_blocks data bs ∧ find_issuer x fuel data cert = first_issuer cert bs.
Proof using pem_progress.
  revert data; induction fuel as [|fuel IH]; intros data Hl; [lia|]. simpl.
  destruct (String.eqb_spec data "") as [->|Hd]; [exists []; split; [constructor; by left|done]|].
  destruct (pem_Decode x data) as [[[type block] rest]|] eqn:Hp; [|exists []; split; [constructor; by right|done]].
  pose proof (pem_progress _ _ _ _ Hp). destruct (IH rest) as (bs & Hbs & Hf); [lia|].
  exists ((type, block) :: bs). split; [by eapply pem_next|]. simpl. unfold issues. simpl.
  destruct (String.eqb type "CERTIFICATE"); simpl; [|done].
  destruct (x_ParseCertificate x block) as [issuer|]; [|done].
  by destruct (ce_IsCA issuer && String.eqb (ce_Subject issuer) (ce_Issuer cert)).
Qed.

(** The search for the issuer ends and is complete.  Given that decoding a
    PEM block consumes input, the loop stops on every authorities file, and finds
    the first certificate of an authority whose subject is the client's issuer, or
    reports that there is none. *)
Theorem issuer_search_complete (caFile data : string) (cert : certificate) :
  caFile ≠ "" → ReadFile w caFile = Ok data →
  ∃ bs, pem_blocks data bs ∧
    parseIssuerCertificateFromCAFile w x caFile cert =
    match first_issuer cert bs with Some issuer => Ok issuer | None => Err "issuer certificate not found" end.
Proof using pem_progress.
  intros Hf Hd. unfold parseIssuerCertificateFromCAFile. apply String.eqb_neq in Hf. rewrite Hf, Hd.
  destruct (find_issuer_blocks (S (String.length data)) data cert) as (bs & Hbs & ->); [lia|]. by exists bs.
Qed.
End verification.

(** ** Witnesses *)

(** A toy PEM format: the first byte of the data is a block of its own. *)
Definition toy_pem (data : string) : option (string * string * string) :=
  match data with
  | String "R" rest => Some ("X509 CRL", "R", rest)
  | String c rest => Some ("CERTIFICATE", String c "", rest)
  | EmptyString => None
  end.
Definition toy_certificate (subject issuer : string) (ca : bool) (serial : Z) : certificate := mkCert subject ca subject issuer serial [].
Definition toy_x509 : x509 :=
  mkX509 toy_pem (λ _, ∅) (λ b, Some (toy_certificate b b (String.eqb b "C") 1)) (λ _, Some [7]) (λ _, true) (λ c k, Ok (c +:+ k))
    (λ _ _ _, Err "not encrypted") (λ _ b, b) Some (λ _, None) (λ _, Err "") (λ _ _, Err "") (λ _ _, Err "") (λ _ _ _, Err "").
Definition toy_world : world := mkWorld (λ _, Err "no network") Ok (λ _, None) (λ _, "").

Lemma toy_progress data type block rest :
  toy_pem data = Some (type, block, rest) → (String.length rest < String.length data)%nat.
Proof. destruct data as [|c s]; simpl; [done|]. intros H. repeat case_match; injection H as <- <- <-; simpl; lia. Qed.

Definition toy_config : tlsConfig :=
  match BuildTLSConfigForDownstreamWithMinVersion toy_world toy_x509 "c" "k" "XC" "R" "" "1.2" "" with Ok t => t | Err _ => empty_tls end.

Lemma anonymous_clients_refused_witness : ¬ admitted toy_world toy_x509 toy_config [].
Proof.
  apply (anonymous_clients_refused toy_world toy_x509 "c" "k" "XC" "R" "" "1.2" ""); [vm_compute; reflexivity|discriminate|reflexivity].
Defined.

Lemma revocation_list_effect_witness :
  admitted toy_world toy_x509 toy_config [toy_certificate "client" "C" false 8] ↔ 8 ∉ [7].
Proof.
  apply (revocation_list_effect toy_world toy_x509 "c" "k" "XC" "R" "" "1.2" "" toy_config (toy_certificate "client" "C" false 8) []);
    [vm_compute; reflexivity|discriminate|discriminate|by eexists].
Defined.

Lemma issuer_search_complete_witness :
  ∃ bs, pem_blocks toy_x509 "XC" bs ∧
    parseIssuerCertificateFromCAFile toy_world toy_x509 "XC" (toy_certificate "client" "C" false 8) =
    match first_issuer toy_x509 (toy_certificate "client" "C" false 8) bs with
    | Some issuer => Ok issuer | None => Err "issuer certificate not found" end.
Proof. apply (issuer_search_complete toy_world toy_x509 toy_progress "XC" "XC"); [discriminate|reflexivity]. Defined.

(** A first handshake for a host: it misses the cache, makes a certificate and stores it. *)
Definition first_leaf : leafCert := make_leaf 0 false "example.org" 5.
Definition after_first : dstate :=
  mkD (store_section [] "example.org" first_leaf 5 ∅) [("Example.org.", DDone first_leaf 5)] 5 1.

Lemma first_handshake : rtc (dstep (λ _, false)) (dinitial 5) after_first.
Proof.
  eapply rtc_l; [apply (d_arrive _ (dinitial 5) "Example.org.")|].
  eapply rtc_l; [by apply (d_miss _ _ 0 "Example.org.")|].
  eapply rtc_l; [by apply (d_make _ _ 0 "Example.org." "example.org")|].
  eapply rtc_l; [by apply (d_store _ _ 0 "Example.org." "example.org" first_leaf 5 [])|]. apply rtc_refl.
Qed.

Lemma dynamic_certificates_witness : lf_host first_leaf = "example.org" ∧ lf_NotBefore first_leaf ≤ 5 < lf_NotAfter first_leaf.
Proof.
  destruct (dynamic_certificates (λ _, false) 5 after_first first_handshake) as [_ H].
  destruct (H 0%nat "Example.org." first_leaf 5 eq_refl) as (_ & H1 & _ & H2). split; [exact H1|exact H2].
Defined.
