(* ===== verification/ClientCert.v ===== *)
(** * The forwarded client certificate

    Models [pkg/listener/client_cert.go]: the handler that tells the upstream about
    the client's certificate in the X-Forwarded-Client-Cert header, and the
    encoding of its fields.  SHA-256, PEM encoding and the table of printable
    characters beyond ASCII are parameters. *)

From S2P Require Import Prelude GoStd GoHttp Base64 Backend Selector Routing Middleware Transport Aws.
Open Scope Z_scope.

Definition dquote : Ascii.ascii := ascii_of_nat 34.
Definition backslash : Ascii.ascii := ascii_of_nat 92.
Definition semicolon : Ascii.ascii := ";"%char.

(** ** [url.QueryEscape] *)
Fixpoint QueryEscape (s : string) : string :=
  match s with
  | EmptyString => ""
  | String c rest =>
      if Ascii.eqb c " " then String "+" (QueryEscape rest)
      else if unreserved c then String c (QueryEscape rest)
      else String "%" (String (hexDigits (Z.shiftr (ord c) 4)) (String (hexDigits (Z.land (ord c) 15)) (QueryEscape rest)))
  end.

(** ** [strconv.Quote] *)
Section quote.
  Context (IsPrint : Z → bool).                 (* [unicode.IsPrint] beyond ASCII *)

Definition is_print (r : Z) : bool := if r <? 128 then (32 <=? r) && (r <=? 126) else IsPrint r.

(** [n] lower-case hexadecimal digits. *)
Fixpoint hex_pad (n : nat) (r : Z) : string :=
  match n with O => "" | S n' => String (hex_digit (Z.land (Z.shiftr r (4 * Z.of_nat n')) 15)) (hex_pad n' r) end.

Definition escaped (s : string) : string := String backslash s.

Definition escape_rune (r : Z) (bytes : string) : string :=
  if (r =? 34) || (r =? 92) then escaped bytes
  else if is_print r then bytes
  else if r =? 7 then escaped "a" else if r =? 8 then escaped "b" else if r =? 12 then escaped "f"
  else if r =? 10 then escaped "n" else if r =? 13 then escaped "r" else if r =? 9 then escaped "t"
  else if r =? 11 then escaped "v"
  else if (r <? 32) || (r =? 127) then escaped (String "x" (hex_pad 2 r))
  else if r <? 65536 then escaped (String "u" (hex_pad 4 r))
  else escaped (String "U" (hex_pad 8 r)).

(** Every rune takes at least a byte, so the length is enough fuel. *)
Fixpoint quote_go (fuel : nat) (s : string) : string :=
  match fuel, s with
  | S fuel', String c _ =>
      let '(r, n) := DecodeRune s in
      (if Nat.eqb n 1 && (r =? RuneError) then escaped (String "x" (hex_pad 2 (ord c))) else escape_rune r (take n s)) +:+
      quote_go fuel' (drop n s)
  | _, _ => ""
  end.

Definition Quote (s : string) : string := String dquote (quote_go (String.length s) s +:+ String dquote "").

(** ** The fields *)

(** [strings.ReplaceAll] of a byte by an escaped byte. *)
Fixpoint escape_byte (b : Ascii.ascii) (s : string) : string :=
  match s with
  | EmptyString => ""
  | String c s' => if Ascii.eqb c b then String backslash (String b (escape_byte b s')) else String c (escape_byte b s')
  end.

Definition quoteXFCCAlways (value : string) : string := Quote (escape_byte dquote (escape_byte backslash value)).

Definition quoteXFCCValue (value : string) : string :=
  if contains_byte "," value || contains_byte semicolon value || contains_byte "=" value || HasPrefix value " " || HasSuffix value " "
  then quoteXFCCAlways value else value.

Record peerCert : Type := mkPeer {
  pc_Raw : string; pc_Subject : string; pc_Issuer : string; pc_URIs : list string; pc_DNSNames : list string;
}.

Context (sha256 : string → string) (pem_Certificate : string → string).

(** The chain; [None] is a nil certificate. *)
Definition encodePEMChain (chain : list (option peerCert)) : string :=
  String.concat "" (map (λ c, match c with Some c => pem_Certificate (pc_Raw c) | None => "" end) chain).

Definition xfcc_parts (c : peerCert) (chain : list (option peerCert)) : list string :=
  ["Hash=" +:+ hex_Encode (sha256 (pc_Raw c)); "Cert=" +:+ QueryEscape (pem_Certificate (pc_Raw c));
   "Chain=" +:+ QueryEscape (encodePEMChain chain); "Subject=" +:+ quoteXFCCAlways (pc_Subject c);
   "Issuer=" +:+ quoteXFCCAlways (pc_Issuer c)] ++
  map (λ u, "URI=" +:+ quoteXFCCValue u) (pc_URIs c) ++ map (λ d, "DNS=" +:+ quoteXFCCValue d) (pc_DNSNames c).

Definition encodeClientCertificate (chain : list (option peerCert)) : string :=
  match chain with
  | Some c :: _ => Join ";" (xfcc_parts c chain)
  | _ => ""
  end.

Definition forwardedClientCertHeader : string := "X-Forwarded-Client-Cert".

(** [withForwardedClientCertificate]; [peers] is [r.TLS.PeerCertificates], empty
    without TLS. *)
Definition withForwardedClientCertificate {W : Type} (next : handler W) (peers : list (option peerCert)) : handler W :=
  λ wd req w,
    let h := header_Del forwardedClientCertHeader (r_header req) in
    let h := match peers with [] => h | _ => header_Set forwardedClientCertHeader (encodeClientCertificate peers) h end in
    next wd (set_header h req) w.
End quote.

(** ** Reading the header back

    A consumer splits the header at the semicolons outside quoted values, where a
    backslash protects the byte after it. *)
Inductive mode : Type := Outside | Inside | Escaped.

Definition next_mode (m : mode) (c : Ascii.ascii) : mode :=
  match m with
  | Outside => if Ascii.eqb c dquote then Inside else Outside
  | Inside => if Ascii.eqb c dquote then Outside else if Ascii.eqb c backslash then Escaped else Inside
  | Escaped => Inside
  end.

Fixpoint xfcc_fields (m : mode) (cur s : string) : list string :=
  match s with
  | EmptyString => [cur]
  | String c s' =>
      match m with
      | Outside => if Ascii.eqb c semicolon then cur :: xfcc_fields Outside "" s'
                   else xfcc_fields (next_mode Outside c) (cur +:+ String c "") s'
      | _ => xfcc_fields (next_mode m c) (cur +:+ String c "") s'
      end
  end.

(** The mode after reading a string that is not split. *)
Fixpoint run (m : mode) (s : string) : option mode :=
  match s with
  | EmptyString => Some m
  | String c s' => match m with
                   | Outside => if Ascii.eqb c semicolon then None else run (next_mode Outside c) s'
                   | _ => run (next_mode m c) s'
                   end
  end.

Lemma run_app m a b : run m (a +:+ b) = run m a ≫= λ m', run m' b.
Proof.
  revert m; induction a as [|c a IH]; intros m; [done|]. cbn [String.append run].
  destruct m; [destruct (Ascii.eqb c semicolon); [done|]| |]; apply IH.
Qed.

Lemma fields_run m m' cur a s : run m a = Some m' → xfcc_fields m cur (a +:+ s) = xfcc_fields m' (cur +:+ a) s.
Proof.
  revert m cur; induction a as [|c a IH]; intros m cur H.
  { injection H as ->. by rewrite string_app_nil_r. }
  cbn [run String.append xfcc_fields] in *.
  destruct m; [destruct (Ascii.eqb c semicolon); [done|]| |]; rewrite (IH _ _ H), string_app_assoc; done.
Qed.

Lemma fields_join ps :
  ps ≠ [] → Forall (λ p, run Outside p = Some Outside) ps → xfcc_fields Outside "" (Join ";" ps) = ps.
Proof.
  intros Hne. induction 1 as [|p ps Hp Hps IH]; [done|]. destruct ps as [|q ps].
  - simpl Join. pose proof (fields_run Outside Outside "" p "" Hp) as H. rewrite string_app_nil_r in H. by rewrite H.
  - change (Join ";" (p :: q :: ps)) with (p +:+ String semicolon (Join ";" (q :: ps))).
    rewrite (fields_run Outside Outside "" p _ Hp). cbn [xfcc_fields]. rewrite Ascii.eqb_refl, IH by done. done.
Qed.

Definition inert (c : Ascii.ascii) : bool := negb (Ascii.eqb c dquote) && negb (Ascii.eqb c backslash).
Definition plain (c : Ascii.ascii) : bool := negb (Ascii.eqb c dquote) && negb (Ascii.eqb c semicolon).

Lemma run_inert s : all_bytes inert s = true → run Inside s = Some Inside.
Proof.
  induction s as [|c s IH]; [done|]. cbn [all_bytes run next_mode]. unfold inert.
  intros [[Hq%negb_true_iff Hb%negb_true_iff]%andb_true_iff Hs]%andb_true_iff. rewrite Hq, Hb. by apply IH.
Qed.

Lemma run_plain s : all_bytes plain s = true → run Outside s = Some Outside.
Proof.
  induction s as [|c s IH]; [done|]. cbn [all_bytes run next_mode]. unfold plain.
  intros [[Hq%negb_true_iff Hb%negb_true_iff]%andb_true_iff Hs]%andb_true_iff. rewrite Hq, Hb. by apply IH.
Qed.

Lemma run_escaped c s : all_bytes inert s = true → run Inside (escaped (String c s)) = Some Inside.
Proof. intros H. cbn. by apply run_inert. Qed.

Lemma hex_digit_inert n : 0 ≤ n < 16 → inert (hex_digit n) = true.
Proof.
  intros Hn. assert (n ∈ seqZ 0 16) as Hin by (apply elem_of_seqZ; lia). revert Hin. clear Hn. vm_compute seqZ.
  intros Hin. repeat (apply elem_of_cons in Hin as [->|Hin]; [reflexivity|]). by apply not_elem_of_nil in Hin.
Qed.

Lemma hex_pad_inert n r : all_bytes inert (hex_pad n r) = true.
Proof.
  induction n as [|n IH]; [done|]. cbn [hex_pad all_bytes]. rewrite IH, hex_digit_inert; [done|].
  change 15 with (Z.ones 4). rewrite Z.land_ones by lia. apply Z.mod_pos_bound. lia.
Qed.

Lemma high_inert c : 128 ≤ ord c → inert c = true.
Proof. intros H. unfold inert. destruct (Ascii.eqb_spec c dquote) as [->|]; [by vm_compute in H|].
  destruct (Ascii.eqb_spec c backslash) as [->|]; [by vm_compute in H|done]. Qed.

(** The bytes of a decoded rune: one ASCII byte, one invalid byte, or several
    bytes beyond ASCII. *)
Lemma DecodeRune_bytes c s r n :
  DecodeRune (String c s) = (r, n) →
  (n = 1%nat ∧ r = ord c ∧ r < 128) ∨ (n = 1%nat ∧ r = RuneError) ∨
  (128 ≤ r ∧ all_bytes inert (take n (String c s)) = true).
Proof.
  unfold DecodeRune, cont. pose proof (ord_range c) as Hc.
  assert (∀ i, byte_at (String c s) (S i) = match String.get i s with Some d => ord d | None => -1 end) as Hb by done.
  rewrite !Hb. intros H.
  destruct (Z.ltb_spec (ord c) 128); [left; by injection H as <- <-|].
  repeat (match type of H with (if ?b then _ else _) = _ => destruct b eqn:?E end; [right; right; injection H as <- <-|]);
    [..|by right; left; injection H as <- <-];
    repeat match goal with E : _ && _ = true |- _ => apply andb_true_iff in E as [? ?] end;
    rewrite ?Z.leb_le, ?Z.eqb_eq in *;
    (destruct s as [|d s]; cbn [String.get] in *; [lia|]);
    try (destruct s as [|e s]; cbn [String.get] in *; [lia|]);
    try (destruct s as [|f s]; cbn [String.get] in *; [lia|]);
    (split; [lia|]); cbn [take all_bytes]; rewrite ?high_inert by lia; done.
Qed.

Lemma QueryUnescape_Escape s : QueryUnescape (QueryEscape s) = Some s.
Proof.
  induction s as [|c s IH]; [done|]. cbn [QueryEscape]. destruct (Ascii.eqb_spec c " ") as [->|Hsp].
  { cbn [QueryUnescape]. change (Ascii.eqb "+" "%") with false. change (Ascii.eqb "+" "+") with true. cbv iota. by rewrite IH. }
  destruct (unreserved c) eqn:Hc.
  - apply unreserved_plain in Hc as [H1 H2]. cbn [QueryUnescape]. by rewrite H1, H2, IH.
  - apply encoded_byte in Hc as (H1 & H2 & H3). cbn [QueryUnescape]. change (Ascii.eqb "%" "%") with true. cbv iota.
    rewrite H1, H2, IH. cbn [fmap option_fmap option_map]. by rewrite H3.
Qed.

Lemma unreserved_not_special c : unreserved c = true → plain c = true.
Proof. each_byte c; done. Qed.

Lemma QueryEscape_plain s : all_bytes plain (QueryEscape s) = true.
Proof.
  induction s as [|c s IH]; [done|]. cbn [QueryEscape]. destruct (Ascii.eqb c " "); [cbn; by rewrite IH|].
  destruct (unreserved c) eqn:Hc; cbn [all_bytes].
  - by rewrite IH, unreserved_not_special.
  - destruct (hexDigits_unreserved c) as [H1%unreserved_not_special H2%unreserved_not_special].
    by rewrite H1, H2, IH.
Qed.

Lemma hex_Encode_plain s : all_bytes plain (hex_Encode s) = true.
Proof.
  assert (∀ c, plain (hex_digit (ord c / 16)) = true ∧ plain (hex_digit (ord c mod 16)) = true) as H
    by (intros c; each_byte c; done).
  induction s as [|c s IH]; [done|]. cbn [hex_Encode all_bytes]. destruct (H c) as [-> ->]. by rewrite IH.
Qed.

Lemma run_join m p s : run m p = Some m → run m (p +:+ s) = run m s.
Proof. intros H. rewrite run_app, H. done. Qed.

Section fields.
  Context (IsPrint : Z → bool) (sha256 : string → string) (pem_Certificate : string → string).

Lemma run_escape_rune c s r n :
  DecodeRune (String c s) = (r, n) → Nat.eqb n 1 && (r =? RuneError) = false →
  run Inside (escape_rune IsPrint r (take n (String c s))) = Some Inside.
Proof.
  intros Hd Hne. unfold escape_rune.
  destruct (DecodeRune_bytes _ _ _ _ Hd) as [(-> & -> & Hlt)|[(-> & ->)|(Hr & Hi)]].
  - destruct ((ord c =? 34) || (ord c =? 92)) eqn:Hq; [by destruct s; apply run_escaped|].
    destruct (is_print IsPrint (ord c)).
    { apply orb_false_iff in Hq as [H1 H2]. apply run_inert. destruct s; cbn [take all_bytes]; unfold inert; rewrite andb_true_r.
      all: destruct (Ascii.eqb_spec c dquote) as [->|]; [done|]; destruct (Ascii.eqb_spec c backslash) as [->|]; done. }
    repeat case_match; try (by apply run_escaped); apply run_escaped, hex_pad_inert.
  - done.
  - replace ((r =? 34) || (r =? 92)) with false by (bsplit; done).
    destruct (is_print IsPrint r); [by apply run_inert|].
    repeat case_match; try (by apply run_escaped); apply run_escaped, hex_pad_inert.
Qed.

Lemma run_quote_go fuel s : run Inside (quote_go IsPrint fuel s) = Some Inside.
Proof.
  revert s; induction fuel as [|fuel IH]; intros s; [by destruct s|]. destruct s as [|c s]; [done|].
  cbn [quote_go]. destruct (DecodeRune (String c s)) as [r n] eqn:Hd. rewrite run_app.
  destruct (Nat.eqb n 1 && (r =? RuneError)) eqn:He.
  - rewrite run_escaped by apply hex_pad_inert. apply IH.
  - rewrite (run_escape_rune _ _ _ _ Hd He). apply IH.
Qed.

Lemma run_Quote s : run Outside (Quote IsPrint s) = Some Outside.
Proof. unfold Quote. cbn. rewrite run_app, run_quote_go. done. Qed.

Lemma run_value v : contains_byte dquote v = false → run Outside (quoteXFCCValue IsPrint v) = Some Outside.
Proof.
  intros Hq. unfold quoteXFCCValue. destruct (_ || HasSuffix v " ") eqn:Hs; [apply run_Quote|].
  apply orb_false_iff in Hs as [[[[_ Hsemi]%orb_false_iff _]%orb_false_iff _]%orb_false_iff _].
  apply run_plain. clear -Hq Hsemi. induction v as [|c v IH]; [done|]. cbn [contains_byte all_bytes] in *.
  apply orb_false_iff in Hq as [Hq1 Hq2], Hsemi as [Hs1 Hs2]. unfold plain at 1. by rewrite Hq1, Hs1, IH.
Qed.

(** The fields a consumer sees are those that were written. *)
Lemma fields_written (c : peerCert) (rest : list (option peerCert)) :
  Forall (λ v, contains_byte dquote v = false) (pc_URIs c ++ pc_DNSNames c) →
  xfcc_fields Outside "" (encodeClientCertificate IsPrint sha256 pem_Certificate (Some c :: rest))
    = xfcc_parts IsPrint sha256 pem_Certificate c (Some c :: rest).
Proof.
  intros Hv. unfold encodeClientCertificate. apply fields_join; [done|].
  apply Forall_app in Hv as [Hu Hd]. unfold xfcc_parts.
  apply Forall_app_2; [repeat apply Forall_cons_2; try apply Forall_nil_2|apply Forall_app_2].
  1-3: apply run_plain; rewrite all_bytes_app; simpl; auto using hex_Encode_plain, QueryEscape_plain.
  1-2: rewrite run_join by done; apply run_Quote.
  all: apply Forall_map; eapply Forall_impl; [eassumption|]; intros v Hvq; cbv beta; rewrite run_join by done; by apply run_value.
Qed.

(** The header cannot be forged through such a listener.  Whatever the client
    sent, the next handler sees the certificate of the connection in the header,
    or no such header when the connection has none; every other header and the
    rest of the request are unchanged. *)
Theorem xfcc_not_forgeable {W : Type} (next : handler W) (peers : list (option peerCert)) (wd : W) (req : request) (w : writer) :
  ∃ h, withForwardedClientCertificate IsPrint sha256 pem_Certificate next peers wd req w = next wd (set_header h req) w ∧
    h !! forwardedClientCertHeader =
      match peers with [] => None | _ => Some [encodeClientCertificate IsPrint sha256 pem_Certificate peers] end ∧
    ∀ k, k ≠ forwardedClientCertHeader → h !! k = r_header req !! k.
Proof.
  eexists. split; [reflexivity|]. unfold header_Del, header_Set.
  change (CanonicalHeaderKey forwardedClientCertHeader) with forwardedClientCertHeader. destruct peers as [|p ps].
  - split; [apply lookup_delete_eq|]. intros k Hk. by rewrite lookup_delete_ne.
  - split; [apply lookup_insert_eq|]. intros k Hk. by rewrite lookup_insert_ne, lookup_delete_ne.
Qed.

(** ** Quoted values are escaped twice *)

(** What a consumer reads from a quoted value. *)
Fixpoint unquote_body (s : string) : option string :=
  match s with
  | EmptyString => None
  | String c s' =>
      if Ascii.eqb c dquote then (if String.eqb s' "" then Some "" else None)
      else if Ascii.eqb c backslash then match s' with String d s'' => String d <$> unquote_body s'' | EmptyString => None end
      else String c <$> unquote_body s'
  end.
Definition unquote (s : string) : option string :=
  match s with String c s' => if Ascii.eqb c dquote then unquote_body s' else None | EmptyString => None end.

(** What follows the key in a field of that key, and all such values of a header. *)
Definition field_value (key f : string) : option string :=
  if HasPrefix f (key +:+ "=") then Some (drop (String.length (key +:+ "=")) f) else None.
Definition xfcc_values (key h : string) : list string := omap (field_value key) (xfcc_fields Outside "" h).

(** A value that may be quoted. *)
Definition read_value (s : string) : option string :=
  match s with String c _ => if Ascii.eqb c dquote then unquote s else Some s | EmptyString => Some "" end.

Definition printable (c : Ascii.ascii) : bool := (32 <=? ord c) && (ord c <=? 126).

Lemma quote_go_printable s :
  all_bytes printable s = true → unquote_body (quote_go IsPrint (String.length s) s +:+ String dquote "") = Some s.
Proof.
  induction s as [|c s IH]; [done|]. cbn [all_bytes String.length quote_go]. intros [Hc Hs]%andb_true_iff.
  unfold printable in Hc. apply andb_true_iff in Hc as [H1%Z.leb_le H2%Z.leb_le].
  assert (DecodeRune (String c s) = (ord c, 1%nat)) as ->.
  { unfold DecodeRune. destruct (Z.ltb_spec (ord c) 128); [done|lia]. }
  replace (ord c =? RuneError) with false by (unfold RuneError; bsplit; done). cbn [andb Nat.eqb]. cbn [take drop].
  rewrite string_app_assoc. unfold escape_rune, is_print.
  destruct ((ord c =? 34) || (ord c =? 92)) eqn:Hq.
  - unfold escaped. destruct s as [|d s]; cbn [take String.append unquote_body]; change (Ascii.eqb backslash dquote) with false;
      rewrite Ascii.eqb_refl; [done|]. cbn [take]. by rewrite (IH Hs).
  - replace (ord c <? 128) with true by (bsplit; done). replace ((32 <=? ord c) && (ord c <=? 126)) with true by (bsplit; done).
    apply orb_false_iff in Hq as [Q1%Z.eqb_neq Q2%Z.eqb_neq].
    assert (Ascii.eqb c dquote = false) as Hd by (destruct (Ascii.eqb_spec c dquote) as [->|]; [by destruct Q1|done]).
    assert (Ascii.eqb c backslash = false) as Hb by (destruct (Ascii.eqb_spec c backslash) as [->|]; [by destruct Q2|done]).
    destruct s as [|d s]; cbn [take String.append unquote_body]; rewrite Hd, Hb; [done|]. cbn [take]. by rewrite (IH Hs).
Qed.

Lemma escape_byte_length b s : (String.length s ≤ String.length (escape_byte b s))%nat.
Proof. induction s as [|c s IH]; [done|]. cbn [escape_byte]. destruct (Ascii.eqb c b); cbn [String.length]; lia. Qed.

Lemma escape_byte_id b s : contains_byte b s = false ↔ escape_byte b s = s.
Proof.
  induction s as [|c s IH]; [done|]. cbn [escape_byte contains_byte].
  destruct (Ascii.eqb c b) eqn:Hc.
  - split; [done|]. intros H. exfalso. apply (f_equal String.length) in H. cbn [String.length] in H.
    pose proof (escape_byte_length b s). lia.
  - cbn [orb]. rewrite IH. split; [by intros ->|]. by intros [= ->].
Qed.

Lemma escape_byte_printable b s :
  printable b = true → all_bytes printable s = true → all_bytes printable (escape_byte b s) = true.
Proof.
  intros Hb. induction s as [|c s IH]; [done|]. cbn [all_bytes escape_byte]. intros [Hc Hs]%andb_true_iff.
  destruct (Ascii.eqb c b); cbn [all_bytes]; rewrite IH by done; rewrite ?Hb, ?Hc; done.
Qed.

(** A value of printable bytes without quotes and backslashes is read as it is. *)
Definition clean (v : string) : bool :=
  all_bytes printable v && negb (contains_byte dquote v) && negb (contains_byte backslash v).

Lemma quoted_clean v : clean v = true → unquote (quoteXFCCAlways IsPrint v) = Some v.
Proof.
  unfold clean. intros [[Hp Hq%negb_true_iff]%andb_true_iff Hb%negb_true_iff]%andb_true_iff.
  unfold quoteXFCCAlways, Quote, unquote. rewrite Ascii.eqb_refl.
  apply escape_byte_id in Hb as ->. apply escape_byte_id in Hq as ->. by rewrite quote_go_printable.
Qed.

Lemma value_clean v : clean v = true → read_value (quoteXFCCValue IsPrint v) = Some v.
Proof.
  intros Hv. unfold quoteXFCCValue. destruct (_ || HasSuffix v " ").
  - pose proof (quoted_clean v Hv) as H. unfold quoteXFCCAlways, Quote in *. exact H.
  - unfold clean in Hv. apply andb_true_iff in Hv as [[_ Hq%negb_true_iff]%andb_true_iff _].
    destruct v as [|c v]; [done|]. cbn in *. by destruct (Ascii.eqb c dquote).
Qed.

Lemma values_clean vs : Forall (λ v, clean v = true) vs → map (λ v, read_value (quoteXFCCValue IsPrint v)) vs = map Some vs.
Proof. induction 1 as [|v vs Hv _ IH]; [done|]. cbn. by rewrite value_clean, IH. Qed.

(** Selecting the fields of one key from those written for a list of values. *)
Lemma values_same key (g : string → string) (vs : list string) :
  omap (field_value key) (map (λ v, (key +:+ "=") +:+ g v) vs) = map g vs.
Proof.
  assert (∀ v, field_value key ((key +:+ "=") +:+ v) = Some v) as Hf.
  { intros v. unfold field_value. rewrite drop_length_app. by rewrite (proj2 (HasPrefix_spec _ _)) by eauto. }
  induction vs as [|v vs IH]; [done|]. cbn. rewrite Hf. by f_equal.
Qed.

Lemma values_other key (f : string → string) (vs : list string) :
  (∀ v, field_value key (f v) = None) → omap (field_value key) (map f vs) = [].
Proof. intros Hf. induction vs as [|v vs IH]; [done|]. cbn. by rewrite Hf. Qed.

(** C36: a consumer reads the client's certificate back from the header.  As long as
    no URI or DNS name contains a double quote (such a name can be left unquoted and
    then hides the semicolons behind it), the fields found by splitting at the
    semicolons outside quotes give the fingerprint, the certificate and its chain,
    whatever the subject and the issuer contain; and a subject, an issuer, URIs and
    DNS names of printable bytes without quotes and backslashes are read exactly,
    each as often as the certificate has it. *)
Theorem xfcc_fields_recovered (c : peerCert) (rest : list (option peerCert)) :
  Forall (λ v, contains_byte dquote v = false) (pc_URIs c ++ pc_DNSNames c) →
  let h := encodeClientCertificate IsPrint sha256 pem_Certificate (Some c :: rest) in
  xfcc_values "Hash" h = [hex_Encode (sha256 (pc_Raw c))] ∧
  map QueryUnescape (xfcc_values "Cert" h) = [Some (pem_Certificate (pc_Raw c))] ∧
  map QueryUnescape (xfcc_values "Chain" h) = [Some (encodePEMChain pem_Certificate (Some c :: rest))] ∧
  (clean (pc_Subject c) = true → map unquote (xfcc_values "Subject" h) = [Some (pc_Subject c)]) ∧
  (clean (pc_Issuer c) = true → map unquote (xfcc_values "Issuer" h) = [Some (pc_Issuer c)]) ∧
  (Forall (λ v, clean v = true) (pc_URIs c) → map read_value (xfcc_values "URI" h) = map Some (pc_URIs c)) ∧
  (Forall (λ v, clean v = true) (pc_DNSNames c) → map read_value (xfcc_values "DNS" h) = map Some (pc_DNSNames c)).
Proof.
  intros Hv h. unfold xfcc_values, h. rewrite fields_written by done. unfold xfcc_parts.
  set (us := pc_URIs c). set (ds := pc_DNSNames c). rewrite !omap_app.
  rewrite (values_other "Hash" _ us), (values_other "Hash" _ ds), (values_other "Cert" _ us), (values_other "Cert" _ ds),
    (values_other "Chain" _ us), (values_other "Chain" _ ds), (values_other "Subject" _ us), (values_other "Subject" _ ds),
    (values_other "Issuer" _ us), (values_other "Issuer" _ ds), (values_other "URI" _ ds), (values_other "DNS" _ us) by done.
  pose proof (values_same "URI" (quoteXFCCValue IsPrint) us) as Hu. pose proof (values_same "DNS" (quoteXFCCValue IsPrint) ds) as Hd.
  cbn [String.append] in Hu, Hd |- *. rewrite Hu, Hd, !app_nil_r. cbn -[unquote QueryUnescape]. rewrite !QueryUnescape_Escape, !map_map.
  split; [done|]. split; [done|]. split; [done|].
  split; [intros Hc; by rewrite quoted_clean|]. split; [intros Hc; by rewrite quoted_clean|].
  split; intros Hc; by apply values_clean.
Qed.

(** A quoted value that contains a double quote or a backslash reaches the
    consumer with additional backslashes: [quoteXFCCAlways] escapes these bytes and
    leaves the escaped text to be escaped again by [strconv.Quote]. *)
Theorem subject_double_escaped (v : string) :
  all_bytes printable v = true →
  unquote (quoteXFCCAlways IsPrint v) = Some v ↔ contains_byte dquote v = false ∧ contains_byte backslash v = false.
Proof.
  intros Hp. unfold quoteXFCCAlways, Quote, unquote. rewrite Ascii.eqb_refl.
  rewrite quote_go_printable by (by repeat apply escape_byte_printable).
  pose proof (escape_byte_length dquote (escape_byte backslash v)) as H1.
  pose proof (escape_byte_length backslash v) as H2. split.
  - intros [= H]. rewrite H in H1.
    assert (contains_byte backslash v = false) as Hb.
    { destruct (contains_byte backslash v) eqn:Hc; [|done]. exfalso. revert H1. clear -Hc.
      induction v as [|c v IH]; [done|]. cbn [contains_byte escape_byte] in *.
      destruct (Ascii.eqb c backslash); cbn [String.length]; pose proof (escape_byte_length backslash v); [lia|].
      intros ?. apply IH; [done|lia]. }
    apply escape_byte_id in Hb as Hb'. rewrite Hb' in H. split; [by apply escape_byte_id|done].
  - intros [Hq Hb]. apply escape_byte_id in Hb. rewrite Hb. apply escape_byte_id in Hq. by rewrite Hq.
Qed.
End fields.

(** ** Witnesses *)

Definition demo_peer : peerCert := mkPeer "der" "CN=client;O=Acme" "CN=ca" ["spiffe://acme/web"] ["web.acme.example"].

Lemma xfcc_fields_recovered_witness :
  let h := encodeClientCertificate (λ _, true) id id [Some demo_peer] in
  map unquote (xfcc_values "Subject" h) = [Some "CN=client;O=Acme"] ∧ map read_value (xfcc_values "DNS" h) = [Some "web.acme.example"].
Proof.
  destruct (xfcc_fields_recovered (λ _, true) id id demo_peer []) as (_ & _ & _ & Hs & _ & _ & Hd).
  - repeat constructor.
  - split; [apply Hs; reflexivity|apply Hd; repeat constructor].
Defined.

Lemma subject_double_escaped_witness :
  unquote (quoteXFCCAlways (λ _, true) "CN=client;O=Acme") = Some "CN=client;O=Acme" ↔
  contains_byte dquote "CN=client;O=Acme" = false ∧ contains_byte backslash "CN=client;O=Acme" = false.
Proof. apply (subject_double_escaped (λ _, true)). reflexivity. Defined.
