(* ===== verification/Oidc.v ===== *)
(** * Keys of an OpenID provider

    Models [pkg/helper/oidc.go]: the discovery of a provider's key set and the
    conversion of its JSON Web Keys to PEM public keys, which the builder gives to
    the OpenID middleware.  HTTP, JSON decoding, the ASN.1 encoding of a public key
    and PEM armour are parameters; base64, the numbers and the curve equations are
    computed. *)

From S2P Require Import Prelude GoStd GoHttp Base64 Backend Selector Routing Middleware Transport Aws ClientCert.
Open Scope Z_scope.

Record jwk : Type := mkJwk {
  k_Kty : string; k_Use : string; k_Alg : string; k_Kid : string;
  k_N : string; k_E : string;
  k_Crv : string; k_X : string; k_Y : string;
}.

(** ** Public keys *)

Inductive curve : Type := P256 | P384 | P521.

Definition curve_p (c : curve) : Z :=
  match c with
  | P256 => 2 ^ 256 - 2 ^ 224 + 2 ^ 192 + 2 ^ 96 - 1
  | P384 => 2 ^ 384 - 2 ^ 128 - 2 ^ 96 + 2 ^ 32 - 1
  | P521 => 2 ^ 521 - 1
  end.

Definition curve_b (c : curve) : Z :=
  match c with
  | P256 => 0x5ac635d8aa3a93e7b3ebbd55769886bc651d06b0cc53b0f63bce3c3e27d2604b
  | P384 => 0xb3312fa7e23ee7e4988e056be3f82d19181d9c6efe8141120314088f5013875ac656398d8a2ed19d2a85c8edd3ec2aef
  | P521 => 0x051953eb9618e1c9a1f929a21a0b68540eea2da725b99b315f3b8b489918ef109e156193951ec7e937b1652c0bd3bb1bf073573df883d2c34f1ef451fd46b503f00
  end.

(** [elliptic.Curve.IsOnCurve]: reduced coordinates that satisfy the equation; the
    conventional point at infinity (0, 0) does not count. *)
Definition IsOnCurve (c : curve) (x y : Z) : bool :=
  let p := curve_p c in
  (0 <=? x) && (x <? p) && (0 <=? y) && (y <? p) && negb ((x =? 0) && (y =? 0)) &&
  (y * y mod p =? (x * x * x - 3 * x + curve_b c) mod p).

Inductive publicKey : Type :=
  | RSAKey (n e : Z)
  | ECKey (c : curve) (x y : Z)
  | Ed25519Key (x : string).

(** [big.Int.SetBytes]: the big-endian value. *)
Fixpoint SetBytes_from (acc : Z) (s : string) : Z :=
  match s with EmptyString => acc | String c s' => SetBytes_from (acc * 256 + ord c) s' end.
Definition SetBytes (s : string) : Z := SetBytes_from 0 s.

(** The exponent, an [int]: [e = e<<8 | int(b)] for every byte. *)
Fixpoint exponent_from (e : Z) (s : string) : Z :=
  match s with EmptyString => e | String b s' => exponent_from (Z.lor (int64 (Z.shiftl e 8)) (ord b)) s' end.
Definition exponent (s : string) : Z := exponent_from 0 s.

Definition ed25519_PublicKeySize : nat := 32.

(** ** Conversion *)
Section oidc.
  Context (IsPrint : Z → bool)                                   (* printable characters, for [%q] *)
          (corrupt : string → string)                            (* the text of a base64 error *)
          (MarshalPKIXPublicKey : publicKey → result string string)
          (pem_PublicKey : string → string).                     (* the PEM block of type PUBLIC KEY *)

Definition decode (what s : string) : result string string :=
  match DecodeString RawURLEncoding s with Some b => Ok b | None => Err ("decode " +:+ what +:+ ": " +:+ corrupt s) end.

Definition marshal (what : string) (pk : publicKey) : result string string :=
  match MarshalPKIXPublicKey pk with
  | Err e => Err ("marshal " +:+ what +:+ " public key: " +:+ e)
  | Ok der => Ok (pem_PublicKey der)
  end.

Definition rsaJWKToPEM (key : jwk) : result string string :=
  if String.eqb (k_N key) "" then Err "RSA key has no modulus"
  else if String.eqb (k_E key) "" then Err "RSA key has no exponent"
  else match decode "RSA modulus" (k_N key) with
  | Err e => Err e
  | Ok nBytes => match decode "RSA exponent" (k_E key) with
    | Err e => Err e
    | Ok eBytes =>
        let n := SetBytes nBytes in
        let e := exponent eBytes in
        if e =? 0 then Err "invalid RSA exponent" else marshal "RSA" (RSAKey n e)
    end
  end.

Definition named_curve (name : string) : option curve :=
  if String.eqb name "P-256" then Some P256
  else if String.eqb name "P-384" then Some P384
  else if String.eqb name "P-521" then Some P521
  else None.

Definition ecJWKToPEM (key : jwk) : result string string :=
  if String.eqb (k_Crv key) "" then Err "EC key has no curve"
  else match named_curve (k_Crv key) with
  | None => Err ("unsupported EC curve " +:+ Quote IsPrint (k_Crv key))
  | Some c => match decode "EC X coordinate" (k_X key) with
    | Err e => Err e
    | Ok xBytes => match decode "EC Y coordinate" (k_Y key) with
      | Err e => Err e
      | Ok yBytes =>
          let x := SetBytes xBytes in
          let y := SetBytes yBytes in
          if negb (IsOnCurve c x y) then Err "EC public key is not on the specified curve" else marshal "EC" (ECKey c x y)
      end
    end
  end.

Definition okpJWKToPEM (key : jwk) : result string string :=
  if negb (String.eqb (k_Crv key) "Ed25519") then Err ("unsupported OKP curve " +:+ Quote IsPrint (k_Crv key))
  else if String.eqb (k_X key) "" then Err "Ed25519 key has no public key value"
  else match decode "Ed25519 public key" (k_X key) with
  | Err e => Err e
  | Ok x => if negb (Nat.eqb (String.length x) ed25519_PublicKeySize)
            then Err ("invalid Ed25519 public key size: " +:+ Itoa (lenZ x))
            else marshal "Ed25519" (Ed25519Key x)
  end.

Definition jwkToPEM (key : jwk) : result string string :=
  if String.eqb (k_Kty key) "RSA" then rsaJWKToPEM key
  else if String.eqb (k_Kty key) "EC" then ecJWKToPEM key
  else if String.eqb (k_Kty key) "OKP" then okpJWKToPEM key
  else Err ("unsupported JWK key type " +:+ Quote IsPrint (k_Kty key)).

(** ** The provider *)

(** What the provider answers to a GET request (an error before or after sending
    it, or a status and a body, which may break off with an error), and the JSON
    documents: the address in a discovery document, the raw keys of a key set, one
    key. *)
Context (NewRequest : string → option string)
        (Do : string → result string (Z * (string * option string)))
        (decode_discovery : string * option string → result string string)
        (unmarshal_jwks : string → result string (list string))
        (unmarshal_jwk : string → result string jwk).

(** One request: the body of an answer with status 200. *)
Definition query (what url : string) : result string (string * option string) :=
  match NewRequest url with
  | Some e => Err ("create " +:+ what +:+ " request: " +:+ e)
  | None => match Do url with
    | Err e => Err ("query " +:+ what +:+ " endpoint: " +:+ e)
    | Ok (status, body) =>
        if negb (status =? 200) then Err (what +:+ " endpoint returned HTTP " +:+ Itoa status) else Ok body
    end
  end.

Definition discoveryURL (providerURL : string) : string :=
  TrimRight slash providerURL +:+ "/.well-known/openid-configuration".

Definition discover (providerURL : string) : result string string :=
  match query "discovery" (discoveryURL providerURL) with
  | Err e => Err e
  | Ok body => match decode_discovery body with
    | Err e => Err ("decode discovery document: " +:+ e)
    | Ok uri => if String.eqb uri "" then Err "discovery document does not contain jwks_uri" else Ok uri
    end
  end.

Definition fetch_keys (uri : string) : result string (list string) :=
  match query "JWKS" uri with
  | Err e => Err e
  | Ok (_, Some e) => Err ("read JWKS response: " +:+ e)
  | Ok (body, None) => match unmarshal_jwks body with
    | Err e => Err ("decode JWKS document: " +:+ e)
    | Ok raws => Ok raws
    end
  end.

Fixpoint convert_keys (i : Z) (raws : list string) : result string (list string) :=
  match raws with
  | [] => Ok []
  | raw :: raws' => match unmarshal_jwk raw with
    | Err e => Err ("decode JWK " +:+ Itoa i +:+ ": " +:+ e)
    | Ok key => match jwkToPEM key with
      | Err e => Err ("convert JWK " +:+ Itoa i +:+ " (kid=" +:+ Quote IsPrint (k_Kid key) +:+ ") to PEM: " +:+ e)
      | Ok pemKey => match convert_keys (i + 1) raws' with Err e => Err e | Ok keys => Ok (pemKey :: keys) end
      end
    end
  end.

Definition GetJWKSPEM (providerURL : string) : result string (list string) :=
  match discover providerURL with
  | Err e => Err e
  | Ok uri => match fetch_keys uri with
    | Err e => Err e
    | Ok raws => convert_keys 0 raws
    end
  end.

End oidc.

(** ** The exponent *)

Lemma int64_mod a b : a mod 2 ^ 64 = b mod 2 ^ 64 ↔ int64 a = int64 b.
Proof.
  unfold int64, wrap. split.
  - intros H. rewrite <- (Zplus_mod_idemp_l a), <- (Zplus_mod_idemp_l b). by rewrite H.
  - intros H. replace a with (a + 2 ^ (64 - 1) - 2 ^ (64 - 1)) by lia. replace b with (b + 2 ^ (64 - 1) - 2 ^ (64 - 1)) by lia.
    rewrite (Zminus_mod (a + _)), (Zminus_mod (b + _)). f_equal. f_equal. lia.
Qed.

Lemma int64_mult256 z : ∃ q, int64 (z * 256) = q * 256 ∧ - 2 ^ 63 ≤ q * 256 < 2 ^ 63.
Proof.
  unfold int64, wrap. change (2 ^ (64 - 1)) with 9223372036854775808. change (2 ^ 64) with 18446744073709551616.
  change (2 ^ 63) with 9223372036854775808.
  exists (((z * 256 + 9223372036854775808) mod 18446744073709551616) / 256 - 36028797018963968).
  Z.to_euclidean_division_equations. lia.
Qed.

Lemma land_byte q b : 0 ≤ b < 256 → Z.land (q * 256) b = 0.
Proof.
  intros Hb. change 256 with (2 ^ 8). rewrite <- Z.shiftl_mul_pow2 by lia.
  apply Z.bits_inj'. intros n Hn. rewrite Z.land_spec, Z.shiftl_spec, Z.bits_0 by lia.
  destruct (Z.ltb_spec n 8); [by rewrite Z.testbit_neg_r by lia|].
  rewrite (Z.bits_above_log2 b); [apply andb_false_r|lia|].
  destruct (Z.eq_dec b 0) as [->|]; [cbn; lia|]. apply Z.lt_le_trans with 8; [apply Z.log2_lt_pow2|]; lia.
Qed.

Lemma lor_byte q b : 0 ≤ b < 256 → Z.lor (q * 256) b = q * 256 + b.
Proof. intros Hb. rewrite <- Z.lxor_lor, <- Z.add_nocarry_lxor by (by apply land_byte). done. Qed.

Lemma int64_residue z : ∃ k, int64 z = z + k * 2 ^ 64.
Proof.
  unfold int64, wrap. exists (- ((z + 2 ^ (64 - 1)) / 2 ^ 64)).
  pose proof (Z.div_mod (z + 2 ^ (64 - 1)) (2 ^ 64) ltac:(done)). lia.
Qed.

Lemma SetBytes_from_nonneg s v : 0 ≤ v → 0 ≤ SetBytes_from v s.
Proof. revert v; induction s as [|c s IH]; intros v Hv; [done|]. apply IH. pose proof (ord_range c). lia. Qed.

(** One step of the loop computes modulo 2^64. *)
Lemma exponent_step v b : 0 ≤ b < 256 → Z.lor (int64 (Z.shiftl (int64 v) 8)) b = int64 (v * 256 + b).
Proof.
  intros Hb. rewrite Z.shiftl_mul_pow2 by lia. change (2 ^ 8) with 256.
  destruct (int64_mult256 (int64 v)) as (q & Hq & Hr). rewrite Hq, lor_byte by done.
  destruct (int64_residue v) as [k Hk], (int64_residue (int64 v * 256)) as [l Hl]. rewrite Hq in Hl.
  rewrite <- (wrap_id 64 (q * 256 + b)) by (change (2 ^ (64 - 1)) with (36028797018963968 * 256); lia).
  apply int64_mod. rewrite Hl, Hk.
  replace ((v + k * 2 ^ 64) * 256 + l * 2 ^ 64 + b) with (v * 256 + b + (k * 256 + l) * 2 ^ 64) by lia.
  apply Z_mod_plus_full.
Qed.

Lemma exponent_from_value s v : exponent_from (int64 v) s = int64 (SetBytes_from v s).
Proof.
  revert v; induction s as [|b s IH]; intros v; [done|]. cbn [exponent_from SetBytes_from].
  by rewrite exponent_step, IH by apply ord_range.
Qed.

(** The loop computes the value of the bytes, cut to 64 bits. *)
Lemma exponent_value s : exponent s = int64 (SetBytes s).
Proof. apply (exponent_from_value s 0). Qed.

(** ** What a key denotes *)
Section spec.
  Context (IsPrint : Z → bool) (corrupt : string → string)
          (MarshalPKIXPublicKey : publicKey → result string string) (pem_PublicKey : string → string).

(** The public key a published one stands for (RFC 7518). *)
Inductive denotes (k : jwk) : publicKey → Prop :=
  | denotes_rsa n e :
      k_Kty k = "RSA" → k_N k ≠ "" → k_E k ≠ "" →
      DecodeString RawURLEncoding (k_N k) = Some n → DecodeString RawURLEncoding (k_E k) = Some e →
      SetBytes e ≠ 0 → denotes k (RSAKey (SetBytes n) (SetBytes e))
  | denotes_ec c x y :
      k_Kty k = "EC" → named_curve (k_Crv k) = Some c →
      DecodeString RawURLEncoding (k_X k) = Some x → DecodeString RawURLEncoding (k_Y k) = Some y →
      IsOnCurve c (SetBytes x) (SetBytes y) = true → denotes k (ECKey c (SetBytes x) (SetBytes y))
  | denotes_okp x :
      k_Kty k = "OKP" → k_Crv k = "Ed25519" → DecodeString RawURLEncoding (k_X k) = Some x →
      String.length x = 32%nat → denotes k (Ed25519Key x).

(** The key as the code has it: the exponent of an RSA key is an [int], and zero is
    refused.  An exponent below 2^63 is kept as it is. *)
Definition kept (pk : publicKey) : option publicKey :=
  match pk with RSAKey n e => if int64 e =? 0 then None else Some (RSAKey n (int64 e)) | _ => Some pk end.
Definition fits (pk : publicKey) : Prop := match pk with RSAKey _ e => e < 2 ^ 63 | _ => True end.

Lemma fits_kept k pk : denotes k pk → fits pk → kept pk = Some pk.
Proof.
  intros [n e _ _ _ _ _ He| |]; simpl; try done. intros Hf. pose proof (SetBytes_from_nonneg e 0) as Hn.
  unfold SetBytes in *. assert (int64 (SetBytes_from 0 e) = SetBytes_from 0 e) as ->.
  { apply wrap_id; [lia|]. change (2 ^ (64 - 1)) with (2 ^ 63). lia. }
  by apply Z.eqb_neq in He as ->.
Qed.

Lemma decode_Ok what s b : decode corrupt what s = Ok b ↔ DecodeString RawURLEncoding s = Some b.
Proof. unfold decode. destruct (DecodeString _ s); naive_solver. Qed.

Lemma marshal_Ok what pk pem :
  marshal MarshalPKIXPublicKey pem_PublicKey what pk = Ok pem ↔
  ∃ der, MarshalPKIXPublicKey pk = Ok der ∧ pem = pem_PublicKey der.
Proof. unfold marshal. destruct (MarshalPKIXPublicKey pk); naive_solver. Qed.

Notation jwkToPEM := (jwkToPEM IsPrint corrupt MarshalPKIXPublicKey pem_PublicKey).

(** A key is a function of the JWK. *)
Lemma denotes_det k p q : denotes k p → denotes k q → p = q.
Proof. intros [] []; simplify_eq; congruence. Qed.

Lemma rsa_accepted k pem :
  k_Kty k = "RSA" →
  rsaJWKToPEM corrupt MarshalPKIXPublicKey pem_PublicKey k = Ok pem ↔
  ∃ pk pk' der, denotes k pk ∧ kept pk = Some pk' ∧ MarshalPKIXPublicKey pk' = Ok der ∧ pem = pem_PublicKey der.
Proof.
  intros Hk. unfold rsaJWKToPEM. split.
  - destruct (String.eqb_spec (k_N k) ""); [done|]. destruct (String.eqb_spec (k_E k) ""); [done|].
    destruct (decode _ _ (k_N k)) as [nb|] eqn:Hn; [|done]. destruct (decode _ _ (k_E k)) as [eb|] eqn:He; [|done].
    apply decode_Ok in Hn, He. rewrite exponent_value. destruct (Z.eqb_spec (int64 (SetBytes eb)) 0); [done|].
    intros (der & ? & ->)%marshal_Ok. exists (RSAKey (SetBytes nb) (SetBytes eb)), (RSAKey (SetBytes nb) (int64 (SetBytes eb))), der.
    split; [apply denotes_rsa; try done; by intros Hz; rewrite Hz in *|]. split; [|done]. cbn [kept]. by rewrite (proj2 (Z.eqb_neq _ 0)).
  - intros (pk & pk' & der & Hd & Hk' & Hm & ->). destruct Hd as [n e _ Hn0 He0 Hn He Hz|? ? ? H|? H]; [|congruence..]. cbn [kept] in Hk'.
    apply String.eqb_neq in Hn0, He0. rewrite Hn0, He0.
    apply (decode_Ok "RSA modulus") in Hn. apply (decode_Ok "RSA exponent") in He. rewrite Hn, He.
    rewrite exponent_value. destruct (int64 (SetBytes e) =? 0); [done|]. injection Hk' as <-. apply marshal_Ok. eauto.
Qed.

Lemma ec_accepted k pem :
  k_Kty k = "EC" →
  ecJWKToPEM IsPrint corrupt MarshalPKIXPublicKey pem_PublicKey k = Ok pem ↔
  ∃ pk pk' der, denotes k pk ∧ kept pk = Some pk' ∧ MarshalPKIXPublicKey pk' = Ok der ∧ pem = pem_PublicKey der.
Proof.
  intros Hk. unfold ecJWKToPEM. split.
  - destruct (String.eqb_spec (k_Crv k) ""); [done|]. destruct (named_curve (k_Crv k)) as [c|] eqn:Hc; [|done].
    destruct (decode _ _ (k_X k)) as [xb|] eqn:Hx; [|done]. destruct (decode _ _ (k_Y k)) as [yb|] eqn:Hy; [|done].
    apply decode_Ok in Hx, Hy. destruct (IsOnCurve _ _ _) eqn:Ho; [|done].
    intros (der & ? & ->)%marshal_Ok. do 2 exists (ECKey c (SetBytes xb) (SetBytes yb)). exists der. split; [by apply denotes_ec|done].
  - intros (pk & pk' & der & Hd & Hk' & Hm & ->). destruct Hd as [? ? H|c x y _ Hc Hx Hy Ho|? H]; [congruence| |congruence]. injection Hk' as <-.
    destruct (String.eqb_spec (k_Crv k) "") as [He|]; [by rewrite He in Hc|]. rewrite Hc.
    apply (decode_Ok "EC X coordinate") in Hx. apply (decode_Ok "EC Y coordinate") in Hy. rewrite Hx, Hy, Ho.
    apply marshal_Ok. eauto.
Qed.

Lemma okp_accepted k pem :
  k_Kty k = "OKP" →
  okpJWKToPEM IsPrint corrupt MarshalPKIXPublicKey pem_PublicKey k = Ok pem ↔
  ∃ pk pk' der, denotes k pk ∧ kept pk = Some pk' ∧ MarshalPKIXPublicKey pk' = Ok der ∧ pem = pem_PublicKey der.
Proof.
  intros Hk. unfold okpJWKToPEM. split.
  - destruct (String.eqb_spec (k_Crv k) "Ed25519"); [|done]. destruct (String.eqb_spec (k_X k) ""); [done|].
    destruct (decode _ _ (k_X k)) as [xb|] eqn:Hx; [|done]. apply decode_Ok in Hx.
    destruct (Nat.eqb_spec (String.length xb) ed25519_PublicKeySize); [|done].
    intros (der & ? & ->)%marshal_Ok. do 2 exists (Ed25519Key xb). exists der. split; [by apply denotes_okp|done].
  - intros (pk & pk' & der & Hd & Hk' & Hm & ->). destruct Hd as [? ? H|? ? ? H|x _ Hc Hx Hl]; [congruence..|]. injection Hk' as <-.
    rewrite Hc. destruct (String.eqb_spec (k_X k) "") as [He|]; [rewrite He in Hx; by injection Hx as <-|].
    apply (decode_Ok "Ed25519 public key") in Hx. rewrite Hx, Hl. apply marshal_Ok. eauto.
Qed.

Lemma jwkToPEM_iff (k : jwk) (pem : string) :
  jwkToPEM k = Ok pem ↔ ∃ pk pk' der, denotes k pk ∧ kept pk = Some pk' ∧ MarshalPKIXPublicKey pk' = Ok der ∧ pem = pem_PublicKey der.
Proof.
  unfold Oidc.jwkToPEM. destruct (String.eqb_spec (k_Kty k) "RSA"); [by apply rsa_accepted|].
  destruct (String.eqb_spec (k_Kty k) "EC"); [by apply ec_accepted|].
  destruct (String.eqb_spec (k_Kty k) "OKP"); [by apply okp_accepted|].
  split; [done|]. by intros (? & ? & ? & [] & ?).
Qed.


(** The RSA exponent is cut to 64 bits without a check: two keys with the
    same modulus whose exponents agree in their low 64 bits give the same PEM text,
    so that a long exponent is replaced by another one; an exponent below 2^63 is
    taken as it is. *)
Theorem rsa_exponent_truncated (k l : jwk) (ke le : string) :
  k_Kty k = "RSA" → k_Kty l = "RSA" → k_N k = k_N l → k_E k = EncodeToString RawURLEncoding ke →
  k_E l = EncodeToString RawURLEncoding le → ke ≠ "" → le ≠ "" → SetBytes ke mod 2 ^ 64 = SetBytes le mod 2 ^ 64 →
  jwkToPEM k = jwkToPEM l ∧
  (SetBytes ke < 2 ^ 63 → ∀ pk, denotes k pk → kept pk = Some pk).
Proof.
  intros Hk Hl Hn Hke Hle Hek Hel Hm.
  assert (∀ e, e ≠ "" → String.eqb (EncodeToString RawURLEncoding e) "" = false) as Hne.
  { intros e He. apply String.eqb_neq. intros Henc. apply He. pose proof (DecodeString_Encode RawURLEncoding e) as Hd.
    rewrite Henc in Hd. by injection Hd. }
  apply int64_mod in Hm. split.
  - unfold Oidc.jwkToPEM. rewrite Hk, Hl. unfold rsaJWKToPEM, decode.
    rewrite Hn, Hke, Hle, !Hne, !DecodeString_Encode, !exponent_value, Hm by done. done.
  - intros Hsmall pk Hd. apply (fits_kept k); [done|]. destruct Hd as [n e _ _ _ _ He _|? ? ? H|? H]; [|congruence..].
    rewrite Hke, DecodeString_Encode in He. by injection He as <-.
Qed.

(** ** The key set *)
Section keys.
  Context (NewRequest : string → option string)
          (Do : string → result string (Z * (string * option string)))
          (decode_discovery : string * option string → result string string)
          (unmarshal_jwks : string → result string (list string))
          (unmarshal_jwk : string → result string jwk).

Definition converts (raw pem : string) : Prop := ∃ k, unmarshal_jwk raw = Ok k ∧ jwkToPEM k = Ok pem.

Notation convert_keys := (convert_keys IsPrint corrupt MarshalPKIXPublicKey pem_PublicKey unmarshal_jwk).

Lemma convert_keys_Ok raws i pems : convert_keys i raws = Ok pems ↔ Forall2 converts raws pems.
Proof.
  revert i pems; induction raws as [|raw raws IH]; intros i pems; cbn [Oidc.convert_keys].
  { split; [by intros [= <-]|]. by intros ->%Forall2_nil_inv_l. }
  split.
  - destruct (unmarshal_jwk raw) as [k|] eqn:Hk; [|done]. destruct (jwkToPEM k) as [pem|] eqn:Hp; [|done].
    destruct (convert_keys _ raws) as [ps|] eqn:Hr; [|done]. intros [= <-]. constructor; [by exists k|]. by eapply IH.
  - intros (pem & ps & (k & Hk & Hp) & Hr & ->)%Forall2_cons_inv_l. rewrite Hk, Hp.
    apply (IH (i + 1)) in Hr. by rewrite Hr.
Qed.

Lemma convert_keys_Err raws i j raw :
  raws !! j = Some raw → (∀ pem, ¬ converts raw pem) →
  (∀ j' r, (j' < j)%nat → raws !! j' = Some r → ∃ pem, converts r pem) →
  ∃ m, convert_keys i raws = Err ("decode JWK " +:+ Itoa (i + Z.of_nat j) +:+ ": " +:+ m) ∨
       convert_keys i raws = Err ("convert JWK " +:+ Itoa (i + Z.of_nat j) +:+ " (kid=" +:+ m).
Proof.
  revert i j; induction raws as [|r raws IH]; intros i j Hj Hno Hall; [done|]. cbn [Oidc.convert_keys].
  destruct j as [|j].
  - injection Hj as ->. rewrite Z.add_0_r. destruct (unmarshal_jwk raw) as [k|e] eqn:Hk; [|by exists e; left].
    destruct (jwkToPEM k) as [pem|e] eqn:Hp; [by destruct (Hno pem); exists k|]. eexists. by right.
  - destruct (Hall 0%nat r ltac:(lia) eq_refl) as (pem & k & Hk & Hp). rewrite Hk, Hp.
    destruct (IH (i + 1) j Hj Hno) as [m Hm].
    { intros j' r' Hlt. apply (Hall (S j')). lia. }
    replace (i + Z.of_nat (S j)) with (i + 1 + Z.of_nat j) by lia. exists m. destruct Hm as [-> | ->]; auto.
Qed.

(** A key set is converted entirely, in its order, or not at all.  When the
    provider's answers could be read, the keys are the conversions of the raw keys
    one by one; and one key that cannot be converted, such as a key of a kind that
    is not supported, refuses the whole set with an error that names the first
    such key. *)
Theorem key_set_all_or_nothing (provider uri : string) (raws : list string) :
  discover NewRequest Do decode_discovery provider = Ok uri → fetch_keys NewRequest Do unmarshal_jwks uri = Ok raws →
  let keys := GetJWKSPEM IsPrint corrupt MarshalPKIXPublicKey pem_PublicKey NewRequest Do decode_discovery
                unmarshal_jwks unmarshal_jwk provider in
  (∀ pems, keys = Ok pems ↔ Forall2 converts raws pems) ∧
  (∀ j raw, raws !! j = Some raw → (∀ pem, ¬ converts raw pem) →
     (∀ j' r, (j' < j)%nat → raws !! j' = Some r → ∃ pem, converts r pem) →
     ∃ m, keys = Err ("decode JWK " +:+ Itoa (Z.of_nat j) +:+ ": " +:+ m) ∨
          keys = Err ("convert JWK " +:+ Itoa (Z.of_nat j) +:+ " (kid=" +:+ m)).
Proof.
  intros Hd Hf. unfold GetJWKSPEM. rewrite Hd, Hf. split; [intros; apply convert_keys_Ok|].
  intros j raw. apply (convert_keys_Err raws 0).
Qed.
End keys.
End spec.

(** ** Witnesses *)

(** The base point of P-256 in the coordinates of RFC 7518. *)
Definition demo_ec : jwk :=
  mkJwk "EC" "sig" "ES256" "g" "" "" "P-256"
    "axfR8uEsQkf4vOblY6RA8ncDfYEt6zOg9KE5RdiYwpY" "T-NC4v4af5uO5-tKfA-eFivOM1drMV7Oy7ZAaDe_UfU".

Example demo_ec_accepted :
  jwkToPEM (λ _, true) id (λ pk, match pk with ECKey P256 _ _ => Ok "spki" | _ => Err "" end) id demo_ec = Ok "spki".
Proof. vm_compute. reflexivity. Qed.

Definition demo_rsa (e : string) : jwk :=
  mkJwk "RSA" "sig" "RS256" "r" "3q0" (EncodeToString RawURLEncoding e) "" "" "".

Definition byte_string (l : list Z) : string := fold_right (λ z, String (chr z)) "" l.

Lemma rsa_exponent_truncated_witness :
  jwkToPEM (λ _, true) id (λ _, Ok "spki") id (demo_rsa (byte_string [1; 0; 1])) =
  jwkToPEM (λ _, true) id (λ _, Ok "spki") id (demo_rsa (byte_string [7; 0; 0; 0; 0; 0; 1; 0; 1])) ∧
  (SetBytes (byte_string [1; 0; 1]) < 2 ^ 63 →
   ∀ pk, denotes (demo_rsa (byte_string [1; 0; 1])) pk → kept pk = Some pk).
Proof.
  apply (rsa_exponent_truncated (λ _, true) id (λ _, Ok "spki") id _ _ (byte_string [1; 0; 1])
           (byte_string [7; 0; 0; 0; 0; 0; 1; 0; 1])); try reflexivity; vm_compute; discriminate.
Defined.

Definition demo_provider (url : string) : result string (Z * (string * option string)) :=
  if String.eqb url "https://id.example/.well-known/openid-configuration" then Ok (200, ("https://id.example/keys", None))
  else if String.eqb url "https://id.example/keys" then Ok (200, ("keys", None))
  else Err "no such host".

(** A provider whose key set ends with a key of an unsupported kind. *)
Definition demo_unmarshal (raw : string) : result string jwk :=
  if String.eqb raw "ec" then Ok demo_ec else Ok (mkJwk "oct" "" "" "s" "" "" "" "" "").

Lemma key_set_all_or_nothing_witness :
  ∃ m, GetJWKSPEM (λ _, true) id (λ _, Ok "spki") id (λ _, None) demo_provider (λ b, Ok (fst b)) (λ _, Ok ["ec"; "oct"])
         demo_unmarshal "https://id.example/" = Err ("decode JWK 1: " +:+ m) ∨
       GetJWKSPEM (λ _, true) id (λ _, Ok "spki") id (λ _, None) demo_provider (λ b, Ok (fst b)) (λ _, Ok ["ec"; "oct"])
         demo_unmarshal "https://id.example/" = Err ("convert JWK 1 (kid=" +:+ m).
Proof.
  apply (key_set_all_or_nothing (λ _, true) id (λ _, Ok "spki") id (λ _, None) demo_provider (λ b, Ok (fst b))
           (λ _, Ok ["ec"; "oct"]) demo_unmarshal "https://id.example/" "https://id.example/keys" ["ec"; "oct"]
           eq_refl eq_refl) with (j := 1%nat) (raw := "oct").
  - reflexivity.
  - intros pem (k & Hk & Hp). vm_compute in Hk. injection Hk as <-. vm_compute in Hp. discriminate.
  - intros [|j'] r Hlt Hr; [|lia]. injection Hr as <-. exists "spki", demo_ec. split; [reflexivity|vm_compute; reflexivity].
Defined.

