(* ===== verification/Admin.v ===== *)
(** * Administration API

    Models [pkg/listener/admin.go], the handler of [pkg/helper/ready.go] and
    [startAdminListener] of [pkg/server/server.go]: the routing of the endpoints,
    each endpoint (the echo endpoint is in [Echo.v] and enters as an argument) and
    the start of the server.  The JSON encoder, status texts and the Prometheus
    handler are parameters. *)

From S2P Require Import Prelude GoStd GoHttp Backend Selector Routing Middleware Config Validate Builder Lifecycle Tls.
Open Scope Z_scope.

(** ** Answers

    A handler answers and may leave work for later; a panic ends the connection.  A
    redirection of the router is kept apart. *)
Inductive action : Type := ShutdownAfter (delay timeout : Z).
Inductive outcome : Type :=
  | Replied (w : writer) (later : list action)
  | Redirected (to : string)
  | Aborted.

(** [WriteHeader] panics outside three digits; a body is not sent with a status
    that allows none. *)
Definition valid_code (code : Z) : bool := (100 <=? code) && (code <=? 999).
Definition body_allowed (w : writer) : bool :=
  match status_of w with
  | Some s => negb ((100 <=? s) && (s <=? 199)) && negb (s =? 204) && negb (s =? 304)
  | None => true
  end.
Definition Write_body (body : string) (w : writer) : writer :=
  let w := match w_reply w with None => WriteHeader 200 w | Some _ => w end in
  if body_allowed w then Write body w else w.

(** ** [http.ServeMux]

    Paths without escapes.  A path is cleaned first, and a path that was not clean
    is redirected. *)
Fixpoint clean_segments (acc segs : list string) : list string :=
  match segs with
  | [] => rev acc
  | seg :: segs' =>
      if String.eqb seg "" || String.eqb seg "." then clean_segments acc segs'
      else if String.eqb seg ".." then clean_segments (tail acc) segs'
      else clean_segments (seg :: acc) segs'
  end.

Definition cleanPath (p : string) : string :=
  if String.eqb p "" then "/"
  else
    let p := if HasPrefix p "/" then p else "/" +:+ p in
    let np := "/" +:+ Join "/" (clean_segments [] (Split slash p)) in
    if HasSuffix p "/" && negb (String.eqb np "/") then np +:+ "/" else np.

Inductive endpoint : Type := Echo | Health | Code | Ready | Backends | Metrics | Stop | ConfigJSON.

Definition patterns : list (string * endpoint) :=
  [("/echo/", Echo); ("/health", Health); ("/code/", Code); ("/ready", Ready); ("/backends", Backends);
   ("/metrics", Metrics); ("/stop", Stop); ("/config", ConfigJSON)].

(** A pattern that ends in a slash matches the paths below it; no path matches two
    of the patterns. *)
Definition pattern_matches (path : string) (p : string * endpoint) : bool :=
  if HasSuffix (fst p) "/" then HasPrefix path (fst p) else String.eqb path (fst p).

Definition find_endpoint (path : string) : option endpoint :=
  match filter (λ p, pattern_matches path p = true) patterns with p :: _ => Some (snd p) | [] => None end.

Inductive target : Type := ToEndpoint (e : endpoint) | ToRedirect (path : string) | ToNotFound.

Definition mux_match (path : string) : target :=
  match find_endpoint path with
  | Some e => ToEndpoint e
  | None => if negb (HasSuffix path "/") && one_of (path +:+ "/") (map fst patterns) then ToRedirect (path +:+ "/") else ToNotFound
  end.

Definition mux_route (r : request) : target :=
  let path := r_path r in
  if String.eqb (r_method r) "CONNECT" then mux_match path
  else
    let clean := cleanPath path in
    match mux_match clean with
    | ToRedirect p => ToRedirect p
    | t => if String.eqb clean path then t else ToRedirect clean
    end.

(** ** The endpoints *)

Definition ok_text : string := "OK" +:+ newline.
Definition plain_text : header → header := header_Set "Content-Type" "text/plain; charset=utf-8".

Definition health_handler (w : writer) : writer := Write ok_text (WriteHeader 200 (map_header plain_text w)).

(** [Readiness.Handler] *)
Definition Readiness_Handler (ready : bool) (w : writer) : writer :=
  if negb ready then http_Error ("Not Ready" +:+ newline) 503 w
  else Write ok_text (WriteHeader 200 (map_header plain_text w)).

(** The headers asked for in X-Headers; [v[1]] of an entry without a colon panics. *)
Fixpoint add_headers (hs : list string) (h : header) : option header :=
  match hs with
  | [] => Some h
  | e :: hs' => match SplitN2 colon e with
                | k :: v :: _ => add_headers hs' (header_Add (TrimSpace k) (TrimSpace v) h)
                | _ => None
                end
  end.

Definition requested_code (path : string) : Z := default 200 (Atoi (TrimPrefix path "/code/")).

(** [StatusText] is [http.StatusText]. *)
Definition code_handler (StatusText : Z → string) (r : request) (w : writer) : outcome :=
  let code := requested_code (r_path r) in
  let headers := header_Get (r_header r) "X-Headers" in
  match (if String.eqb headers "" then Some (w_header w) else add_headers (Split ";" headers) (w_header w)) with
  | None => Aborted
  | Some h =>
      let loc := header_Get (r_header r) "X-Location" in
      let h := if (300 <=? code) && (code <? 400) && negb (String.eqb loc "")
               then header_Add "Location" (TrimSpace loc) h else h in
      if negb (valid_code code) then Aborted
      else
        let w := WriteHeader code (map_header (λ _, h) w) in
        let body := header_Get (r_header r) "X-Body" in
        Replied (if negb (code =? 204) && negb (code =? 304)
                 then Write_body (if String.eqb body "" then StatusText code else body) w else w) []
  end.

Record backendStatus : Type := mkStatus { bs_Name : string; bs_Destination : string; bs_State : string }.

(** The backends of the server, [None] for a nil pointer, each with the text of
    its URL. *)
Fixpoint backend_statuses (backends : list (option (Backend * string))) : list backendStatus :=
  match backends with
  | [] => []
  | Some (be, url) :: bs =>
      match URLHost be with
      | None => backend_statuses bs
      | Some _ => mkStatus (Name be) url (State be) :: backend_statuses bs
      end
  | None :: bs => backend_statuses bs
  end.

(** [json.NewEncoder(w).Encode]: the text and a newline, or an error. *)
Definition encode_to (encoded : result string string) (msg : string) (w : writer) : writer :=
  match encoded with
  | Ok text => Write (text +:+ newline) w
  | Err _ => http_Error msg 500 w
  end.

Definition backends_handler (json : list backendStatus → result string string) (backends : list (option (Backend * string)))
    (r : request) (w : writer) : writer :=
  if negb (String.eqb (r_method r) "GET") then
    http_Error "method not allowed" 405 (map_header (header_Set "Allow" "GET") w)
  else encode_to (json (backend_statuses backends)) "Error while encoding backend status"
         (map_header (header_Set "Content-Type" "application/json") w).

Definition millisecond : Z := 1000000.

(** [hasShutdown]: [shutdownFn] is not nil. *)
Definition stop_handler (hasShutdown : bool) (w : writer) : outcome :=
  Replied (Write ("Shutting down..." +:+ newline) (WriteHeader 200 w))
          (if hasShutdown then [ShutdownAfter (100 * millisecond) (30 * second)] else []).

Definition config_handler (json : result string string) (w : writer) : writer :=
  encode_to json "Error while encofding JSON" (map_header (header_Add "Content-Type" "application/json") w).

(** ** The server *)
Record adminEnv : Type := mkAdminEnv {
  ae_StatusText : Z → string;
  ae_json_backends : list backendStatus → result string string;
  ae_json_config : result string string;
  ae_metrics : request → writer → writer;
  ae_echo : request → writer → outcome;
  ae_backends : list (option (Backend * string));
  ae_ready : bool;
  ae_hasShutdown : bool;
}.

(** [http.StripPrefix("/echo", ...)] *)
Definition StripPrefix (prefix : string) (next : request → writer → outcome) (r : request) (w : writer) : outcome :=
  let p := TrimPrefix (r_path r) prefix in
  if Nat.ltb (String.length p) (String.length (r_path r)) then next (set_path p r) w else Replied (http_NotFound w) [].

Definition serve_endpoint (env : adminEnv) (e : endpoint) (r : request) (w : writer) : outcome :=
  match e with
  | Echo => StripPrefix "/echo" (ae_echo env) r w
  | Health => Replied (health_handler w) []
  | Code => code_handler (ae_StatusText env) r w
  | Ready => Replied (Readiness_Handler (ae_ready env) w) []
  | Backends => Replied (backends_handler (ae_json_backends env) (ae_backends env) r w) []
  | Metrics => Replied (ae_metrics env r w) []
  | Stop => stop_handler (ae_hasShutdown env) w
  | ConfigJSON => Replied (config_handler (ae_json_config env) w) []
  end.

Definition admin_ServeHTTP (env : adminEnv) (r : request) (w : writer) : outcome :=
  match mux_route r with
  | ToEndpoint e => serve_endpoint env e r w
  | ToRedirect p => Redirected p
  | ToNotFound => Replied (http_NotFound w) []
  end.

(** ** Starting the server *)
Section start.
  Context (ext : externals) (w : world) (x : x509).

(** The TLS configuration of the server, [None] without a certificate. *)
Definition NewAdminServerWithBackendsAndKeyPassphrase (address cert key passphrase ca crl ocspURL minVersion : string)
    : result string (option tlsConfig) :=
  if String.eqb address "" then Err "admin address not configured"
  else if negb (String.eqb cert "") && negb (String.eqb key "") then
    match BuildTLSConfigForDownstreamWithMinVersion w x cert key ca crl ocspURL minVersion passphrase with
    | Err e => Err ("failed to build TLS config: " +:+ e)
    | Ok t => Ok (Some t)
    end
  else Ok None.

(** [http.Server.ListenAndServeTLS]: with file names, the certificate is loaded
    from these files ([tls.LoadX509KeyPair]) and replaces the configured one. *)
Definition served_certificate (t : tlsConfig) (certFile keyFile : string) : result string tlsConfig :=
  if match t_Certificates t with None => true | Some _ => false end || negb (String.eqb certFile "") || negb (String.eqb keyFile "")
  then match w_ReadFile w certFile with
  | Err e => Err e
  | Ok certPEM => match w_ReadFile w keyFile with
    | Err e => Err e
    | Ok keyPEM => match x_KeyPair x certPEM keyPEM with
      | Err e => Err e
      | Ok kp => Ok (mkTC (t_MinVersion t) (Some kp) (t_ClientCAs t) (t_RequireClientCert t) (t_Verify t)
                       (t_RootCAs t) (t_Insecure t) (t_ServerName t))
      end
    end
  end
  else Ok t.

Inductive adminStart : Type :=
  | AdminServing (tls : option tlsConfig) (middlewares : list mwSpec)
  | AdminNotRegistered.

(** [isRegistered] is the answer of [registerHTTPServer]. *)
Definition startAdminListener (admin : AdminConfig) (isRegistered : bool) : result string adminStart :=
  let t := ad_TLS admin in
  match NewAdminServerWithBackendsAndKeyPassphrase (ad_Address admin) (CertFile t) (KeyFile t) (KeyPassphrase t) (CAFile t)
          (CRLFile t) (OCSPURL t) (MinVersion t) with
  | Err e => Err e
  | Ok tls =>
      match buildMiddlewareForListener ext (ad_Middlewares admin) with
      | Err e => Err ("admin listener: " +:+ e)
      | Ok middlewares =>
          if negb isRegistered then Ok AdminNotRegistered
          else match tls with
          | Some c => match served_certificate c (CertFile t) (KeyFile t) with
                      | Err e => Err e
                      | Ok c' => Ok (AdminServing (Some c') middlewares)
                      end
          | None => Ok (AdminServing None middlewares)
          end
      end
  end.
End start.

(** ** Redirections end *)

Lemma HasSuffix_cons c s b : s ≠ "" → HasSuffix (String c s) (String b "") = HasSuffix s (String b "").
Proof.
  intros Hs. destruct s as [|d s]; [done|]. unfold HasSuffix. cbn [String.length Nat.leb].
  replace (S (S (String.length s)) - 1)%nat with (S (S (String.length s) - 1)) by lia. done.
Qed.

Lemma HasSuffix_app a s b : s ≠ "" → HasSuffix (a +:+ s) (String b "") = HasSuffix s (String b "").
Proof.
  intros Hs. induction a as [|c a IH]; [done|]. cbn [String.append]. rewrite HasSuffix_cons, IH; [done|].
  destruct a; [done|]. done.
Qed.

Lemma HasSuffix_contains s b : contains_byte b s = false → HasSuffix s (String b "") = false.
Proof.
  induction s as [|c s IH]; [done|]. cbn [contains_byte]. intros [Hc Hs]%orb_false_iff.
  destruct s as [|d s]; [|by rewrite HasSuffix_cons, IH]. unfold HasSuffix. simpl. by rewrite Hc.
Qed.

(** What cleaning leaves. *)
Definition good_segment (s : string) : Prop := s ≠ "" ∧ s ≠ "." ∧ s ≠ ".." ∧ contains_byte slash s = false.

Lemma clean_segments_good acc segs :
  Forall good_segment acc → Forall (λ s, contains_byte slash s = false) segs → Forall good_segment (clean_segments acc segs).
Proof.
  intros Ha Hs. revert acc Ha. induction Hs as [|s segs Hs _ IH]; intros acc Ha; cbn [clean_segments].
  { by apply Forall_rev. }
  destruct (String.eqb_spec s ""); [by apply IH|]. destruct (String.eqb_spec s "."); [by apply IH|]. cbn [orb].
  destruct (String.eqb_spec s ".."); [destruct Ha; by apply IH|]. apply IH. by constructor.
Qed.

Lemma clean_segments_app acc segs more :
  Forall good_segment segs → clean_segments acc (segs ++ more) = clean_segments (rev segs ++ acc) more.
Proof.
  intros Hs. revert acc. induction Hs as [|s segs (H1 & H2 & H3 & _) _ IH]; intros acc; [done|].
  cbn [app clean_segments rev]. apply String.eqb_neq in H1, H2, H3. rewrite H1, H2, H3. cbn [orb].
  by rewrite IH, <- app_assoc.
Qed.

Lemma clean_good segs more :
  Forall good_segment segs → Forall (λ s, s = "") more → clean_segments [] ("" :: segs ++ more) = segs.
Proof.
  intros Hs Hm. change (clean_segments [] (segs ++ more) = segs). rewrite clean_segments_app by done.
  rewrite app_nil_r. induction Hm as [|s more -> _ IH]; [apply rev_involutive|done].
Qed.

Lemma Split_no_sep sep s : Forall (λ p, contains_byte sep p = false) (Split sep s).
Proof.
  induction s as [|c s IH]; [by repeat constructor|]. cbn [Split]. destruct (Ascii.eqb c sep) eqn:Hc; [by constructor|].
  destruct IH as [|p ps Hp Hps]; (constructor; [cbn [contains_byte]; by rewrite Hc, ?Hp|done]).
Qed.

Lemma Join_snoc segs : segs ≠ [] → Join "/" (segs ++ [""]) = Join "/" segs +:+ "/".
Proof.
  induction segs as [|s segs IH]; [done|]. intros _. destruct segs as [|t segs]; [done|].
  change (s +:+ "/" +:+ Join "/" ((t :: segs) ++ [""]) = (s +:+ "/" +:+ Join "/" (t :: segs)) +:+ "/").
  by rewrite IH, !string_app_assoc.
Qed.

Lemma Join_suffix segs : segs ≠ [] → Forall good_segment segs → HasSuffix (Join "/" segs) "/" = false.
Proof.
  intros Hne. induction 1 as [|s segs (Hs & _ & _ & Hn) Hf IH]; [done|].
  destruct segs as [|t segs]; [by apply HasSuffix_contains|].
  change (HasSuffix (s +:+ String slash (Join "/" (t :: segs))) "/" = false).
  assert (Join "/" (t :: segs) ≠ "") as Hj.
  { apply Forall_cons_1 in Hf as [(Ht & _) _]. destruct segs; [done|]. by destruct t. }
  rewrite HasSuffix_app by done. rewrite HasSuffix_cons by done. by apply IH.
Qed.

Lemma segments_absolute segs more :
  Forall good_segment segs → Forall (λ s, s = "") more → segs ++ more ≠ [] →
  clean_segments [] (Split slash (String slash (Join "/" (segs ++ more)))) = segs.
Proof.
  intros Hs Hm Hne. cbn [Split]. change (Ascii.eqb slash slash) with true. cbv iota.
  change "/" with (String slash ""). rewrite Split_Join; [by apply clean_good|done|]. apply Forall_app. split.
  - eapply Forall_impl; [exact Hs|]. by intros s (_ & _ & _ & H).
  - eapply Forall_impl; [exact Hm|]. by intros s ->.
Qed.

Lemma clean_fixed segs (tr : bool) :
  Forall good_segment segs → (segs = [] → tr = false) →
  let q := String slash (Join "/" (segs ++ if tr then [""] else [])) in cleanPath q = q.
Proof.
  intros Hs Htr q. unfold cleanPath, q. destruct segs as [|s segs].
  { by rewrite Htr. }
  change (String.eqb (String slash _) "") with false. change (HasPrefix (String slash _) "/") with true. cbv iota zeta.
  rewrite segments_absolute; [|done|by destruct tr; repeat constructor|done].
  set (j := Join "/" (s :: segs)). assert (j ≠ "") as Hj.
  { apply Forall_cons_1 in Hs as [(H & _) _]. unfold j. destruct segs; [done|]. by destruct s. }
  assert (HasSuffix j "/" = false) as Hsuf by (by apply Join_suffix).
  change ("/" +:+ j) with (String slash j). destruct tr.
  - rewrite Join_snoc by done. fold j. change (String slash (j +:+ "/")) with (String slash j +:+ "/").
    rewrite HasSuffix_app by done. change (HasSuffix "/" "/") with true. by destruct j.
  - rewrite app_nil_r. fold j. by rewrite HasSuffix_cons, Hsuf.
Qed.

(** The form of a cleaned path. *)
Lemma cleanPath_form p : ∃ segs tr, Forall good_segment segs ∧ (segs = [] → tr = false) ∧
  cleanPath p = String slash (Join "/" (segs ++ if (tr : bool) then [""] else [])).
Proof.
  unfold cleanPath. destruct (String.eqb p ""); [by exists [], false|]. cbv zeta.
  set (p' := if HasPrefix p "/" then p else "/" +:+ p). set (segs := clean_segments [] (Split slash p')).
  assert (Forall good_segment segs) as Hg by (apply clean_segments_good; [done|apply Split_no_sep]).
  clearbody segs. destruct (HasSuffix p' "/"); [|exists segs, false; by rewrite app_nil_r].
  destruct segs as [|s segs]; [by exists [], false|].
  exists (s :: segs), true. split; [done|]. split; [done|]. rewrite Join_snoc by done.
  destruct (String.eqb_spec ("/" +:+ Join "/" (s :: segs)) "/") as [He|]; [|done].
  exfalso. apply Forall_cons_1 in Hg as [(Hs & _) _].
  change ("/" +:+ Join "/" (s :: segs)) with (String slash (Join "/" (s :: segs))) in He. injection He as He.
  destruct segs; [done|]. by destruct s.
Qed.

Lemma cleanPath_idempotent p : cleanPath (cleanPath p) = cleanPath p.
Proof. destruct (cleanPath_form p) as (segs & tr & Hg & Ht & ->). by apply clean_fixed. Qed.

Lemma mux_match_redirect path p : mux_match path = ToRedirect p → ∃ e, mux_match p = ToEndpoint e ∧ cleanPath p = p.
Proof.
  unfold mux_match at 1. destruct (find_endpoint path); [done|]. destruct (negb _ && _) eqn:Hb; [|done]. intros [= <-].
  apply andb_true_iff in Hb as [_ Hin%one_of_In]. revert Hin. generalize (path +:+ "/"). intros q Hin.
  cbn in Hin. repeat (apply elem_of_cons in Hin as [->|Hin]; [eexists; split; reflexivity|]). by apply not_elem_of_nil in Hin.
Qed.

(** The router never sends a client in circles: the target of a redirection is
    not redirected again, it is served by an endpoint or not found. *)
Theorem redirects_end (r : request) (p : string) :
  mux_route r = ToRedirect p → ∀ q, mux_route (set_path p r) ≠ ToRedirect q.
Proof.
  unfold mux_route. cbn [r_method r_path set_path]. destruct (String.eqb (r_method r) "CONNECT").
  - intros (e & He & _)%mux_match_redirect q. by rewrite He.
  - destruct (mux_match (cleanPath (r_path r))) as [e|p'|] eqn:Hm.
    + destruct (String.eqb _ _); [done|]. intros [= <-] q. rewrite cleanPath_idempotent, Hm, String.eqb_refl. done.
    + intros [= ->] q. apply mux_match_redirect in Hm as (e & He & Hc). by rewrite Hc, He, String.eqb_refl.
    + destruct (String.eqb _ _); [done|]. intros [= <-] q. rewrite cleanPath_idempotent, Hm, String.eqb_refl. done.
Qed.

(** ** The code endpoint *)

Lemma SplitN2_some e : contains_byte colon e = true → ∃ k v, SplitN2 colon e = [k; v].
Proof.
  unfold SplitN2, Cut. intros H. destruct (index_byte colon e) as [i|] eqn:Hi; [by do 2 eexists|].
  exfalso. revert H Hi. induction e as [|c e IH]; [done|]. cbn [contains_byte index_byte].
  destruct (Ascii.eqb c colon); [done|]. intros H. destruct (index_byte colon e); [done|]. intros _. by apply IH.
Qed.

Lemma SplitN2_none e : contains_byte colon e = false → SplitN2 colon e = [e].
Proof.
  unfold SplitN2, Cut. intros H. replace (index_byte colon e) with (@None nat); [done|]. symmetry.
  induction e as [|c e IH]; [done|]. cbn [contains_byte index_byte] in *. apply orb_false_iff in H as [-> He]. by rewrite IH.
Qed.

Lemma add_headers_none hs h : add_headers hs h = None ↔ Exists (λ e, contains_byte colon e = false) hs.
Proof.
  revert h; induction hs as [|e hs IH]; intros h; cbn [add_headers]; [split; [done|inversion 1]|].
  rewrite Exists_cons. destruct (contains_byte colon e) eqn:He.
  - apply SplitN2_some in He as (k & v & ->). rewrite IH. naive_solver.
  - rewrite SplitN2_none by done. naive_solver.
Qed.

(** X-Headers has an entry that is not a header. *)
Definition malformed_headers (r : request) : Prop :=
  header_Get (r_header r) "X-Headers" ≠ "" ∧
  Exists (λ e, contains_byte colon e = false) (Split ";" (header_Get (r_header r) "X-Headers")).

Definition expected_body (StatusText : Z → string) (r : request) (code : Z) : string :=
  if (code =? 204) || (code =? 304) then ""
  else let b := header_Get (r_header r) "X-Body" in if String.eqb b "" then StatusText code else b.

(** The code endpoint.  The connection is aborted by a panic exactly when an
    entry of X-Headers has no colon or when the status does not have three digits;
    otherwise, for a final status, the reply has the status asked for (200 when the
    path is not a number) and the body asked for (the status text by default,
    nothing for 204 and 304). *)
Theorem code_endpoint (StatusText : Z → string) (r : request) (w : writer) :
  let code := requested_code (r_path r) in
  (code_handler StatusText r w = Aborted ↔ malformed_headers r ∨ valid_code code = false) ∧
  (200 ≤ code → w_reply w = None → ∀ w' later, code_handler StatusText r w = Replied w' later →
     status_of w' = Some code ∧ w_body w' = w_body w +:+ expected_body StatusText r code ∧ later = []).
Proof.
  intros code. unfold code_handler, malformed_headers. fold code. set (hs := header_Get (r_header r) "X-Headers"). clearbody hs.
  set (o := if String.eqb hs "" then _ else _).
  assert (o = None ↔ hs ≠ "" ∧ Exists (λ e, contains_byte colon e = false) (Split ";" hs)) as Ho.
  { unfold o. destruct (String.eqb_spec hs "") as [He|Hh]; [split; [done|]; by intros [? _]|].
    rewrite add_headers_none. naive_solver. }
  clearbody o. split.
  - destruct o as [h|]; [|naive_solver]. cbv zeta. destruct (valid_code code); cbn [negb]; [|naive_solver].
    split; [done|]. intros [H|?]; [|done]. apply Ho in H. done.
  - intros Hc Hw w' later. destruct o as [h|]; [|done]. cbv zeta. destruct (valid_code code); [|done]. cbn [negb].
    intros [= <- <-]. unfold expected_body. match goal with |- context [map_header (λ _, ?t) w] => generalize t end. intros h'.
    assert (WriteHeader code (map_header (λ _, h') w) = mkWriter h' (Some (code, h')) (w_body w)) as ->.
    { unfold WriteHeader, map_header. cbn [w_reply w_header w_body]. rewrite Hw.
      destruct (Z.leb_spec code 199); [lia|]. by rewrite andb_false_r. }
    destruct (Z.eqb_spec code 204); [by rewrite string_app_nil_r|].
    destruct (Z.eqb_spec code 304); [by rewrite string_app_nil_r|]. cbn [negb andb orb].
    unfold Write_body, body_allowed, status_of. cbn [w_reply fst fmap option_fmap option_map].
    replace (code <=? 199) with false by (symmetry; apply Z.leb_gt; lia). rewrite andb_false_r. cbn [negb andb].
    destruct (Z.eqb_spec code 204); [done|]. destruct (Z.eqb_spec code 304); [done|]. done.
Qed.

(** ** Stopping *)

Lemma mux_route_stop r : mux_route r = ToEndpoint Stop ↔ r_path r = "/stop".
Proof.
  assert (∀ path, mux_match path = ToEndpoint Stop ↔ path = "/stop") as Hm.
  { intros path. unfold mux_match, find_endpoint, patterns, pattern_matches. split; [|by intros ->].
    cbn [filter list_filter fst snd].
    repeat (match goal with |- context [if decide (?b = true) then _ else _] => destruct (decide (b = true)) as [?H|?H] end; cbn [snd]).
    all: try (intros [=]; fail). all: try (intros _; by apply String.eqb_eq).
    destruct (_ && _); done. }
  unfold mux_route. destruct (String.eqb (r_method r) "CONNECT"); [apply Hm|]. split.
  - destruct (mux_match (cleanPath (r_path r))) as [e|p|] eqn:He; [|done|by destruct (String.eqb _ _)].
    destruct (String.eqb_spec (cleanPath (r_path r)) (r_path r)) as [Hc|]; [|done]. intros [= ->]. rewrite Hc in He. by apply Hm.
  - by intros ->.
Qed.

Lemma code_handler_later st r w w' later : code_handler st r w = Replied w' later → later = [].
Proof. unfold code_handler. destruct (if String.eqb _ _ then _ else _); [|done]. destruct (negb _); [done|]. by intros [= _ <-]. Qed.

Lemma later_only_stop env r w w' later :
  (∀ r w w' l, ae_echo env r w = Replied w' l → l = []) → ae_hasShutdown env = true →
  admin_ServeHTTP env r w = Replied w' later → later ≠ [] ↔ mux_route r = ToEndpoint Stop.
Proof.
  intros Hecho Hs Ha. unfold admin_ServeHTTP in Ha. destruct (mux_route r) as [e|p|]; [|done|].
  - split.
    + destruct e; [..|done|]; cbn [serve_endpoint] in Ha.
      all: try (injection Ha as _ <-; done).
      * unfold StripPrefix in Ha. destruct (Nat.ltb _ _); [by apply Hecho in Ha as ->|by injection Ha as _ <-].
      * by apply code_handler_later in Ha as ->.
    + intros [= ->]. cbn in Ha. rewrite Hs in Ha. by injection Ha as _ <-.
  - injection Ha as _ <-. split; done.
Qed.

(** The administration API stops the server through /stop and in no other
    way.  Work is left for later exactly by a request for /stop (whatever its
    method) when there is a function to call; the reply of 200 is written first, the
    shutdown starts 100 ms later with 30 s to finish, and from then on /ready
    answers 503. *)
Theorem stop_is_the_only_stop (env : adminEnv) (r : request) (w w' : writer) (later : list action) (sh : shared) :
  (∀ r w w' l, ae_echo env r w = Replied w' l → l = []) → ae_hasShutdown env = true →
  admin_ServeHTTP env r w = Replied w' later →
  (later ≠ [] ↔ r_path r = "/stop") ∧
  (later ≠ [] → w_reply w = None → later = [ShutdownAfter (100 * millisecond) (30 * second)] ∧ status_of w' = Some 200) ∧
  (shutdownOnce (sh_srv sh) = false → status_of (Readiness_Handler (sh_ready (Shutdown sh)) new_writer) = Some 503).
Proof.
  intros Hecho Hs Ha. pose proof (later_only_stop _ _ _ _ _ Hecho Hs Ha) as Hiff. split; [|split].
  - by rewrite Hiff, mux_route_stop.
  - intros Hl Hw. unfold admin_ServeHTTP in Ha. apply Hiff in Hl. rewrite Hl in Ha. cbn [serve_endpoint] in Ha.
    unfold stop_handler in Ha. rewrite Hs in Ha. injection Ha as <- <-. split; [done|].
    unfold WriteHeader, Write. cbn [Z.leb andb Z.compare]. rewrite Hw. done.
  - intros Ho. unfold Shutdown. rewrite Ho. reflexivity.
Qed.

(** ** Reporting backends *)

(** The state of the backends.  A GET request for /backends is answered with
    the name, the address and the state of exactly the backends that have an
    address, in their order, any other method with 405; a backend reported as
    closed is admitted by the circuit breaker, and one reported as open or half-open
    with neither health checks nor an expired retry time is not. *)
Theorem backends_report (env : adminEnv) (r : request) (text : string) :
  r_path r = "/backends" → ae_json_backends env (backend_statuses (ae_backends env)) = Ok text →
  (∃ w, admin_ServeHTTP env r new_writer = Replied w [] ∧
     if String.eqb (r_method r) "GET" then status_of w = Some 200 ∧ w_body w = text +:+ newline
     else status_of w = Some 405) ∧
  backend_statuses (ae_backends env) =
    omap (λ o, o ≫= λ '(be, url), URLHost be ≫= λ _, Some (mkStatus (Name be) url (State be))) (ae_backends env) ∧
  Forall (λ o, match o with
    | Some (be, _) => ∀ now,
        (State be = "closed" → (Available now be).1 = true) ∧
        (HealthCheckPath be = "" → (breakerState be = breakerOpen → now < retryAfter be) → State be ≠ "closed" → (Available now be).1 = false)
    | None => True end) (ae_backends env).
Proof.
  intros Hp Hj. split; [|split].
  - assert (mux_route r = ToEndpoint Backends) as Hm.
    { unfold mux_route. rewrite Hp. by destruct (String.eqb (r_method r) "CONNECT"). }
    unfold admin_ServeHTTP. rewrite Hm. eexists. split; [reflexivity|]. unfold backends_handler.
    destruct (String.eqb (r_method r) "GET"); cbn [negb]; [|reflexivity]. rewrite Hj. split; reflexivity.
  - clear Hj. induction (ae_backends env) as [|[[be url]|] bs IH]; [done| |]; cbn [backend_statuses]; rewrite IH; [|done].
    destruct (URLHost be) eqn:Hu; cbn; rewrite Hu; done.
  - apply Forall_true. intros [[be url]|]; [|done]. intros now. unfold State, Available.
    destruct (String.eqb_spec (HealthCheckPath be) ""); destruct (Healthy be), (breakerState be) eqn:Hb; simpl; split; try done.
    all: intros _ Ho _; specialize (Ho eq_refl); by destruct (Z.ltb_spec now (retryAfter be)); [|lia].
Qed.

(** ** TLS of the administration server *)

(** The administration server with TLS serves the certificate that the files
    themselves contain.  Although its TLS configuration accepts URLs, environment
    variables and a passphrase for the key, the server starts only when both names
    are readable files and the key is not encrypted: the pair is loaded again from
    the files, without the passphrase. *)
Theorem admin_tls_needs_plain_files (ext : externals) (wd : world) (x : x509) (admin : AdminConfig) (t : tlsConfig)
    (mws : list mwSpec) :
  startAdminListener ext wd x admin true = Ok (AdminServing (Some t) mws) →
  ∃ certPEM keyPEM kp, w_ReadFile wd (CertFile (ad_TLS admin)) = Ok certPEM ∧ w_ReadFile wd (KeyFile (ad_TLS admin)) = Ok keyPEM ∧
    x_KeyPair x certPEM keyPEM = Ok kp ∧ t_Certificates t = Some kp ∧
    CertFile (ad_TLS admin) ≠ "" ∧ KeyFile (ad_TLS admin) ≠ "".
Proof.
  unfold startAdminListener, NewAdminServerWithBackendsAndKeyPassphrase.
  destruct (String.eqb (ad_Address admin) ""); [done|].
  destruct (negb _ && negb _) eqn:Hck; [|by destruct (buildMiddlewareForListener _ _)].
  apply andb_true_iff in Hck as [Hc%negb_true_iff Hk%negb_true_iff].
  destruct (BuildTLSConfigForDownstreamWithMinVersion _ _ _ _ _ _ _ _ _) as [c|]; [|done].
  destruct (buildMiddlewareForListener _ _) as [m|]; [|done]. cbn [negb]. unfold served_certificate. rewrite Hc.
  rewrite orb_true_r. cbn [orb].
  destruct (w_ReadFile wd (CertFile _)) as [cp|]; [|done]. destruct (w_ReadFile wd (KeyFile _)) as [kp|]; [|done].
  destruct (x_KeyPair x cp kp) as [pair_|] eqn:Hp; [|done]. intros [= <- <-].
  apply String.eqb_neq in Hc, Hk. by exists cp, kp, pair_.
Qed.

(** ** Witnesses *)
Definition admin_request (method path : string) (h : header) : request :=
  mkRequest method "admin" path [] [] h "192.0.2.1:4711" 0 false false.

Definition sample_admin : adminEnv :=
  mkAdminEnv (λ c, if c =? 418 then "I'm a teapot" else "") (λ l, Ok (Itoa (Z.of_nat (length l)))) (Ok "{}") (λ _ w, w)
    (λ _ w, Replied w []) [Some (newBackend "b" (Some "h"), "http://h"); None] true true.

Lemma redirects_end_witness :
  mux_route (admin_request "GET" "/code/../echo" ∅) = ToRedirect "/echo/" ∧
  mux_route (set_path "/echo/" (admin_request "GET" "/code/../echo" ∅)) ≠ ToRedirect "/echo/".
Proof. split; [vm_compute; reflexivity|]. apply (redirects_end _ "/echo/"). vm_compute. reflexivity. Defined.

Lemma code_endpoint_witness :
  status_of (WriteHeader 418 new_writer) = Some 418 ∧
  ∃ w, code_handler (ae_StatusText sample_admin) (admin_request "GET" "/code/418" ∅) new_writer = Replied w [] ∧
       status_of w = Some 418 ∧ w_body w = "I'm a teapot".
Proof.
  split; [reflexivity|]. eexists. split; [vm_compute; reflexivity|].
  edestruct (code_endpoint (ae_StatusText sample_admin) (admin_request "GET" "/code/418" ∅) new_writer) as [_ H].
  edestruct H as (H1 & H2 & _); [vm_compute; discriminate|reflexivity|vm_compute; reflexivity|]. by split.
Defined.

Lemma stop_is_the_only_stop_witness :
  ∃ w, admin_ServeHTTP sample_admin (admin_request "POST" "/stop" ∅) new_writer =
         Replied w [ShutdownAfter (100 * millisecond) (30 * second)] ∧ status_of w = Some 200.
Proof.
  eexists. split; [reflexivity|].
  edestruct (stop_is_the_only_stop sample_admin (admin_request "POST" "/stop" ∅) new_writer) as (_ & H & _);
    [by intros ? ? ? ? [= _ <-]|reflexivity|reflexivity|]. by apply H.
  Unshelve. exact (mkShared newServer ∅ true).
Defined.

Lemma backends_report_witness :
  ∃ w, admin_ServeHTTP sample_admin (admin_request "GET" "/backends" ∅) new_writer = Replied w [] ∧
       status_of w = Some 200 ∧ w_body w = "1" +:+ newline.
Proof. apply (backends_report sample_admin (admin_request "GET" "/backends" ∅) "1"); [reflexivity|vm_compute; reflexivity]. Defined.

Definition tls_admin : AdminConfig := mkAdmin ":9444" true (mkTLS "c" "k" "" "1.2" "" "" "") [].

Lemma admin_tls_needs_plain_files_witness :
  ∃ certPEM keyPEM kp, w_ReadFile toy_world "c" = Ok certPEM ∧ w_ReadFile toy_world "k" = Ok keyPEM ∧
    x_KeyPair toy_x509 certPEM keyPEM = Ok kp.
Proof.
  edestruct (admin_tls_needs_plain_files sample_externals toy_world toy_x509 tls_admin) as (c & k & kp & H1 & H2 & H3 & _).
  - vm_compute. reflexivity.
  - by exists c, k, kp.
Defined.
