(* ===== verification/Echo.v ===== *)
(** * The echo endpoint

    Models [pkg/listener/admin_echo.go]: what the administration API tells a client
    about its own request.  The JSON encoder and decoder, the process environment,
    the names of TLS versions and ciphers, and [ParseForm] are parameters. *)

From S2P Require Import Prelude GoStd GoHttp Base64 Backend Selector Routing Middleware Admin.
Open Scope Z_scope.

Definition dquote : Ascii.ascii := ascii_of_nat 34.

(** A decoded JSON document; numbers are [float64]. *)
Inductive json (F : Type) : Type :=
  | JNull | JBool (b : bool) | JNum (f : F) | JStr (s : string) | JArr (l : list (json F)) | JObj (m : list (string * json F)).
Arguments JNull {F}. Arguments JBool {F}. Arguments JNum {F}. Arguments JStr {F}. Arguments JArr {F}. Arguments JObj {F}.

Fixpoint jget {F} (k : string) (m : list (string * json F)) : option (json F) :=
  match m with
  | [] => None
  | (k', v) :: m' => if String.eqb k' k then Some v else jget k m'
  end.

Fixpoint jset {F} (k : string) (v : json F) (m : list (string * json F)) : list (string * json F) :=
  match m with
  | [] => [(k, v)]
  | (k', v') :: m' => if String.eqb k' k then (k, v) :: m' else (k', v') :: jset k v m'
  end.

(** ** The request and what is told about it *)
Record tlsState : Type := mkTLSState { ts_NegotiatedProtocol : string; ts_Version : Z; ts_CipherSuite : Z }.

(** The parts of [*http.Request] the endpoint reads; the body is what can be read
    and the error that ends the reading, if any. *)
Record echoRequest : Type := mkEchoRequest {
  er_request : request;
  er_Proto : string; er_ProtoMajor : Z; er_ProtoMinor : Z;
  er_URL : string;                       (* [r.URL.String()] *)
  er_Trailer : header;
  er_Close : bool;
  er_TransferEncoding : list string;
  er_RequestURI : string;
  er_Body : string * option string;
  er_TLS : option tlsState;
}.

Record serverInfo : Type := mkServerInfo { si_Name : string; si_Version : string; si_Hostname : string; si_Server : string }.

Record requestLine : Type := mkLine {
  li_Proto : string; li_ProtoMajor : Z; li_ProtoMinor : Z; li_Method : string; li_Host : string; li_Path : string;
  li_URLPath : string;                   (* the path of [URL] *)
  li_Headers : header; li_Trailers : header; li_RemoteAddr : string; li_Close : bool; li_ContentLength : Z;
  li_TransferEncoding : list string; li_RequestURI : string;
}.

Record tlsInfo : Type := mkTLSInfo { ti_Protocol : string; ti_Version : string; ti_Cipher : string; ti_CipherName : string }.
Record hostInfo : Type := mkHostInfo {
  hi_Name : string; hi_Pid : Z; hi_Ppid : Z; hi_Time : string; hi_Executable : string; hi_WorkDir : string;
}.

Section echo.
  Context {F : Type}.                    (* [float64] *)

Record RequestInfo : Type := mkInfo {
  ri_Server : serverInfo;
  ri_StatusCode : Z;
  ri_Line : requestLine;
  ri_Form : list (string * list string);
  ri_Body : string;
  ri_BasicAuth : option (string * string);
  ri_JWT : option (json F);
  ri_TLS : tlsInfo;
  ri_Host : hostInfo;
}.

Definition zero_info : RequestInfo :=
  mkInfo (mkServerInfo "" "" "" "") 0 (mkLine "" 0 0 "" "" "" "" ∅ ∅ "" false 0 [] "") [] "" None None
         (mkTLSInfo "" "" "" "") (mkHostInfo "" 0 0 "" "" "").

(** The process and the libraries. *)
Record echoEnv : Type := mkEchoEnv {
  ee_Hostname : option string; ee_Executable : option string; ee_Getwd : option string;
  ee_Getpid : Z; ee_Getppid : Z; ee_Now : string;
  ee_VersionName : Z → string; ee_CipherSuiteName : Z → string;
  ee_ParseForm : echoRequest → list (string * list string) * (string * option string);  (* the form; what it leaves of the body *)
  ee_Unmarshal : string → option (json F);
  ee_trunc : F → Z;                      (* [int64(iat)] *)
  ee_RFC3339 : Z → string;               (* [time.Unix(t, 0).Format(time.RFC3339)] *)
  ee_Marshal : RequestInfo → result string string;
  ee_StatusText : Z → string;
}.
Context (env : echoEnv).

Definition ReadHostInfo (rr : RequestInfo) : RequestInfo :=
  mkInfo (ri_Server rr) (ri_StatusCode rr) (ri_Line rr) (ri_Form rr) (ri_Body rr) (ri_BasicAuth rr) (ri_JWT rr) (ri_TLS rr)
    (mkHostInfo (default (hi_Name (ri_Host rr)) (ee_Hostname env)) (ee_Getpid env) (ee_Getppid env) (ee_Now env)
       (default (hi_Executable (ri_Host rr)) (ee_Executable env)) (default (hi_WorkDir (ri_Host rr)) (ee_Getwd env))).

Definition set_server (s : serverInfo) (rr : RequestInfo) : RequestInfo :=
  mkInfo s (ri_StatusCode rr) (ri_Line rr) (ri_Form rr) (ri_Body rr) (ri_BasicAuth rr) (ri_JWT rr) (ri_TLS rr) (ri_Host rr).

Definition SetServer (name version : string) (rr : RequestInfo) : RequestInfo :=
  set_server (mkServerInfo name version (si_Hostname (ri_Server rr)) (si_Server (ri_Server rr))) rr.
Definition SetHostname (hostname : string) (rr : RequestInfo) : RequestInfo :=
  set_server (mkServerInfo (si_Name (ri_Server rr)) (si_Version (ri_Server rr)) hostname (si_Server (ri_Server rr))) rr.

Definition SetStatusCode (status : Z) (rr : RequestInfo) : RequestInfo :=
  mkInfo (ri_Server rr) status (ri_Line rr) (ri_Form rr) (ri_Body rr) (ri_BasicAuth rr) (ri_JWT rr) (ri_TLS rr) (ri_Host rr).

(** The assignments at the start of [Read], with [ReadURL]. *)
Definition read_line (r : echoRequest) (rr : RequestInfo) : RequestInfo :=
  let q := er_request r in
  mkInfo (ri_Server rr) (ri_StatusCode rr)
    (mkLine (er_Proto r) (er_ProtoMajor r) (er_ProtoMinor r) (r_method q) (r_host q) (er_URL r) (r_path q) (r_header q)
       (er_Trailer r) (r_remote q) (er_Close r) (r_length q) (er_TransferEncoding r) (er_RequestURI r))
    (ri_Form rr) (ri_Body rr) (ri_BasicAuth rr) (ri_JWT rr) (ri_TLS rr) (ri_Host rr).

(** [ReadForm] parses the form, which may consume the body of the request. *)
Definition ReadForm (r : echoRequest) (rr : RequestInfo) : RequestInfo * (string * option string) :=
  let '(form, body) := ee_ParseForm env r in
  (mkInfo (ri_Server rr) (ri_StatusCode rr) (ri_Line rr) form (ri_Body rr) (ri_BasicAuth rr) (ri_JWT rr) (ri_TLS rr) (ri_Host rr), body).

Definition ReadTLS (r : echoRequest) (rr : RequestInfo) : RequestInfo :=
  match er_TLS r with
  | None => rr
  | Some t =>
      mkInfo (ri_Server rr) (ri_StatusCode rr) (ri_Line rr) (ri_Form rr) (ri_Body rr) (ri_BasicAuth rr) (ri_JWT rr)
        (mkTLSInfo (ts_NegotiatedProtocol t) (ee_VersionName env (ts_Version t)) (Itoa (ts_CipherSuite t))
           (ee_CipherSuiteName env (ts_CipherSuite t))) (ri_Host rr)
  end.

(** The error is returned and [Read] drops it. *)
Definition ReadBody (body : string * option string) (rr : RequestInfo) : RequestInfo * option string :=
  match body with
  | (_, Some err) => (rr, Some err)
  | (b, None) =>
      let shown := if Nat.leb (String.length b) 1024 then b else take 1024 b +:+ "..." in
      (mkInfo (ri_Server rr) (ri_StatusCode rr) (ri_Line rr) (ri_Form rr) shown (ri_BasicAuth rr) (ri_JWT rr) (ri_TLS rr) (ri_Host rr), None)
  end.

(** ** Credentials *)

(** [for len(tab[i])%4 != 0 { tab[i] += "=" }]: at most three rounds. *)
Fixpoint pad_loop (fuel : nat) (s : string) : string :=
  match fuel with
  | O => s
  | S fuel' => if Nat.eqb (String.length s mod 4) 0 then s else pad_loop fuel' (s +:+ "=")
  end.

Definition decode_part (s : string) : string :=
  let padded := pad_loop 3 s in
  match DecodeString StdEncoding padded with Some a => a | None => padded end.

Definition quoted (s : string) : string := String dquote (s +:+ String dquote "").
Definition jwt_text (h p : string) : string :=
  "{" +:+ quoted "header" +:+ ":" +:+ h +:+ "," +:+ quoted "payload" +:+ ":" +:+ p +:+ "," +:+ quoted "signature" +:+ ":null}".

(** The JSON text made of a token with three parts. *)
Definition bearer_text (authorization : string) : option string :=
  match map decode_part (Split "." (TrimPrefix authorization "Bearer ")) with
  | [h; p; _] => Some (jwt_text h p)
  | _ => None
  end.

(** The time of issue is added to the payload. *)
Definition add_issuedAt (j : json F) : json F :=
  match j with
  | JObj root =>
      match jget "payload" root with
      | Some (JObj payload) =>
          match jget "iat" payload with
          | Some (JNum iat) => JObj (jset "payload" (JObj (jset "issuedAt" (JStr (ee_RFC3339 env (ee_trunc env iat))) payload)) root)
          | _ => j
          end
      | _ => j
      end
  | _ => j
  end.

(** [None]: [a[1]] panics. *)
Definition DecodeAuthorization (authorization : string) (rr : RequestInfo) : option RequestInfo :=
  let set basic jwt := mkInfo (ri_Server rr) (ri_StatusCode rr) (ri_Line rr) (ri_Form rr) (ri_Body rr) basic jwt (ri_TLS rr) (ri_Host rr) in
  if String.eqb authorization "" then Some rr
  else if HasPrefix authorization "Basic " then
    match DecodeString StdEncoding (TrimPrefix authorization "Basic ") with
    | None => Some rr
    | Some auth => match SplitN2 colon auth with
                   | username :: password :: _ => Some (set (Some (username, password)) (ri_JWT rr))
                   | _ => None
                   end
    end
  else if HasPrefix authorization "Bearer " then
    match bearer_text authorization with
    | None => Some rr
    | Some jwt => match ee_Unmarshal env jwt with
                  | None => Some rr
                  | Some j => Some (set (ri_BasicAuth rr) (Some (add_issuedAt j)))
                  end
    end
  else Some rr.

Definition describe_server (s : serverInfo) : serverInfo :=
  let name := if String.eqb (si_Name s) "" then "unknown" else si_Name s in
  let name := if String.eqb (si_Version s) "" then name +:+ "/undefined" else name +:+ "/" +:+ si_Version s in
  mkServerInfo (si_Name s) (si_Version s) (si_Hostname s)
    (if String.eqb (si_Hostname s) "" then name else name +:+ " on " +:+ si_Hostname s).

(** [Read] never returns an error. *)
Definition Read (r : echoRequest) (rr : RequestInfo) : option RequestInfo :=
  let rr := read_line r rr in
  let '(rr, body) := ReadForm r rr in
  let '(rr, _) := ReadBody body rr in
  let rr := ReadTLS r rr in
  match DecodeAuthorization (header_Get (r_header (er_request r)) "Authorization") rr with
  | None => None
  | Some rr => Some (ReadHostInfo (set_server (describe_server (ri_Server rr)) rr))
  end.

(** ** The answer *)

(** The headers both formats set first. *)
Definition reply_headers (rr : RequestInfo) (w : writer) : writer :=
  map_header (λ h, header_Set "Expires" "0" (header_Set "Cache-Control" "no-cache, no-store, must-revalidate"
    (if String.eqb (si_Hostname (ri_Server rr)) "" then h else header_Set "X-Hostname" (si_Hostname (ri_Server rr)) h))) w.

(** The status of a reply with a body: the one set, or the number in the path when
    it is a known status; [None]: a path without its first byte panics, or the
    status is not one that can be written. *)
Definition reply_status (rr : RequestInfo) : option Z :=
  let code := ri_StatusCode rr in
  let chosen :=
    if 0 <? code then Some code
    else match li_URLPath (ri_Line rr) with
    | EmptyString => None
    | String _ rest => match Atoi rest with
                       | Some sc => Some (if String.eqb (ee_StatusText env sc) "" then 200 else sc)
                       | None => Some 200
                       end
    end in
  match chosen with Some c => if valid_code c then Some c else None | None => None end.

Definition positive_or_ok (code : Z) : Z := if 0 <? code then code else 200.

(** The start of [WriteText] and [WriteJson]: a reply without a body, or the rest. *)
Definition reply_with (contentType : string) (rr : RequestInfo) (w : writer) (rest : writer → outcome) : outcome :=
  let w := reply_headers rr w in
  let code := ri_StatusCode rr in
  if (code =? 204) || (code =? 304) then Replied (WriteHeader code w) []
  else if String.eqb (li_Method (ri_Line rr)) "HEAD" then
    if valid_code (positive_or_ok code)
    then Replied (WriteHeader (positive_or_ok code) (map_header (header_Set "Content-Type" contentType) w)) []
    else Aborted
  else rest w.

(** [entries] is the order in which Go ranges over the headers. *)
Definition WriteText (entries : list (string * list string)) (rr : RequestInfo) (w : writer) : outcome :=
  reply_with "plain/text" rr w (λ w,
    let w := map_header (header_Set "Content-Type" "text/plain") w in
    match reply_status rr with
    | None => Aborted
    | Some code =>
        let w := WriteHeader code w in
        let w := Write_body (li_Method (ri_Line rr) +:+ " " +:+ li_Path (ri_Line rr) +:+ newline) w in
        let w := fold_left (λ w '(n, v), Write_body (n +:+ ": " +:+ Join "," v +:+ newline) w) entries w in
        Replied (Write_body (ri_Body rr) (Write_body newline w)) []
    end).

Definition WriteJson (rr : RequestInfo) (w : writer) : outcome :=
  reply_with "application/json" rr w (λ w,
    match ee_Marshal env rr with
    | Err e => Replied (http_Error e 500 w) []
    | Ok text =>
        let w := map_header (header_Set "Content-Type" "application/json") w in
        match reply_status rr with
        | None => Aborted
        | Some code => Replied (Write_body text (WriteHeader code w)) []
        end
    end).

(** The status is fixed, so that the text format is never used. *)
Definition echoHandler (r : echoRequest) (w : writer) : outcome :=
  let rr := SetServer "gorp" "0.9" zero_info in
  let rr := match ee_Hostname env with Some h => SetHostname h rr | None => rr end in
  match Read r rr with
  | None => Aborted
  | Some rr =>
      let status := 200 in
      let rr := SetStatusCode status rr in
      if status <? 0 then WriteText (map_to_list (li_Headers (ri_Line rr))) rr w else WriteJson rr w
  end.
End echo.

(** ** Tokens *)

Definition std_byte (c : Ascii.ascii) : bool := match unsextet StdEncoding c with Some _ => true | None => Ascii.eqb c "=" end.
Definition url_byte (c : Ascii.ascii) : bool := Ascii.eqb c "-" || Ascii.eqb c "_".

Lemma std_sextet c v : unsextet StdEncoding c = Some v → std_byte c = true.
Proof. unfold std_byte. by intros ->. Qed.

Lemma decode_tail_std s r : decode_tail StdEncoding s = Some r → all_bytes std_byte s = true.
Proof.
  destruct s as [|w [|x t]]; [done..|]. cbn [decode_tail].
  destruct (unsextet _ w) eqn:Hw; [|done]. destruct (unsextet _ x) eqn:Hx; [|done]. apply std_sextet in Hw, Hx.
  cbn [all_bytes]. rewrite Hw, Hx. cbn [andb].
  destruct (String.eqb_spec t (pad StdEncoding 2)) as [->|]; [done|]. destruct t as [|y t]; [done|].
  destruct (unsextet _ y) eqn:Hy; [|done]. apply std_sextet in Hy. cbn [all_bytes]. rewrite Hy. cbn [andb].
  destruct (String.eqb_spec t (pad StdEncoding 1)) as [->|]; done.
Qed.

(** What the standard encoding accepts is in its alphabet. *)
Lemma decode_go_std s r : decode_go StdEncoding s = Some r → all_bytes std_byte s = true.
Proof.
  remember (String.length s) as n eqn:Hn. revert s r Hn. induction (lt_wf n) as [n _ IH]. intros s r Hn.
  destruct s as [|w [|x [|y [|z t]]]]; [done|apply decode_tail_std..|]. cbn [decode_go].
  destruct (unsextet _ w) eqn:Hw; [|apply decode_tail_std]. destruct (unsextet _ x) eqn:Hx; [|apply decode_tail_std].
  destruct (unsextet _ y) eqn:Hy; [|apply decode_tail_std]. destruct (unsextet _ z) eqn:Hz; [|apply decode_tail_std].
  destruct (decode_go _ t) as [q|] eqn:Hq; [|done]. intros _. apply std_sextet in Hw, Hx, Hy, Hz.
  cbn [all_bytes]. rewrite Hw, Hx, Hy, Hz. cbn [andb]. subst n. eapply IH; [|reflexivity|exact Hq]. simpl. lia.
Qed.

Lemma url_not_std c : url_byte c = true → std_byte c = false.
Proof. unfold url_byte. intros [H%Ascii.eqb_eq|H%Ascii.eqb_eq]%orb_true_iff; by subst. Qed.

(** The two alphabets differ in two characters. *)
Lemma sextet_same n : 0 ≤ n < 64 → url_byte (sextet RawURLEncoding n) = false → sextet RawURLEncoding n = sextet StdEncoding n.
Proof.
  intros Hn. unfold sextet. destruct (n <? 26); [done|]. destruct (n <? 52); [done|]. destruct (n <? 62) eqn:H; [done|].
  by destruct (n =? 62).
Qed.

Definition no_url_bytes (s : string) : bool := all_bytes (λ c, negb (url_byte c)) s.

Lemma pad_loop_4 n a b c d s :
  pad_loop n (String a (String b (String c (String d s)))) = String a (String b (String c (String d (pad_loop n s)))).
Proof.
  revert s; induction n as [|n IH]; intros s; [done|]. cbn [pad_loop].
  replace (String.length (String a (String b (String c (String d s)))) mod 4)%nat with (String.length s mod 4)%nat.
  - destruct (Nat.eqb _ 0); [done|]. apply IH.
  - cbn [String.length]. replace (S (S (S (S (String.length s))))) with (String.length s + 1 * 4)%nat by lia.
    by rewrite Nat.Div0.mod_add.
Qed.

(** Three rounds are enough. *)
Lemma pad_loop_length s : (String.length (pad_loop 3 s) mod 4 = 0)%nat.
Proof.
  remember (String.length s) as n eqn:Hn. revert s Hn. induction (lt_wf n) as [n _ IH]. intros s Hn.
  destruct s as [|a [|b [|c [|d s]]]]; [done..|]. rewrite pad_loop_4. cbn [String.length].
  replace (S (S (S (S (String.length (pad_loop 3 s)))))) with (String.length (pad_loop 3 s) + 1 * 4)%nat by lia.
  rewrite Nat.Div0.mod_add. eapply IH; [|reflexivity]. subst n. simpl. lia.
Qed.

Ltac same_sextets :=
  repeat match goal with
  | H : negb (url_byte (sextet RawURLEncoding _)) && _ = true |- _ => let Hu := fresh "Hu" in apply andb_true_iff in H as [Hu%negb_true_iff H]
  end;
  repeat match goal with
  | H : url_byte (sextet RawURLEncoding _) = false |- _ => apply sextet_same in H; [rewrite H|Z.to_euclidean_division_equations; lia]
  end.

Lemma padded_std s : no_url_bytes (EncodeToString RawURLEncoding s) = true →
  pad_loop 3 (EncodeToString RawURLEncoding s) = EncodeToString StdEncoding s.
Proof.
  unfold no_url_bytes. induction s as [|a|a b|a b c r IH] using string_ind3; ranges3; cbn [EncodeToString]; cbv zeta; cbn [all_bytes]; intros Hall.
  - done.
  - same_sextets. done.
  - same_sextets. done.
  - same_sextets. by rewrite pad_loop_4, IH.
Qed.

(** The loop appends padding only. *)
Lemma pad_loop_app n s : ∃ t, pad_loop n s = s +:+ t ∧ all_bytes (Ascii.eqb "=") t = true.
Proof.
  revert s; induction n as [|n IH]; intros s; cbn [pad_loop]; [exists ""; by rewrite string_app_nil_r|].
  destruct (Nat.eqb _ 0); [exists ""; by rewrite string_app_nil_r|].
  destruct (IH (s +:+ "=")) as (t & -> & Ht). exists ("=" +:+ t). by rewrite string_app_assoc.
Qed.

Lemma strip_newlines_app a b : strip_newlines (a +:+ b) = strip_newlines a +:+ strip_newlines b.
Proof. induction a as [|c a IH]; [done|]. cbn [String.append strip_newlines]. destruct (_ || _); by rewrite IH. Qed.

Lemma encode_length e s : s ≠ "" → (String.length s < String.length (EncodeToString e s))%nat.
Proof. induction s as [|a|a b|a b c r IH] using string_ind3; intros Hs; [done|cbn; lia..|]. destruct r; cbn in *; [lia|].
  specialize (IH ltac:(done)). lia. Qed.

Lemma decode_part_iff s :
  decode_part (EncodeToString RawURLEncoding s) = s ↔ no_url_bytes (EncodeToString RawURLEncoding s) = true.
Proof.
  split; [|intros H; unfold decode_part; by rewrite padded_std, DecodeString_Encode].
  intros H. destruct (no_url_bytes _) eqn:Hn; [done|exfalso]. revert H. unfold decode_part.
  destruct (pad_loop_app 3 (EncodeToString RawURLEncoding s)) as (t & -> & Ht).
  destruct (DecodeString _ _) as [a|] eqn:Hd.
  - unfold DecodeString in Hd. apply decode_go_std in Hd. rewrite strip_newlines_app, strip_encode, all_bytes_app in Hd.
    apply andb_true_iff in Hd as [Hd _].
    assert (all_bytes (λ c, negb (url_byte c)) (EncodeToString RawURLEncoding s) = true) as H; [|unfold no_url_bytes in Hn; congruence].
    eapply all_bytes_impl; [|exact Hd]. intros c Hc. destruct (url_byte c) eqn:Hu; [|done]. apply url_not_std in Hu. congruence.
  - intros H. apply (f_equal String.length) in H. rewrite string_length_app in H.
    destruct (String.eqb_spec s "") as [->|Hs]; [done|]. pose proof (encode_length RawURLEncoding s Hs). lia.
Qed.

Lemma sextet_no_dot n : 0 ≤ n < 64 → Ascii.eqb (sextet RawURLEncoding n) "." = false.
Proof.
  intros Hn. destruct (Ascii.eqb_spec (sextet RawURLEncoding n) ".") as [He|]; [|done].
  pose proof (unsextet_sextet RawURLEncoding n Hn) as Hu. by rewrite He in Hu.
Qed.

Lemma encode_no_dot s : contains_byte "." (EncodeToString RawURLEncoding s) = false.
Proof.
  induction s as [|a|a b|a b c r IH] using string_ind3; ranges3; cbn [EncodeToString]; cbv zeta; cbn [contains_byte];
    repeat (rewrite sextet_no_dot by (Z.to_euclidean_division_equations; lia)); done.
Qed.

(** The echo endpoint decodes the parts of a token with the wrong alphabet.
    The JSON text it reads is made of the header and the payload of the token
    exactly when their encodings contain neither of the two characters that
    distinguish the alphabet of tokens; otherwise the encoded part itself is put
    into the JSON text. *)
Theorem bearer_token_parts (h p sig : string) :
  contains_byte "." sig = false →
  ∃ h' p', bearer_text ("Bearer " +:+ EncodeToString RawURLEncoding h +:+ "." +:+ EncodeToString RawURLEncoding p +:+ "." +:+ sig)
             = Some (jwt_text h' p') ∧
    (h' = h ↔ no_url_bytes (EncodeToString RawURLEncoding h) = true) ∧
    (p' = p ↔ no_url_bytes (EncodeToString RawURLEncoding p) = true).
Proof.
  intros Hs. exists (decode_part (EncodeToString RawURLEncoding h)), (decode_part (EncodeToString RawURLEncoding p)).
  split; [|split; apply decode_part_iff]. unfold bearer_text. rewrite TrimPrefix_app.
  set (eh := EncodeToString _ h). set (ep := EncodeToString _ p).
  change (eh +:+ "." +:+ ep +:+ "." +:+ sig) with (eh +:+ String "." (ep +:+ String "." sig)).
  rewrite Split_app by apply encode_no_dot. rewrite Split_app by apply encode_no_dot. by rewrite Split_none.
Qed.

(** ** The reply *)
Section reply.
  Context {F : Type} (env : @echoEnv F).

Definition colonless_basic (auth : string) : Prop :=
  HasPrefix auth "Basic " = true ∧
  ∃ a, DecodeString StdEncoding (TrimPrefix auth "Basic ") = Some a ∧ contains_byte colon a = false.

Lemma DecodeAuthorization_None auth (rr : @RequestInfo F) : DecodeAuthorization env auth rr = None ↔ colonless_basic auth.
Proof.
  unfold DecodeAuthorization, colonless_basic. destruct (String.eqb_spec auth "") as [->|]; [naive_solver|].
  destruct (HasPrefix auth "Basic "); [|repeat case_match; naive_solver].
  destruct (DecodeString _ _) as [a|]; [|naive_solver]. destruct (contains_byte colon a) eqn:Hc.
  - pose proof Hc as (k & v & ->)%SplitN2_some. split; [done|]. intros (_ & a' & [= <-] & ?). congruence.
  - rewrite SplitN2_none by done. naive_solver.
Qed.

Lemma DecodeAuthorization_keeps auth (rr rr' : @RequestInfo F) :
  DecodeAuthorization env auth rr = Some rr' →
  ri_Server rr' = ri_Server rr ∧ ri_Line rr' = ri_Line rr ∧ ri_Form rr' = ri_Form rr ∧ ri_Body rr' = ri_Body rr ∧
  (∀ u p, HasPrefix auth "Basic " = true → DecodeString StdEncoding (TrimPrefix auth "Basic ") = Some (u +:+ String colon p) →
     contains_byte colon u = false → ri_BasicAuth rr' = Some (u, p)).
Proof.
  unfold DecodeAuthorization. destruct (String.eqb_spec auth "") as [->|]; [intros [= <-]; by repeat split|].
  destruct (HasPrefix auth "Basic ").
  - destruct (DecodeString _ _) as [a|]; [|intros [= <-]; by repeat split].
    destruct (SplitN2 colon a) as [|u [|p l]] eqn:Hs; [done..|]. intros [= <-]. repeat split.
    intros u' p' _ [= ->] Hu. unfold SplitN2 in Hs. rewrite Cut_app in Hs by done. by injection Hs as -> -> _.
  - intros H. repeat case_match; simplify_eq; by repeat split.
Qed.

Lemma ReadBody_bound body (rr : @RequestInfo F) :
  ri_Body rr = "" → (String.length (ri_Body (ReadBody body rr).1) ≤ 1027)%nat ∧
  (∀ b, body = (b, None) → (String.length b ≤ 1024)%nat → ri_Body (ReadBody body rr).1 = b).
Proof.
  intros Hr. destruct body as [b [e|]]; cbn [ReadBody fst].
  - rewrite Hr. split; [simpl; lia|done].
  - destruct (Nat.leb_spec (String.length b) 1024) as [H|H]; cbn [ri_Body].
    + split; [lia|]. by intros ? [= ->].
    + split; [|intros ? [= ->] ?; lia]. rewrite string_length_app, length_take by lia. simpl. lia.
Qed.

(** What [Read] gathers. *)
Definition told (r : echoRequest) (rr : @RequestInfo F) : Prop :=
  li_Method (ri_Line rr) = r_method (er_request r) ∧ li_Headers (ri_Line rr) = r_header (er_request r) ∧
  li_RequestURI (ri_Line rr) = er_RequestURI r ∧ ri_Form rr = (ee_ParseForm env r).1 ∧
  (String.length (ri_Body rr) ≤ 1027)%nat ∧
  (∀ b, (ee_ParseForm env r).2 = (b, None) → (String.length b ≤ 1024)%nat → ri_Body rr = b) ∧
  (∀ u p, let auth := header_Get (r_header (er_request r)) "Authorization" in
     HasPrefix auth "Basic " = true → DecodeString StdEncoding (TrimPrefix auth "Basic ") = Some (u +:+ String colon p) →
     contains_byte colon u = false → ri_BasicAuth rr = Some (u, p)).

Lemma Read_spec r (rr0 : @RequestInfo F) :
  ri_Body rr0 = "" →
  match Read env r rr0 with
  | None => colonless_basic (header_Get (r_header (er_request r)) "Authorization")
  | Some rr => ¬ colonless_basic (header_Get (r_header (er_request r)) "Authorization") ∧ told r rr
  end.
Proof.
  intros Hb. unfold Read, ReadForm. destruct (ee_ParseForm env r) as [form body] eqn:Hf. cbv zeta.
  set (rr1 := mkInfo _ _ _ form _ _ _ _ _).
  destruct (ReadBody_bound body rr1 Hb) as [Hlen Hsame]. assert (ri_Line (ReadBody body rr1).1 = ri_Line rr1 ∧ ri_Form (ReadBody body rr1).1 = form) as [Hl Hfm].
  { destruct body as [b [e|]]; done. }
  destruct (ReadBody body rr1) as [rr2 err]. cbn [fst] in *.
  assert (ri_Line (ReadTLS env r rr2) = ri_Line rr2 ∧ ri_Form (ReadTLS env r rr2) = ri_Form rr2 ∧ ri_Body (ReadTLS env r rr2) = ri_Body rr2) as (Hl' & Hf' & Hb').
  { unfold ReadTLS. by destruct (er_TLS r). }
  set (rr3 := ReadTLS env r rr2) in *. clearbody rr3.
  destruct (DecodeAuthorization env _ rr3) as [rr4|] eqn:Hd; [|by apply DecodeAuthorization_None in Hd].
  split; [intros Hc; apply (DecodeAuthorization_None _ rr3) in Hc; congruence|].
  apply DecodeAuthorization_keeps in Hd as (_ & Hl4 & Hf4 & Hb4 & Ha4).
  unfold told. cbn [ReadHostInfo set_server ri_Line ri_Form ri_Body ri_BasicAuth]. rewrite Hl4, Hl', Hl, Hf4, Hf', Hfm, Hb4, Hb', Hf. cbn [fst snd].
  by repeat split.
Qed.

(** The endpoint leaves no work for later, as the administration API requires. *)
Lemma echo_later r w w' later : echoHandler env r w = Replied w' later → later = [].
Proof.
  unfold echoHandler. destruct (Read _ _ _) as [rr|]; [|done]. cbv zeta. cbn [Z.ltb Z.compare]. unfold WriteJson, reply_with.
  cbn [ri_StatusCode SetStatusCode Z.eqb Pos.eqb orb]. destruct (String.eqb _ "HEAD"); [by intros [= _ <-]|].
  destruct (ee_Marshal _ _); [|by intros [= _ <-]]. destruct (reply_status _ _); [by intros [= _ <-]|done].
Qed.

(** The echo endpoint answers every request with 200 and a description of it
    that shows the method, the headers, the form, the credentials and at most the
    first 1024 bytes of the body (followed by three dots); except that basic
    credentials without a colon end the connection with a panic. *)
Theorem echo_reply (r : echoRequest) (w : writer) :
  (∀ rr, ∃ text, ee_Marshal env rr = Ok text) → w_reply w = None →
  (echoHandler env r w = Aborted ↔ colonless_basic (header_Get (r_header (er_request r)) "Authorization")) ∧
  (∀ w' later, echoHandler env r w = Replied w' later →
     later = [] ∧ status_of w' = Some 200 ∧
     ∃ rr text, told r rr ∧ ee_Marshal env rr = Ok text ∧
       w_body w' = w_body w +:+ (if String.eqb (r_method (er_request r)) "HEAD" then "" else text)).
Proof.
  intros Hm Hw. unfold echoHandler. set (rr0 := match ee_Hostname env with Some _ => _ | None => _ end).
  assert (ri_Body rr0 = "") as Hb by (unfold rr0; by destruct (ee_Hostname env)).
  pose proof (Read_spec r rr0 Hb) as HR. destruct (Read env r rr0) as [rr|]; [|naive_solver].
  destruct HR as [Hc Ht]. cbv zeta. cbn [Z.ltb Z.compare].
  assert (∃ w' text, WriteJson env (SetStatusCode 200 rr) w = Replied w' [] ∧ status_of w' = Some 200 ∧
            ee_Marshal env (SetStatusCode 200 rr) = Ok text ∧
            w_body w' = w_body w +:+ (if String.eqb (r_method (er_request r)) "HEAD" then "" else text)) as (w' & text & Hj & H1 & H2 & H3).
  { destruct (Hm (SetStatusCode 200 rr)) as [text Htext]. unfold WriteJson, reply_with.
    cbn [ri_StatusCode SetStatusCode ri_Line Z.eqb Pos.eqb orb]. destruct Ht as (-> & _).
    destruct (String.eqb (r_method (er_request r)) "HEAD").
    - eexists _, text. split; [reflexivity|]. split; [|split; [done|]]; unfold WriteHeader, status_of; cbn; rewrite Hw; [done|].
      by rewrite string_app_nil_r.
    - rewrite Htext. eexists _, text. split; [reflexivity|].
      split; [|split; [done|]]; unfold Write_body, body_allowed, status_of, WriteHeader; cbn; rewrite Hw; done. }
  rewrite Hj. split; [split; [done|]; intros; naive_solver|]. intros ? ? [= <- <-]. split; [done|]. split; [done|].
  by exists (SetStatusCode 200 rr), text.
Qed.
End reply.

(** ** Witnesses *)

(** The payload [~~?] is encoded as [fn4_] in a token. *)
Lemma bearer_token_parts_witness :
  ∃ h' p', bearer_text ("Bearer " +:+ EncodeToString RawURLEncoding "{}" +:+ "." +:+ EncodeToString RawURLEncoding "~~?" +:+ "." +:+ "sig")
             = Some (jwt_text h' p') ∧ h' = "{}" ∧ p' ≠ "~~?".
Proof.
  destruct (bearer_token_parts "{}" "~~?" "sig" eq_refl) as (h' & p' & H & Hh & Hp). exists h', p'. split; [exact H|]. split.
  - apply Hh. reflexivity.
  - intros Hp'. apply Hp in Hp'. vm_compute in Hp'. discriminate.
Defined.

Definition sample_echo : @echoEnv Z :=
  mkEchoEnv (Some "box") None None 1 0 "now" (λ _, "") (λ _, "") (λ r, ([], er_Body r)) (λ _, None) id Itoa
    (λ rr, Ok (ri_Body rr)) (λ _, "").

Definition posted (auth : string) : echoRequest :=
  mkEchoRequest (admin_request "POST" "/x" (header_Set "Authorization" auth ∅)) "HTTP/1.1" 1 1 "/x" ∅ false [] "/echo/x" ("hello", None) None.

Lemma echo_reply_witness :
  ¬ colonless_basic (header_Get (r_header (er_request (posted "Basic YTpi"))) "Authorization") ∧
  (echoHandler sample_echo (posted "Basic YQ") new_writer = Aborted ↔
   colonless_basic (header_Get (r_header (er_request (posted "Basic YQ"))) "Authorization")).
Proof.
  split; [intros (_ & a & Ha & Hc); vm_compute in Ha; injection Ha as <-; vm_compute in Hc; discriminate|].
  apply (echo_reply sample_echo (posted "Basic YQ") new_writer); [intros rr; by eexists|reflexivity].
Defined.
