(* ===== verification/Entry.v ===== *)
(** * Program entry, file watching and reload signals

    Models [pkg/gorp/main.go] (the choice of the configuration, the reload channel
    and what the loop reads) and [pkg/config/watch.go].  The reload loop with its
    servers is in [Lifecycle.v]; here the question is whether it learns of every
    change.  File system events come from a library: an event is data, and what is
    relied on is that a change of a watched file is followed by an event. *)

From S2P Require Import Prelude GoStd GoHttp Backend Selector Config.

(** ** The command line *)

Section choice.
  Context (getenv : string → string) (regular : string → bool).   (* the environment; [existsfile] *)

Fixpoint initFromEnv (def : string) (args : list string) : string :=
  match args with
  | [] => def
  | v :: args' => if negb (String.eqb (getenv v) "") then getenv v else initFromEnv def args'
  end.

Inductive start : Type := StartFile (file : string) | StartDirectory (dir : string) | Fatal (msg : string).

(** [configFlag] and [dirFlag]: the values given on the command line, if any. *)
Definition Main (configFlag dirFlag : option string) : start :=
  let configFile := default (initFromEnv "" ["CONFIG"; "GORP_CONFIG"; "PROXY_CONFIG"]) configFlag in
  let configDir := default (initFromEnv "" ["GORP_CONFIG_DIR"; "PROXY_CONFIG_DIR"]) dirFlag in
  if String.eqb configFile "" && String.eqb configDir "" then
    if regular "/etc/gorp/config.yaml" then StartFile "/etc/gorp/config.yaml"
    else if regular "~/.gorprc" then StartFile "~/.gorprc"
    else if regular "./gorprc" then StartFile "./gorprc"
    else Fatal "missing -config or -config-dir flag"
  else if negb (String.eqb configFile "") && negb (String.eqb configDir "") then
    Fatal "use either -config or -config-dir, not both"
  else if negb (String.eqb configDir "") then StartDirectory configDir
  else StartFile configFile.
End choice.

(** ** Events *)
Record event : Type := mkEvent {
  ev_Name : string;
  ev_Create : bool; ev_Write : bool; ev_Remove : bool; ev_Rename : bool; ev_Chmod : bool;
}.

(** [filepath.Ext] *)
Definition Ext (path : string) : string :=
  let base := match last_index_byte slash path with Some i => drop (S i) path | None => path end in
  match last_index_byte "." base with Some i => drop i base | None => "" end.

(** The tests of the two loops. *)
Definition file_event (e : event) : bool := ev_Write e || ev_Create e || ev_Remove e.
Definition dir_event (e : event) : bool :=
  if negb (String.eqb (Ext (ev_Name e)) ".yaml") && negb (String.eqb (Ext (ev_Name e)) ".yml") then false
  else ev_Write e || ev_Create e || ev_Remove e || ev_Rename e.

Definition triggers (isDir : bool) (e : event) : bool := if isDir then dir_event e else file_event e.

(** ** The registration

    [Watch] and [WatchDir], with what the system and the library answer: [Ok isDir]
    says which of the two loops was started. *)
Section watching.
  Context (stat : string → result string bool) (NewWatcher : result string unit) (Add : string → result string unit).

Definition WatchDir (dir : string) : result string bool :=
  match NewWatcher with
  | Err e => Err e
  | Ok _ => match Add dir with Err e => Err e | Ok _ => Ok true end
  end.

Definition Watch (file : string) : result string bool :=
  match stat file with
  | Err e => Err e
  | Ok true => WatchDir file
  | Ok false =>
      match NewWatcher with
      | Err e => Err e
      | Ok _ => match Add file with Err e => Err e | Ok _ => Ok false end
      end
  end.
End watching.

(** ** The signal

    [w_version] counts the changes of the configuration on disk and [w_seen] is the
    change the loop read last; [w_events] are the events waiting in the watcher,
    [w_reload] the channel of capacity one, [w_loading] whether the loop is between
    receiving a signal and reading the files.  After a reload the loop comes back
    for the next signal (the shutdown of the old server takes at most 30 seconds)
    as long as the program runs.  The watcher is registered in a goroutine of its
    own, whose error nobody reads.  A watch on a file follows the file and not its
    name: it is lost when another file takes its place. *)
Inductive wstate : Type := Unregistered | Watching | Lost.

Record watch : Type := mkWatch {
  w_isDir : bool;
  w_state : wstate;
  w_version : nat;
  w_seen : nat;
  w_events : list event;
  w_reload : bool;
  w_loading : bool;
}.

(** [Start], [StartDir]: the files were read, the watcher is not registered yet. *)
Definition started (isDir : bool) : watch := mkWatch isDir Unregistered 0 0 [] false false.

(** The callback: [select { case reload <- struct{}{}: default: }]. *)
Definition send_reload (full : bool) : bool := if full then full else true.

(** One turn of the loop of [Watch] or [WatchDir]. *)
Definition watcher_turn (isDir : bool) (e : event) (reload : bool) : bool :=
  if triggers isDir e then send_reload reload else reload.

(** The goroutines of the program. *)
Inductive program : watch → watch → Prop :=
  | step_watcher d st v s e ev r l :                   (* the loop of [Watch] or [WatchDir] *)
      program (mkWatch d st v s (e :: ev) r l) (mkWatch d st v s ev (watcher_turn d e r) l)
  | step_receive d st v s ev :                         (* [case <-reload] *)
      program (mkWatch d st v s ev true false) (mkWatch d st v s ev false true)
  | step_load d st v s ev r :                          (* [Load] or [LoadDir] *)
      program (mkWatch d st v s ev r true) (mkWatch d st v v ev r false).

(** What is done to a file, and the event the notification library documents for
    it: the operation and the name of the file, or of the entry of the watched
    directory.  Every event is delivered. *)
Inductive op : Type := Created | Written | Removed | Renamed | Chmodded.

Definition op_event (o : op) (name : string) : event :=
  mkEvent name (match o with Created => true | _ => false end) (match o with Written => true | _ => false end)
    (match o with Removed => true | _ => false end) (match o with Renamed => true | _ => false end)
    (match o with Chmodded => true | _ => false end).

(** [filepath.Join] of a clean directory and an entry of it. *)
Definition entry (dir base : string) : string := if String.eqb dir "" then base else dir +:+ String slash base.

(** An operation changes the configuration in a directory when [LoadDir] reads the
    file it is done to. *)
Definition changes (o : op) (base : string) : bool := match o with Chmodded => false | _ => is_yaml base end.
Definition next_version (changed : bool) (v : nat) : nat := if changed then S v else v.

Section steps.
  Context (registration : result string bool).         (* what [Watch] returns *)
  Context (source : string).                           (* the file or the directory *)
  Context (touched : string → Prop).                   (* the entries of the directory something is done to *)

(** The file system, and the moment at which the watcher is registered. *)
Inductive world_step : watch → watch → Prop :=
  | step_register d v s ev r l :                       (* [watcher.Add] *)
      registration = Ok d → world_step (mkWatch d Unregistered v s ev r l) (mkWatch d Watching v s ev r l)
  | step_entry v s ev r l o base :                     (* an operation on an entry of the directory *)
      touched base → contains_byte slash base = false →
      world_step (mkWatch true Watching v s ev r l)
        (mkWatch true Watching (next_version (changes o base) v) s (ev ++ [op_event o (entry source base)]) r l)
  | step_write v s ev r l :                            (* the file is written *)
      world_step (mkWatch false Watching v s ev r l) (mkWatch false Watching (S v) s (ev ++ [op_event Written source]) r l)
  | step_chmod v s ev r l :
      world_step (mkWatch false Watching v s ev r l) (mkWatch false Watching v s (ev ++ [op_event Chmodded source]) r l)
  | step_replace v s ev r l :                          (* the file is removed or replaced by another one *)
      world_step (mkWatch false Watching v s ev r l) (mkWatch false Lost (S v) s (ev ++ [op_event Removed source]) r l)
  | step_rename v s ev r l :                           (* the file is moved away, and another one takes its place *)
      world_step (mkWatch false Watching v s ev r l) (mkWatch false Lost (S v) s (ev ++ [op_event Renamed source]) r l)
  | step_unseen d st v s ev r l :                      (* a change nobody watches *)
      st ≠ Watching → world_step (mkWatch d st v s ev r l) (mkWatch d st (S v) s ev r l).

Definition wstep (a b : watch) : Prop := program a b ∨ world_step a b.
End steps.

(** No step of the program is possible. *)
Definition quiet (a : watch) : Prop := ∀ b, ¬ program a b.

(** ** Extensions *)

Lemma Ext_path dir base ext :
  contains_byte slash base = false → contains_byte slash ext = false → contains_byte "." ext = false →
  Ext (dir +:+ String slash (base +:+ String "." ext)) = String "." ext.
Proof.
  intros Hb He Hd. unfold Ext. rewrite last_index_byte_app.
  - replace (S (String.length dir)) with (String.length (dir +:+ String slash "")) by (rewrite string_length_app; simpl; lia).
    change (String slash (base +:+ String "." ext)) with (String slash "" +:+ (base +:+ String "." ext)).
    rewrite <- string_app_assoc, drop_length_app, last_index_byte_app, drop_length_app; done.
  - rewrite contains_byte_app, Hb. cbn [contains_byte]. by rewrite He.
Qed.

Lemma smap_app f x y : smap f (x +:+ y) = smap f x +:+ smap f y.
Proof. induction x as [|c x IH]; [done|]. cbn [String.append smap]. by rewrite IH. Qed.

Lemma HasSuffix_refl x y : HasSuffix (x +:+ y) y = true.
Proof.
  unfold HasSuffix. rewrite string_length_app. apply andb_true_iff. split; [apply Nat.leb_le; lia|].
  replace (String.length x + String.length y - String.length y)%nat with (String.length x) by lia.
  by rewrite drop_length_app, String.eqb_refl.
Qed.

Lemma HasSuffix_split s p : HasSuffix s p = true → ∃ b, s = b +:+ p.
Proof.
  unfold HasSuffix. rewrite andb_true_iff. intros [Hl%Nat.leb_le Hs%String.eqb_eq]. exists (take (String.length s - String.length p) s).
  rewrite <- Hs at 2. by rewrite take_drop_app.
Qed.

Lemma last_index_byte_none b s : contains_byte b s = false → last_index_byte b s = None.
Proof.
  induction s as [|c s IH]; [done|]. cbn. intros [Hc Hs]%orb_false_iff. by rewrite IH, Hc.
Qed.

Lemma Ext_entry dir base ext :
  contains_byte slash (base +:+ String "." ext) = false → contains_byte "." ext = false →
  Ext (entry dir (base +:+ String "." ext)) = String "." ext.
Proof.
  intros Hs Hd. pose proof Hs as Hs'. rewrite contains_byte_app in Hs'. apply orb_false_iff in Hs' as [Hb He].
  unfold entry. destruct (String.eqb dir "").
  - unfold Ext. rewrite (last_index_byte_none slash) by done. by rewrite last_index_byte_app, drop_length_app.
  - apply Ext_path; [done| |done]. by apply orb_false_iff in He as [_ He].
Qed.

(** A fragment whose extension is in lower case. *)
Definition lower_fragment (base : string) : Prop := HasSuffix base ".yaml" = true ∨ HasSuffix base ".yml" = true.

Lemma fragment_triggers o dir base :
  contains_byte slash base = false → lower_fragment base → changes o base = true → triggers true (op_event o (entry dir base)) = true.
Proof.
  intros Hs Hl Hc. cbn [triggers]. unfold dir_event. cbn [ev_Name ev_Create ev_Write ev_Remove ev_Rename op_event].
  assert (Ext (entry dir base) = ".yaml" ∨ Ext (entry dir base) = ".yml") as He.
  { destruct Hl as [(b & ->)%HasSuffix_split|(b & ->)%HasSuffix_split]; [left|right]; by rewrite Ext_entry. }
  destruct He as [-> | ->]; cbn; by destruct o.
Qed.

(** ** Every change is noticed *)

(** A change that was not read yet is announced somewhere. *)
Definition announced (a : watch) : Prop :=
  w_seen a = w_version a ∨ Exists (λ e, triggers (w_isDir a) e = true) (w_events a) ∨ w_reload a = true ∨ w_loading a = true.

Lemma announced_program a b : program a b → announced a →
  announced b ∧ w_version b = w_version a ∧ w_state b = w_state a ∧ w_isDir b = w_isDir a.
Proof.
  intros [d st v s e ev r l|d st v s ev|d st v s ev r]; unfold announced; cbn; intros Ha; (split; [|done]).
  - rewrite Exists_cons in Ha. unfold watcher_turn. destruct (triggers d e) eqn:He; destruct r; naive_solver.
  - naive_solver.
  - by left.
Qed.

(** As long as the watch is not lost, changes are announced; the watch of a
    directory is not lost. *)
Definition watched (a : watch) : Prop := w_state a = Watching ∧ announced a.

Lemma announced_event d v v' s ev r l e :
  announced (mkWatch d Watching v s ev r l) → (v' ≠ v → triggers d e = true) → announced (mkWatch d Watching v' s (ev ++ [e]) r l).
Proof.
  unfold announced. cbn. intros Ha He. rewrite Exists_app, Exists_cons, Exists_nil.
  destruct (decide (v' = v)) as [->|Hne]; [naive_solver|]. right; left; right; left. by apply He.
Qed.

Section noticed.
  Context (reg : result string bool) (source : string) (touched : string → Prop).
  Context (Hlower : ∀ base, touched base → is_yaml base = true → lower_fragment base).

Lemma watched_world a b : world_step reg source touched a b → watched a →
  w_isDir b = w_isDir a ∧ (watched b ∨ w_state b = Lost ∧ w_isDir b = false).
Proof.
  intros [d v s ev r l Hr|v s ev r l o base Ht Hs|v s ev r l|v s ev r l|v s ev r l|v s ev r l|d st v s ev r l Hst];
    intros [Hw Ha]; try done; (split; [done|]); try (by right); left; (split; [done|]); (eapply announced_event; [exact Ha|]).
  - unfold next_version. destruct (changes o base) eqn:Hc; [|done]. intros _. apply fragment_triggers; [done| |done].
    apply Hlower; [done|]. by destruct o.
  - done.
  - done.
Qed.

Lemma lost_stays a b : wstep reg source touched a b → w_state a = Lost → w_state b = Lost ∧ w_isDir b = w_isDir a.
Proof. by intros [[]|[]]; cbn; intros. Qed.

Lemma watched_reachable a b : rtc (wstep reg source touched) a b →
  watched a ∨ w_state a = Lost ∧ w_isDir a = false → watched b ∨ w_state b = Lost ∧ w_isDir b = false.
Proof.
  induction 1 as [a|a b c Hab _ IH]; [done|]. intros [Ha|[Ha Hd]]; apply IH.
  - destruct Hab as [Hp|Hw].
    + destruct Ha as [Hst Ha]. apply announced_program in Hp as (? & _ & Hs & _); [|done]. left. split; [congruence|done].
    + by destruct (watched_world _ _ Hw Ha).
  - right. destruct (lost_stays _ _ Hab Ha). split; congruence.
Qed.

End noticed.

(** Every step uses up a signal, an event or a started load. *)
Definition work (a : watch) : nat :=
  3 * length (w_events a) + (if w_reload a then 2 else 0) + (if w_loading a then 1 else 0).

Lemma program_work a b : program a b → (work b < work a)%nat.
Proof. intros [d st v s e ev r l|d st v s ev|d st v s ev r]; unfold work, watcher_turn; cbn; repeat case_match; cbn; lia. Qed.

Lemma program_wf a : Acc (λ y x, program x y) a.
Proof.
  remember (work a) as n eqn:Hn. revert a Hn. induction (lt_wf n) as [n _ IH]. intros a ->. constructor.
  intros b Hb. eapply IH; [by apply program_work|done].
Qed.

Lemma quiet_seen a : announced a → quiet a → w_seen a = w_version a.
Proof.
  destruct a as [d st v s ev r l]; cbn. intros Ha Hq.
  destruct ev as [|e ev]; [|exfalso; by eapply Hq, step_watcher].
  destruct l; [exfalso; by eapply Hq, step_load|]. destruct r; [exfalso; by eapply Hq, step_receive|].
  destruct Ha as [H|[H|[H|H]]]; cbn in *; [done|inversion H|done|done].
Qed.


(** A change between the first reading of the configuration and the
    registration of the watcher is missed: the program comes to rest with a
    configuration that is older than the one on disk. *)
Theorem startup_change_missed (isDir : bool) (source : string) (touched : string → Prop) :
  ∃ b, rtc (wstep (Ok isDir) source touched) (started isDir) b ∧ w_state b = Watching ∧ quiet b ∧ (w_seen b < w_version b)%nat.
Proof.
  exists (mkWatch isDir Watching 1 0 [] false false). split; [|split; [done|]].
  - eapply rtc_l; [right; by apply step_unseen|]. eapply rtc_l; [right; by apply step_register|]. apply rtc_refl.
  - split; [|cbn; lia]. intros b Hb. inversion Hb.
Qed.

(** Nothing is waiting, and nothing will come. *)
Definition deaf (a : watch) : Prop := w_events a = [] ∧ w_reload a = false ∧ w_loading a = false.

Lemma deaf_step reg src tch a b : wstep reg src tch a b → (w_state a = Lost ∨ w_state a = Unregistered ∧ is_ok reg = false) → deaf a →
  (w_state b = Lost ∨ w_state b = Unregistered ∧ is_ok reg = false) ∧ deaf b ∧ w_seen b = w_seen a.
Proof. unfold deaf. intros [[]|[]]; cbn in *; intros Hs (? & ? & ?); subst; cbn in *; try done; destruct Hs as [Hs|[Hs Ho]]; cbn in *; try done; auto. Qed.

Lemma deaf_reachable reg src tch a b : rtc (wstep reg src tch) a b → (w_state a = Lost ∨ w_state a = Unregistered ∧ is_ok reg = false) → deaf a →
  w_seen b = w_seen a.
Proof.
  induction 1 as [a|a b c Hab _ IH]; intros Hs Hd; [done|]. destruct (deaf_step _ _ _ _ _ Hab Hs Hd) as (Hs' & Hd' & <-). by apply IH.
Qed.

(** A configuration file that is replaced (as editors and configuration
    management do) is read again once, and never after that: from then on no
    change, in whatever way, is read.  A file that is moved away and written anew
    is not even read once. *)
Theorem replaced_file_forgotten (reg : result string bool) (source : string) (touched : string → Prop) (v : nat) (moved : bool) :
  ∃ a, rtc (wstep reg source touched) (mkWatch false Watching v v [] false false) a ∧ w_version a = S v ∧
       w_seen a = (if moved then v else S v) ∧
       ∀ b, rtc (wstep reg source touched) a b → w_seen b = w_seen a.
Proof.
  exists (mkWatch false Lost (S v) (if moved then v else S v) [] false false). split; [|split; [done|split; [done|]]].
  - destruct moved.
    + eapply rtc_l; [right; apply step_rename|]. eapply rtc_l; [left; apply step_watcher|]. apply rtc_refl.
    + eapply rtc_l; [right; apply step_replace|]. eapply rtc_l; [left; apply step_watcher|].
      eapply rtc_l; [left; apply step_receive|]. eapply rtc_l; [left; apply step_load|]. apply rtc_refl.
  - intros b Hb. apply (deaf_reachable _ _ _ _ _ Hb); [by left|done].
Qed.

(** When the watcher cannot be registered the program goes on without: no change
    is ever read. *)
Theorem unwatched_configuration (stat : string → result string bool) (NewWatcher : result string unit)
    (Add : string → result string unit) (source : string) (touched : string → Prop) (isDir : bool) (b : watch) :
  stat source = Ok isDir → (NewWatcher ≠ Ok tt ∨ Add source ≠ Ok tt) →
  rtc (wstep (Watch stat NewWatcher Add source) source touched) (started isDir) b → w_seen b = 0%nat.
Proof.
  intros Hs Hf Hb. apply (deaf_reachable _ _ _ _ _ Hb); [|done]. right. split; [done|].
  unfold Watch, WatchDir. rewrite Hs. destruct NewWatcher as [[]|e]; [|by destruct isDir].
  destruct (Add source) as [[]|e]; [by destruct Hf|by destruct isDir].
Qed.

(** ** Which files are watched *)

(** Fragments are loaded whatever the case of their extension but watched in
    lower case only.  A file whose extension is yaml or yml up to case is read by
    [LoadDir]; its creation, change, removal or renaming causes a reload exactly
    when the extension is written in lower case. *)
Theorem watched_fragments (dir base ext : string) (e : event) :
  ev_Name e = dir +:+ String slash (base +:+ String "." ext) →
  contains_byte slash base = false → contains_byte slash ext = false → contains_byte "." ext = false →
  ToLower ext = "yaml" ∨ ToLower ext = "yml" → ev_Write e || ev_Create e || ev_Remove e || ev_Rename e = true →
  is_yaml (base +:+ String "." ext) = true ∧ (triggers true e = true ↔ ext = "yaml" ∨ ext = "yml").
Proof.
  intros Hn Hb He Hd Hl Hc. split.
  - unfold is_yaml, ToLower. rewrite smap_app. cbn [smap]. change (lower_byte ".") with "."%char.
    unfold ToLower in Hl. destruct Hl as [-> | ->]; rewrite HasSuffix_refl; [done|apply orb_true_r].
  - cbn [triggers]. unfold dir_event. rewrite Hn, Ext_path, Hc by done.
    destruct (String.eqb_spec (String "." ext) ".yaml") as [[= ->]|H1]; [naive_solver|].
    destruct (String.eqb_spec (String "." ext) ".yml") as [[= ->]|H2]; [naive_solver|].
    split; [done|]. intros [-> | ->]; done.
Qed.

(** So a change of a fragment with an extension in upper case, which [LoadDir]
    would read, is not noticed. *)
Theorem uppercase_fragment_missed (source : string) :
  ∃ b, rtc (wstep (Ok true) source (λ base, base = "web.YAML")) (mkWatch true Watching 0 0 [] false false) b ∧
       quiet b ∧ (w_seen b < w_version b)%nat.
Proof.
  exists (mkWatch true Watching 1 0 [] false false). split; [|split; [intros b Hb; inversion Hb|cbn; lia]].
  eapply rtc_l; [right; by apply (step_entry (Ok true) source (λ base, base = "web.YAML") 0 0 [] false false Written "web.YAML")|].
  eapply rtc_l; [left; apply step_watcher|]. unfold watcher_turn. cbn [triggers]. unfold dir_event. cbn [ev_Name op_event].
  change "web.YAML" with ("web" +:+ String "." "YAML"). rewrite Ext_entry by done. apply rtc_refl.
Qed.

(** ** Choosing the configuration *)

Lemma initFromEnv_first getenv v w args :
  getenv v ≠ "" → Forall (λ u, getenv u = "") w → initFromEnv getenv "" (w ++ v :: args) = getenv v.
Proof.
  intros Hv. induction 1 as [|u w Hu _ IH]; cbn [app initFromEnv].
  - apply String.eqb_neq in Hv. by rewrite Hv.
  - by rewrite Hu.
Qed.

(** The choice between a file and a directory.  Values given on the command
    line alone are respected; but a flag does not take precedence over the
    environment variable of the other flag, with which it is refused. *)
Theorem flags_and_environment (getenv : string → string) (regular : string → bool) (f d : string) :
  f ≠ "" → d ≠ "" →
  Main getenv regular (Some f) (Some "") = StartFile f ∧ Main getenv regular (Some "") (Some d) = StartDirectory d ∧
  (getenv "GORP_CONFIG_DIR" ≠ "" → Main getenv regular (Some f) None = Fatal "use either -config or -config-dir, not both") ∧
  (getenv "CONFIG" ≠ "" → Main getenv regular None (Some d) = Fatal "use either -config or -config-dir, not both").
Proof.
  intros Hf%String.eqb_neq Hd%String.eqb_neq. unfold Main. cbn [from_option].
  cbv [id]. rewrite Hf, Hd. cbn [andb negb String.eqb]. split; [done|]. split; [done|]. split; intros H.
  - pose proof (initFromEnv_first getenv "GORP_CONFIG_DIR" [] ["PROXY_CONFIG_DIR"] H (Forall_nil_2 _)) as Hi.
    cbn [app] in Hi. rewrite Hi. apply String.eqb_neq in H. by rewrite H.
  - pose proof (initFromEnv_first getenv "CONFIG" [] ["GORP_CONFIG"; "PROXY_CONFIG"] H (Forall_nil_2 _)) as Hi.
    cbn [app] in Hi. rewrite Hi. apply String.eqb_neq in H. by rewrite H.
Qed.

(** ** Witnesses *)
Definition write_event (name : string) : event := mkEvent name false true false false false.


Lemma unwatched_configuration_witness : w_seen (mkWatch false Unregistered 1 0 [] false false) = 0%nat.
Proof.
  apply (unwatched_configuration (λ _, Ok false) (Ok tt) (λ _, Err "no space left on device") "c.yaml" (λ _, True) false).
  - reflexivity.
  - right. discriminate.
  - eapply rtc_l; [right; apply step_unseen; discriminate|]. apply rtc_refl.
Defined.

Lemma watched_fragments_witness :
  is_yaml "web.YAML" = true ∧ (triggers true (write_event "conf.d/web.YAML") = true ↔ "YAML" = "yaml" ∨ "YAML" = "yml").
Proof. apply (watched_fragments "conf.d" "web" "YAML"); try reflexivity. left. reflexivity. Defined.

Lemma flags_and_environment_witness :
  Main (λ v, if String.eqb v "CONFIG" then "c.yaml" else "") (λ _, false) None (Some "conf.d") =
    Fatal "use either -config or -config-dir, not both".
Proof. apply (flags_and_environment (λ v, if String.eqb v "CONFIG" then "c.yaml" else "") (λ _, false) "c.yaml"); discriminate. Defined.
