(* ===== verification/Sockets.v ===== *)
(** * HTTP servers, Unix sockets and TLS hellos

    Models [pkg/listener/http.go], [https.go] and [http3.go] (the servers and the
    router they put in front of their handler), [unix.go] (the life of a Unix
    socket in the file system) and [tcp_clienthello.go].  The TLS handshake that
    reads a hello is a parameter. *)

From S2P Require Import Prelude GoStd GoHttp Backend Selector Routing Middleware Tls ClientCert Admin.
Open Scope Z_scope.

(** ** Servers

    A server is its address, its handler and its TLS configuration.  The handler is
    put in a router under the pattern "/", which cleans paths: [escaped] is
    [r.URL.EscapedPath()], the path as the client wrote it, while handlers read the
    decoded [r_path]. *)
Inductive answer (W : Type) : Type := Handled (result : W * request * writer) | RedirectTo (path : string).
Arguments Handled {W}. Arguments RedirectTo {W}.

Definition mux_root {W} (h : handler W) (wd : W) (escaped : string) (r : request) (w : writer) : answer W :=
  if String.eqb (r_method r) "CONNECT" then Handled (h wd r w)
  else if String.eqb (cleanPath escaped) escaped then Handled (h wd r w) else RedirectTo (cleanPath escaped).

Record httpServer (W : Type) : Type := mkServer {
  hs_Addr : string;
  hs_Handler : W → string → list (option peerCert) → request → writer → answer W;    (* with the path and the client's certificates *)
  hs_TLS : option tlsConfig;
}.
Arguments mkServer {W}. Arguments hs_Addr {W}. Arguments hs_Handler {W}. Arguments hs_TLS {W}.

Section servers.
  Context (IsPrint : Z → bool) (sha256 pem_Certificate : string → string) (wld : Tls.world) (x : x509) {W : Type}.

Definition NewHTTPServer (address : string) (h : handler W) : httpServer W :=
  mkServer address (λ wd escaped _ r w, mux_root h wd escaped r w) None.

(** The servers with TLS forward the client's certificate. *)
Definition forwarding (h : handler W) : W → string → list (option peerCert) → request → writer → answer W :=
  λ wd escaped peers r w, mux_root (withForwardedClientCertificate IsPrint sha256 pem_Certificate h peers) wd escaped r w.

Definition NewHTTPSServerWithKeyPassphrase (address cert key passphrase ca crl ocspURL minVersion : string) (h : handler W)
    : result string (httpServer W) :=
  match BuildTLSConfigForDownstreamWithMinVersion wld x cert key ca crl ocspURL minVersion passphrase with
  | Err e => Err ("failed to build TLS config: " +:+ e)
  | Ok t => Ok (mkServer address (forwarding h) (Some t))
  end.

Definition NewHTTP3ServerWithKeyPassphrase (address cert key passphrase ca crl ocspURL minVersion : string) (h : handler W)
    : result string (httpServer W) :=
  match BuildTLSConfigForDownstreamWithMinVersion wld x cert key ca crl ocspURL minVersion passphrase with
  | Err e => Err ("failed to build TLS config: " +:+ e)
  | Ok t => Ok (mkServer address (forwarding h) (Some t))
  end.

(** Paths with dot segments do not reach the handler of a listener.  Unless
    the method is CONNECT, the handler runs exactly when the path is clean as the
    client wrote it: it starts with a slash, none of its segments is "." or "..",
    and none but the last is empty; any other path is redirected to its clean form,
    which is then handled. *)
Theorem handlers_see_clean_paths (address : string) (h : handler W) (wd : W) (escaped : string) (r : request) (w : writer)
    (peers : list (option peerCert)) :
  r_method r ≠ "CONNECT" →
  match hs_Handler (NewHTTPServer address h) wd escaped peers r w with
  | Handled res =>
      res = h wd r w ∧ ∃ segs tr, Forall good_segment segs ∧ escaped = String slash (Join "/" (segs ++ if (tr : bool) then [""] else []))
  | RedirectTo p =>
      p ≠ escaped ∧ ∀ r', r_method r' = r_method r → hs_Handler (NewHTTPServer address h) wd p peers r' w = Handled (h wd r' w)
  end.
Proof.
  intros Hm. apply String.eqb_neq in Hm. cbn [NewHTTPServer hs_Handler]. unfold mux_root. rewrite Hm.
  destruct (String.eqb_spec (cleanPath escaped) escaped) as [He|He].
  - split; [done|]. destruct (cleanPath_form escaped) as (segs & tr & Hg & _ & Hf). exists segs, tr. split; [done|]. congruence.
  - split; [done|]. intros r' Hr. by rewrite Hr, Hm, cleanPath_idempotent, String.eqb_refl.
Qed.
End servers.

(** ** Unix sockets

    Names in the file system: sockets with the listener that made them, or anything
    else.  A socket accepts connections as long as its listener is open. *)
Inductive node : Type := NOther | NSocket (owner : nat).

Record files : Type := mkFiles { f_nodes : gmap string node; f_open : gset nat; f_next : nat }.

(** What may go wrong besides: errors of Lstat (other than a missing file), of the
    connection (other than a refusal), of the removal and of Listen. *)
Record faults : Type := mkFaults {
  ft_Lstat : option string; ft_Dial : option string; ft_Remove : option string; ft_Listen : option string;
}.
Definition no_faults : faults := mkFaults None None None None.

Record unixListener : Type := mkUnix { ul_id : nat; ul_path : string }.

Section unix.
  Context (IsPrint : Z → bool).                                  (* printable characters, for [%q] *)

Definition net_Listen (ft : faults) (path : string) (fs : files) : result string unixListener * files :=
  match ft_Listen ft, f_nodes fs !! path with
  | None, None =>
      (Ok (mkUnix (f_next fs) path),
       mkFiles (<[path := NSocket (f_next fs)]> (f_nodes fs)) ({[f_next fs]} ∪ f_open fs) (S (f_next fs)))
  | Some e, _ => (Err ("listen on Unix socket " +:+ Quote IsPrint path +:+ ": " +:+ e), fs)
  | None, Some _ => (Err ("listen on Unix socket " +:+ Quote IsPrint path +:+ ": address already in use"), fs)
  end.

Definition remove (path : string) (fs : files) : files := mkFiles (delete path (f_nodes fs)) (f_open fs) (f_next fs).

Definition NewUnixListener (ft : faults) (path : string) (fs : files) : result string unixListener * files :=
  if String.eqb path "" then (Err "Unix socket path is empty", fs)
  else match ft_Lstat ft with
  | Some e => (Err ("inspect Unix socket path " +:+ Quote IsPrint path +:+ ": " +:+ e), fs)
  | None =>
      match f_nodes fs !! path with
      | None => net_Listen ft path fs
      | Some NOther => (Err ("Unix socket path " +:+ Quote IsPrint path +:+ " exists and is not a socket"), fs)
      | Some (NSocket owner) =>
          if bool_decide (owner ∈ f_open fs) then
            (* the connection succeeds, or fails otherwise than by a refusal *)
            match ft_Dial ft with
            | None => (Err ("Unix socket " +:+ Quote IsPrint path +:+ " is already in use"), fs)
            | Some e => (Err ("check existing Unix socket " +:+ Quote IsPrint path +:+ ": " +:+ e), fs)
            end
          else match ft_Dial ft with
          | Some e => (Err ("check existing Unix socket " +:+ Quote IsPrint path +:+ ": " +:+ e), fs)
          | None => match ft_Remove ft with
            | Some e => (Err ("remove stale Unix socket " +:+ Quote IsPrint path +:+ ": " +:+ e), fs)
            | None => net_Listen ft path (remove path fs)
            end
          end
      end
  end.

(** [unixListener.Close]: closing the inner listener removes its name the first
    time, a second time it is an error; then the name is removed again, whatever
    it is. *)
Definition unix_Close (l : unixListener) (fs : files) : option string * files :=
  let '(err, fs1) :=
    if bool_decide (ul_id l ∈ f_open fs)
    then (None, mkFiles (delete (ul_path l) (f_nodes fs)) (f_open fs ∖ {[ul_id l]}) (f_next fs))
    else (Some "use of closed network connection", fs) in
  (err, remove (ul_path l) fs1).

Definition reachable (l : unixListener) (fs : files) : Prop :=
  ul_id l ∈ f_open fs ∧ f_nodes fs !! ul_path l = Some (NSocket (ul_id l)).

(** Listeners are numbered in order. *)
Definition numbered (fs : files) : Prop := ∀ i, i ∈ f_open fs → (i < f_next fs)%nat.

Lemma net_Listen_spec path fs :
  f_nodes fs !! path = None →
  ∃ fs', net_Listen no_faults path fs = (Ok (mkUnix (f_next fs) path), fs') ∧ reachable (mkUnix (f_next fs) path) fs' ∧
    (∀ q, q ≠ path → f_nodes fs' !! q = f_nodes fs !! q) ∧ f_open fs' = {[f_next fs]} ∪ f_open fs ∧ f_next fs' = S (f_next fs).
Proof.
  intros Hp. unfold net_Listen. rewrite Hp. eexists. split; [reflexivity|]. split.
  - split; cbn; [set_solver|apply lookup_insert_eq].
  - split; [|done]. intros q Hq. cbn. by rewrite lookup_insert_ne.
Qed.

(** The name is free or the socket of a listener that is closed. *)
Definition vacant (path : string) (fs : files) : Prop :=
  match f_nodes fs !! path with None => True | Some NOther => False | Some (NSocket o) => o ∉ f_open fs end.

Lemma NewUnixListener_vacant path fs :
  path ≠ "" → vacant path fs →
  ∃ fs', NewUnixListener no_faults path fs = (Ok (mkUnix (f_next fs) path), fs') ∧ reachable (mkUnix (f_next fs) path) fs' ∧
    (∀ q, q ≠ path → f_nodes fs' !! q = f_nodes fs !! q) ∧ f_open fs' = {[f_next fs]} ∪ f_open fs ∧ f_next fs' = S (f_next fs).
Proof.
  intros Hp Hv. unfold NewUnixListener, vacant in *. apply String.eqb_neq in Hp. rewrite Hp. cbn [ft_Lstat no_faults].
  destruct (f_nodes fs !! path) as [[|o]|] eqn:Hn; [done| |by apply net_Listen_spec].
  rewrite bool_decide_eq_false_2 by done. cbn [ft_Dial ft_Remove no_faults].
  destruct (net_Listen_spec path (remove path fs)) as (fs' & H1 & H2 & H3 & H4 & H5); [apply lookup_delete_eq|].
  exists fs'. split; [done|]. split; [done|]. split; [|done]. intros q Hq. rewrite H3 by done. cbn. by rewrite lookup_delete_ne.
Qed.

(** Creating a Unix listener never replaces anything but a stale socket.  With
    whatever errors, no other name is touched; a name that is not a socket, or whose
    socket still accepts connections, is kept and refused; and without errors a
    free name or a stale socket gives a listener that can be reached, and closing it
    leaves the name free. *)
Theorem unix_sockets_replace_stale_only (ft : faults) (path : string) (fs : files) :
  (∀ q, q ≠ path → f_nodes (NewUnixListener ft path fs).2 !! q = f_nodes fs !! q) ∧
  (f_nodes fs !! path ≠ None → ¬ vacant path fs → is_ok (NewUnixListener ft path fs).1 = false ∧ (NewUnixListener ft path fs).2 = fs) ∧
  (path ≠ "" → vacant path fs → ∃ l fs', NewUnixListener no_faults path fs = (Ok l, fs') ∧ reachable l fs' ∧
     unix_Close l fs' = (None, (unix_Close l fs').2) ∧ f_nodes (unix_Close l fs').2 = delete path (f_nodes fs)).
Proof.
  split; [|split].
  - intros q Hq. unfold NewUnixListener, net_Listen. repeat case_match; cbn; try done;
      by rewrite ?lookup_insert_ne, ?lookup_delete_ne.
  - intros Hn Hv. unfold NewUnixListener, vacant in *. destruct (String.eqb path ""); [done|].
    destruct (ft_Lstat ft); [done|]. destruct (f_nodes fs !! path) as [[|o]|]; [by split| |by destruct Hn].
    destruct (decide (o ∈ f_open fs)); [|by destruct Hv]. rewrite bool_decide_eq_true_2 by done. by destruct (ft_Dial ft).
  - intros Hp Hv. destruct (NewUnixListener_vacant path fs Hp Hv) as (fs' & H1 & H2 & H3 & H4 & H5).
    eexists _, fs'. split; [exact H1|]. split; [done|]. unfold unix_Close. cbn [ul_id ul_path].
    rewrite bool_decide_eq_true_2 by (rewrite H4; set_solver). split; [done|]. cbn. apply map_eq. intros q.
    destruct (decide (q = path)) as [->|Hq]; [by rewrite !lookup_delete_eq|]. rewrite !lookup_delete_ne by done. by apply H3.
Qed.

Lemma unix_Close_open l fs :
  ul_id l ∈ f_open fs →
  f_open (unix_Close l fs).2 = f_open fs ∖ {[ul_id l]} ∧ f_next (unix_Close l fs).2 = f_next fs ∧ vacant (ul_path l) (unix_Close l fs).2.
Proof.
  intros Hl. unfold unix_Close. rewrite bool_decide_eq_true_2 by done. cbn. split; [done|]. split; [done|].
  unfold vacant. cbn. by rewrite lookup_delete_eq.
Qed.

(** Closing a Unix listener twice takes the name away from its successor.  The
    goroutine that served the listener closes it again after the shutdown has closed
    it; when a reloaded server has made its socket in between, that socket loses its
    name and can no longer be reached, although its listener is open. *)
Theorem second_close_removes_successor (path : string) (fs : files) :
  path ≠ "" → vacant path fs → numbered fs →
  ∃ old fs1 new fs3,
    NewUnixListener no_faults path fs = (Ok old, fs1) ∧
    NewUnixListener no_faults path (unix_Close old fs1).2 = (Ok new, fs3) ∧ reachable new fs3 ∧
    ul_id new ∈ f_open (unix_Close old fs3).2 ∧ ¬ reachable new (unix_Close old fs3).2.
Proof.
  intros Hp Hv Hnum. destruct (NewUnixListener_vacant path fs Hp Hv) as (fs1 & H1 & [Ho _] & _ & Hopen & Hnext).
  set (old := mkUnix (f_next fs) path) in *.
  destruct (unix_Close_open old fs1 Ho) as (Hc1 & Hc2 & Hc3).
  destruct (NewUnixListener_vacant path (unix_Close old fs1).2 Hp Hc3) as (fs3 & H2 & Hr & _ & Hopen3 & _).
  exists old, fs1. do 2 eexists. split; [exact H1|]. split; [exact H2|]. split; [exact Hr|].
  assert (ul_id old ∉ f_open fs3) as Hclosed.
  { rewrite Hopen3, Hc1, Hc2, Hnext. cbn. intros [?%elem_of_singleton|?]%elem_of_union; [lia|set_solver]. }
  assert (unix_Close old fs3 = (Some "use of closed network connection", remove path fs3)) as ->.
  { unfold unix_Close. by rewrite bool_decide_eq_false_2. }
  split; [apply Hr|]. intros [_ H]. cbn in H. by rewrite lookup_delete_eq in H.
Qed.
End unix.

(** ** TLS hellos

    [handshake] is the TLS server on a connection that can only be read: how many
    bytes of the stream it reads, the hello if one arrived, and the error it ends
    with. *)
Section hello.
  Context {Hello : Type} (handshake : string → nat * option Hello * string).

Definition readClientHello (stream : string) : result string Hello * nat :=
  match handshake stream with
  | (n, None, err) => (Err err, n)
  | (n, Some hello, _) => (Ok hello, n)
  end.

(** The reader that is left: the recorded bytes, then the rest of the stream. *)
Definition peekClientHello (stream : string) : result string (Hello * list string) :=
  match readClientHello stream with
  | (Err err, _) => Err err
  | (Ok hello, n) => Ok (hello, [take n stream; drop n stream])
  end.

(** The reader gives the whole stream again. *)
Lemma peekClientHello_stream stream hello readers :
  peekClientHello stream = Ok (hello, readers) → String.concat "" readers = stream.
Proof.
  unfold peekClientHello, readClientHello. destruct (handshake stream) as [[n [h|]] e]; [|done].
  intros [= _ <-]. cbn. apply take_drop_app.
Qed.
End hello.

(** ** Witnesses *)
Lemma handlers_see_clean_paths_witness :
  match hs_Handler (NewHTTPServer "" (λ (wd : unit) r w, (wd, r, w))) tt "/public/../admin" [] (admin_request "GET" "/public/../admin" ∅) new_writer with
  | Handled _ => False
  | RedirectTo p => p ≠ "/public/../admin"
  end.
Proof.
  pose proof (handlers_see_clean_paths "" (λ (wd : unit) r w, (wd, r, w)) tt "/public/../admin"
    (admin_request "GET" "/public/../admin" ∅) new_writer [] ltac:(discriminate)) as H.
  vm_compute in H |- *. exact (proj1 H).
Defined.

(** The decoded path of an encoded one may still contain dot segments. *)
Example encoded_dots_pass :
  hs_Handler (NewHTTPServer "" (λ (wd : unit) r w, (wd, r, w))) tt "/public/%2e%2e/admin" [] (admin_request "GET" "/public/../admin" ∅) new_writer
  = Handled (tt, admin_request "GET" "/public/../admin" ∅, new_writer).
Proof. reflexivity. Qed.

Definition no_files : files := mkFiles ∅ ∅ 0.

Lemma second_close_removes_successor_witness :
  ∃ old fs1 new fs3,
    NewUnixListener (λ _, true) no_faults "/run/gorp.sock" no_files = (Ok old, fs1) ∧
    NewUnixListener (λ _, true) no_faults "/run/gorp.sock" (unix_Close old fs1).2 = (Ok new, fs3) ∧ reachable new fs3 ∧
    ul_id new ∈ f_open (unix_Close old fs3).2 ∧ ¬ reachable new (unix_Close old fs3).2.
Proof. apply (second_close_removes_successor (λ _, true)); [discriminate|exact I|intros i H; by apply not_elem_of_empty in H]. Defined.
