(* ===== verification/Dynamic.v ===== *)
(** * Dynamic middleware

    Models [pkg/dynamic/middleware.go]: Go source from the configuration is given
    to an embedded interpreter, and its symbol [Middleware] is used when it has the
    type of a request middleware or of a response modifier.  The interpreter is a
    parameter. *)

From S2P Require Import Prelude GoStd GoHttp.

(** What the interpreter gives for a symbol: a function of one of the two types,
    a value of another type, or nothing that can be used. *)
Inductive value (M R : Type) : Type := VRequest (m : M) | VResponse (r : R) | VOther | VInvalid.
Arguments VRequest {M R}. Arguments VResponse {M R}. Arguments VOther {M R}. Arguments VInvalid {M R}.

Section dynamic.
  Context {M R I : Type} (Eval : string → result string I) (EvalSymbol : I → string → result string (value M R)).

Definition packageName : string := "dynamic".

Definition evaluate (source symbol : string) : result string (value M R) :=
  if String.eqb source "" then Err "dynamic middleware source is empty"
  else match Eval source with
  | Err e => Err ("evaluate dynamic middleware: " +:+ e)
  | Ok interpreter =>
      match EvalSymbol interpreter (packageName +:+ "." +:+ symbol) with
      | Err e => Err ("load dynamic middleware symbol: " +:+ e)
      | Ok VInvalid => Err "dynamic middleware symbol is invalid"
      | Ok v => Ok v
      end
  end.

Definition Request (source : string) : result string M :=
  match evaluate source "Middleware" with
  | Err e => Err e
  | Ok (VRequest m) => Ok m
  | Ok _ => Err "dynamic request Middleware has incompatible signature"
  end.

Definition Response (source : string) : result string R :=
  match evaluate source "Middleware" with
  | Err e => Err e
  | Ok (VResponse r) => Ok r
  | Ok _ => Err "dynamic response Middleware has incompatible signature"
  end.

Lemma Request_Ok source m :
  Request source = Ok m ↔ source ≠ "" ∧ ∃ i, Eval source = Ok i ∧ EvalSymbol i "dynamic.Middleware" = Ok (VRequest m).
Proof.
  unfold Request, evaluate. change (packageName +:+ "." +:+ "Middleware") with "dynamic.Middleware".
  split.
  - destruct (String.eqb_spec source ""); [done|]. destruct (Eval source) as [i|] eqn:Hi; [|done].
    destruct (EvalSymbol i "dynamic.Middleware") as [[]|] eqn:He; try done. intros [= <-]. eauto.
  - intros (Hs & i & -> & ->). apply String.eqb_neq in Hs. by rewrite Hs.
Qed.

Lemma Response_Ok source r :
  Response source = Ok r ↔ source ≠ "" ∧ ∃ i, Eval source = Ok i ∧ EvalSymbol i "dynamic.Middleware" = Ok (VResponse r).
Proof.
  unfold Response, evaluate. change (packageName +:+ "." +:+ "Middleware") with "dynamic.Middleware".
  split.
  - destruct (String.eqb_spec source ""); [done|]. destruct (Eval source) as [i|] eqn:Hi; [|done].
    destruct (EvalSymbol i "dynamic.Middleware") as [[]|] eqn:He; try done. intros [= <-]. eauto.
  - intros (Hs & i & -> & ->). apply String.eqb_neq in Hs. by rewrite Hs.
Qed.

(** One source is never both a request middleware and a response modifier. *)
Lemma dynamic_exclusive source m r : Request source = Ok m → Response source = Ok r → False.
Proof. intros (_ & i & H1 & H2)%Request_Ok (_ & j & H3 & H4)%Response_Ok. congruence. Qed.
End dynamic.
