(* ===== verification/Compose.v ===== *)
(** * Components put together

    The builder and the listeners take the TLS helper and the OpenID provider as
    parameters; here the models of [Tls.v] and [Oidc.v] are put in their place, and
    the theorems connect validation, the start of a listener and the files it
    reads, and the middleware the builder installs with the keys a provider
    publishes. *)

From S2P Require Import Prelude GoStd GoHttp Base64 Parser Backend Transport Selector Routing Middleware Config Validate Builder ForwardProxy Lifecycle Listeners Aws Tls ClientCert Oidc.
Open Scope Z_scope.

Section tls.
  Context (ext : externals) (proxy_Parse : string → option proxyURL) (wld : Tls.world) (xx : x509).
  Context (url_Parse : string → option parsedURL) (parseDur : string → option Z) (ParseIP : string → option (string * bool)).

(** The errors of the TLS helper, as the start functions see them. *)
Definition downstream_error (t : TLSConfig) : option string :=
  match BuildTLSConfigForDownstreamWithMinVersion wld xx (CertFile t) (KeyFile t) (CAFile t) (CRLFile t) (OCSPURL t)
          (MinVersion t) (KeyPassphrase t) with
  | Err e => Some e
  | Ok _ => None
  end.

Definition dynamic_error (t : TLSConfig) : option string :=
  match BuildDynamicTLSConfigWithClientCA wld xx (CertFile t) (KeyFile t) (KeyPassphrase t) (CAFile t) (MinVersion t) with
  | Err e => Some e
  | Ok _ => None
  end.

Notation start := (startListener ext proxy_Parse downstream_error dynamic_error).

Lemma validated_tls i l s : (validateListener url_Parse parseDur ParseIP i l s).1 = [] →
  ∃ path, validateTLS path (ln_TLS l) (requiresTLS (ln_Type l)) = [].
Proof.
  unfold validateListener. destruct (validateListenerAddress _ _ _ _) as [a1 a2]. cbn [fst]. intros H.
  repeat match goal with H : _ ++ _ = [] |- _ => apply app_eq_nil in H as [? H] end. eauto.
Qed.

(** The pair of a listener can be loaded. *)
Definition pair_loads (t : TLSConfig) : Prop :=
  ∃ certPEM keyPEM kp, ReadFile wld (CertFile t) = Ok certPEM ∧ ReadFile wld (KeyFile t) = Ok keyPEM ∧
    loadX509KeyPair xx certPEM keyPEM (KeyPassphrase t) = Ok kp.

Lemma downstream_error_iff path t :
  validateTLS path t true = [] → downstream_error t = None ↔ pair_loads t.
Proof.
  intros Hv. unfold downstream_error, BuildTLSConfigForDownstreamWithMinVersion, pair_loads.
  assert (∃ version, (if String.eqb (MinVersion t) "" then Ok 0 else ParseTLSVersion (MinVersion t)) = Ok version) as [version ->].
  { destruct (String.eqb_spec (MinVersion t) ""); [by eexists|]. destruct (validated_version path t true Hv) as (v & -> & _); eauto. }
  assert (negb (String.eqb (CertFile t) "") && negb (String.eqb (KeyFile t) "") = true) as Hck.
  { unfold validateTLS in Hv. cbv zeta in Hv. apply app_eq_nil in Hv as [Hv _]. cbn [andb] in Hv.
    destruct (String.eqb (CertFile t) ""), (String.eqb (KeyFile t) ""); done. }
  unfold load_pair. rewrite Hck. split.
  - destruct (ReadFile wld (CertFile t)) as [c|]; [|done]. destruct (ReadFile wld (KeyFile t)) as [k|]; [|done].
    destruct (loadX509KeyPair xx c k _) as [kp|] eqn:Hl; [|done]. intros _. by exists c, k, kp.
  - intros (c & k & kp & -> & -> & ->). done.
Qed.

(** C14: which validated TLS listeners start.  An HTTPS or HTTP/3 listener that
    passed validation starts exactly when its middleware can be built and its
    certificate and key can be read and loaded with its passphrase: neither the
    minimum version, nor the client authority, nor the revocation settings are ever
    the reason for a failure. *)
Theorem validated_tls_listener_starts (i : nat) (l : Listener) (s : seen) :
  (validateListener url_Parse parseDur ParseIP i l s).1 = [] → one_of (ln_Type l) ["https"; "http3"] = true →
  (∃ p, start l = Ok p) ↔
  (∃ mws, buildMiddlewareForListener ext (ln_Middlewares l) = Ok mws) ∧ pair_loads (ln_TLS l).
Proof.
  intros Hv Ht. apply validated_tls in Hv as [path Hv].
  assert (ln_Type l = "https" ∨ ln_Type l = "http3") as Htype.
  { apply one_of_In in Ht. rewrite !elem_of_cons in Ht. destruct Ht as [?|[?|?%not_elem_of_nil]]; auto; done. }
  assert (requiresTLS (ln_Type l) = true) as Hreq by (by destruct Htype as [H|H]; rewrite H).
  rewrite Hreq in Hv. rewrite <- (downstream_error_iff path) by done.
  assert ((∃ p, start l = Ok p) ↔ (∃ h, routes_handler ext l = Ok h) ∧ downstream_error (ln_TLS l) = None) as ->.
  { unfold startListener. destruct Htype as [Hl|Hl]; rewrite Hl; cbn [String.eqb Ascii.eqb Bool.eqb];
      unfold startHTTPSListener, startHTTP3Listener, with_tls;
      (split; [intros [p Hp]|intros [[h ->] ->]; by eexists]);
      (destruct (routes_handler ext l) as [h|]; [|done]); (destruct (downstream_error (ln_TLS l)); [done|]); eauto. }
  assert ((∃ h, routes_handler ext l = Ok h) ↔
          (∃ mws, buildMiddlewareForListener ext (ln_Middlewares l) = Ok mws)) as ->; [|done].
  split; [intros [h (mws & _ & Hb)%routes_handler_Ok]; by exists mws|]. intros [mws Hb]. unfold routes_handler. rewrite Hb.
  destruct (ln_Middlewares l); by eexists.
Qed.
End tls.

(** ** OpenID *)
Definition with_provider (get : string → result string (list string)) (ext : externals) : externals :=
  mkExternals (x_ParseDuration ext) get (x_dynamicRequest ext) (x_dynamicResponse ext) (x_openAPI ext) (x_tlsError ext)
    (x_backendHost ext) (x_proxyParse ext).

Section openid.
  Context (ext : externals) (IsPrint : Z → bool) (corrupt : string → string)
          (MarshalPKIXPublicKey : publicKey → result string string) (pem_PublicKey : string → string)
          (NewRequest : string → option string) (Do : string → result string (Z * (string * option string)))
          (decode_discovery : string * option string → result string string)
          (unmarshal_jwks : string → result string (list string)) (unmarshal_jwk : string → result string jwk).

Definition provider : string → result string (list string) :=
  GetJWKSPEM IsPrint corrupt MarshalPKIXPublicKey pem_PublicKey NewRequest Do decode_discovery unmarshal_jwks unmarshal_jwk.

Lemma issuer_keys_spec (c : config_map) (uri : string) (raws : list string) (specs : list mwSpec) :
  (∀ k ks, ParseStringSlice c "keys" ≠ Ok (k :: ks)) →
  discover NewRequest Do decode_discovery (ParseStringOrDefault c "issuer" "") = Ok uri →
  fetch_keys NewRequest Do unmarshal_jwks uri = Ok raws →
  build_openid (with_provider provider ext) c = Ok specs ↔
  ∃ keys audience hdr prefix algorithm remove,
    specs = [MOpenID (ParseStringOrDefault c "issuer" "") audience hdr prefix algorithm keys remove] ∧
    audience = ParseStringOrDefault c "audience" "" ∧ hdr = ParseStringOrDefault c "header" "Authorization" ∧
    prefix = ParseStringOrDefault c "prefix" "Bearer " ∧ algorithm = ParseStringOrDefault c "algorithm" "RS256" ∧
    remove = ParseBool c "remove_header" false ∧
    Forall2 (λ raw pem, ∃ k pk pk' der, unmarshal_jwk raw = Ok k ∧ denotes k pk ∧ kept pk = Some pk' ∧ MarshalPKIXPublicKey pk' = Ok der ∧
               pem = pem_PublicKey der) raws keys.
Proof.
  intros Hk Hd Hf.
  assert (build_openid (with_provider provider ext) c =
          match provider (ParseStringOrDefault c "issuer" "") with
          | Err e => Err ("auth_openid requires a non-empty key list, " +:+ e)
          | Ok keys => Ok [MOpenID (ParseStringOrDefault c "issuer" "") (ParseStringOrDefault c "audience" "")
              (ParseStringOrDefault c "header" "Authorization") (ParseStringOrDefault c "prefix" "Bearer ")
              (ParseStringOrDefault c "algorithm" "RS256") keys (ParseBool c "remove_header" false)]
          end) as ->.
  { unfold build_openid. destruct (ParseStringSlice c "keys") as [[|k ks]|]; [done|by destruct (Hk k ks)|done]. }
  unfold provider, GetJWKSPEM. rewrite Hd, Hf.
  assert (∀ keys, convert_keys IsPrint corrupt MarshalPKIXPublicKey pem_PublicKey unmarshal_jwk 0 raws = Ok keys ↔
            Forall2 (λ raw pem, ∃ k pk pk' der, unmarshal_jwk raw = Ok k ∧ denotes k pk ∧ kept pk = Some pk' ∧ MarshalPKIXPublicKey pk' = Ok der ∧
              pem = pem_PublicKey der) raws keys) as Hc.
  { intros keys. rewrite convert_keys_Ok. split; (intros H; eapply Forall2_impl; [exact H|]; intros raw pem; unfold converts).
    - intros (k & H1 & (pk & pk' & der & H2)%jwkToPEM_iff). by exists k, pk, pk', der.
    - intros (k & pk & pk' & der & H1 & H2). exists k. split; [done|]. apply jwkToPEM_iff. by exists pk, pk', der. }
  split.
  - destruct (convert_keys _ _ _ _ _ 0 raws) as [keys|] eqn:He; [|done]. intros [= <-]. exists keys. do 5 eexists.
    split; [reflexivity|]. repeat (split; [reflexivity|]). by apply Hc.
  - intros (keys & ? & ? & ? & ? & ? & -> & -> & -> & -> & -> & -> & H). apply Hc in H. by rewrite H.
Qed.

End openid.

(** ** Witnesses *)
Definition tls_listener : Listener :=
  mkListener "web" "https" ":8443" "" "" "" 0 0 (mkTLS "c" "k" "" "tls1.2" "" "" "") ∅ false None [] [] [] [].

Lemma validated_tls_listener_starts_witness :
  (∃ p, startListener sample_externals (λ _, None) (downstream_error toy_world toy_x509) (dynamic_error toy_world toy_x509)
          tls_listener = Ok p) ↔
  (∃ mws, buildMiddlewareForListener sample_externals [] = Ok mws) ∧ pair_loads toy_world toy_x509 (ln_TLS tls_listener).
Proof.
  apply (validated_tls_listener_starts sample_externals (λ _, None) toy_world toy_x509 (λ _, None) (λ _, None) (λ _, None) 0
           tls_listener (mkSeen [] [])); [vm_compute; reflexivity|reflexivity].
Defined.

Definition issuer_config : config_map := [("issuer", VString "https://id.example/")].

