(* ===== verification/Tunnel.v ===== *)
(** * Tunnels and accept loops

    Models the relays of [pkg/backend/backend.go] (Connect),
    [pkg/listener/proxy.go] (serveConnect), [pkg/listener/socks5.go] and
    [pkg/listener/tcp.go]: two goroutines that copy a stream in each direction,
    pass the end of a stream on where the connection can be closed for writing
    only, and the two deferred [Close]s once both have ended.

    The two peers, the network and the goroutines take turns in any order: a run
    is a list of events, [turn] is one of them.  A peer sends its stream in chunks
    of any size; a peer that waits ([p_waits]) ends its own stream only after it
    saw the end of the other one.

    The last part is the accept loop of the SOCKS5 listener, next to the one of
    [Tcp]. *)

From S2P Require Import Prelude GoStd GoHttp Backend Config Socks5 ForwardProxy Tcp.
Open Scope nat_scope.

(** ** Connections and half-closing *)
Inductive connKind : Type :=
  | TCPConn | UnixConn | TLSConn        (* have CloseWrite *)
  | bufferedConn | limitedConn | multiConn | bufferedProxyConn.   (* embed net.Conn, which has not *)
#[export] Instance connKind_eq : EqDecision connKind.
Proof. solve_decision. Defined.

(** Whether [closeWrite] does something: the type assertion on [CloseWrite]. *)
Definition closeWrite (k : connKind) : bool :=
  match k with
  | TCPConn | UnixConn | TLSConn => true
  | bufferedConn | limitedConn | multiConn | bufferedProxyConn => false
  end.

(** What [Accept] of [newLimitedListener] returns for a connection of kind [raw]. *)
Definition newLimitedListener (limit : Z) (raw : connKind) : connKind := if (limit <=? 0)%Z then raw else limitedConn.

(** The client connection [handleTCPConnection] relays: TLS wraps the accepted
    one, and the check of the first bytes wraps either. *)
Definition tcp_clientConn (limit : Z) (tls : bool) (checks : list TCPByteCheck) (raw : connKind) : connKind :=
  let conn := newLimitedListener limit raw in
  let conn := if tls then TLSConn else conn in
  match checks with [] => conn | _ => bufferedConn end.

(** The connection [dialCascade] returns for a route ([early]: what the next proxy
    sent along with its answer, which [dialHTTPProxy] has then buffered).  The
    SOCKS5 dialer of x/net returns the connection to the proxy itself. *)
Definition dialCascade_conn (r : route) (early : string) : connKind :=
  match r with
  | Direct _ | ViaSOCKS5 _ _ _ => TCPConn
  | ViaHTTP _ tls _ => if negb (String.eqb early "") then bufferedProxyConn else if tls then TLSConn else TCPConn
  end.

(** ** One direction *)
Record flow : Type := mkFlow {
  f_rest : string;      (* what the sender has still to send *)
  f_fin : bool;         (* the sender has ended its stream *)
  f_wire : string;      (* sent, not yet read by the goroutine *)
  f_done : bool;        (* the goroutine has ended *)
  f_broken : bool;      (* io.Copy ended with an error *)
  f_got : string;       (* what the receiver got *)
  f_eof : bool;         (* the receiver saw the end of the stream *)
  f_closer : bool;      (* the receiver's connection can be closed for writing *)
}.

(** The sender sends [n] bytes. *)
Definition f_send (n : nat) (f : flow) : option flow :=
  if (0 <? n) && (n <=? String.length (f_rest f)) && negb (f_fin f)
  then Some (mkFlow (drop n (f_rest f)) (f_fin f) (f_wire f +:+ take n (f_rest f)) (f_done f) (f_broken f) (f_got f) (f_eof f) (f_closer f))
  else None.

(** The sender ends its stream. *)
Definition f_end (may_end : bool) (f : flow) : option flow :=
  if String.eqb (f_rest f) "" && negb (f_fin f) && may_end
  then Some (mkFlow (f_rest f) true (f_wire f) (f_done f) (f_broken f) (f_got f) (f_eof f) (f_closer f))
  else None.

(** One round of [io.Copy] that carries [n] bytes. *)
Definition f_copy (n : nat) (f : flow) : option flow :=
  if (0 <? n) && (n <=? String.length (f_wire f)) && negb (f_done f)
  then Some (mkFlow (f_rest f) (f_fin f) (drop n (f_wire f)) (f_done f) (f_broken f) (f_got f +:+ take n (f_wire f)) (f_eof f) (f_closer f))
  else None.

(** What the goroutine does after [io.Copy] returned: [closeWrite], then it ends. *)
Definition f_finish (broken : bool) (f : flow) : flow :=
  mkFlow (f_rest f) (f_fin f) (f_wire f) true broken (f_got f) (f_closer f) (f_closer f).

(** [io.Copy] returns at the end of the stream, *)
Definition f_copied (f : flow) : option flow :=
  if negb (f_done f) && String.eqb (f_wire f) "" && f_fin f then Some (f_finish false f) else None.
(** or with an error, of reading or of writing, whose value is dropped. *)
Definition f_fail (f : flow) : option flow := if negb (f_done f) then Some (f_finish true f) else None.

(** The connections are closed. *)
Definition f_close (f : flow) : flow :=
  mkFlow (f_rest f) (f_fin f) (f_wire f) (f_done f) (f_broken f) (f_got f) true (f_closer f).

(** ** The relay *)
Record tunnel : Type := mkTunnel { t_up : flow; t_down : flow; t_closed : bool }.
(** Whether the client and the server wait for the end of the other's stream. *)
Record peers : Type := mkPeers { client_waits : bool; server_waits : bool }.

Inductive dir : Type := Up | Down.
Inductive event : Type :=
  | ESend (d : dir) (n : nat) | EEnd (d : dir)       (* the peers *)
  | ECopy (d : dir) (n : nat) | ECopied (d : dir) | EFail (d : dir)   (* the goroutines *)
  | EClose.                                           (* wait.Wait returned *)

Definition on_dir (d : dir) (g : flow → option flow) (t : tunnel) : option tunnel :=
  match d with
  | Up => f ← g (t_up t); Some (mkTunnel f (t_down t) (t_closed t))
  | Down => f ← g (t_down t); Some (mkTunnel (t_up t) f (t_closed t))
  end.
Definition may_end (p : peers) (d : dir) (t : tunnel) : bool :=
  match d with
  | Up => negb (client_waits p) || f_eof (t_down t)
  | Down => negb (server_waits p) || f_eof (t_up t)
  end.

(** One event; none after the connections were closed. *)
Definition turn (p : peers) (e : event) (t : tunnel) : option tunnel :=
  if t_closed t then None
  else match e with
       | ESend d n => on_dir d (f_send n) t
       | EEnd d => on_dir d (f_end (may_end p d t)) t
       | ECopy d n => on_dir d (f_copy n) t
       | ECopied d => on_dir d f_copied t
       | EFail d => on_dir d f_fail t
       | EClose => if f_done (t_up t) && f_done (t_down t)
                   then Some (mkTunnel (f_close (t_up t)) (f_close (t_down t)) true) else None
       end.

Fixpoint run (p : peers) (es : list event) (t : tunnel) : option tunnel :=
  match es with [] => Some t | e :: es => t' ← turn p e t; run p es t' end.

Definition no_failure (e : event) : Prop := match e with EFail _ => False | _ => True end.
(** Nothing more happens, unless a connection fails. *)
Definition at_rest (p : peers) (t : tunnel) : Prop := ∀ e, no_failure e → turn p e t = None.

(** ** How each tunnel starts

    [stream] is what the client sends after the handshake of its protocol,
    [reply] what the server sends. *)
Definition fresh (stream got : string) (closer : bool) : flow := mkFlow stream false "" false false got false closer.

(** [handleTCPConnection]: the bytes read for the checks and the TLS hello are
    read again by the relay; the connection to the backend is a TCP or a TLS one. *)
Definition tcp_tunnel (clientConn : connKind) (stream reply : string) : tunnel :=
  mkTunnel (fresh stream "" true) (fresh reply "" (closeWrite clientConn)) false.

(** [handleSOCKS5Connection]: the request is read from the connection itself. *)
Definition socks5_tunnel (stream reply : string) : tunnel :=
  mkTunnel (fresh stream "" true) (fresh reply "" true) false.

(** [forwardProxy.serveConnect]: what the HTTP server has already read
    ([buffered]) is written to the upstream before the relay starts; what the next
    proxy sent early is read by the relay. *)
Definition serveConnect_tunnel (client upstream : connKind) (buffered stream reply : string) : tunnel :=
  mkTunnel (fresh stream buffered (closeWrite upstream)) (fresh reply "" (closeWrite client)) false.

(** [Backend.Connect]: the relay reads the connection, not the buffer. *)
Definition Connect_tunnel (client : connKind) (buffered stream reply : string) : tunnel :=
  mkTunnel (fresh stream "" true) (fresh reply "" (closeWrite client)) false.

(** ** What holds in every state

    [s] is all that the receiver is to get. *)
Record finv (s : string) (f : flow) : Prop := {
  fi_bytes : f_got f +:+ f_wire f +:+ f_rest f = s;
  fi_fin : f_fin f = true → f_rest f = "";
  fi_done : f_done f = true → f_broken f = false → f_fin f = true ∧ f_wire f = "";
}.
(** Before the end, a receiver sees the end of a stream exactly when the goroutine
    has ended and could pass it on. *)
Definition half_closed (f : flow) : Prop := f_eof f = f_done f && f_closer f.
Record tinv (up down : string) (t : tunnel) : Prop := {
  ti_up : finv up (t_up t);
  ti_down : finv down (t_down t);
  ti_closed : t_closed t = true → f_done (t_up t) = true ∧ f_done (t_down t) = true;
  ti_half : t_closed t = false → half_closed (t_up t) ∧ half_closed (t_down t);
}.

(** The steps of one direction keep [finv] and [half_closed]; none of them is
    taken after the goroutine ended but those of the sender. *)
Definition keeps (g : flow → option flow) : Prop :=
  ∀ s f f', g f = Some f' → finv s f → half_closed f → finv s f' ∧ half_closed f' ∧ f_closer f' = f_closer f.

(** The guard of a step that was taken, as facts. *)
Ltac by_guard H :=
  match type of H with (if ?g then _ else _) = Some _ =>
    let Hg := fresh "Hg" in
    destruct g eqn:Hg; [|discriminate H]; injection H as <-;
    rewrite ?andb_true_iff, ?negb_true_iff, ?Nat.ltb_lt, ?Nat.leb_le, ?String.eqb_eq in Hg; destruct_and? Hg
  end.

Lemma send_keeps n : keeps (f_send n).
Proof.
  intros s f f' H [Hb Hf Hd] Hh. unfold f_send in H. by_guard H. split; [|done]. split; simpl; [|congruence|].
  - by rewrite string_app_assoc, take_drop_app.
  - intros Hd' Hb'. destruct (Hd Hd' Hb'). congruence.
Qed.

Lemma end_keeps b : keeps (f_end b).
Proof.
  intros s f f' H [Hb Hf Hd] Hh. unfold f_end in H. by_guard H. split; [|done]. split; simpl; [done|done|].
  intros Hd' Hb'. by destruct (Hd Hd' Hb').
Qed.

Lemma copy_keeps n : keeps (f_copy n).
Proof.
  intros s f f' H [Hb Hf Hd] Hh. unfold f_copy in H. by_guard H. split; [|done]. split; simpl; [|done|congruence].
  by rewrite string_app_assoc, <- (string_app_assoc (take _ _)), take_drop_app.
Qed.

Lemma finish_keeps broken s f : finv s f → (broken = false → f_fin f = true ∧ f_wire f = "") →
  finv s (f_finish broken f) ∧ half_closed (f_finish broken f) ∧ f_closer (f_finish broken f) = f_closer f.
Proof. intros [Hb Hf Hd] Hn. by repeat split; try done; intros; apply Hn. Qed.

Lemma copied_keeps : keeps f_copied.
Proof. intros s f f' H Hf Hh. unfold f_copied in H. by_guard H. by apply finish_keeps. Qed.

Lemma fail_keeps : keeps f_fail.
Proof. intros s f f' H Hf Hh. unfold f_fail in H. by_guard H. by apply finish_keeps. Qed.
#[local] Hint Resolve send_keeps end_keeps copy_keeps copied_keeps fail_keeps : gorp.

Lemma on_dir_keeps d g up down t t' :
  keeps g → t_closed t = false → on_dir d g t = Some t' → tinv up down t → tinv up down t'.
Proof.
  intros Hg Hc H [Hu Hd Hcl Hh]. destruct (Hh Hc) as [Hhu Hhd].
  destruct d; simpl in H; apply bind_Some in H as (f & Hf & [= <-]).
  - destruct (Hg up _ _ Hf Hu Hhu) as (? & ? & _). split; simpl; [done|done|congruence|done].
  - destruct (Hg down _ _ Hf Hd Hhd) as (? & ? & _). split; simpl; [done|done|congruence|done].
Qed.

Lemma close_inv s f : finv s f → finv s (f_close f).
Proof. by intros []. Qed.

Lemma turn_inv p e up down t t' : turn p e t = Some t' → tinv up down t → tinv up down t'.
Proof.
  intros H Ht. unfold turn in H. destruct (t_closed t) eqn:Hc; [discriminate|].
  destruct e; cbv beta iota in H; try (refine (on_dir_keeps _ _ _ _ _ _ _ Hc H Ht); auto with gorp; fail). by_guard H. destruct Ht. split; simpl; auto using close_inv; done.
Qed.

Lemma run_inv p es up down t t' : run p es t = Some t' → tinv up down t → tinv up down t'.
Proof.
  revert t. induction es as [|e es IH]; intros t H Ht; simpl in H; [by injection H as <-|].
  apply bind_Some in H as (t1 & He & Hr). eauto using turn_inv.
Qed.

(** The four tunnels, with all that the client and the server send after the
    handshake: what the HTTP server read along with the request counts.
    [Backend.Connect] is here for clients that send nothing before they have the
    answer; [connect_early_bytes] is about the others. *)
Inductive starts : string → string → tunnel → Prop :=
  | start_tcp k stream reply : starts stream reply (tcp_tunnel k stream reply)
  | start_socks5 stream reply : starts stream reply (socks5_tunnel stream reply)
  | start_serveConnect k u buffered stream reply :
      starts (buffered +:+ stream) reply (serveConnect_tunnel k u buffered stream reply)
  | start_Connect k stream reply : starts stream reply (Connect_tunnel k "" stream reply).

Lemma starts_inv up down t : starts up down t → tinv up down t.
Proof. by destruct 1; repeat split. Qed.
#[local] Hint Resolve starts_inv : gorp.

Lemma got_prefix s f : finv s f → ∃ r, f_got f +:+ r = s.
Proof. intros [Hb _ _]. eauto. Qed.

Lemma got_all s f : finv s f → f_done f = true → f_broken f = false → f_got f = s.
Proof.
  intros [Hb Hf Hd] H1 H2. destruct (Hd H1 H2) as [Hfin Hw]. rewrite Hw, (Hf Hfin) in Hb. by rewrite string_app_nil_r in Hb.
Qed.

Lemma eof_done up down t : tinv up down t →
  (f_eof (t_up t) = true → f_done (t_up t) = true) ∧ (f_eof (t_down t) = true → f_done (t_down t) = true).
Proof.
  intros [_ _ Hc Hh]. destruct (t_closed t); [by destruct Hc|]. unfold half_closed in Hh. destruct Hh as [-> ->]; [done|].
  by rewrite !andb_true_iff; split; intros [].
Qed.

(** ** No run is endless *)
Definition weight (f : flow) : nat :=
  2 * String.length (f_rest f) + String.length (f_wire f) + Nat.b2n (negb (f_fin f)) + Nat.b2n (negb (f_done f)).
Definition t_weight (t : tunnel) : nat := weight (t_up t) + weight (t_down t) + Nat.b2n (negb (t_closed t)).

Definition lighter (g : flow → option flow) : Prop := ∀ f f', g f = Some f' → weight f' < weight f.

Lemma send_lighter n : lighter (f_send n).
Proof.
  intros f f' H. unfold f_send in H. by_guard H. unfold weight. simpl. rewrite length_drop, string_length_app, length_take by done. lia.
Qed.
Lemma end_lighter b : lighter (f_end b).
Proof. intros f f' H. unfold f_end in H. by_guard H. unfold weight. simpl. replace (f_fin f) with false by done. simpl. lia. Qed.
Lemma copy_lighter n : lighter (f_copy n).
Proof. intros f f' H. unfold f_copy in H. by_guard H. unfold weight. simpl. rewrite length_drop. lia. Qed.
Lemma finish_lighter b f : f_done f = false → weight (f_finish b f) < weight f.
Proof. intros Hd. unfold weight. simpl. rewrite Hd. simpl. lia. Qed.
Lemma copied_lighter : lighter f_copied.
Proof. intros f f' H. unfold f_copied in H. by_guard H. by apply finish_lighter. Qed.
Lemma fail_lighter : lighter f_fail.
Proof. intros f f' H. unfold f_fail in H. by_guard H. by apply finish_lighter. Qed.
#[local] Hint Resolve send_lighter end_lighter copy_lighter copied_lighter fail_lighter : gorp.

Lemma on_dir_lighter d g t t' : lighter g → on_dir d g t = Some t' → t_weight t' < t_weight t.
Proof.
  intros Hg H. destruct d; simpl in H; apply bind_Some in H as (f & Hf & [= <-]); apply Hg in Hf; unfold t_weight; simpl; lia.
Qed.

Lemma turn_lighter p e t t' : turn p e t = Some t' → t_weight t' < t_weight t.
Proof.
  intros H. unfold turn in H. destruct (t_closed t) eqn:Hc; [discriminate|].
  destruct e; cbv beta iota in H; try (refine (on_dir_lighter _ _ _ _ _ H); auto with gorp; fail).
  by_guard H. unfold t_weight, weight. simpl. rewrite Hc. simpl. lia.
Qed.

Lemma run_bound p es t t' : run p es t = Some t' → length es + t_weight t' ≤ t_weight t.
Proof.
  revert t. induction es as [|e es IH]; intros t H; simpl in H; [injection H as <-; simpl; lia|].
  apply bind_Some in H as (t1 & He & Hr). apply turn_lighter in He. apply IH in Hr. simpl. lia.
Qed.

(** ** Runs without failures *)
Definition flow_of (d : dir) (t : tunnel) : flow := match d with Up => t_up t | Down => t_down t end.
Definition unbroken (t : tunnel) : Prop := ∀ d, f_broken (flow_of d t) = false.
Definition same_closers (t t' : tunnel) : Prop := ∀ d, f_closer (flow_of d t') = f_closer (flow_of d t).

Lemma on_dir_flows d g t t' : on_dir d g t = Some t' →
  ∃ f, g (flow_of d t) = Some f ∧ ∀ d', flow_of d' t' = match d, d' with Up, Up | Down, Down => f | _, _ => flow_of d' t end.
Proof. destruct d; simpl; intros (f & Hf & [= <-])%bind_Some; exists f; (split; [done|]); by intros []. Qed.

Lemma turn_unbroken p e t t' : turn p e t = Some t' → no_failure e → unbroken t → unbroken t' ∧ same_closers t t'.
Proof.
  intros H Hn Hu. unfold turn in H. destruct (t_closed t) eqn:Hc; [discriminate|]. unfold unbroken, same_closers.
  destruct e as [d n|d|d n|d|d|]; cbv beta iota in H; try done;
    try (apply on_dir_flows in H as (f & Hf & Ht'); unfold f_send, f_end, f_copy, f_copied in Hf; by_guard Hf;
         specialize (Hu d) as Hud; split; intros d'; rewrite Ht'; destruct d, d'; done || apply Hu).
  by_guard H. specialize (Hu Up) as H1. specialize (Hu Down) as H2. by split; intros [].
Qed.

Lemma run_unbroken p es t t' : run p es t = Some t' → Forall no_failure es → unbroken t → unbroken t' ∧ same_closers t t'.
Proof.
  intros H Hn. revert t H. induction Hn as [|e es He _ IH]; intros t H Hu; simpl in H; [by injection H as <-|].
  apply bind_Some in H as (t1 & H1 & Hr). destruct (turn_unbroken _ _ _ _ H1 He Hu) as [Hu1 Hc1].
  destruct (IH _ Hr Hu1) as [? Hc2]. split; [done|]. intros d. by rewrite Hc2, Hc1.
Qed.

(** At rest, a goroutine has ended or its sender waits. *)
Lemma turn_None_dir p e d g t :
  at_rest p t → no_failure e → t_closed t = false → (turn p e t = on_dir d g t) → g (flow_of d t) = None.
Proof.
  intros Hr Hn Hc He. specialize (Hr e Hn). rewrite He in Hr. destruct d; simpl in *; by destruct (g _).
Qed.

Lemma string_eqb_length s : String.eqb s "" = false → 0 < String.length s.
Proof. destruct s; [done|]. simpl. lia. Qed.

Lemma rest_flow p d t : at_rest p t → t_closed t = false → f_done (flow_of d t) = true ∨ may_end p d t = false.
Proof.
  intros Hr Hc. set (f := flow_of d t).
  assert (f_send (String.length (f_rest f)) f = None) as Hs
    by (apply (turn_None_dir p (ESend d (String.length (f_rest f))) d _ t); [done|done|done|unfold turn; by rewrite Hc]).
  assert (f_end (may_end p d t) f = None) as He by (apply (turn_None_dir p (EEnd d) d _ t); [done|done|done|unfold turn; by rewrite Hc]).
  assert (f_copy (String.length (f_wire f)) f = None) as Hw
    by (apply (turn_None_dir p (ECopy d (String.length (f_wire f))) d _ t); [done|done|done|unfold turn; by rewrite Hc]).
  assert (f_copied f = None) as Hd by (apply (turn_None_dir p (ECopied d) d _ t); [done|done|done|unfold turn; by rewrite Hc]).
  clearbody f. unfold f_send, f_end, f_copy, f_copied in *. rewrite !Nat.leb_refl in *.
  destruct (f_done f); [by left|]. right. destruct (String.eqb (f_wire f) "") eqn:Hwe.
  - destruct (f_fin f); [done|]. destruct (may_end p d t); [|done]. destruct (String.eqb (f_rest f) "") eqn:Hre; [done|].
    apply string_eqb_length, Nat.ltb_lt in Hre. by rewrite Hre in Hs.
  - apply string_eqb_length, Nat.ltb_lt in Hwe. by rewrite Hwe in Hw.
Qed.

(** The peers do not both wait, and one that waits can be told of the end. *)
Definition can_end (p : peers) (t : tunnel) : Prop :=
  client_waits p && server_waits p = false ∧
  (client_waits p = true → f_closer (t_down t) = true) ∧ (server_waits p = true → f_closer (t_up t) = true).

Lemma can_end_closers p t t' : same_closers t t' → can_end p t → can_end p t'.
Proof. intros Hk (Hb & Hd & Hu). split; [done|]. specialize (Hk Up) as Ku. specialize (Hk Down) as Kd. simpl in *. by rewrite Ku, Kd. Qed.

Lemma rest_closed p up down t : tinv up down t → can_end p t → at_rest p t → t_closed t = true.
Proof.
  intros Ht (Hb & Hcl & Hcu) Hr. destruct (t_closed t) eqn:Hc; [done|]. exfalso.
  destruct (ti_half _ _ _ Ht Hc) as [Hhu Hhd]. unfold half_closed in *.
  pose proof (rest_flow p Up t Hr Hc) as H1. pose proof (rest_flow p Down t Hr Hc) as H2. simpl in H1, H2.
  rewrite Hhu in H2. rewrite Hhd in H1. specialize (Hr EClose I). unfold turn in Hr. rewrite Hc in Hr.
  destruct (client_waits p), (server_waits p), (f_done (t_up t)), (f_done (t_down t)); simpl in *; try done; try (rewrite Hcl in H1 by done); try (rewrite Hcu in H2 by done); by destruct H1, H2.
Qed.

Lemma starts_unbroken up down t : starts up down t → unbroken t.
Proof. by destruct 1; intros []. Qed.

(** The state of a run without failures from the start of a tunnel. *)
Lemma run_state p es up down t t' : starts up down t → run p es t = Some t' → Forall no_failure es →
  tinv up down t' ∧ unbroken t' ∧ same_closers t t'.
Proof.
  intros Hs Hr Hn. split; [by eauto using run_inv with gorp|]. by apply (run_unbroken p es); eauto using starts_unbroken.
Qed.

Definition opposite (d : dir) : dir := match d with Up => Down | Down => Up end.
Definition waits (p : peers) (d : dir) : bool := match d with Up => client_waits p | Down => server_waits p end.

Lemma may_end_waits p d t : waits p d = true → may_end p d t = f_eof (flow_of (opposite d) t).
Proof. by destruct d; simpl; intros ->. Qed.

Lemma flow_inv up down d t : tinv up down t → t_closed t = false →
  (f_done (flow_of d t) = true → f_broken (flow_of d t) = false → f_fin (flow_of d t) = true) ∧ half_closed (flow_of d t).
Proof.
  intros Ht Hc. destruct (ti_half _ _ _ Ht Hc) as [Hu Hd]. destruct d; (split; [|done]); intros H1 H2.
  - by destruct (fi_done _ _ (ti_up _ _ _ Ht) H1 H2).
  - by destruct (fi_done _ _ (ti_down _ _ _ Ht) H1 H2).
Qed.

(** A peer that waits for an end it is not told of does not end its stream, and
    the connections stay open. *)
Lemma stuck_turn p d e up down t t' :
  waits p d = true → f_closer (flow_of (opposite d) t) = false → turn p e t = Some t' → no_failure e →
  tinv up down t → unbroken t → t_closed t = false → f_fin (flow_of d t) = false →
  t_closed t' = false ∧ f_fin (flow_of d t') = false.
Proof.
  intros Hw Hk H Hn Ht Hu Hc Hf. destruct (flow_inv _ _ (opposite d) _ Ht Hc) as [_ Hh]. unfold half_closed in Hh.
  rewrite Hk, andb_false_r in Hh. unfold turn in H. rewrite Hc in H. destruct e as [d' n|d'|d' n|d'|d'|]; cbv beta iota in H; try done.
  1-4: (split; [by destruct d'; apply bind_Some in H as (f & _ & [= <-])|];
        apply on_dir_flows in H as (f & Hg & Ht'); rewrite Ht';
        destruct d, d'; try done; rewrite ?may_end_waits in Hg by done; simpl in *;
        unfold f_send, f_end, f_copy, f_copied in Hg; rewrite ?Hh, ?andb_false_r in Hg; try done; by_guard Hg; done).
  by_guard H. destruct (flow_inv _ _ d _ Ht Hc) as [Hd _]. rewrite Hd in Hf; [done| |apply Hu]. by destruct d.
Qed.

Lemma stuck p d es up down t t' :
  waits p d = true → f_closer (flow_of (opposite d) t) = false →
  run p es t = Some t' → Forall no_failure es → tinv up down t → unbroken t → t_closed t = false → f_fin (flow_of d t) = false →
  t_closed t' = false.
Proof.
  intros Hw Hk Hr Hn. revert t Hk Hr. induction Hn as [|e es He _ IH]; intros t Hk Hr Ht Hu Hc Hf; simpl in Hr; [by injection Hr as <-|].
  apply bind_Some in Hr as (t1 & H1 & Hr). destruct (turn_unbroken _ _ _ _ H1 He Hu) as [Hu1 Hc1].
  destruct (stuck_turn p d e up down t t1) as [Hc2 Hf2]; try done.
  apply (IH t1); [by rewrite Hc1|done|by eapply turn_inv|done|done|done].
Qed.

(** When one of the peers waits, whether the tunnel ends depends on whether the
    waiting peer can be told of the end of the other's stream. *)
Lemma rest_closed_iff p d es up down t0 t :
  starts up down t0 → waits p d = true → waits p (opposite d) = false →
  run p es t0 = Some t → Forall no_failure es → at_rest p t →
  (t_closed t = true ↔ f_closer (flow_of (opposite d) t0) = true).
Proof.
  intros Hs Hw Hw' Hr Hn Hrest. destruct (run_state _ _ _ _ _ _ Hs Hr Hn) as (Ht & Hu & Hcl). split; intros H.
  - destruct (f_closer _) eqn:Hk; [done|]. apply (stuck p d es up down t0 t Hw Hk) in Hr;
      eauto using starts_inv, starts_unbroken; [congruence|by destruct Hs|by destruct Hs, d].
  - apply (rest_closed p _ _ _ Ht); [|done]. unfold can_end. pose proof (Hcl (opposite d)) as Hk. rewrite H in Hk.
    destruct d; simpl in *; rewrite Hw, Hw'; done.
Qed.

(** ** Theorems *)

(** C30: a tunnel invents, reorders and drops nothing.  However the two peers, the
    network and the goroutines interleave, and whatever fails, each side has got a
    prefix of what the other sent; and a side that was told of the end of the
    stream, when the copy did not fail, has got all of it.  This is so for the
    tunnels of TCP, SOCKS5 and forward proxy listeners, and for those of
    [Backend.Connect] when the client sent nothing right behind its request. *)
Theorem relay_faithful (p : peers) (es : list event) (up down : string) (t t' : tunnel) :
  starts up down t → run p es t = Some t' →
  (∃ r, f_got (t_up t') +:+ r = up) ∧ (∃ r, f_got (t_down t') +:+ r = down) ∧
  (f_eof (t_up t') = true → f_broken (t_up t') = false → f_got (t_up t') = up) ∧
  (f_eof (t_down t') = true → f_broken (t_down t') = false → f_got (t_down t') = down).
Proof.
  intros Hs Hr. assert (tinv up down t') as Ht by eauto using run_inv with gorp.
  destruct (eof_done _ _ _ Ht) as [Hu Hd]. destruct Ht as [Hiu Hid _ _]. eauto 10 using got_prefix, got_all.
Qed.

(** C31: a tunnel comes to its end.  Every run, with failures or without, is
    bounded by the bytes to carry; and when no connection fails, the peers do not
    both wait for the other to end and a peer that waits is reached by a half-close,
    a run that cannot be continued has closed both connections, and each side got
    all that the other sent (through [Backend.Connect], when the client sent nothing
    right behind its request). *)
Theorem tunnel_completes (p : peers) (es : list event) (up down : string) (t t' : tunnel) :
  starts up down t → run p es t = Some t' →
  length es ≤ 2 * String.length up + 2 * String.length down + 5 ∧
  (can_end p t → Forall no_failure es → at_rest p t' →
   t_closed t' = true ∧ f_got (t_up t') = up ∧ f_got (t_down t') = down).
Proof.
  intros Hs Hr. split.
  - apply run_bound in Hr. destruct Hs; unfold t_weight, weight in Hr; simpl in Hr; rewrite ?string_length_app; lia.
  - intros Hc Hn Hrest. destruct (run_state p es _ _ _ _ Hs Hr Hn) as (Ht & Hu & Hk).
    apply (can_end_closers _ _ _ Hk) in Hc.
    pose proof (rest_closed _ _ _ _ Ht Hc Hrest) as Hcl. destruct (ti_closed _ _ _ Ht Hcl).
    split; [done|]. split; (eapply got_all; [apply Ht|done|apply (Hu Up) || apply (Hu Down)]).
Qed.

(** C40: the end of a backend's stream is passed on to a client of a TCP listener
    only where its connection was not wrapped.  Take a client that waits for it
    before it ends its own stream, and any run without failures that cannot be
    continued: it ends with the connections closed exactly when the listener checks
    no first bytes and, unless it terminates TLS, has no limit of connections.
    Otherwise both connections stay open for good. *)
Theorem tcp_half_close (limit : Z) (tls : bool) (checks : list TCPByteCheck) (raw : connKind) (stream reply : string)
    (es : list event) (t : tunnel) :
  raw = TCPConn ∨ raw = UnixConn →
  run (mkPeers true false) es (tcp_tunnel (tcp_clientConn limit tls checks raw) stream reply) = Some t →
  Forall no_failure es → at_rest (mkPeers true false) t →
  (t_closed t = true ↔ checks = [] ∧ (tls = true ∨ (limit ≤ 0)%Z)).
Proof.
  intros Hraw Hr Hn Hrest.
  rewrite (rest_closed_iff (mkPeers true false) Up _ _ _ _ _ (start_tcp _ stream reply) eq_refl eq_refl Hr Hn Hrest). simpl.
  unfold tcp_clientConn, newLimitedListener. destruct checks as [|c cs]; [|naive_solver].
  destruct tls; [naive_solver|]. destruct (Z.leb_spec limit 0); destruct Hraw as [Hraw|Hraw]; rewrite ?Hraw; simpl; naive_solver lia.
Qed.

(** The same holds for a server behind a proxy cascade that ends its stream only
    after the client's: the tunnel of a forward proxy comes to an end exactly when
    the target is not reached through an HTTP proxy, or that proxy sent nothing
    together with its answer. *)
Theorem cascade_half_close (client : connKind) (r : route) (early buffered stream reply : string) (es : list event) (t : tunnel) :
  run (mkPeers false true) es (serveConnect_tunnel client (dialCascade_conn r early) buffered stream reply) = Some t →
  Forall no_failure es → at_rest (mkPeers false true) t →
  (t_closed t = true ↔ early = "" ∨ ∀ h s q, r ≠ ViaHTTP h s q).
Proof.
  intros Hr Hn Hrest.
  rewrite (rest_closed_iff (mkPeers false true) Down _ _ _ _ _ (start_serveConnect client _ buffered stream reply) eq_refl eq_refl Hr Hn Hrest). simpl.
  destruct r as [target|h a target|h s q]; simpl; [naive_solver..|].
  destruct (String.eqb_spec early "") as [->|He]; simpl; [destruct s; naive_solver|]. split; [done|]. intros [H|H]; [done|by destruct (H h s q)].
Qed.

(** What a client sends right behind its CONNECT request reaches the server
    through a forward proxy, but is lost on the way to a backend: the HTTP server
    has read it with the request, and [Backend.Connect] relays the connection
    without the buffer. *)
Theorem connect_early_bytes (k u : connKind) (p : peers) (buffered stream reply : string) (es es' : list event) (t t' : tunnel) :
  run p es (serveConnect_tunnel k u buffered stream reply) = Some t → Forall no_failure es →
  run p es' (Connect_tunnel k buffered stream reply) = Some t' → Forall no_failure es' →
  t_closed t = true → t_closed t' = true →
  f_got (t_up t) = buffered +:+ stream ∧ f_got (t_up t') = stream ∧
  f_got (t_down t) = reply ∧ f_got (t_down t') = reply.
Proof.
  intros H1 Hn1 H2 Hn2 Hc1 Hc2.
  destruct (run_state _ _ _ _ _ _ (start_serveConnect k u buffered stream reply) H1 Hn1) as (Ht1 & Hu1 & _).
  destruct (run_state _ _ _ _ _ _ (start_Connect k stream reply) H2 Hn2) as (Ht2 & Hu2 & _).
  destruct (ti_closed _ _ _ Ht1 Hc1), (ti_closed _ _ _ Ht2 Hc2).
  repeat split; (eapply got_all; [first [apply Ht1 | apply Ht2]|done|first [apply (Hu1 Up) | apply (Hu1 Down) | apply (Hu2 Up) | apply (Hu2 Down)]]).
Qed.

(** ** Witnesses *)

(** A client that sends [ab] and waits, a server that replies [c] and ends. *)
Definition sample_run : list event :=
  [ESend Up 1; ECopy Up 1; ESend Down 1; EEnd Down; ESend Up 1; ECopy Down 1; ECopy Up 1; ECopied Down; EEnd Up; ECopied Up; EClose].
Definition waiting_client : peers := mkPeers true false.
Definition sample_end (t : tunnel) : tunnel := match run waiting_client sample_run t with Some t' => t' | None => t end.

Lemma closed_at_rest p t : t_closed t = true → at_rest p t.
Proof. intros H e _. unfold turn. by rewrite H. Qed.

Lemma sample_run_clean : Forall no_failure sample_run.
Proof. by repeat constructor. Qed.

Lemma relay_faithful_witness : ∃ r, f_got (t_up (sample_end (socks5_tunnel "ab" "c"))) +:+ r = "ab".
Proof.
  destruct (relay_faithful waiting_client sample_run "ab" "c" (socks5_tunnel "ab" "c") (sample_end (socks5_tunnel "ab" "c")))
    as [H _]; [apply start_socks5|reflexivity|]. exact H.
Defined.

Lemma tunnel_completes_witness : t_closed (sample_end (socks5_tunnel "ab" "c")) = true.
Proof.
  destruct (tunnel_completes waiting_client sample_run "ab" "c" (socks5_tunnel "ab" "c") (sample_end (socks5_tunnel "ab" "c")))
    as [_ H]; [apply start_socks5|reflexivity|].
  destruct H as [H _]; [by repeat split|apply sample_run_clean|apply closed_at_rest; reflexivity|]. exact H.
Defined.

Lemma tcp_half_close_witness :
  (@nil TCPByteCheck) = [] ∧ (false = true ∨ (0 ≤ 0)%Z).
Proof.
  destruct (tcp_half_close 0 false [] TCPConn "ab" "c" sample_run (sample_end (tcp_tunnel TCPConn "ab" "c"))) as [H _];
    [left; reflexivity|reflexivity|apply sample_run_clean|apply closed_at_rest; reflexivity|].
  exact (H eq_refl).
Defined.

Definition eager_run : list event :=
  [ESend Up 1; EEnd Up; ECopy Up 1; ECopied Up; ESend Down 1; EEnd Down; ECopy Down 1; ECopied Down; EClose].
Lemma cascade_half_close_witness : "" = "" ∨ ∀ h s q, ViaHTTP "proxy:8080" false "CONNECT" ≠ ViaHTTP h s q.
Proof.
  destruct (cascade_half_close TCPConn (ViaHTTP "proxy:8080" false "CONNECT") "" "" "a" "b" eager_run
              (match run (mkPeers false true) eager_run (serveConnect_tunnel TCPConn TCPConn "" "a" "b") with
               | Some t => t | None => socks5_tunnel "" "" end)) as [H _];
    [reflexivity|by repeat constructor|apply closed_at_rest; reflexivity|]. exact (H eq_refl).
Defined.

Lemma connect_early_bytes_witness :
  f_got (t_up (sample_end (serveConnect_tunnel TLSConn TCPConn "hello" "ab" "c"))) = "helloab" ∧
  f_got (t_up (sample_end (Connect_tunnel TLSConn "hello" "ab" "c"))) = "ab".
Proof.
  destruct (connect_early_bytes TLSConn TCPConn waiting_client "hello" "ab" "c" sample_run sample_run
              (sample_end (serveConnect_tunnel TLSConn TCPConn "hello" "ab" "c")) (sample_end (Connect_tunnel TLSConn "hello" "ab" "c")))
    as (H1 & H2 & _); [reflexivity|apply sample_run_clean|reflexivity|apply sample_run_clean|reflexivity|reflexivity|].
  split; [exact H1|exact H2].
Defined.

(** ** The accept loops

    What [Accept] returned, and whether the context was cancelled then. *)
Inductive arrival : Type := AConn (c : Socks5.conn) | ATimeout (cancelled : bool) | AError (e : string) (cancelled : bool).

Definition canceled : string := "context canceled".

(** The loop of [HandleSOCKS5], over what arrives: the connections it hands to
    goroutines and what it returns, if it does. *)
Fixpoint socks5_loop (arrivals : list arrival) : list Socks5.conn * option string :=
  match arrivals with
  | [] => ([], None)
  | AConn c :: rest => let '(served, out) := socks5_loop rest in (c :: served, out)
  | ATimeout cancelled :: rest => if cancelled then ([], Some canceled) else socks5_loop rest
  | AError e cancelled :: _ => ([], Some (if cancelled then canceled else e))
  end.

(** Each connection is handled on its own, with the first map of users. *)
Definition HandleSOCKS5 (dial : Z → string → result string tcpAddr) (timeout : Z) (configuredUsers : list (gmap string string))
    (arrivals : list arrival) : list (option string * bool * Socks5.conn) * option string :=
  let timeout := if (timeout <=? 0)%Z then (30 * second)%Z else timeout in
  let '(served, out) := socks5_loop arrivals in
  (map (handleSOCKS5Connection (dial timeout) (firstUsers configuredUsers)) served, out).

(** The loop of [handleTCPListener] over the turns of [Tcp.accept_turn]. *)
Fixpoint tcp_loop (turns : list (bool * acceptResult * bool)) : list client * bool :=
  match turns with
  | [] => ([], false)
  | (before, a, after) :: rest =>
      match accept_turn before a after with
      | Stop => ([], true)
      | Again => tcp_loop rest
      | Spawn c => let '(served, stopped) := tcp_loop rest in (c :: served, stopped)
      end
  end.

Definition quiet (a : arrival) : Prop := match a with AConn _ | ATimeout false => True | _ => False end.
Definition conn_of (a : arrival) : option Socks5.conn := match a with AConn c => Some c | _ => None end.

Lemma socks5_loop_quiet before rest : Forall quiet before →
  socks5_loop (before ++ rest) = (omap conn_of before ++ (socks5_loop rest).1, (socks5_loop rest).2).
Proof.
  induction 1 as [|a before Ha _ IH]; [simpl; by destruct (socks5_loop rest) as [? ?]|]. destruct a as [c|[]|e b]; try done; cbn [app socks5_loop]. by rewrite IH.
Qed.

(** An accept that fails ends a SOCKS5 listener, but not a TCP listener.  The
    SOCKS5 loop hands over the clients that came before, returns the error (which
    the server takes for the failure of the listener) and leaves all later clients
    waiting; the TCP loop goes on to them. *)
Theorem accept_error_ends_socks5 (dial : Z → string → result string tcpAddr) (timeout : Z) (users : list (gmap string string))
    (before rest : list arrival) (e : string) (clients : list client) :
  Forall quiet before →
  HandleSOCKS5 dial timeout users (before ++ AError e false :: rest) = ((HandleSOCKS5 dial timeout users before).1, Some e) ∧
  tcp_loop ((false, AcceptError e, false) :: map (λ c, (false, Accepted c, false)) clients) = (clients, false).
Proof.
  intros Hb. split.
  - unfold HandleSOCKS5. rewrite socks5_loop_quiet by done. simpl.
    pose proof (socks5_loop_quiet before [] Hb) as H. simpl in H. rewrite !app_nil_r in *. by rewrite H.
  - simpl. induction clients as [|c cs IH]; [done|]. simpl. by rewrite IH.
Qed.

Lemma accept_error_ends_socks5_witness :
  (HandleSOCKS5 (λ _ _, Err "refused") 0 [] [AConn (mkConn "" "" []); ATimeout false; AError "accept: too many open files" false;
     AConn (mkConn "" "" [])]).2 = Some "accept: too many open files".
Proof.
  destruct (accept_error_ends_socks5 (λ _ _, Err "refused") 0 [] [AConn (mkConn "" "" []); ATimeout false] [AConn (mkConn "" "" [])]
              "accept: too many open files" []) as [H _]; [by repeat constructor|]. simpl in H. by rewrite H.
Defined.
