(* ===== verification/Metrics.v ===== *)
(** * The metrics registry

    Models [pkg/metrics/metrics.go]: the seven vectors, their registration, and the
    functions that update them.  The Prometheus client is a library: [Prometheus]
    states what is used of it, [PrometheusLaws] its documented contract, and
    [map_registry] is an instance.  What a series of a vector has been told is the
    list of its updates, oldest first.

    [Backend] and [Listeners] record observations in plain lists and maps; the
    theorems here show that the registry exposes exactly those. *)

From S2P Require Import Prelude GoStd GoHttp Backend.
Open Scope Z_scope.

(** ** The library *)
Inductive vecKind : Type := CounterVec | HistogramVec | GaugeVec.

(** [CounterOpts], [HistogramOpts], [GaugeOpts] and the names of the labels. *)
Record opts : Type := mkOpts {
  o_kind : vecKind;
  o_Namespace : string; o_Subsystem : string; o_Name : string; o_Help : string;
  o_labels : list string;
}.

(** [prometheus.BuildFQName] *)
Definition BuildFQName (namespace subsystem name : string) : string :=
  if String.eqb name "" then ""
  else match String.eqb namespace "", String.eqb subsystem "" with
       | false, false => namespace +:+ "_" +:+ subsystem +:+ "_" +:+ name
       | false, true => namespace +:+ "_" +:+ name
       | true, false => subsystem +:+ "_" +:+ name
       | true, true => name
       end.
Definition fqName (o : opts) : string := BuildFQName (o_Namespace o) (o_Subsystem o) (o_Name o).

(** What the library documents of names: a metric's is [[a-zA-Z_:][a-zA-Z0-9_:]*],
    a label's [[a-zA-Z_][a-zA-Z0-9_]*] and does not start with two underscores; the
    labels of a metric differ, and a histogram has none called "le". *)
Definition is_letter_or_ (c : ascii) : bool :=
  let n := ord c in ((97 <=? n) && (n <=? 122)) || ((65 <=? n) && (n <=? 90)) || (n =? 95).
Definition identifier (extra : ascii → bool) (s : string) : bool :=
  match s with
  | "" => false
  | String c s' => (is_letter_or_ c || extra c) && all_bytes (λ c, is_letter_or_ c || extra c || is_digit c) s'
  end.
Definition valid_metric_name : string → bool := identifier (λ c, ord c =? 58).
Definition valid_label_name (s : string) : bool := identifier (λ _, false) s && negb (String.prefix "__" s).

Definition valid_opts (o : opts) : bool :=
  valid_metric_name (fqName o) && forallb valid_label_name (o_labels o) && bool_decide (NoDup (o_labels o)) &&
  match o_kind o with HistogramVec => bool_decide ("le" ∉ o_labels o) | _ => true end.

(** Durations are kept in nanoseconds. *)
Inductive update : Type := Inc | Dec | SetTo (v : Z) | Observe (d : Z).
#[export] Instance update_eq : EqDecision update.
Proof. solve_decision. Defined.

(** The methods each kind of metric has. *)
Definition has_method (k : vecKind) (u : update) : bool :=
  match k, u with
  | CounterVec, Inc | HistogramVec, Observe _ | GaugeVec, (Inc | Dec | SetTo _) => true
  | _, _ => false
  end.

(** [None] is a panic. *)
Class Prometheus (R : Type) : Type := {
  NewRegistry : R;
  MustRegister : opts → R → option R;
  WithLabelValues : opts → list string → update → R → option R;
  exposed : R → string → bool;                         (* the registered vectors, whose series the handler shows *)
  series : R → string → list string → list update;
  valid_label : string → bool;                         (* valid UTF-8 *)
}.

Class PrometheusLaws (R : Type) `{!Prometheus R} : Prop := {
  new_exposed : ∀ n, exposed NewRegistry n = false;
  new_series : ∀ n vs, series NewRegistry n vs = [];
  (* a valid descriptor can be registered, once *)
  register_ok : ∀ o r, valid_opts o = true → exposed r (fqName o) = false → ∃ r', MustRegister o r = Some r' ∧
    (∀ n, exposed r' n = bool_decide (n = fqName o) || exposed r n) ∧ (∀ n vs, series r' n vs = series r n vs);
  register_panics : ∀ o r, fqName o = "" ∨ ¬ NoDup (o_labels o) ∨ exposed r (fqName o) = true → MustRegister o r = None;
  (* as many valid values as labels *)
  with_ok : ∀ o vs u r, valid_opts o = true → has_method (o_kind o) u = true → length vs = length (o_labels o) → Forall (λ v, valid_label v = true) vs →
    ∃ r', WithLabelValues o vs u r = Some r' ∧ (∀ n, exposed r' n = exposed r n) ∧
          (∀ n ws, series r' n ws = if bool_decide (n = fqName o ∧ ws = vs) then series r n ws ++ [u] else series r n ws);
  with_panics : ∀ o vs u r, length vs ≠ length (o_labels o) → WithLabelValues o vs u r = None;
  ascii_valid : ∀ s, all_bytes (λ c, ord c <? 128) s = true → valid_label s = true;
}.

(** The value of a series. *)
Definition apply_update (v : Z) (u : update) : Z :=
  match u with Inc => v + 1 | Dec => v - 1 | SetTo w => w | Observe _ => v + 1 end.
Definition value `{Prometheus R} (r : R) (o : opts) (vs : list string) : Z :=
  fold_left apply_update (series r (fqName o) vs) 0.

(** ** The vectors *)
Definition requestsTotal : opts :=
  mkOpts CounterVec "gorp" "proxy" "requests_total" "Total number of proxied HTTP requests." ["backend"; "method"; "status"].
Definition requestDuration : opts :=
  mkOpts HistogramVec "gorp" "proxy" "request_duration_seconds" "Duration of proxied HTTP requests in seconds." ["backend"].
Definition backendErrors : opts :=
  mkOpts CounterVec "gorp" "proxy" "backend_errors_total" "Total number of backend errors." ["backend"].
Definition activeConnections : opts :=
  mkOpts GaugeVec "gorp" "proxy" "active_connections" "Current number of active proxied connections." ["backend"].
Definition listenerRequestsTotal : opts :=
  mkOpts CounterVec "gorp" "listener" "requests_total" "Total number of requests received by listeners."
    ["listener"; "type"; "method"; "status"].
Definition listenerRequestDuration : opts :=
  mkOpts HistogramVec "gorp" "listener" "request_duration_seconds" "Duration of requests handled by listeners in seconds."
    ["listener"; "type"].
Definition listenerActiveConnections : opts :=
  mkOpts GaugeVec "gorp" "listener" "active_connections" "Current number of active connections handled by listeners."
    ["listener"; "type"].

Definition vectors : list opts :=
  [requestsTotal; requestDuration; backendErrors; activeConnections; listenerRequestsTotal; listenerRequestDuration;
   listenerActiveConnections].

Section registry.
  Context {R : Type} `{!Prometheus R}.

Fixpoint register_all (os : list opts) (r : R) : option R :=
  match os with [] => Some r | o :: os => r' ← MustRegister o r; register_all os r' end.

Definition init : option R := register_all vectors NewRegistry.

(** ** Observations *)
Definition ObserveRequest (backend method : string) (status duration : Z) (r : R) : option R :=
  r ← WithLabelValues requestsTotal [backend; method; Itoa status] Inc r;
  WithLabelValues requestDuration [backend] (Observe duration) r.

Definition ObserveBackendError (backend : string) (r : R) : option R := WithLabelValues backendErrors [backend] Inc r.

Definition SetActiveConnections (backend : string) (count : Z) (r : R) : option R :=
  WithLabelValues activeConnections [backend] (SetTo count) r.

(** [InstrumentHandler] around [next], which gives the registry, the status it
    wrote (0 for none) and whether it panicked; the deferred function runs in any
    case. *)
Definition InstrumentHandler (listener listenerType : string) (next : R → R * Z * bool) (method : string) (duration : Z) (r : R)
  : option (R * bool) :=
  r ← WithLabelValues listenerActiveConnections [listener; listenerType] Inc r;
  let '(r, written, panicked) := next r in
  r ← WithLabelValues listenerActiveConnections [listener; listenerType] Dec r;
  let status := if written =? 0 then 200 else written in
  r ← WithLabelValues listenerRequestsTotal [listener; listenerType; method; Itoa status] Inc r;
  r ← WithLabelValues listenerRequestDuration [listener; listenerType] (Observe duration) r;
  Some (r, panicked).
(** What the program reports, in order; [OListen] is a request a listener handled. *)
Inductive observation : Type :=
  | OReq (backend method : string) (status duration : Z)
  | OErr (backend : string)
  | OActive (backend : string) (count : Z)
  | OListen (listener type method : string) (written duration : Z) (panicked : bool).

Definition observe (o : observation) (r : R) : option R :=
  match o with
  | OReq b me st d => ObserveRequest b me st d r
  | OErr b => ObserveBackendError b r
  | OActive b n => SetActiveConnections b n r
  | OListen l ty me st d p => fst <$> InstrumentHandler l ty (λ r, (r, st, p)) me d r
  end.

Fixpoint observe_all (os : list observation) (r : R) : option R :=
  match os with [] => Some r | o :: os => r' ← observe o r; observe_all os r' end.

(** ** What is to be exposed

    The reports of [Backend], and the requests of the listeners. *)
Record reports : Type := mkReports { rp_backend : metrics; rp_listener : list (string * string * string * Z) }.
Definition no_reports : reports := mkReports no_metrics [].

Definition report (o : observation) (m : reports) : reports :=
  match o with
  | OReq b me st _ => mkReports (Backend.ObserveRequest b me st (rp_backend m)) (rp_listener m)
  | OErr b => mkReports (Backend.ObserveBackendError b (rp_backend m)) (rp_listener m)
  | OActive b n => mkReports (Backend.SetActiveConnections b n (rp_backend m)) (rp_listener m)
  | OListen l ty me st _ _ => mkReports (rp_backend m) (rp_listener m ++ [(l, ty, me, if st =? 0 then 200 else st)])
  end.

(** The names come from the configuration, methods and statuses from requests. *)
Definition label (s : string) : Prop := valid_label s = true.
Definition valid_observation (o : observation) : Prop :=
  match o with
  | OReq b me st _ => label b ∧ label me ∧ 0 ≤ st ≤ MaxInt64
  | OErr b | OActive b _ => label b
  | OListen l ty me st _ _ => label l ∧ label ty ∧ label me ∧ 0 ≤ st ≤ MaxInt64
  end.

(** The registry shows the reports. *)
Record shows (r : R) (m : reports) : Prop := {
  sh_exposed : ∀ o, o ∈ vectors → exposed r (fqName o) = true;
  sh_requests : ∀ b me st, 0 ≤ st ≤ MaxInt64 → value r requestsTotal [b; me; Itoa st] =
    Z.of_nat (length (filter (λ x, x = (b, me, st)) (m_requests (rp_backend m))));
  sh_durations : ∀ b, value r requestDuration [b] =
    Z.of_nat (length (filter (λ x, x.1.1 = b) (m_requests (rp_backend m))));
  sh_errors : ∀ b, value r backendErrors [b] = Z.of_nat (length (filter (λ x, x = b) (m_errors (rp_backend m))));
  sh_active : ∀ b, value r activeConnections [b] = default 0 (m_active (rp_backend m) !! b);
  sh_listener : ∀ l ty me st, 0 ≤ st ≤ MaxInt64 → value r listenerRequestsTotal [l; ty; me; Itoa st] =
    Z.of_nat (length (filter (λ x, x = (l, ty, me, st)) (rp_listener m)));
  sh_listener_durations : ∀ l ty, value r listenerRequestDuration [l; ty] =
    Z.of_nat (length (filter (λ x, x.1.1 = (l, ty)) (rp_listener m)));
  sh_inflight : ∀ l ty, value r listenerActiveConnections [l; ty] = 0;
}.
End registry.

(** ** Lemmas *)
Lemma digits_ascii f n s : 0 ≤ n → all_bytes (λ c, ord c <? 128) s = true → all_bytes (λ c, ord c <? 128) (digits f n s) = true.
Proof.
  revert n s. induction f as [|f IH]; intros n s Hn Hs; [done|]. simpl.
  assert (all_bytes (λ c, ord c <? 128) (String (digit (n mod 10)) s) = true) as H.
  { simpl. rewrite Hs, andb_true_r. pose proof (Z.mod_pos_bound n 10 ltac:(lia)) as Hm.
    destruct (is_digit_digit _ Hm) as [_ ->]. apply Z.ltb_lt. lia. }
  destruct (n <? 10); [done|]. apply IH; [apply Z.div_pos; lia|done].
Qed.

Lemma Itoa_inj a b : 0 ≤ a ≤ MaxInt64 → 0 ≤ b ≤ MaxInt64 → Itoa a = Itoa b → a = b.
Proof. intros Ha Hb H. apply (f_equal Atoi) in H. rewrite !Atoi_Itoa in H by done. by injection H. Qed.

Section laws.
  Context {R : Type} `{!Prometheus R, !PrometheusLaws R}.
  Implicit Types (r : R) (m : reports).

Lemma Itoa_label n : 0 ≤ n → valid_label (R:=R) (Itoa n) = true.
Proof.
  intros Hn. apply ascii_valid. unfold Itoa. destruct (Z.ltb_spec n 0); [lia|]. by apply digits_ascii.
Qed.

(** An update of one series, as values. *)
Definition told (o : opts) (vs : list string) (u : update) (r r' : R) : Prop :=
  (∀ n, exposed r' n = exposed r n) ∧
  ∀ o' ws, value r' o' ws = if bool_decide (fqName o' = fqName o ∧ ws = vs) then apply_update (value r o' ws) u else value r o' ws.

Lemma with_told o vs u r : valid_opts o = true → has_method (o_kind o) u = true → length vs = length (o_labels o) → Forall (λ v, valid_label (R:=R) v = true) vs →
  ∃ r', WithLabelValues o vs u r = Some r' ∧ told o vs u r r'.
Proof.
  intros Ho Hu Hl Hv. destruct (with_ok o vs u r Ho Hu Hl Hv) as (r' & Hr & He & Hs). exists r'. split; [done|]. split; [done|].
  intros o' ws. unfold value. rewrite Hs. case_bool_decide; [|done]. by rewrite fold_left_app.
Qed.

(** Registration *)
Lemma register_all_ok os r : NoDup (map fqName os) → Forall (λ o, valid_opts o = true) os → Forall (λ o, exposed r (fqName o) = false) os →
  ∃ r', register_all os r = Some r' ∧ (∀ n vs, series r' n vs = series r n vs) ∧
        ∀ n, exposed r' n = bool_decide (n ∈ map fqName os) || exposed r n.
Proof.
  revert r. induction os as [|o os IH]; intros r Hnd Hval Hf; simpl in *.
  { exists r. done. }
  apply NoDup_cons in Hnd as [Hn Hnd]. apply Forall_cons in Hf as [Ho Hf]. apply Forall_cons in Hval as [Hvo Hval].
  destruct (register_ok o r Hvo Ho) as (r1 & -> & He & Hs). simpl.
  destruct (IH r1 Hnd Hval) as (r' & -> & Hs' & He').
  { rewrite Forall_forall in *. intros x Hx. rewrite He, Hf by done. rewrite orb_false_r. apply bool_decide_eq_false.
    intros Heq. apply Hn. rewrite <- Heq. by apply list_elem_of_fmap_2. }
  exists r'. split; [done|]. split; [intros; by rewrite Hs', Hs|]. intros n. rewrite He', He, orb_assoc. f_equal.
  apply eq_bool_prop_intro. rewrite orb_True, !bool_decide_spec, elem_of_cons. tauto.
Qed.

Lemma vectors_distinct : NoDup (map fqName vectors).
Proof. apply (bool_decide_unpack _). vm_compute. done. Qed.

Lemma vectors_valid : Forall (λ o, valid_opts o = true) vectors.
Proof. repeat (apply Forall_cons_2; [vm_compute; reflexivity|]). apply Forall_nil_2. Qed.

Lemma init_shows : ∃ r, init = Some r ∧ shows r no_reports.
Proof.
  destruct (register_all_ok vectors NewRegistry vectors_distinct vectors_valid) as (r & Hr & Hs & He).
  { apply Forall_forall. intros o _. apply new_exposed. }
  exists r. split; [done|].
  assert (∀ o ws, value r o ws = 0) as Hv by (intros; unfold value; by rewrite Hs, new_series).
  split; intros; rewrite ?Hv; try done. rewrite He, bool_decide_eq_true_2; [done|]. by apply list_elem_of_fmap_2.
Qed.

Lemma told_other o vs u r r' o' ws : told o vs u r r' → fqName o' ≠ fqName o → value r' o' ws = value r o' ws.
Proof. intros [_ H] Hn. rewrite H, bool_decide_eq_false_2; [done|]. by intros []. Qed.
Lemma told_same o vs u r r' ws : told o vs u r r' →
  value r' o ws = if bool_decide (ws = vs) then apply_update (value r o ws) u else value r o ws.
Proof. intros [_ H]. rewrite H. repeat case_bool_decide; naive_solver. Qed.

Lemma count_snoc {A} (P : A → Prop) `{∀ x, Decision (P x)} (l : list A) (x : A) :
  Z.of_nat (length (filter P (l ++ [x]))) = Z.of_nat (length (filter P l)) + (if bool_decide (P x) then 1 else 0).
Proof. rewrite filter_app, length_app, filter_cons, filter_nil. case_bool_decide; case_decide; simpl; naive_solver lia. Qed.

Ltac tells :=
  repeat match goal with
  | H : told ?o ?vs ?u ?r ?r' |- context [value ?r' ?o ?ws] => rewrite (told_same o vs u r r' ws H)
  | H : told ?o _ _ ?r ?r' |- context [value ?r' ?o' ?ws] => rewrite (told_other _ _ _ _ _ o' ws H) by (vm_compute; discriminate)
  end.
Ltac with_label H :=
  match goal with |- context [WithLabelValues ?o ?vs ?u ?r] =>
    let r' := fresh "r" in let E := fresh "E" in
    destruct (with_told o vs u r) as (r' & E & H); [vm_compute; reflexivity|reflexivity|done|by repeat constructor|rewrite E; clear E; simpl]
  end.

Lemma shows_error b r m : shows r m → label (R:=R) b → ∃ r', ObserveBackendError b r = Some r' ∧ shows r' (report (OErr b) m).
Proof.
  intros [He Hr Hd Hx Ha Hl Hld Hi] Hb. unfold label in Hb. unfold ObserveBackendError. with_label H1.
  eexists. split; [done|]. split; intros; tells; simpl; auto.
  - destruct H1 as [H1 _]. rewrite H1. auto.
  - rewrite count_snoc, Hx. repeat case_bool_decide; simpl; naive_solver lia.
Qed.

Lemma shows_active b n r m : shows r m → label (R:=R) b → ∃ r', SetActiveConnections b n r = Some r' ∧ shows r' (report (OActive b n) m).
Proof.
  intros [He Hr Hd Hx Ha Hl Hld Hi] Hb. unfold label in Hb. unfold SetActiveConnections. with_label H1.
  eexists. split; [done|]. split; intros; tells; simpl; auto.
  - destruct H1 as [H1 _]. rewrite H1. auto.
  - rewrite Ha. case_bool_decide as Heq; [injection Heq as ->; by rewrite lookup_insert_eq|].
    rewrite lookup_insert_ne; [done|]. congruence.
Qed.

Lemma shows_request b me st d r m : shows r m → valid_observation (R:=R) (OReq b me st d) →
  ∃ r', ObserveRequest b me st d r = Some r' ∧ shows r' (report (OReq b me st d) m).
Proof.
  intros [He Hr Hd Hx Ha Hl Hld Hi] (Hb & Hme & Hst). unfold label in *. pose proof (Itoa_label st ltac:(lia)) as Hs.
  unfold ObserveRequest. with_label H1. with_label H2.
  eexists. split; [done|]. split; intros; tells; simpl; auto.
  - destruct H1 as [H1 _], H2 as [H2 _]. rewrite H2, H1. auto.
  - rewrite count_snoc, Hr by done. repeat case_bool_decide; simpl; simplify_eq; try lia.
    match goal with H : Itoa _ = Itoa _ |- _ => apply Itoa_inj in H; [|done..] end. naive_solver.
  - rewrite count_snoc, Hd. repeat case_bool_decide; simpl in *; naive_solver lia.
Qed.

Lemma shows_listen l ty me st d p r m : shows r m → valid_observation (R:=R) (OListen l ty me st d p) →
  ∃ r', InstrumentHandler l ty (λ r, (r, st, p)) me d r = Some (r', p) ∧ shows r' (report (OListen l ty me st d p) m).
Proof.
  intros [He Hr Hd Hx Ha Hl Hld Hi] (Hn & Hty & Hme & Hst). unfold label in *.
  set (st' := if st =? 0 then 200 else st). assert (0 ≤ st' ≤ MaxInt64) as Hst' by (unfold st', MaxInt64 in *; destruct (st =? 0); lia).
  pose proof (Itoa_label st' ltac:(lia)) as Hs. unfold InstrumentHandler. with_label H1. with_label H2. fold st'. with_label H3. with_label H4.
  eexists. split; [done|]. simpl. fold st'. split; intros; tells; simpl; auto.
  - destruct H1 as [H1 _], H2 as [H2 _], H3 as [H3 _], H4 as [H4 _]. rewrite H4, H3, H2, H1. auto.
  - rewrite count_snoc, Hl by done. repeat case_bool_decide; simpl; simplify_eq; try lia.
    match goal with H : Itoa _ = Itoa _ |- _ => apply Itoa_inj in H; [|done..] end. naive_solver.
  - rewrite count_snoc, Hld. repeat case_bool_decide; simpl in *; naive_solver lia.
  - rewrite Hi. repeat case_bool_decide; simpl; lia.
Qed.

Lemma shows_observe o r m : shows r m → valid_observation (R:=R) o → ∃ r', observe o r = Some r' ∧ shows r' (report o m).
Proof.
  destruct o as [b me st d|b|b n|l ty me st d p]; simpl; intros Hs Hv.
  - by apply shows_request.
  - by apply shows_error.
  - by apply shows_active.
  - destruct (shows_listen l ty me st d p r m Hs Hv) as (r' & -> & H). simpl. eauto.
Qed.

Lemma observe_all_shows os r m : shows r m → Forall (valid_observation (R:=R)) os →
  ∃ r', observe_all os r = Some r' ∧ shows r' (fold_left (λ m o, report o m) os m).
Proof.
  intros Hs Hv. revert r m Hs. induction Hv as [|o os Ho _ IH]; intros r m Hs; simpl; [by exists r|].
  destruct (shows_observe o r m Hs Ho) as (r1 & -> & Hs1). simpl. by apply IH.
Qed.

(** ** Theorems *)


(** The series of a listener are chosen by its clients.  Every new method a client
    makes up is a new series that stays: after requests with any number of
    different methods the registry shows one request for each of them. *)
Theorem methods_make_series (l ty : string) (ms : list string) :
  Forall (label (R:=R)) (l :: ty :: ms) → NoDup ms →
  ∃ r0 r, init (R:=R) = Some r0 ∧ observe_all (map (λ me, OListen l ty me 404 0 false) ms) r0 = Some r ∧
          ∀ me, me ∈ ms → value r listenerRequestsTotal [l; ty; me; Itoa 404] = 1.
Proof.
  intros Hl Hnd. apply Forall_cons in Hl as [Hn Hl]. apply Forall_cons in Hl as [Hty Hl].
  destruct init_shows as (r0 & Hr0 & Hs). destruct (observe_all_shows (map (λ me, OListen l ty me 404 0 false) ms) r0 no_reports Hs) as (r & H1 & H2).
  { apply Forall_map. eapply Forall_impl; [exact Hl|]. intros me Hme. simpl. repeat split; try done; unfold MaxInt64; lia. }
  exists r0, r. split; [done|]. split; [done|]. intros me Hin. rewrite (sh_listener _ _ H2) by (unfold MaxInt64; lia).
  assert (∀ m, rp_listener (fold_left (λ m o, report o m) (map (λ me, OListen l ty me 404 0 false) ms) m) = rp_listener m ++ map (λ me, (l, ty, me, 404)) ms) as ->.
  { clear. induction ms as [|me ms IH]; intros m; simpl; [by rewrite app_nil_r|]. rewrite IH. simpl. by rewrite <- app_assoc. }
  simpl. clear -Hnd Hin. induction Hnd as [|x ms Hx Hnd IH]; [by apply elem_of_nil in Hin|]. simpl. rewrite filter_cons.
  apply elem_of_cons in Hin as [->|Hin].
  - rewrite decide_True by done. simpl. assert (filter (λ y, y = (l, ty, x, 404)) (map (λ me, (l, ty, me, 404)) ms) = []) as ->; [|done].
    clear -Hx. induction ms as [|y ms IH]; [done|]. simpl. apply not_elem_of_cons in Hx as [H1 H2].
    rewrite filter_cons_False by congruence. by apply IH.
  - rewrite decide_False by (intros [= ->]; done). by apply IH.
Qed.
End laws.


(** ** What a backend reports *)

(** A change of the reports that some observations make, with labels [b] and [me]. *)
Definition reported_by (b me : string) (m m' : metrics) : Prop :=
  ∃ os, m' = rp_backend (fold_left (λ m o, report o m) os (mkReports m [])) ∧
        Forall (λ o, match o with OReq b' me' _ _ => b' = b ∧ me' = me | OErr b' | OActive b' _ => b' = b | OListen _ _ _ _ _ _ => False end) os.

Lemma reported_refl b me m : reported_by b me m m.
Proof. by exists []. Qed.

Lemma report_frame os m ls : Forall (λ o, match o with OListen _ _ _ _ _ _ => False | _ => True end) os →
  fold_left (λ m o, report o m) os (mkReports m ls) = mkReports (rp_backend (fold_left (λ m o, report o m) os (mkReports m []))) ls.
Proof. intros H. revert m. induction H as [|o os Ho _ IH]; intros m; [done|]. destruct o; simpl; try done; apply IH. Qed.

Lemma reported_trans b me m1 m2 m3 : reported_by b me m1 m2 → reported_by b me m2 m3 → reported_by b me m1 m3.
Proof.
  intros (os1 & -> & H1) (os2 & -> & H2). exists (os1 ++ os2). rewrite fold_left_app. split; [|by apply Forall_app].
  rewrite (report_frame os1) by (eapply Forall_impl; [done|]; by intros []). done.
Qed.

Lemma reported_request b me st m : reported_by b me m (Backend.ObserveRequest b me st m).
Proof. exists [OReq b me st 0]. split; [done|]. by repeat constructor. Qed.
Lemma reported_error b me m : reported_by b me m (Backend.ObserveBackendError b m).
Proof. exists [OErr b]. split; [done|]. by repeat constructor. Qed.
Lemma reported_active b me n m : reported_by b me m (Backend.SetActiveConnections b n m).
Proof. exists [OActive b n]. split; [done|]. by repeat constructor. Qed.
#[local] Hint Resolve reported_refl reported_request reported_error reported_active : gorp.
#[local] Hint Extern 3 (reported_by _ _ _ _) => eapply reported_trans; [|auto with gorp; fail] : gorp.

Lemma TryAcquire_Name b : Name (TryAcquire b).2 = Name b.
Proof. unfold TryAcquire. by repeat case_match. Qed.

Lemma Release_reported b me m : Name (Release b m).1 = Name b ∧ reported_by (Name b) me m (Release b m).2.
Proof. unfold Release. case_match; simpl; auto with gorp. Qed.

Lemma modifyResponse_Name fs r b : Name (modifyResponse fs r b).2 = Name b.
Proof. unfold modifyResponse, recordSuccess. repeat case_match; done. Qed.

Lemma errorHandler_reported now e b me m w :
  Name (errorHandler now e b m w).1.1 = Name b ∧ reported_by (Name b) me m (errorHandler now e b m w).1.2.
Proof. unfold errorHandler, recordFailure, openCircuit. repeat case_match; simplify_eq/=; auto with gorp. Qed.

Lemma reverseProxy_reported now fs upstream b me m w :
  Name (reverseProxy now fs upstream b m w).1.1 = Name b ∧ reported_by (Name b) me m (reverseProxy now fs upstream b m w).1.2.
Proof.
  unfold reverseProxy. destruct upstream as [r|e]; [|apply errorHandler_reported].
  pose proof (modifyResponse_Name fs r b) as Hn. destruct (modifyResponse fs r b) as [[r'|e] b']; simpl in Hn; [auto with gorp|].
  pose proof (errorHandler_reported now (OtherError e) b' me m w) as H. rewrite Hn in H. exact H.
Qed.

(** All that serving a request or a tunnel does to the metrics of a backend are
    observations under the name of that backend and the method of that request:
    the other series are left alone. *)
Theorem backend_reports_its_own (now : Z) (fs : list modifier) (upstream : result transportError response)
    (dial : result string unit) (hijack : hijackOutcome) (established : result string unit)
    (method : string) (b : Backend) (m : metrics) (w : writer) :
  reported_by (Name b) method m (Proxy now fs upstream method b m w).1.2 ∧
  reported_by (Name b) method m (Connect dial hijack established method b m w).1.1.2.
Proof.
  pose proof (TryAcquire_Name b) as Ha. split.
  - unfold Proxy. destruct (TryAcquire b) as [[] b1]; simpl in *; [|auto with gorp].
    pose proof (reverseProxy_reported now fs upstream b1 method (Backend.SetActiveConnections (Name b1) (ActiveConnections b1) m) (mkMRW w 0)) as [Hn Hr].
    destruct (reverseProxy _ _ _ _ _ _) as [[b2 m2] rw]; simpl in *. pose proof (Release_reported b2 method m2) as [Hn3 Hr3].
    destruct (Release b2 m2) as [b3 m3]; simpl in *. rewrite Hn3, Hn, Ha in *.
    repeat (eapply reported_trans; [|solve [eauto with gorp]]). auto with gorp.
  - unfold Connect. destruct (TryAcquire b) as [[] b1]; simpl in *; [|auto with gorp].
    assert (∀ status m' r, reported_by (Name b) method m m' →
      reported_by (Name b) method m
        (let '(b', m'') := Release b1 m' in (b', Backend.ObserveRequest (Name b') method status m'', w, r : result string unit)).1.1.2) as Hfin.
    { intros status m' r Hm'. pose proof (Release_reported b1 method m') as [Hn Hr]. destruct (Release b1 m') as [b2 m2]; simpl in *.
      rewrite Hn, Ha in *. eapply reported_trans; [exact Hm'|]. eapply reported_trans; [exact Hr|]. auto with gorp. }
    rewrite Ha in *. destruct (URLHost b1) as [[|c s]|], dial as [[]|e], hijack, established as [[]|e']; apply Hfin; auto with gorp.
Qed.

(** ** The gauge of a backend under concurrency

    The atomic operations of one proxied request on the counter and the gauge of its
    backend: [TryAcquire], the load and the setting of the gauge, the decrement of
    [Release] (its check for a positive counter passes while the request holds its
    connection) and the setting it does, and again a load and a setting.  A
    goroutine keeps the value it is about to set. *)
Inductive atom : Type := Acquire | LoadActive | SetGauge | Decrement.
Definition request_atoms : list atom := [Acquire; LoadActive; SetGauge; Decrement; SetGauge; LoadActive; SetGauge].

Record gauged : Type := mkGauged { g_active : Z; g_gauge : Z; g_goroutines : list (Z * list atom) }.

Definition atom_step (a : atom) (v : Z) (active gauge : Z) : Z * Z * Z :=
  match a with
  | Acquire => (v, active + 1, gauge)
  | LoadActive => (active, active, gauge)
  | SetGauge => (v, active, v)
  | Decrement => (active - 1, active - 1, gauge)
  end.

Definition gauge_turn (i : nat) (s : gauged) : option gauged :=
  match g_goroutines s !! i with
  | Some (v, a :: rest) =>
      let '(v', active, gauge) := atom_step a v (g_active s) (g_gauge s) in
      Some (mkGauged active gauge (<[i := (v', rest)]> (g_goroutines s)))
  | _ => None
  end.

Fixpoint gauge_run (schedule : list nat) (s : gauged) : option gauged :=
  match schedule with [] => Some s | i :: rest => s' ← gauge_turn i s; gauge_run rest s' end.

Definition requests (n : nat) : gauged := mkGauged 0 0 (replicate n (0, request_atoms)).
Definition all_served (s : gauged) : Prop := Forall (λ g, g.2 = []) (g_goroutines s).

(** What a goroutine contributes to the counter. *)
Definition in_flight (todo : list atom) : Z :=
  match length todo with 6%nat | 5%nat | 4%nat => 1 | _ => 0 end.
Definition total (gs : list (Z * list atom)) : Z := foldr (λ g n, in_flight g.2 + n) 0 gs.
Definition bounded (n : Z) (g : Z * list atom) : Prop := 0 ≤ g.1 ≤ n ∧ ∃ k, g.2 = skipn k request_atoms.

Lemma total_insert gs i g g' : gs !! i = Some g → total (<[i := g']> gs) = total gs - in_flight g.2 + in_flight g'.2.
Proof.
  revert i. induction gs as [|x gs IH]; intros i Hi; [done|]. destruct i as [|i]; simpl in *; [injection Hi as ->; lia|].
  rewrite (IH i Hi). lia.
Qed.

Lemma total_bounds gs : 0 ≤ total gs ≤ Z.of_nat (length gs).
Proof.
  induction gs as [|[v todo] gs IH]; simpl; [lia|]. unfold in_flight.
  destruct todo as [|? [|? [|? [|? [|? [|? [|? ?]]]]]]]; simpl; lia.
Qed.

(** The counter is exact; the gauge and the values in hand stay within the number
    of requests. *)
Record gauge_inv (n : nat) (s : gauged) : Prop := {
  gi_length : length (g_goroutines s) = n;
  gi_active : g_active s = total (g_goroutines s);
  gi_gauge : 0 ≤ g_gauge s ≤ Z.of_nat n;
  gi_each : Forall (bounded (Z.of_nat n)) (g_goroutines s);
}.

Lemma lookup_total gs i g : gs !! i = Some g → in_flight g.2 ≤ total gs.
Proof.
  intros Hi. rewrite <- (list_insert_id gs i g Hi). rewrite (total_insert gs i g g Hi).
  pose proof (total_insert gs i g (0, []) Hi) as H. pose proof (total_bounds (<[i := (0, [])]> gs)). unfold in_flight in H at 2. simpl in H. lia.
Qed.

Lemma gauge_turn_inv n i s s' : gauge_turn i s = Some s' → gauge_inv n s → gauge_inv n s'.
Proof.
  intros H [Hl Ha Hg He]. unfold gauge_turn in H. destruct (g_goroutines s !! i) as [[v [|a rest]]|] eqn:Hi; [done| |done].
  pose proof (Forall_lookup_1 _ _ _ _ He Hi) as [Hv [k Hk]]. pose proof (total_bounds (g_goroutines s)) as Hb. rewrite Hl in Hb.
  pose proof (lookup_total _ _ _ Hi) as Hin. pose proof (total_insert _ _ _ (v, rest) Hi) as Ht0. simpl in Hv, Hk, Hin.
  destruct (atom_step a v (g_active s) (g_gauge s)) as [[v' active] gauge] eqn:E. injection H as <-.
  assert (0 ≤ v' ≤ Z.of_nat n ∧ 0 ≤ gauge ≤ Z.of_nat n ∧ active = total (<[i := (v', rest)]> (g_goroutines s))) as (H1 & H2 & H3).
  { rewrite (total_insert _ _ _ (v', rest) Hi). simpl.
    destruct k as [|[|[|[|[|[|[|k]]]]]]]; simpl in Hk; [..|by destruct k]; injection Hk as -> ->; simpl in *; simplify_eq; unfold in_flight in *; simpl in *; lia. }
  split; simpl; [by rewrite length_insert|done|done|]. apply Forall_insert; [done|]. split; [done|].
  exists (S k). simpl. destruct k as [|[|[|[|[|[|[|k]]]]]]]; simpl in *; [..|by destruct k]; by injection Hk as -> ->.
Qed.

Lemma gauge_run_inv n schedule s s' : gauge_run schedule s = Some s' → gauge_inv n s → gauge_inv n s'.
Proof.
  revert s. induction schedule as [|i schedule IH]; intros s H Hs; simpl in H; [by injection H as <-|].
  apply bind_Some in H as (s1 & H1 & H2). eauto using gauge_turn_inv.
Qed.

Lemma requests_inv n : gauge_inv n (requests n).
Proof.
  split; simpl; [by rewrite length_replicate| |lia|].
  - induction n as [|n IH]; [done|]. simpl. by rewrite <- IH.
  - apply Forall_replicate. split; simpl; [lia|]. by exists 0%nat.
Qed.

Lemma served_total gs : Forall (λ g, g.2 = []) gs → total gs = 0.
Proof. induction 1 as [|[v todo] gs Hg _ IH]; [done|]. simpl in *. by rewrite Hg, IH. Qed.

(** The exposed number of connections of a backend can be wrong for good.
    However the requests interleave, the counter ends at zero when all are served,
    and the gauge stays within the number of requests; but the gauge is set from a
    value read before, so that already with two requests it can end at one while
    no connection is left. *)
Theorem backend_gauge_stale (n : nat) (schedule : list nat) (s : gauged) :
  gauge_run schedule (requests n) = Some s → all_served s →
  g_active s = 0 ∧ 0 ≤ g_gauge s ≤ Z.of_nat n ∧
  ∃ stale s', gauge_run stale (requests 2) = Some s' ∧ all_served s' ∧ g_active s' = 0 ∧ g_gauge s' = 1.
Proof.
  intros H Hs. destruct (gauge_run_inv n _ _ _ H (requests_inv n)) as [_ Ha Hg _].
  split; [by rewrite Ha, served_total|]. split; [done|].
  exists [0; 1; 0; 0; 1; 1; 0; 0; 0; 1; 1; 1; 1; 0]%nat, (mkGauged 0 1 [(1, []); (0, [])]). split; [vm_compute; done|]. split; [|done].
  by repeat constructor.
Qed.

Lemma backend_gauge_stale_witness :
  ∃ s, gauge_run (replicate 7 0%nat) (requests 1) = Some s ∧ g_active s = 0.
Proof.
  eexists. split; [vm_compute; reflexivity|].
  apply (backend_gauge_stale 1 (replicate 7 0%nat) (mkGauged 0 0 [(0, [])])); [vm_compute; reflexivity|by repeat constructor].
Defined.

(** ** An instance of the library *)
Record map_registry : Type := mkMR { mr_exposed : gset string; mr_series : gmap (string * list string) (list update) }.

#[export] Instance map_prometheus : Prometheus map_registry := {
  NewRegistry := mkMR ∅ ∅;
  MustRegister o r :=
    if negb (valid_opts o) || bool_decide (fqName o ∈ mr_exposed r) then None else Some (mkMR ({[fqName o]} ∪ mr_exposed r) (mr_series r));
  WithLabelValues o vs u r :=
    if valid_opts o && has_method (o_kind o) u && Nat.eqb (length vs) (length (o_labels o)) && forallb (all_bytes (λ c, ord c <? 128)) vs
    then Some (mkMR (mr_exposed r) (<[(fqName o, vs) := default [] (mr_series r !! (fqName o, vs)) ++ [u]]> (mr_series r)))
    else None;
  exposed r n := bool_decide (n ∈ mr_exposed r);
  series r n vs := default [] (mr_series r !! (n, vs));
  valid_label := all_bytes (λ c, ord c <? 128);
}.

#[export] Instance map_laws : PrometheusLaws map_registry.
Proof.
  split; simpl; try done.
  - intros o r -> ->. eexists. split; [done|]. split; [|done].
    intros n. simpl. apply eq_bool_prop_intro. rewrite orb_True, !bool_decide_spec. set_solver.
  - intros o r Hp. replace (negb (valid_opts o) || bool_decide (fqName o ∈ mr_exposed r)) with true; [done|]. symmetry.
    destruct Hp as [Hp|[Hp| ->]]; [| |by rewrite orb_true_r].
    + unfold valid_opts. by rewrite Hp.
    + unfold valid_opts. rewrite (bool_decide_eq_false_2 (NoDup (o_labels o))) by done. by rewrite andb_false_r.
  - intros o vs u r -> -> Hl Hv. rewrite Hl, Nat.eqb_refl. replace (forallb _ vs) with true by (symmetry; apply Is_true_true, forallb_True; eapply Forall_impl; [exact Hv|]; by intros v ->).
    eexists. split; [done|]. split; [done|]. intros n ws. simpl. case_bool_decide as Hd.
    + destruct Hd as [-> ->]. by rewrite lookup_insert_eq.
    + rewrite lookup_insert_ne; [done|]. naive_solver.
  - intros o vs u r Hl. apply Nat.eqb_neq in Hl. rewrite Hl. by rewrite andb_false_r.
Qed.

Definition sample_observations : list observation :=
  [OActive "api" 1; OReq "api" "GET" 200 5; OActive "api" 0; OListen "web" "http" "GET" 0 6 true; OErr "api"; OReq "api" "GET" 502 9].


Lemma methods_make_series_witness :
  ∃ r0 r : map_registry, init = Some r0 ∧
    observe_all (map (λ me, OListen "web" "http" me 404 0 false) ["GET"; "AAA"; "AAB"]) r0 = Some r ∧
    ∀ me, me ∈ ["GET"; "AAA"; "AAB"] → value r listenerRequestsTotal ["web"; "http"; me; Itoa 404] = 1.
Proof.
  apply (methods_make_series (R:=map_registry)).
  - repeat constructor.
  - apply (bool_decide_unpack _). vm_compute. exact I.
Defined.
