(* ===== verification/Drain.v ===== *)
(** * Graceful shutdown

    Models what [Server.Shutdown] of [pkg/server/server.go] does to the work that is
    under way, with the deadline its callers set ([initiateCriticalShutdown],
    [waitForShutdown], the administration API and the reload loop: 30 seconds).
    [Lifecycle] has the same function as one step of the process; here it takes
    time.  Times are nanoseconds.

    What the three calls do to the work of a server is the documented behaviour of
    net/http ([Shutdown] waits for active requests, not for hijacked connections,
    until the context is done, and interrupts nothing), of quic-go ([Close] aborts
    requests) and of net ([Close] of a listener leaves accepted connections alone);
    which of them [Shutdown] makes for which server is the code's choice, and what
    becomes of the work follows from it. *)

From S2P Require Import Prelude GoStd GoHttp Backend Config Validate Builder Lifecycle.
Open Scope Z_scope.

(** ** Work under way

    With the time at which it would end by itself. *)
Inductive work : Type :=
  | Request (ends : Z)             (* a request the server is answering *)
  | Hijacked (ends : Z)            (* a connection a handler took over: CONNECT, upgrades *)
  | Tunnelled (ends : Z).          (* an accepted connection of a TCP or SOCKS5 listener *)
Definition ends (w : work) : Z := match w with Request e | Hijacked e | Tunnelled e => e end.

Record running : Type := mkRunning { rn_kind : lkind; rn_work : list work }.

(** ** Closing one server

    What a closing call does: when it returns and with which error, and when it cuts
    off the work of the server, if it does. *)
Record closing : Type := mkClosing { c_returns : Z; c_err : option string; c_cut : option Z }.

(** [http.Server.Shutdown], at [now] with a deadline.  It polls, so that it notices
    the end of the last request with a delay. *)
Definition active_until (ws : list work) (now : Z) : Z :=
  foldr (λ w t, match w with Request e => Z.max e t | _ => t end) now ws.

Definition http_Shutdown (now deadline delay : Z) (ws : list work) : closing :=
  let idle := active_until ws now in
  let noticed := if idle =? now then now else idle + delay in
  if noticed <=? deadline then mkClosing noticed None None
  else mkClosing (Z.max now deadline) (Some "context deadline exceeded") None.

(** [Close] of a listener *)
Definition listener_Close (now : Z) : closing := mkClosing now None None.

(** [Close] of [http3.Server], which belongs to quic-go: it is documented to close
    the server immediately, aborting requests. *)
Definition aborts_at_once (http3_Close : Z → closing) : Prop :=
  ∀ now, c_returns (http3_Close now) = now ∧ c_cut (http3_Close now) = Some now.

Section shutdown.
  Context (http3_Close : Z → closing).

(** The goroutine [Shutdown] starts for a server or a listener. *)
Definition close_one (now deadline delay : Z) (s : running) : closing :=
  match rn_kind s with
  | KHttp => http_Shutdown now deadline delay (rn_work s)
  | KMulti => http_Shutdown now deadline delay (rn_work s)
  | KHttp3 => http3_Close now
  | KTcp => listener_Close now
  end.

(** [Shutdown] waits for all of them ([wg.Wait]), then closes [done]; the delays are
    those of the goroutines. *)
Fixpoint Shutdown_returns (now deadline : Z) (servers : list running) (delays : list Z) : Z :=
  match servers, delays with
  | s :: servers, d :: delays => Z.max (c_returns (close_one now deadline d s)) (Shutdown_returns now deadline servers delays)
  | _, _ => now
  end.

End shutdown.

(** The timeout of the callers. *)
Definition grace : Z := 30 * second.

(** ** What becomes of the work *)
Inductive fate : Type :=
  | Completed                      (* ended by itself before [Shutdown] returned *)
  | Aborted                        (* cut off *)
  | Outlives.                      (* still under way when [Shutdown] returned *)

Definition fate_of (returned : Z) (c : closing) (w : work) : fate :=
  match c_cut c with
  | Some t => if ends w <=? t then Completed else Aborted
  | None => if ends w <=? returned then Completed else Outlives
  end.

(** ** Lemmas

    The interval between polls is at most half a second and a tenth of it. *)
Definition poll_limit : Z := 550 * 1000000.
Definition poll (d : Z) : Prop := 0 ≤ d ≤ poll_limit.

Lemma active_until_spec ws now : now ≤ active_until ws now ∧ ∀ e, Request e ∈ ws → e ≤ active_until ws now.
Proof.
  induction ws as [|w ws [IH1 IH2]]; simpl; [split; [lia|]; intros e He; by apply elem_of_nil in He|].
  destruct w as [t|t|t]; (split; [lia|]); intros e [[=]|He]%elem_of_cons; subst; try specialize (IH2 _ He); lia.
Qed.

Lemma active_until_attained ws now : active_until ws now = now ∨ Request (active_until ws now) ∈ ws.
Proof.
  induction ws as [|w ws IH]; simpl; [by left|]. destruct w as [t|t|t]; rewrite elem_of_cons; try tauto.
  destruct (Z.max_spec t (active_until ws now)) as [[_ ->]|[_ ->]]; [tauto|]. right; by left.
Qed.

(** [http.Server.Shutdown] waits for a request, or not at all. *)
Definition waits_for (ws : list work) (now t : Z) : Prop := t = now ∨ ∃ e, Request e ∈ ws ∧ t ≤ e + poll_limit.

Lemma http_Shutdown_spec now deadline delay ws : now ≤ deadline → poll delay →
  let c := http_Shutdown now deadline delay ws in
  now ≤ c_returns c ≤ deadline ∧ c_cut c = None ∧ waits_for ws now (c_returns c) ∧
  ∀ e, Request e ∈ ws → e ≤ c_returns c ∨ c_returns c = deadline.
Proof.
  intros Hd [H0 H1]. unfold http_Shutdown. pose proof (active_until_spec ws now) as [Hlo Hall].
  pose proof (active_until_attained ws now) as Hat.
  set (idle := active_until ws now) in *. set (noticed := if idle =? now then now else idle + delay).
  assert (idle ≤ noticed ≤ idle + poll_limit ∧ (idle = now → noticed = now)) as [Hn Hz]
    by (unfold noticed; destruct (Z.eqb_spec idle now); lia).
  assert (∀ t, t ≤ noticed → t = now ∨ idle ≠ now → waits_for ws now t) as Hw.
  { intros t Ht [->|Hne]; [by left|]. destruct Hat as [?|Hin]; [done|]. right. exists idle. split; [done|lia]. }
  destruct (Z.leb_spec noticed deadline) as [Hle|Hgt]; cbv zeta; simpl; (split; [lia|]); (split; [done|]); split.
  - apply Hw; [lia|]. destruct (decide (idle = now)); [left; by apply Hz|by right].
  - intros e He. specialize (Hall e He). left. lia.
  - apply Hw; [lia|]. right. intros Hi. specialize (Hz Hi). lia.
  - intros e He. right. lia.
Qed.

Definition waited_for (k : lkind) : bool := match k with KHttp | KMulti => true | _ => false end.

Section drained.
  Context (http3_Close : Z → closing) (Hquic : aborts_at_once http3_Close).
  Notation close_one := (close_one http3_Close).
  Notation Shutdown_returns := (Shutdown_returns http3_Close).

Lemma close_one_returns now deadline delay s : now ≤ deadline → poll delay →
  now ≤ c_returns (close_one now deadline delay s) ≤ deadline ∧
  (c_returns (close_one now deadline delay s) = now ∨
   waited_for (rn_kind s) = true ∧ ∃ e, Request e ∈ rn_work s ∧ c_returns (close_one now deadline delay s) ≤ e + poll_limit).
Proof.
  intros Hd Hp. destruct (http_Shutdown_spec now deadline delay (rn_work s) Hd Hp) as (Hb & _ & Hw & _).
  destruct (Hquic now) as [Hq _]. unfold Drain.close_one. destruct (rn_kind s); simpl; unfold waits_for in Hw; rewrite ?Hq; naive_solver lia.
Qed.

Lemma Shutdown_returns_spec now deadline servers delays : now ≤ deadline → Forall poll delays →
  let returned := Shutdown_returns now deadline servers delays in
  now ≤ returned ≤ deadline ∧
  (returned = now ∨ ∃ s e, s ∈ servers ∧ waited_for (rn_kind s) = true ∧ Request e ∈ rn_work s ∧ returned ≤ e + poll_limit).
Proof.
  intros Hd Hp. revert servers. induction Hp as [|d delays Hp _ IH]; intros [|s servers]; simpl; try (split; [lia|by left]).
  destruct (IH servers) as [IHb IHw]. destruct (close_one_returns now deadline d s Hd Hp) as [Hb Hw]. split; [lia|].
  destruct (Z.max_spec (c_returns (close_one now deadline d s)) (Shutdown_returns now deadline servers delays)) as [[_ ->]|[_ ->]].
  - destruct IHw as [?|(s' & e & Hs & H)]; [by left|]. right. exists s', e. split; [by right|done].
  - destruct Hw as [?|(Hk & e & H)]; [by left|]. right. exists s, e. split; [by left|done].
Qed.

Lemma Shutdown_returns_each now deadline servers delays i s d :
  servers !! i = Some s → delays !! i = Some d →
  c_returns (close_one now deadline d s) ≤ Shutdown_returns now deadline servers delays.
Proof.
  revert servers delays. induction i as [|i IH]; intros [|s0 servers] [|d0 delays] Hs Hd; simpl in *; try done; simplify_eq; [lia|].
  specialize (IH _ _ Hs Hd). lia.
Qed.

(** ** Theorems *)


(** The program does not wait for TCP connections.  When only tunnels are open,
    a stop closes [done] at once: the program ends with all of them cut, although
    the grace period has not begun to run out; after a reload they go on with the
    backends of the old configuration. *)
Theorem tunnels_not_awaited (now : Z) (servers : list running) (delays : list Z) (s : running) (d : Z) (w : work) :
  Forall (λ s, rn_kind s ≠ KHttp3 ∧ Forall (λ w, match w with Request _ => False | _ => True end) (rn_work s)) servers →
  Forall poll delays → s ∈ servers → w ∈ rn_work s → now < ends w →
  Shutdown_returns now (now + grace) servers delays = now ∧
  fate_of (Shutdown_returns now (now + grace) servers delays) (close_one now (now + grace) d s) w = Outlives.
Proof.
  intros Hno Hp Hs Hw Hlt. rewrite Forall_forall in Hno.
  assert (now ≤ now + grace) as Hg by (unfold grace, second; lia).
  assert (Shutdown_returns now (now + grace) servers delays = now) as Hr.
  { destruct (Shutdown_returns_spec now (now + grace) servers delays Hg Hp) as [_ [H|(s' & e & Hs' & _ & He & _)]]; [done|].
    destruct (Hno s' Hs') as [_ Hq]. rewrite Forall_forall in Hq. by specialize (Hq _ He). }
  split; [done|]. rewrite Hr. destruct (Hno s Hs) as [Hk _].
  assert (c_cut (close_one now (now + grace) d s) = None) as Hc.
  { unfold Drain.close_one, http_Shutdown. destruct (rn_kind s); try done; by destruct (_ <=? _). }
  unfold fate_of. rewrite Hc. destruct (Z.leb_spec (ends w) now); [lia|done].
Qed.

End drained.

(** ** Witnesses *)
Definition quic_close (now : Z) : closing := mkClosing now None (Some now).
Definition busy : list running :=
  [mkRunning KHttp [Request (2 * second); Request (40 * second)]; mkRunning KHttp3 [Request second]; mkRunning KTcp [Tunnelled (90 * second)]].


Lemma tunnels_not_awaited_witness :
  Shutdown_returns quic_close 0 (0 + grace) [mkRunning KTcp [Tunnelled (90 * second)]] [0] = 0.
Proof.
  refine (proj1 (tunnels_not_awaited quic_close (λ _, conj eq_refl eq_refl) 0 [mkRunning KTcp [Tunnelled (90 * second)]] [0] (mkRunning KTcp [Tunnelled (90 * second)]) 0 (Tunnelled (90 * second)) _ _ _ _ _)).
  - repeat constructor. discriminate.
  - repeat constructor; unfold poll_limit; lia.
  - apply elem_of_cons. left. reflexivity.
  - apply elem_of_cons. left. reflexivity.
  - unfold ends, second. lia.
Defined.
