(* ===== verification/MultiRun.v ===== *)
(** * Running a multi-protocol server on its own

    Models the rest of [pkg/httpmulti/main.go]: the setters that return the server,
    the package functions, [Shutdown] and [Run], which waits for a signal or for the
    end of the goroutine that serves.  [Run] is a state machine: an event is one
    action of the main goroutine, of the serving goroutine or of the system, and a
    run is a list of events.

    The serving goroutine and [Run] share the variable [err]; [quit] is a channel of
    capacity one. *)

From S2P Require Import Prelude GoStd GoHttp Backend Selector Routing Config Validate Lifecycle Multi.

(** ** Setters that return the server *)
Definition GetAddr (s : mServer) : string := ms_Addr s.
Definition WithForceSecure (s : mServer) : mServer := ForceSecure s.
Definition WithTLS (certFile keyFile : string) (s : mServer) : mServer := SetTLS certFile keyFile s.
Definition WithProtocol (proto : string) (s : mServer) : mServer := SetProtocol proto s.
Definition WithTCP4 (s : mServer) : mServer := SetProtocol "tcp4" s.
Definition WithTCP6 (s : mServer) : mServer := SetProtocol "tcp6" s.
Definition WithHTTP1 (s : mServer) : mServer := SetHTTP1 true s.
Definition WithHTTP2 (s : mServer) : mServer := SetHTTP2 true s.
Definition WithUnencryptedHTTP2 (s : mServer) : mServer := SetUnencryptedHTTP2 true s.
Definition WithoutHTTP1 (s : mServer) : mServer := SetHTTP1 false s.
Definition WithoutHTTP2 (s : mServer) : mServer := SetHTTP2 false s.
Definition WithoutUnencryptedHTTP2 (s : mServer) : mServer := SetUnencryptedHTTP2 false s.
Definition WithCACertFile (caCertFile : string) (s : mServer) : mServer := SetCACertFile caCertFile s.
Definition WithCRL os_ReadFile pem_Decode parseCRL (crlFile : string) (s : mServer) : option string * mServer :=
  SetCRL os_ReadFile pem_Decode parseCRL crlFile s.

(** ** Package functions

    The server they make; what follows is [Server.ListenAndServe] and
    [Server.Serve]. *)
Definition ListenAndServe_server (addr : string) : mServer := SetUnencryptedHTTP2 true (WithHTTP2 (WithHTTP1 (New addr))).
Definition Serve_server (lnAddr : string) : mServer := SetUnencryptedHTTP2 true (SetHTTP2 true (SetHTTP1 true (New lnAddr))).

Section package.
  Context {prefix : Type} (ParsePrefix : string → option prefix).
  Context (os_ReadFile : string → result string string) (load_pair : string → string → option string).
  Context (systemPool : result string unit) (appendCerts : string → bool).

Definition pkg_ListenAndServe (listen : string → string → bool) (addr certFile keyFile : string) :=
  ListenAndServe ParsePrefix os_ReadFile load_pair systemPool appendCerts listen certFile keyFile (ListenAndServe_server addr).

Definition pkg_Serve (lnAddr certFile keyFile : string) :=
  Serve ParsePrefix os_ReadFile load_pair systemPool appendCerts certFile keyFile (Serve_server lnAddr).

Definition ServeMulti (s : mServer) := Serve ParsePrefix os_ReadFile load_pair systemPool appendCerts "" "" s.

(** [StartHTTPMulti] (pkg/listener/httpmulti.go); [tls] is the configuration built without a passphrase. *)
Definition StartHTTPMulti pem_Decode parseCRL (listen : string → string → bool) (tls : result string tlsSettings) (address ca crl : string) :=
  match NewHTTPMultiServer os_ReadFile pem_Decode parseCRL tls address ca crl with
  | Err e => Err e
  | Ok srv => ListenAndServeMulti ParsePrefix os_ReadFile load_pair systemPool appendCerts listen srv
  end.
End package.

(** ** Run *)
Definition ErrServerClosed : string := "http: Server closed".

Inductive sig : Type := SIGQUIT | SIGINT | SIGTERM.

(** The serving goroutine: in [ListenAndServe], returned from it with an error,
    about to send on [quit], ended. *)
Inductive serving : Type := GServing | GReturned (e : string) | GNotify | GEnded.

(** The main goroutine: waiting on [quit], in [Shutdown] before and after the
    listener was closed and after the HTTP server was told, after [Shutdown],
    returned. *)
Inductive mainpc : Type := MQuit | MClose | MShutdown | MDraining | MAfter | MDone (result : option string).

Record runState : Type := mkRun {
  rs_main : mainpc; rs_serving : serving;
  rs_quit : option sig; rs_err : option string;
  rs_listenerClosed : bool;         (* [SplitListener.Close] was called *)
  rs_inShutdown : bool;             (* of the [http.Server] *)
}.
Definition run_start : runState := mkRun MQuit GServing None None false false.

Inductive revent : Type :=
  | RSignal (s : sig)                     (* delivered by the system *)
  | RFails (e : string)                   (* [ListenAndServe] fails for a reason of its own *)
  | RClosed                               (* [ListenAndServe] returns because the listener is closed *)
  | RStore                                (* [err = ...] *)
  | RNotify                               (* [quit <- syscall.SIGQUIT] *)
  | RReceive                              (* [<-quit] *)
  | RClose (listening : bool)             (* [s.l.Close()] in [Shutdown], if there is a listener *)
  | RBegin                                (* [s.Server.Shutdown] is called *)
  | RShutdown (outcome : option string)   (* and returns *)
  | RReturn.

Definition set_main (m : mainpc) (s : runState) : runState :=
  mkRun m (rs_serving s) (rs_quit s) (rs_err s) (rs_listenerClosed s) (rs_inShutdown s).
Definition set_serving (g : serving) (s : runState) : runState :=
  mkRun (rs_main s) g (rs_quit s) (rs_err s) (rs_listenerClosed s) (rs_inShutdown s).

(** [Shutdown] of the server: the listener is closed first, then the HTTP server is
    told; between the two [Serve] returns the listener's error, afterwards
    [ErrServerClosed]. *)
Definition run_turn (e : revent) (s : runState) : option runState :=
  match e with
  | RSignal sg =>
      match rs_quit s with       (* [signal.Notify] does not block *)
      | None => Some (mkRun (rs_main s) (rs_serving s) (Some sg) (rs_err s) (rs_listenerClosed s) (rs_inShutdown s))
      | Some _ => Some s
      end
  | RFails msg =>
      match rs_serving s with
      | GServing => if rs_inShutdown s then None else Some (set_serving (GReturned msg) s)
      | _ => None
      end
  | RClosed =>
      match rs_serving s with
      | GServing =>
          if rs_inShutdown s then Some (set_serving (GReturned ErrServerClosed) s)
          else if rs_listenerClosed s then Some (set_serving (GReturned ErrClosedListener) s) else None
      | _ => None
      end
  | RStore =>
      match rs_serving s with
      | GReturned msg => Some (mkRun (rs_main s) GNotify (rs_quit s) (Some msg) (rs_listenerClosed s) (rs_inShutdown s))
      | _ => None
      end
  | RNotify =>
      match rs_serving s, rs_quit s with
      | GNotify, None => Some (mkRun (rs_main s) GEnded (Some SIGQUIT) (rs_err s) (rs_listenerClosed s) (rs_inShutdown s))
      | _, _ => None
      end
  | RReceive =>
      match rs_main s, rs_quit s with
      | MQuit, Some sg =>
          let m := match sg with SIGQUIT => MDone (rs_err s) | _ => MClose end in
          Some (mkRun m (rs_serving s) None (rs_err s) (rs_listenerClosed s) (rs_inShutdown s))
      | _, _ => None
      end
  | RClose listening =>
      match rs_main s with
      | MClose => Some (mkRun MShutdown (rs_serving s) (rs_quit s) (rs_err s) listening (rs_inShutdown s))
      | _ => None
      end
  | RBegin =>
      match rs_main s with
      | MShutdown => Some (mkRun MDraining (rs_serving s) (rs_quit s) (rs_err s) (rs_listenerClosed s) true)
      | _ => None
      end
  | RShutdown outcome =>
      match rs_main s with
      | MDraining =>
          let m := match outcome with
                   | Some msg => if String.eqb msg ErrClosedListener then MAfter else MDone (Some ("server forced to shutdown: " +:+ msg))
                   | None => MAfter
                   end in
          Some (set_main m s)
      | _ => None
      end
  | RReturn =>
      match rs_main s with
      | MAfter =>
          Some (set_main (MDone (match rs_err s with Some msg => if String.eqb msg ErrServerClosed then None else Some msg | None => None end)) s)
      | _ => None
      end
  end.

Fixpoint run_all (es : list revent) (s : runState) : option runState :=
  match es with [] => Some s | e :: es => s' ← run_turn e s; run_all es s' end.

(** ** The invariant *)
Definition failures (es : list revent) : list string :=
  omap (λ e, match e with RFails msg => Some msg | _ => None end) es.
Definition graceful (es : list revent) : Prop :=
  Forall (λ e, match e with RFails _ | RShutdown (Some _) | RSignal SIGQUIT => False | _ => True end) es.

(** What the serving goroutine can have to say. *)
Definition says (fs : list string) (msg : string) : Prop := msg ∈ fs ∨ msg = ErrServerClosed ∨ msg = ErrClosedListener.

Record run_inv (fs : list string) (s : runState) : Prop := {
  ri_returned : ∀ msg, rs_serving s = GReturned msg → says fs msg;
  ri_err : ∀ msg, rs_err s = Some msg → says fs msg;
  ri_done : ∀ msg, rs_main s = MDone (Some msg) → says fs msg ∨ ∃ why, msg = "server forced to shutdown: " +:+ why;
}.

Lemma says_mono fs fs' msg : fs ⊆ fs' → says fs msg → says fs' msg.
Proof. unfold says. set_solver. Qed.

Lemma run_turn_inv fs e s s' : run_turn e s = Some s' → run_inv fs s → run_inv (fs ++ failures [e]) s'.
Proof.
  intros H [Hr He Hd]. assert (∀ msg, says fs msg → says (fs ++ failures [e]) msg) as Hm by (intros; eapply says_mono; [|done]; set_solver).
  assert (∀ msg, msg ∈ fs ++ failures [e] → says (fs ++ failures [e]) msg) as Hf by (by left).
  assert (∀ msg, rs_main s = MDone (Some msg) → says (fs ++ failures [e]) msg ∨ ∃ why, msg = "server forced to shutdown: " +:+ why) as Hd'
    by (intros msg H'; destruct (Hd _ H') as [?|?]; auto).
  destruct e; simpl in H; repeat case_match; simplify_eq; split; simpl; intros m Hm'; simplify_eq; auto.
  - apply Hf, elem_of_app. right. simpl. by apply elem_of_cons; left.
  - right; by left.
  - right; by right.
  - right. eauto.
Qed.

Lemma run_all_inv fs es s s' : run_all es s = Some s' → run_inv fs s → run_inv (fs ++ failures es) s'.
Proof.
  revert fs s. induction es as [|e es IH]; intros fs s H Hs; simpl in H; [injection H as <-; simpl; by rewrite app_nil_r|].
  apply bind_Some in H as (s1 & H1 & H2). replace (fs ++ failures (e :: es)) with ((fs ++ failures [e]) ++ failures es).
  - eapply IH; [done|]. by eapply run_turn_inv.
  - unfold failures. rewrite <- app_assoc, <- omap_app. done.
Qed.

Lemma start_run_inv : run_inv [] run_start.
Proof. by split. Qed.

(** Without a signal the main goroutine only waits, or has passed on the error of
    the serving one. *)
Definition unsignalled (e : revent) : Prop := match e with RSignal _ => False | _ => True end.
Record quiet_inv (fs : list string) (s : runState) : Prop := {
  qi_closed : rs_listenerClosed s = false ∧ rs_inShutdown s = false;
  qi_quit : rs_quit s = None ∨ rs_quit s = Some SIGQUIT;
  qi_sent : rs_quit s = Some SIGQUIT → ∃ msg, rs_err s = Some msg ∧ msg ∈ fs;
  qi_returned : ∀ msg, rs_serving s = GReturned msg → msg ∈ fs;
  qi_stored : rs_serving s = GNotify → ∃ msg, rs_err s = Some msg ∧ msg ∈ fs;
  qi_main : rs_main s = MQuit ∨ ∃ msg, rs_main s = MDone (Some msg) ∧ msg ∈ fs;
}.

Lemma quiet_turn fs e s s' : run_turn e s = Some s' → unsignalled e → quiet_inv fs s → quiet_inv (fs ++ failures [e]) s'.
Proof.
  intros H Hu [[Hc1 Hc2] Hq Hs Hr Hst Hm].
  assert (∀ P : string → Prop, (∃ msg, P msg ∧ msg ∈ fs) → ∃ msg, P msg ∧ msg ∈ fs ++ failures [e]) as Hmono by (intros P (msg & ? & ?); exists msg; set_solver).
  destruct e; simpl in H; try done; repeat case_match; simplify_eq; try (destruct Hm as [Hm|(? & Hm & _)]; congruence);
    split; simpl in *; intros; simplify_eq; rewrite ?app_nil_r in *; eauto; try set_solver; try naive_solver.
  destruct (Hs eq_refl) as (msg & -> & ?). eauto.
Qed.

Lemma quiet_all fs es s s' : run_all es s = Some s' → Forall unsignalled es → quiet_inv fs s → quiet_inv (fs ++ failures es) s'.
Proof.
  intros H Hu. revert fs s H. induction Hu as [|e es He _ IH]; intros fs s H Hs; simpl in H; [injection H as <-; simpl; by rewrite app_nil_r|].
  apply bind_Some in H as (s1 & H1 & H2). replace (fs ++ failures (e :: es)) with ((fs ++ failures [e]) ++ failures es).
  - eapply IH; [done|]. by eapply quiet_turn.
  - unfold failures. rewrite <- app_assoc, <- omap_app. done.
Qed.

(** During a graceful stop. *)
Definition closing_error (msg : string) : Prop := msg = ErrClosedListener ∨ msg = ErrServerClosed.
Record graceful_inv (s : runState) : Prop := {
  gi_before : rs_main s = MQuit ∨ rs_main s = MClose →
    rs_serving s = GServing ∧ rs_listenerClosed s = false ∧ rs_inShutdown s = false ∧ rs_quit s ≠ Some SIGQUIT;
  gi_returned : ∀ msg, rs_serving s = GReturned msg → closing_error msg;
  gi_err : ∀ msg, rs_err s = Some msg → closing_error msg;
  gi_done : ∀ result, rs_main s = MDone result → result = None ∨ result = Some ErrClosedListener;
}.

Lemma start_graceful : graceful_inv run_start.
Proof. by split. Qed.

Lemma graceful_turn e s s' : run_turn e s = Some s' → graceful [e] → graceful_inv s → graceful_inv s'.
Proof.
  intros H He [Hb Hr Hx Hd]. apply Forall_cons in He as [He _]. destruct s as [m g q er lc ins]; simpl in *.
  destruct m as [| | | | |result]; [destruct (Hb (or_introl eq_refl)) as (-> & -> & -> & Hq)|destruct (Hb (or_intror eq_refl)) as (-> & -> & -> & Hq)|..];
    destruct e as [sg|msg| | | | |listening| |outcome|]; simpl in H; try done; repeat case_match; simplify_eq; split; simpl in *;
    try (intros [|]; done); intros; simplify_eq; unfold closing_error in *; eauto.
  destruct (Hx _ eq_refl) as [->| ->]; [by right|done].
Qed.

Lemma graceful_all es s s' : run_all es s = Some s' → graceful es → graceful_inv s → graceful_inv s'.
Proof.
  intros H Hg. revert s H. induction Hg as [|e es He _ IH]; intros s H Hs; simpl in H; [by injection H as <-|].
  apply bind_Some in H as (s1 & H1 & H2). apply (IH s1 H2). apply (graceful_turn e s s1 H1); [by repeat constructor|done].
Qed.

(** The serving goroutine notices the closed listener before the HTTP server is
    told to shut down, or after; and a start that fails. *)
Definition noticed_first : list revent :=
  [RSignal SIGTERM; RReceive; RClose true; RClosed; RStore; RNotify; RBegin; RShutdown None; RReturn].
Definition told_first : list revent :=
  [RSignal SIGTERM; RReceive; RClose true; RBegin; RClosed; RStore; RNotify; RShutdown None; RReturn].
Definition failed_start : list revent := [RFails "Can not start listener on :80"; RStore; RNotify; RReceive].

(** ** Theorems *)

(** Without a signal, [Run] returns exactly when the server cannot serve, and
    with the reason. *)
Theorem Run_reports_failure (es : list revent) (s : runState) (result : option string) :
  Forall unsignalled es → run_all es run_start = Some s → rs_main s = MDone result →
  ∃ msg, result = Some msg ∧ RFails msg ∈ es.
Proof.
  intros Hu H Hm. destruct (quiet_all [] es _ _ H Hu) as [_ _ _ _ _ [Hq|(msg & Hq & Hin)]].
  - split; simpl; auto; done.
  - congruence.
  - exists msg. split; [congruence|]. unfold failures in Hin. apply list_elem_of_omap in Hin as (e & He & Hmsg). by destruct e; simplify_eq.
Qed.

(** A graceful stop by SIGINT or SIGTERM that closes everything in time has no
    certain result.  Whatever happens, [Run] reports nothing or that the listener is
    closed, depending on whether the serving goroutine noticed the closed listener
    before or after the HTTP server was told; both happen.  SIGQUIT makes [Run]
    return at once, without an error and with the server still serving. *)
Theorem Run_graceful_result (es : list revent) (s : runState) (result : option string) :
  graceful es → run_all es run_start = Some s → rs_main s = MDone result →
  (result = None ∨ result = Some ErrClosedListener) ∧
  (∃ es1 s1, graceful es1 ∧ run_all es1 run_start = Some s1 ∧ rs_main s1 = MDone None ∧ rs_serving s1 = GEnded) ∧
  (∃ es2 s2, graceful es2 ∧ run_all es2 run_start = Some s2 ∧ rs_main s2 = MDone (Some ErrClosedListener)) ∧
  (∃ s3, run_all [RSignal SIGQUIT; RReceive] run_start = Some s3 ∧ rs_main s3 = MDone None ∧ rs_serving s3 = GServing ∧
         rs_listenerClosed s3 = false).
Proof.
  intros Hg H Hm. split; [by apply (gi_done _ (graceful_all _ _ _ H Hg start_graceful))|]. split; [|split].
  - exists told_first, (mkRun (MDone None) GEnded (Some SIGQUIT) (Some ErrServerClosed) true true). split; [by repeat constructor|]. by vm_compute.
  - exists noticed_first, (mkRun (MDone (Some ErrClosedListener)) GEnded (Some SIGQUIT) (Some ErrClosedListener) true true).
    split; [by repeat constructor|]. by vm_compute.
  - exists (mkRun (MDone None) GServing None None false false). by vm_compute.
Qed.

(** ** Witnesses *)
Lemma Run_reports_failure_witness : ∃ msg, Some "Can not start listener on :80" = Some msg ∧ RFails msg ∈ failed_start.
Proof.
  apply (Run_reports_failure failed_start (mkRun (MDone (Some "Can not start listener on :80")) GEnded None (Some "Can not start listener on :80") false false));
    [by repeat constructor|reflexivity|reflexivity].
Defined.

Lemma Run_graceful_result_witness : Some ErrClosedListener = None ∨ Some ErrClosedListener = Some ErrClosedListener.
Proof.
  refine (proj1 (Run_graceful_result noticed_first
    (mkRun (MDone (Some ErrClosedListener)) GEnded (Some SIGQUIT) (Some ErrClosedListener) true true) (Some ErrClosedListener) _ _ _));
    [by repeat constructor|reflexivity|reflexivity].
Defined.
