(* ===== verification/OpenId.v ===== *)
(** * OpenID tokens and published keys

    Puts together the token check of [Auth.v] ([pkg/routing/builtin_auth_openid.go])
    and the keys [Oidc.v] gets from a provider ([pkg/helper/oidc.go]): which of the
    published keys can verify a token, under which algorithm, and what follows when
    the algorithm is a symmetric one.  Also the decoding of the audience claim. *)

From S2P Require Import Prelude GoStd GoHttp Base64 Parser Backend Transport Selector Routing Middleware Auth Config Validate Builder ForwardProxy Lifecycle Listeners Aws Tls ClientCert Oidc Admin Echo Compose.
Open Scope Z_scope.

(** ** The audience claim

    [json.Unmarshal] into a string or a slice of strings; null leaves the value
    empty. *)
Section audience.
  Context {F : Type}.

Definition unmarshal_string (v : json F) : option string :=
  match v with JStr s => Some s | JNull => Some "" | _ => None end.

Fixpoint unmarshal_strings (vs : list (json F)) : option (list string) :=
  match vs with
  | [] => Some []
  | v :: vs => s ← unmarshal_string v; ss ← unmarshal_strings vs; Some (s :: ss)
  end.

(** [claimAudience.UnmarshalJSON] *)
Definition UnmarshalJSON (v : json F) : result string claimAudience :=
  match unmarshal_string v with
  | Some single => Ok [single]
  | None =>
      match v with
      | JArr vs => match unmarshal_strings vs with Some multiple => Ok multiple | None => Err "invalid aud claim" end
      | _ => Err "invalid aud claim"
      end
  end.

Definition texts (vs : list (json F)) : Prop := Forall (λ v, is_Some (unmarshal_string v)) vs.

Lemma unmarshal_strings_spec vs : match unmarshal_strings vs with
  | Some ss => Forall2 (λ v s, unmarshal_string v = Some s) vs ss
  | None => ¬ texts vs end.
Proof.
  induction vs as [|v vs IH]; simpl; [done|]. destruct (unmarshal_string v) as [s|] eqn:Hv; simpl.
  - destruct (unmarshal_strings vs) as [ss|]; simpl; [by constructor|]. intros H%Forall_cons. naive_solver.
  - intros [H _]%Forall_cons. rewrite Hv in H. by destruct H.
Qed.

(** A token's audience is what its claim says: one string or a list of them.
    A configured audience is contained exactly when the claim is that string, or a
    list with it; a claim of any other form (null apart) makes the token
    invalid. *)
Theorem audience_claim (v : json F) (audience : string) :
  audience ≠ "" →
  match UnmarshalJSON v with
  | Ok a => aud_Contains a audience = true ↔ v = JStr audience ∨ ∃ vs, v = JArr vs ∧ JStr audience ∈ vs
  | Err _ => ∀ s, v ≠ JStr s ∧ v ≠ JNull ∧ ∀ vs, v = JArr vs → ¬ texts vs
  end.
Proof.
  intros Ha. unfold UnmarshalJSON.
  assert (∀ a, aud_Contains a audience = true ↔ audience ∈ a) as Hc.
  { intros a. unfold aud_Contains. rewrite existsb_exists, list_elem_of_In. split.
    - by intros (x & Hx & ->%String.eqb_eq).
    - intros Hx. exists audience. split; [done|apply String.eqb_refl]. }
  destruct v as [|b|f|s|vs|m]; cbn [unmarshal_string]; try (intros; split; [done|split; done]).
  - rewrite Hc, elem_of_cons, elem_of_nil. split; [intros [?|?]; done|]. intros [[=]|(? & [=] & _)].
  - rewrite Hc, elem_of_cons, elem_of_nil. split; [intros [->|?]; [by left|done]|]. intros [[= ->]|(? & [=] & _)]. by left.
  - pose proof (unmarshal_strings_spec vs) as Hs. destruct (unmarshal_strings vs) as [ss|].
    + rewrite Hc. split.
      * intros Hin. right. exists vs. split; [done|]. apply list_elem_of_lookup in Hin as [i Hi].
        destruct (Forall2_lookup_r _ _ _ _ _ Hs Hi) as (v & Hv & Hsv). apply list_elem_of_lookup. exists i.
        destruct v; simpl in Hsv; try done; by injection Hsv as <-.
      * intros [[=]|(vs' & [= <-] & Hin)]. apply list_elem_of_lookup in Hin as [i Hi].
        destruct (Forall2_lookup_l _ _ _ _ _ Hs Hi) as (s & Hsi & [= ->]). by eapply list_elem_of_lookup_2.
    + intros s. split; [done|]. split; [done|]. intros vs' [= <-]. done.
Qed.
End audience.

(** ** Which keys verify *)
Section keys.
  Context {Key : Type} (decodeHeader : string → option string) (decodeClaims : string → option openIDClaims).
  Context (pem_Decode : string → option string) (ParsePKIX : string → result string (option Key)).
  Context (ParsePKCS1 : string → result string Key) (ParseCertificate : string → result string (option Key)).
  Context (VerifyPKCS1v15 : Key → hash → string → string → result string unit).
  Context (hmac : hash → string → string → string) (hash_Available : hash → bool).
  Notation verify := (verifyJWTSignature pem_Decode ParsePKIX ParsePKCS1 ParseCertificate VerifyPKCS1v15 hmac hash_Available).
  Notation validate := (validateOpenIDJWT decodeHeader decodeClaims pem_Decode ParsePKIX ParsePKCS1 ParseCertificate VerifyPKCS1v15 hmac hash_Available).

Definition symmetric (algorithm : string) : Prop := algorithm ∈ ["HS256"; "HS384"; "HS512"].

Lemma verify_not_rsa input sig alg key :
  is_ok (parseRSAPublicKey pem_Decode ParsePKIX ParsePKCS1 ParseCertificate key) = false →
  verify input sig alg key = Ok tt → symmetric alg.
Proof.
  intros Hk. unfold verifyJWTSignature, hash_of, one_of, symmetric. simpl.
  repeat (match goal with |- context [String.eqb alg ?x] => destruct (String.eqb_spec alg x) as [->|] end;
    [simpl; destruct (hash_Available _); simpl; [|done]; destruct (parseRSAPublicKey _ _ _ _ key); first [done | set_solver]|]). done.
Qed.

(** The library's parsers on the encoding of a public key: [ParsePKIXPublicKey]
    gives back the kind of key, the two other parsers refuse it. *)
Context (MarshalPKIXPublicKey : publicKey → result string string) (pem_PublicKey : string → string).
Context (rsa_key : publicKey → option Key).
Definition x509_contract : Prop := ∀ pk der, MarshalPKIXPublicKey pk = Ok der →
  pem_Decode (pem_PublicKey der) = Some der ∧ ParsePKIX der = Ok (rsa_key pk) ∧
  is_ok (ParsePKCS1 der) = false ∧ is_ok (ParseCertificate der) = false.
Definition not_rsa (pk : publicKey) : Prop := rsa_key pk = None.

Lemma not_rsa_parse pk der : x509_contract → MarshalPKIXPublicKey pk = Ok der → not_rsa pk →
  is_ok (parseRSAPublicKey pem_Decode ParsePKIX ParsePKCS1 ParseCertificate (pem_PublicKey der)) = false.
Proof.
  intros Hx Hm Hn. destruct (Hx pk der Hm) as (H1 & H2 & H3 & H4). unfold parseRSAPublicKey. rewrite H1, H2, Hn.
  destruct (ParsePKCS1 der); [done|]. by destruct (ParseCertificate der).
Qed.

(** Keys other than RSA keys verify nothing.  The keys of a provider that
    publishes elliptic-curve or Ed25519 keys only are converted and the middleware
    is installed, but it accepts no token at all, unless its algorithm is a
    symmetric one. *)
Theorem non_rsa_keys_verify_nothing (now : Z) (token algorithm : string) (keys : list string) (issuer audience : string) :
  x509_contract →
  Forall (λ key, ∃ pk der, MarshalPKIXPublicKey pk = Ok der ∧ not_rsa pk ∧ key = pem_PublicKey der) keys →
  validate now token algorithm keys issuer audience = Ok tt →
  ∃ alg, symmetric alg ∧ EqualFold alg algorithm = true.
Proof.
  intros Hx Hk (h & p & s & hb & pb & sb & alg0 & c & key & _ & _ & _ & _ & _ & He & Hin & Hv & _)%openid_accepts_spec.
  rewrite Forall_forall in Hk. destruct (Hk key Hin) as (pk & der & Hm & Hn & ->).
  eexists. split; [|exact He]. eapply verify_not_rsa; [|exact Hv]. by apply (not_rsa_parse pk).
Qed.

(** ** Symmetric algorithms with published keys *)

(** The token anybody can make who has read a key of the provider. *)
Definition forged_token (alg : hash) (key header payload : string) : string :=
  let input := EncodeToString RawURLEncoding header +:+ "." +:+ EncodeToString RawURLEncoding payload in
  input +:+ "." +:+ EncodeToString RawURLEncoding (hmac alg key input).

Lemma forged_accepted now key keys header payload issuer audience claims :
  key ∈ keys → hash_Available SHA256 = true →
  decodeHeader header = Some "HS256" → decodeClaims payload = Some claims → claims_ok now issuer audience claims →
  validate now (forged_token SHA256 key header payload) "HS256" keys issuer audience = Ok tt.
Proof.
  intros Hin Hh Hd Hc Hok. apply openid_accepts_spec.
  set (eh := EncodeToString RawURLEncoding header). set (ep := EncodeToString RawURLEncoding payload).
  set (mac := hmac SHA256 key (eh +:+ "." +:+ ep)).
  exists eh, ep, (EncodeToString RawURLEncoding mac), header, payload, mac, "HS256", claims, key. split.
  { unfold forged_token. fold eh ep mac. rewrite string_app_assoc.
    change (eh +:+ (("." +:+ ep) +:+ "." +:+ EncodeToString RawURLEncoding mac))
      with (eh +:+ String "." (ep +:+ String "." (EncodeToString RawURLEncoding mac))).
    rewrite !Split_app, Split_none by apply encode_no_dot. done. }
  unfold eh, ep. rewrite !DecodeString_Encode. repeat (split; [done|]). split; [|done].
  unfold verifyJWTSignature. simpl. rewrite Hh. simpl. by rewrite String.eqb_refl.
Qed.

(** C26: a published key is no secret.  When an OpenID middleware without keys of its
    own is configured with the algorithm HS256, its keys are the PEM texts of the
    public keys of the provider, and each of them serves as the secret of the MAC:
    whoever has read one of the published keys can sign claims of his choice, and
    the token is accepted. *)
Theorem symmetric_algorithm_forgeable (ext : externals) (IsPrint : Z → bool) (corrupt : string → string)
    (NewRequest : string → option string) (Do : string → result string (Z * (string * option string)))
    (decode_discovery : string * option string → result string string)
    (unmarshal_jwks : string → result string (list string)) (unmarshal_jwk : string → result string jwk)
    (c : config_map) (uri raw : string) (raws : list string) (issuer audience hdr prefix : string) (keys : list string) (remove : bool)
    (now : Z) (header payload : string) (claims : openIDClaims) :
  (∀ k ks, ParseStringSlice c "keys" ≠ Ok (k :: ks)) →
  discover NewRequest Do decode_discovery (ParseStringOrDefault c "issuer" "") = Ok uri →
  fetch_keys NewRequest Do unmarshal_jwks uri = Ok raws → raw ∈ raws →
  build_openid (with_provider (provider IsPrint corrupt MarshalPKIXPublicKey pem_PublicKey NewRequest Do decode_discovery unmarshal_jwks unmarshal_jwk) ext) c
    = Ok [MOpenID issuer audience hdr prefix "HS256" keys remove] →
  hash_Available SHA256 = true →
  decodeHeader header = Some "HS256" → decodeClaims payload = Some claims → claims_ok now issuer audience claims →
  ∃ k pk pk' der, unmarshal_jwk raw = Ok k ∧ denotes k pk ∧ kept pk = Some pk' ∧ MarshalPKIXPublicKey pk' = Ok der ∧
    validate now (forged_token SHA256 (pem_PublicKey der) header payload) "HS256" keys issuer audience = Ok tt.
Proof.
  intros Hk Hd Hf Hraw Hb Hh Hdh Hc Hok. apply (issuer_keys_spec _ _ _ _ _ _ _ _ _ _ c uri raws _ Hk Hd Hf) in Hb.
  destruct Hb as (keys' & ? & ? & ? & ? & ? & Heq & _ & _ & _ & _ & _ & Hks). injection Heq as _ _ _ _ _ <- _.
  apply list_elem_of_lookup in Hraw as [i Hi]. destruct (Forall2_lookup_l _ _ _ _ _ Hks Hi) as (pem & Hp & k & pk & pk' & der & H1 & H2 & H3 & H4 & ->).
  exists k, pk, pk', der. repeat (split; [done|]). by eapply forged_accepted; [by eapply list_elem_of_lookup_2|..].
Qed.
End keys.

(** ** Witnesses *)
Lemma audience_claim_witness :
  aud_Contains ["web"; "api"] "api" = true ↔
  JArr [JStr "web"; JStr "api"] = @JStr Z "api" ∨ ∃ vs, JArr [JStr "web"; JStr "api"] = @JArr Z vs ∧ JStr "api" ∈ vs.
Proof. apply (audience_claim (F := Z) (JArr [JStr "web"; JStr "api"]) "api"). discriminate. Defined.

(** A library in which the encoding of a key is its PEM text, and only "rsa" is
    an RSA key. *)
Definition toy_header (s : string) : option string := Some (if String.eqb s "rs" then "RS256" else "HS256").
Definition toy_claims (_ : string) : option openIDClaims := Some (mkClaims "https://id.example/" [] 0 0 0).

Lemma toy_contract :
  x509_contract (Key := unit) Some (λ _, Ok None) (λ _, Err "pkcs1") (λ _, Err "cert") (λ _, Ok "spki") id (λ _, None).
Proof. intros pk der [= <-]. done. Qed.

Lemma non_rsa_keys_verify_nothing_witness : ∃ alg, symmetric alg ∧ EqualFold alg "hs256" = true.
Proof.
  apply (non_rsa_keys_verify_nothing (Key := unit) toy_header toy_claims Some (λ _, Ok None) (λ _, Err "pkcs1") (λ _, Err "cert")
           (λ _ _ _ _, Ok tt) (λ _ k _, k) (λ _, true) (λ _, Ok "spki") id (λ _, None) 0
           (forged_token (λ _ k _, k) SHA256 "spki" "hs" "claims") "hs256" ["spki"] "" "").
  - apply toy_contract.
  - apply Forall_cons. split; [|apply Forall_nil_2]. exists (Ed25519Key "k"), "spki". split; [reflexivity|]. split; reflexivity.
  - vm_compute. reflexivity.
Defined.

Definition hs256_config : config_map := [("issuer", VString "https://id.example/"); ("algorithm", VString "HS256")].

Lemma symmetric_algorithm_forgeable_witness :
  ∃ k pk pk' der, demo_unmarshal "ec" = Ok k ∧ denotes k pk ∧ kept pk = Some pk' ∧ @Ok string string "spki" = Ok der ∧
    validateOpenIDJWT (Key := unit) toy_header toy_claims Some (λ _, Ok None) (λ _, Err "pkcs1") (λ _, Err "cert") (λ _ _ _ _, Ok tt)
      (λ _ k m, k +:+ m) (λ _, true) 0 (forged_token (λ _ k m, k +:+ m) SHA256 der "hs" "admin") "HS256" ["spki"] "https://id.example/" "" = Ok tt.
Proof.
  apply (symmetric_algorithm_forgeable (Key := unit) toy_header toy_claims Some (λ _, Ok None) (λ _, Err "pkcs1") (λ _, Err "cert") (λ _ _ _ _, Ok tt)
           (λ _ k m, k +:+ m) (λ _, true) (λ _, Ok "spki") id sample_externals (λ _, true) id (λ _, None) demo_provider (λ b, Ok (fst b))
           (λ _, Ok ["ec"]) demo_unmarshal hs256_config "https://id.example/keys" "ec" ["ec"] "https://id.example/" "" "Authorization" "Bearer "
           ["spki"] false 0 "hs" "admin" (mkClaims "https://id.example/" [] 0 0 0)).
  - intros k ks. vm_compute. discriminate.
  - vm_compute. reflexivity.
  - vm_compute. reflexivity.
  - apply elem_of_cons. left. reflexivity.
  - vm_compute. reflexivity.
  - reflexivity.
  - reflexivity.
  - reflexivity.
  - split; [left; reflexivity|]. split; [left; reflexivity|]. split; [right; reflexivity|left; reflexivity].
Defined.
