(* ===== verification/Standalone.v ===== *)
(** * Listeners by themselves

    Models how the listeners of TCP connections are put together
    ([pkg/listener/tcp.go] and [limitedListener] of [pkg/server/server.go]): a system
    listener, a TLS configuration beside it, a limit around both; and the functions
    of [pkg/listener] and [pkg/runtime] that start a listener or a server on their
    own, which the program itself does not call. *)

From S2P Require Import Prelude GoStd GoHttp Backend Selector Routing Middleware Config Validate Builder ForwardProxy Lifecycle Listeners Tls ClientCert Admin Sockets Socks5 Tcp Tunnel.
Open Scope Z_scope.

(** ** Listeners of TCP connections *)
Inductive netListener : Type :=
  | systemListener                                        (* net.Listener of the system *)
  | tlsListener (inner : netListener) (config : tlsConfig)
  | limitedListener (inner : netListener) (limit : Z).

(** The method [TLSConfig] of the wrappers: [None] when a listener has no such
    method or says no. *)
Fixpoint TLSConfig_of (l : netListener) : option tlsConfig :=
  match l with
  | systemListener => None
  | tlsListener _ c => Some c
  | limitedListener inner _ => TLSConfig_of inner
  end.

(** [newLimitedListener] *)
Definition limit_listener (l : netListener) (limit : Z) : netListener := if limit <=? 0 then l else limitedListener l limit.

Section tcp.
  Context (wld : Tls.world) (x : x509).

(** [ln] is what [net.Listen] or [NewUnixListener] gave; on an error it is closed. *)
Definition wrapTCPListenerTLS (ln : netListener) (cert key passphrase ca crl ocspURL minVersion : string) : result string netListener :=
  if String.eqb cert "" || String.eqb key "" then Ok ln
  else match BuildTLSConfigForDownstreamWithMinVersion wld x cert key ca crl ocspURL minVersion passphrase with
       | Err e => Err ("failed to build TLS config: " +:+ e)
       | Ok t => Ok (tlsListener ln t)
       end.

Definition NewTCPListenerWithKeyPassphrase (listen : string → result string unit)
    (address cert key passphrase ca crl ocspURL minVersion : string) : result string netListener :=
  match listen address with
  | Err e => Err e
  | Ok _ => wrapTCPListenerTLS systemListener cert key passphrase ca crl ocspURL minVersion
  end.

Definition NewTCPListener (listen : string → result string unit) (address cert key ca crl ocspURL minVersion : string) : result string netListener :=
  NewTCPListenerWithKeyPassphrase listen address cert key "" ca crl ocspURL minVersion.

(** The listener [startTCPListener] hands to the accept loop. *)
Definition tcp_listener (listen : string → result string unit) (l : Listener) : result string netListener :=
  let t := ln_TLS l in
  match NewTCPListenerWithKeyPassphrase listen (ln_Address l) (CertFile t) (KeyFile t) (KeyPassphrase t) (CAFile t) (CRLFile t)
          (OCSPURL t) (MinVersion t) with
  | Err e => Err ("failed to create TCP listener '" +:+ ln_Name l +:+ "': " +:+ e)
  | Ok ln => Ok (limit_listener ln (ln_MaxConnections l))
  end.

(** A TCP listener terminates TLS exactly when it has a certificate and a key,
    and with the configuration built from its settings; a limit of connections,
    which wraps the listener once more, does not hide the configuration from the
    connections.  It starts exactly when its address can be bound and the
    configuration built. *)
Theorem tcp_listener_terminates_tls (listen : string → result string unit) (l : Listener) :
  let t := ln_TLS l in
  let build := BuildTLSConfigForDownstreamWithMinVersion wld x (CertFile t) (KeyFile t) (CAFile t) (CRLFile t) (OCSPURL t) (MinVersion t) (KeyPassphrase t) in
  match tcp_listener listen l with
  | Ok ln =>
      listen (ln_Address l) = Ok tt ∧
      match tcp_tls t with Some _ => ∃ c, build = Ok c ∧ TLSConfig_of ln = Some c | None => TLSConfig_of ln = None end
  | Err _ => is_ok (listen (ln_Address l)) = false ∨ tcp_tls t = Some t ∧ is_ok build = false
  end.
Proof.
  cbv zeta. unfold tcp_listener, NewTCPListenerWithKeyPassphrase, wrapTCPListenerTLS, tcp_tls.
  assert (∀ ln limit, TLSConfig_of (limit_listener ln limit) = TLSConfig_of ln) as Hl by (intros; unfold limit_listener; by destruct (_ <=? _)).
  destruct (listen (ln_Address l)) as [[]|e]; [|by left]. destruct (_ || _); [split; [done|apply Hl]|].
  destruct (BuildTLSConfigForDownstreamWithMinVersion _ _ _ _ _ _ _ _ _) as [c|e]; [|by right].
  split; [done|]. exists c. split; [done|]. rewrite Hl. done.
Qed.

(** ** The accept loop, as the listeners call it *)
Definition handleTCPListener (backends : list BackendConfig) (routes : list TCPRoute) (turns : list (bool * acceptResult * bool))
  : result string (list client * bool) :=
  match tcp_configured backends routes with Err e => Err e | Ok _ => Ok (tcp_loop turns) end.

Definition HandleTCPListener := handleTCPListener.
Definition HandleTCPListenerWithChecks := handleTCPListener.     (* the checks are those of each connection *)

(** [StartTCP] gives its backends and no routes. *)
Definition StartTCP (listen : string → result string unit) (address cert key ca crl ocspURL minVersion : string)
    (backends : list BackendConfig) (turns : list (bool * acceptResult * bool)) : result string (list client * bool) :=
  match NewTCPListener listen address cert key ca crl ocspURL minVersion with
  | Err e => Err e
  | Ok _ => HandleTCPListener backends [] turns
  end.

(** ** Servers on their own

    [serve] is [ListenAndServe] of the server that was made: it ends with an
    error. *)
Context {W : Type} (IsPrint : Z → bool) (sha256 pem_Certificate : string → string).
Context (serve : httpServer W → string).

Definition StartHTTP (address : string) (h : handler W) : string := serve (NewHTTPServer address h).

Definition NewHTTPSServer (address cert key ca crl ocspURL minVersion : string) (h : handler W) : result string (httpServer W) :=
  NewHTTPSServerWithKeyPassphrase IsPrint sha256 pem_Certificate wld x address cert key "" ca crl ocspURL minVersion h.

(** [ListenAndServeTLS] loads the pair again. *)
Definition StartHTTPS (address cert key ca crl ocspURL minVersion : string) (h : handler W) : string :=
  match NewHTTPSServer address cert key ca crl ocspURL minVersion h with
  | Err e => e
  | Ok srv =>
      match hs_TLS srv with
      | None => serve srv
      | Some t => match served_certificate wld x t cert key with
                  | Err e => e
                  | Ok t' => serve (mkServer (hs_Addr srv) (hs_Handler srv) (Some t'))
                  end
      end
  end.

Definition NewHTTP3Server (address cert key ca crl ocspURL minVersion : string) (h : handler W) : result string (httpServer W) :=
  NewHTTP3ServerWithKeyPassphrase IsPrint sha256 pem_Certificate wld x address cert key "" ca crl ocspURL minVersion h.

Definition StartHTTP3 (address cert key ca crl ocspURL minVersion : string) (h : handler W) : string :=
  match NewHTTP3Server address cert key ca crl ocspURL minVersion h with Err e => e | Ok srv => serve srv end.

Definition NewAdminServer (address cert key ca crl ocspURL minVersion : string) : result string (option tlsConfig) :=
  NewAdminServerWithBackendsAndKeyPassphrase wld x address cert key "" ca crl ocspURL minVersion.

(** [run] serves with a TLS configuration or without. *)
Definition StartAdmin (run : option tlsConfig → string) (address cert key ca crl ocspURL minVersion : string) : string :=
  if String.eqb address "" then "admin address not configured"
  else match NewAdminServer address cert key ca crl ocspURL minVersion with
       | Err e => e
       | Ok tls =>
           if negb (String.eqb cert "") && negb (String.eqb key "")
           then match tls with
                | Some t => match served_certificate wld x t cert key with Err e => e | Ok t' => run (Some t') end
                | None => run None
                end
           else run None
       end.

(** [StartSOCKS5]: no users, and a context that is never cancelled. *)
Definition StartSOCKS5 (listen : string → result string unit) (dial : Z → string → result string tcpAddr) (address : string)
    (arrivals : list arrival) : result string (list (option string * bool * Socks5.conn) * option string) :=
  match listen address with
  | Err e => Err e
  | Ok _ => Ok (HandleSOCKS5 dial (30 * second) [] arrivals)
  end.

End tcp.

(** [runtime.Start]: how the process ends, [run] being [Server.Run]. *)
Inductive processEnd : Type := FatalBuild (e : buildErr) | FatalRun (e : string) | Exited.

Definition runtime_Start (x : externals) (url_Parse : string → option parsedURL) (ParseIP : string → option (string * bool))
    (run : builtServer → option string) (cfg : Config) : processEnd :=
  match Build x url_Parse ParseIP cfg with
  | Err e => FatalBuild e
  | Ok srv => match run srv with Some e => FatalRun e | None => Exited end
  end.
